(* ===== verification/_CoqProject ===== *)
-Q . S2P
Prelude.v
CInt.v
Mem.v
Lock.v
Arch.v
Boot.v
Abi.v
Pmm.v
Frames.v
Vmm.v
PmmFrames.v
Start.v
BumpFrames.v
Pages.v
Alloc.v
AllocInv.v
AllocSpec.v
BumpPages.v
KernelPages.v
Vec.v
Sched.v
Heap.v
Str.v
AllocHeap.v
Fpu.v
Print.v
Devices.v
Log.v
Tables.v
Stivale.v
Vfs.v
VfsSpec.v
VfsRun.v
Tmpfs.v
Devfs.v
FilesRun.v
Ustar.v
Task.v
Elf.v
Process.v
Exec.v
Tree.v
Archive.v
ProcessRun.v
ExecRun.v
Syscalls.v
SyscallsRun.v
Main.v
MainRun.v
