(* ===== verification/Prelude.v ===== *)
(** * bestOS: verification of the kernel

    bestOS is a small x86-64 kernel in C ([src/src/kernel], with a freestanding
    library in [src/src/lib]).  A boot loader starts it with a memory map and an
    archive of files; it sets up the descriptor tables, a physical and a virtual
    memory manager and a heap, mounts a file system in memory, loads the first
    program and then answers interrupts: the timer, which switches tasks, and the
    system call gate.  This development models that code file by file and proves
    what each part promises.

    ** The parts and how they interact

    Each file of the list below models the C files named with it; a Definition has
    the name of the C function where there is one, and returns in [res] (this
    file): [Done], [Fault] for what C leaves undefined, [Hang] for the deliberate
    endless loops, [NoFuel] when a loop's fuel ran out.  Integers are [Z] with the
    wrap-around written out ([CInt.v]); memory is a finite map from addresses to
    bytes ([Mem.v]).

    Foundations:
    - [Prelude], [CInt], [Mem]: outcomes, machine integers, byte memory; [mem.c],
      the copying routines of [vec.c] and [alloc.c], the macros of [base.h];
    - [Lock]: [lock.h], on one CPU and as interleavings of several;
    - [Arch], [Abi], [Boot]: constants, [asm.h], the entries of the memory map, the
      globals of [bootstrap.c];
    - [Vec]: [vec.h] and [vec.c]; [Str]: [str.c]; [Print]: the formatting of
      [print.c].

    Memory:
    - [Pmm]: [pmm.c], the bit map of frames.  [Frames] is the interface its clients
      use, a class with laws; [PmmFrames] shows that the bit map meets it, and
      [BumpFrames] is a second instance.
    - [Vmm]: [vmm.c], four-level page tables written through the kernel's windows,
      against the walk of the processor ([translate]); [Start] is the start of both
      managers on a memory map that is a list.
    - [Stivale]: the structures of [stivale2.h] in memory, the search of the tags
      ([bootstrap.c]), and the start of both managers on those bytes, which is shown
      to be the one of [Start].
    - [Alloc], [AllocInv], [AllocSpec]: [alloc.c] and the hooks it calls, through
      the interface of [Pages]; [BumpPages] is an instance of it, [KernelPages] has
      the hooks of [main.c], which do not meet it (see there).
    - [Heap]: what the rest of the kernel asks of [malloc], [realloc] and [free], a
      class with laws, and [FreshHeap], one whose blocks come cleared; [AllocHeap]
      discharges both with [alloc.c].
    - [Fpu]: the [fxsave] of [task_init], which stores 512 bytes into a field of 8,
      and what that does to the block behind it; the operations [overrun] and [bare]
      of [Heap] are there for it.

    Devices and tables: [Devices] ([com.c], [pic.c], [print]), [Log] ([printf] and
    [_log] of [print.c] on the serial line), [Tables] ([gdt.c], [idt.c]).

    Files: [Vfs] and [VfsSpec] ([vfs.c]); [Tmpfs], [Devfs], [Ustar] (the three file
    systems).  [Ustar.fs_read] and [fs_write] are the table of function pointers.
    [Tree] is an abstract specification of them: a finite map from paths to entries,
    which [represents] relates to the nodes; [Archive] is what the boot image adds to
    it.

    Processes: [Sched] (the run queue of [sched.c]), [Task] (registers, task record,
    and [sys], the state of the whole kernel, which joins the components' states),
    [Elf] ([elf.c]), [Process] ([task_init] and [sched_new_elf_process]), [Exec] (a
    program from its file to the run queue), [Syscalls] ([syscalls.c] and
    [interrupts.c]), [Main] ([main.c] and [_start]: [kernel_main] in two parts, before
    and after the first request for heap).

    The files whose names end in [Run], [BumpPages] and the ends of others apply the
    theorems to concrete machines.

    ** What the theorems show

    - Memory: the allocator of frames is exact on the memory map and takes the
      first free run; mapping and unmapping change exactly one translation, the
      start-up code builds the two windows; the heap serves any sequence of requests
      with disjoint mapped blocks, [realloc] keeps the contents.
    - Containers and strings: a vector refines a list under any sequence of
      operations; [memmove], [strtok], [string_convert] compute their
      specifications.
    - Files: the children, aliases and the root of the tree never dangle, paths are
      followed as documented by the theorems, what is created is found again, and what is
      written is read back - with the deviations the manifest lists as findings,
      which the theorems state as they are.  The set-up of the boot refines a map of
      paths: the archive's entries, in order, and the terminal.
    - Devices: the terminal reads lines and sends exactly what is written; the gates
      and descriptors decode to what the processor needs.
    - Processes: round-robin order and no starvation; a loaded program is in place,
      byte for byte; the argument block at the new stack pointer is what a C runtime
      reads; a new task has its own stack and shares the kernel's half; starting a
      program puts all this together; system calls return what they should, errors
      included; the timer switches tasks, and finds the program that [execve] started
      only in the case the theorem names.
    - The start: [_start], given the structures of a boot loader in memory, with one
      bank of usable memory and a serial line that gets ready, gets to the first
      request for heap: greeting sent, descriptor tables and interrupt controller
      set up, memory managers up, and the boot modules ready for [boot_files], whose
      theorem has the files in place after it.  What starts the first process is that
      of the processes above.  The parts are not joined into one theorem: the heap
      is any heap with room, and the frames of the pages that [liballoc_alloc] would
      fetch for it ([KernelPages]) are not taken from those the theorems count.

    ** Bounds, fuel and hypotheses

    Loops with a C bound recurse on that bound.  The others have [fuel] (the string
    loops, the search of the free lists, the terminal, the archive); the theorems
    say how much is enough: the length of the string, the number of blocks, of bytes
    still to come.  The hypotheses that recur: [vm_ok], [pmm_inv], [heap_ok],
    [vfs_wf], [sched_ok], [vrep] are the invariants; [available k] and [room k] say
    that [k] more requests can be met; [tidy] says that the free frames are one run
    (otherwise a request for several frames may return some in use: see [Pmm]);
    [clean] that fresh nodes read as zero (the code never clears them); [fresh] that
    blocks come cleared, which the paths built from an archive rely on; [settled]
    that an address is in a block of the heap or outside of what it hands out, as
    the boot modules are; [fx_safe] that the block of the next task is aligned for
    [fxsave] and the 504 bytes stored behind it are [vacant], nobody's - the code does
    nothing for it, and where [malloc] has split the block [Fpu.fxsave_overruns] says
    what happens; [sections_harmless] that the loader skips what it finds where it
    looks for section headers, which is outside the file; memory of at
    most 128 MiB for new tasks, whose page maps are written through the kernel
    window.  The page frames and the kernel's data are two memories, and so are the
    strings and arrays that nothing ever writes through another pointer.

    ** Not modelled

    The assembly stubs; the tags of [stivale2.h] that the kernel does not read.  Log
    lines are sent by [kernel_main], [print_files] and [sys_log]; those of the other
    functions are diagnostics and left out, and so is how [printf] and [_log]
    collect variable arguments, which are lists here.  The [fxsave]
    and [fxrstor] of the timer interrupt: it switches the registers, the page map and
    the acknowledgement only.  The strings and the array that [vfs_parse_path] allocates
    and never frees, the names of nodes, and the arrays of vectors (whose [realloc]
    answers as [vec_ok] says) are values: their blocks are not taken from the heap, so
    [room] counts the other requests only.  [vec_sort], whose [qsort] the repository does not have;
    the user programs in [src/src/apps], which are a few lines on a C library outside
    the repository. *)

From stdpp Require Export prelude gmap list numbers.
From stdpp Require Import options.
Open Scope Z_scope.

(** ** Outcomes of C code

    A C fragment is a function into [res]:
    - [Done a]   it returns [a];
    - [Fault]    it does something C leaves undefined (an access outside an
                 object, a NULL dereference, an uninitialised read);
    - [Hang]     it enters one of the source's deliberate endless loops
                 ([while (1);]) or spins on a lock nobody can release;
    - [NoFuel]   the fuel given to an unbounded loop ran out. *)
Inductive res (A : Type) : Type :=
  | Done (a : A)
  | Fault
  | Hang
  | NoFuel.
Arguments Done {_} _.
Arguments Fault {_}.
Arguments Hang {_}.
Arguments NoFuel {_}.

#[global] Instance res_ret : MRet res := λ A, Done.
#[global] Instance res_bind : MBind res := λ A B f m,
  match m with
  | Done a => f a
  | Fault => Fault
  | Hang => Hang
  | NoFuel => NoFuel
  end.
#[global] Instance res_fmap : FMap res := λ A B f m, m ≫= λ a, Done (f a).

(** An access that is undefined when the object has no such cell. *)
Definition of_option {A} (o : option A) : res A :=
  match o with Some a => Done a | None => Fault end.

(** [assert_c b]: the C is undefined unless [b] holds. *)
Definition assert_c (b : bool) : res unit := if b then Done tt else Fault.

Lemma bind_Done {A B} (a : A) (f : A → res B) : (Done a ≫= f) = f a.
Proof. done. Qed.

(** [injection] without looking into the components. *)
Lemma Done_triple_inj {A B C} (a a' : A) (b b' : B) (c c' : C) :
  Done (a, (b, c)) = Done (a', (b', c')) → a = a' ∧ b = b' ∧ c = c'.
Proof. by intros [= -> -> ->]. Qed.

Lemma bind_Done_eq {A B} (m : res A) (f : A → res B) a r :
  m = Done a → f a = r → m ≫= f = r.
Proof. by intros -> <-. Qed.

Lemma bind_Done_inv {A B} (m : res A) (f : A → res B) b :
  m ≫= f = Done b → ∃ a, m = Done a ∧ f a = Done b.
Proof. destruct m as [a| | |]; simpl; intros H; [by exists a|done..]. Qed.

Lemma of_option_Done {A} (o : option A) a : of_option o = Done a ↔ o = Some a.
Proof. destruct o; simpl; split; congruence. Qed.

Lemma assert_c_Done b u : assert_c b = Done u ↔ b = true.
Proof. destruct b, u; simpl; split; congruence. Qed.

#[global] Instance Done_inj {A} : Inj (=) (=) (@Done A).
Proof. by intros x y [= ->]. Qed.

(** ** Counted loops

    [for_loop n i body s] is [for (k = i; k < i + n; k++) s = body(k, s)]. *)
Fixpoint for_loop {S : Type} (n : nat) (i : Z) (body : Z → S → res S) (s : S)
    : res S :=
  match n with
  | O => Done s
  | Datatypes.S n' => s' ← body i s; for_loop n' (i + 1) body s'
  end.

Section for_loop.
Context {S : Type}.
Implicit Types (s : S) (body : Z → S → res S).

(** Total correctness of a counted loop by an invariant. *)
Lemma for_loop_inv (I : Z → S → Prop) n i body s :
  I i s →
  (∀ k s', i ≤ k < i + Z.of_nat n → I k s' →
     ∃ s'', body k s' = Done s'' ∧ I (k + 1) s'') →
  ∃ s', for_loop n i body s = Done s' ∧ I (i + Z.of_nat n) s'.
Proof.
  revert i s. induction n as [|n IH]; intros i s Hi Hstep.
  - exists s. by replace (i + Z.of_nat 0) with i by lia.
  - destruct (Hstep i s) as (s1 & Hb & H1); [lia|done|].
    destruct (IH (i + 1) s1) as (s2 & Hl & H2); [done| |].
    { intros k s' Hk. apply Hstep. lia. }
    exists s2. simpl. rewrite Hb. simpl. split; [done|].
    by replace (i + Z.of_nat (Datatypes.S n))
      with (i + 1 + Z.of_nat n) by lia.
Qed.

(** Steps that do nothing. *)
Lemma for_loop_skip n i body s :
  (∀ k, i ≤ k < i + Z.of_nat n → body k s = Done s) → for_loop n i body s = Done s.
Proof.
  intros Hb. destruct (for_loop_inv (λ _ s', s' = s) n i body s) as (s' & -> & ->); [done| |done].
  intros k s' Hk ->. exists s. split; [by apply Hb|done].
Qed.

(** What every completed run of a counted loop satisfies. *)
Lemma for_loop_partial (I : Z → S → Prop) n i body s s' :
  I i s →
  (∀ k t t', i ≤ k < i + Z.of_nat n → I k t → body k t = Done t' →
     I (k + 1) t') →
  for_loop n i body s = Done s' → I (i + Z.of_nat n) s'.
Proof.
  revert i s. induction n as [|n IH]; intros i s Hi Hstep; simpl.
  - intros [= <-]. by replace (i + Z.of_nat 0) with i by lia.
  - intros (s1 & Hb & Hl)%bind_Done_inv.
    replace (i + Z.of_nat (Datatypes.S n))
      with (i + 1 + Z.of_nat n) by lia.
    eapply IH; [eapply Hstep; [|done|done]; lia| |done].
    intros k t t' Hk. apply Hstep. lia.
Qed.

Lemma for_loop_ext n i body body' s :
  (∀ k s', i ≤ k < i + Z.of_nat n → body k s' = body' k s') →
  for_loop n i body s = for_loop n i body' s.
Proof.
  revert i s. induction n as [|n IH]; intros i s H; simpl; [done|].
  rewrite (H i s) by lia. destruct (body' i s); simpl; try done.
  apply IH. intros k s' Hk. apply H. lia.
Qed.

Lemma for_loop_app n m i body s :
  for_loop (n + m) i body s =
    s' ← for_loop n i body s; for_loop m (i + Z.of_nat n) body s'.
Proof.
  revert i s. induction n as [|n IH]; intros i s; simpl.
  - f_equal. lia.
  - destruct (body i s); simpl; try done. rewrite IH.
    destruct (for_loop n (i + 1) body a); simpl; try done. f_equal. lia.
Qed.
End for_loop.

(** ** Unbounded loops

    [while_loop fuel body s] runs [body] until it answers [inr]; [fuel] bounds
    the number of iterations. *)
Fixpoint while_loop {S R : Type} (fuel : nat) (body : S → res (S + R)) (s : S) : res R :=
  match fuel with
  | O => NoFuel
  | Datatypes.S fuel =>
      x ← body s;
      match x with
      | inl s' => while_loop fuel body s'
      | inr r => Done r
      end
  end.

(** Total correctness: an invariant, a measure below the fuel, a postcondition. *)
Lemma while_loop_inv {S R} (I : S → Prop) (Q : R → Prop) (μ : S → nat) fuel body s :
  I s → (μ s < fuel)%nat →
  (∀ s, I s → (∃ s', body s = Done (inl s') ∧ I s' ∧ (μ s' < μ s)%nat) ∨
              (∃ r, body s = Done (inr r) ∧ Q r)) →
  ∃ r, while_loop fuel body s = Done r ∧ Q r.
Proof.
  intros Hs Hf Hstep. revert s Hs Hf. induction fuel as [|fuel IH]; intros s Hs Hf; [lia|].
  cbn [while_loop]. destruct (Hstep s Hs) as [(s' & -> & Hs' & Hlt)|(r & -> & Hr)].
  - cbn [mbind res_bind]. apply IH; [done|lia].
  - exists r. by split.
Qed.

(** ** Tactics *)

(** Inverts one [Done] equation of the context into its parts. *)
Ltac inv_done :=
  match goal with
  | H : _ ≫= _ = Done _ |- _ =>
      let a := fresh "a" in let Ha := fresh "Ha" in
      apply bind_Done_inv in H as (a & Ha & H)
  | H : mret _ = Done _ |- _ => unfold mret, res_ret in H
  | H : Done _ = Done _ |- _ => apply (inj Done) in H
  | H : of_option _ = Done _ |- _ => apply of_option_Done in H
  | H : assert_c _ = Done _ |- _ => apply assert_c_Done in H
  | H : (_, _) = (_, _) |- _ => injection H as H; try subst
  | H : Fault = Done _ |- _ => discriminate H
  | H : Hang = Done _ |- _ => discriminate H
  | H : NoFuel = Done _ |- _ => discriminate H
  | p : _ * _ |- _ => destruct p
  end.
Ltac inv_dones := repeat (inv_done; simpl in *; simplify_eq).

(** [zlia]: [lia] after naming quotients and remainders. *)
Ltac zlia := Z.to_euclidean_division_equations; lia.

(** [case_decide] on the goal only. *)
Tactic Notation "goal_decide" "as" simple_intropattern(pat) :=
  match goal with |- context [decide ?Q] => destruct (decide Q) as pat end.

(** Equality of tuples of integers. *)
Ltac pair_lia := repeat apply (f_equal2 pair); lia.

(** ** Lists indexed by [Z] *)

(** [l !!z i] is cell [i] of a C array: [None] outside its bounds. *)
Definition lookup_z {A} (l : list A) (i : Z) : option A :=
  if bool_decide (0 ≤ i) then l !! Z.to_nat i else None.

Definition insert_z {A} (i : Z) (x : A) (l : list A) : list A :=
  if bool_decide (0 ≤ i) then <[Z.to_nat i := x]> l else l.

Definition length_z {A} (l : list A) : Z := Z.of_nat (length l).

Declare Scope c_scope.
Delimit Scope c_scope with C.
Notation "l !!z i" := (lookup_z l i) (at level 20) : c_scope.
Notation "<[ i :=z x ]> l" := (insert_z i x l) (at level 5, right associativity,
  format "<[ i  :=z  x ]>  l") : c_scope.
Open Scope c_scope.

Section lists.
Context {A : Type}.
Implicit Types (l : list A) (i j : Z) (x y : A).

Lemma lookup_z_Some l i x :
  l !!z i = Some x → 0 ≤ i < length_z l ∧ l !! Z.to_nat i = Some x.
Proof.
  unfold lookup_z, length_z. case_bool_decide; [|done]. intros Hx.
  split; [|done]. apply lookup_lt_Some in Hx. lia.
Qed.

Lemma lookup_z_is_Some l i : is_Some (l !!z i) ↔ 0 ≤ i < length_z l.
Proof.
  split.
  - intros [x Hx%lookup_z_Some]. tauto.
  - unfold lookup_z, length_z. intros Hi. rewrite bool_decide_true by lia.
    apply lookup_lt_is_Some. lia.
Qed.

Lemma lookup_z_None l i : l !!z i = None ↔ ¬ (0 ≤ i < length_z l).
Proof. rewrite <-lookup_z_is_Some, eq_None_not_Some. done. Qed.

Lemma lookup_z_nat l i : 0 ≤ i → l !!z i = l !! Z.to_nat i.
Proof. intros. unfold lookup_z. by rewrite bool_decide_true. Qed.

Lemma length_insert_z l i x : length_z (<[i :=z x]> l) = length_z l.
Proof.
  unfold length_z, insert_z. case_bool_decide; [|done].
  by rewrite length_insert.
Qed.

Lemma lookup_insert_z l i j x :
  (<[i :=z x]> l) !!z j =
    if bool_decide (i = j ∧ 0 ≤ i < length_z l) then Some x else l !!z j.
Proof.
  unfold insert_z, lookup_z, length_z.
  destruct (bool_decide_reflect (0 ≤ i)); destruct (bool_decide_reflect (0 ≤ j));
    case_bool_decide; try lia; try done.
  - destruct H as [-> ?]. apply list_lookup_insert_eq. lia.
  - destruct (decide (i = j)) as [->|].
    + rewrite list_insert_ge by lia. done.
    + apply list_lookup_insert_ne. lia.
Qed.

Lemma lookup_insert_z_eq l i x :
  0 ≤ i < length_z l → (<[i :=z x]> l) !!z i = Some x.
Proof. intros. rewrite lookup_insert_z. by rewrite bool_decide_true. Qed.

Lemma lookup_insert_z_ne l i j x :
  i ≠ j → (<[i :=z x]> l) !!z j = l !!z j.
Proof. intros. rewrite lookup_insert_z. rewrite bool_decide_false; naive_solver. Qed.

Lemma list_eq_z l l' : (∀ i, l !!z i = l' !!z i) → l = l'.
Proof.
  intros H. apply list_eq. intros i. specialize (H (Z.of_nat i)).
  rewrite !lookup_z_nat in H by lia. by rewrite !Nat2Z.id in H.
Qed.

Lemma lookup_replicate_z n x i :
  replicate n x !!z i = if bool_decide (0 ≤ i < Z.of_nat n) then Some x else None.
Proof.
  unfold lookup_z. case_bool_decide as H1; case_bool_decide as H2; try lia; try done.
  - apply lookup_replicate_2. lia.
  - apply lookup_replicate_None. lia.
Qed.
End lists.

Create HintDb cdb.
#[export] Hint Rewrite @length_insert_z : cdb.
#[export] Hint Resolve for_loop_inv : cdb.
