(* ===== verification/CInt.v ===== *)
(** * Machine integers and the macros of [lib/base.h]

    Unsigned words of [w] bits are the [Z] between 0 and [2^w]; an operation
    that can leave that range is wrapped where the C wraps it.  Signed words
    are two's complement.  The file also holds the arithmetic macros of
    [src/src/lib/base.h] and the bit lemmas the components share. *)

From S2P Require Import Prelude.

Definition u8 (z : Z) : Z := z mod 2 ^ 8.
Definition u16 (z : Z) : Z := z mod 2 ^ 16.
Definition u32 (z : Z) : Z := z mod 2 ^ 32.
Definition u64 (z : Z) : Z := z mod 2 ^ 64.

(** Conversion to [int] and [int64_t] (two's complement, as gcc defines it). *)
Definition i32 (z : Z) : Z := (z + 2 ^ 31) mod 2 ^ 32 - 2 ^ 31.
Definition i64 (z : Z) : Z := (z + 2 ^ 63) mod 2 ^ 64 - 2 ^ 63.

Definition is_u8 (z : Z) : Prop := 0 ≤ z < 2 ^ 8.
Definition is_u16 (z : Z) : Prop := 0 ≤ z < 2 ^ 16.
Definition is_u32 (z : Z) : Prop := 0 ≤ z < 2 ^ 32.
Definition is_u64 (z : Z) : Prop := 0 ≤ z < 2 ^ 64.
Definition is_i32 (z : Z) : Prop := - 2 ^ 31 ≤ z < 2 ^ 31.
#[global] Arguments is_u8 _ /.
#[global] Arguments is_u16 _ /.
#[global] Arguments is_u32 _ /.
#[global] Arguments is_u64 _ /.
#[global] Arguments is_i32 _ /.

Lemma u8_id z : is_u8 z → u8 z = z.
Proof. apply Z.mod_small. Qed.
Lemma u32_id z : is_u32 z → u32 z = z.
Proof. apply Z.mod_small. Qed.
Lemma u64_id z : is_u64 z → u64 z = z.
Proof. apply Z.mod_small. Qed.
Lemma i32_id z : is_i32 z → i32 z = z.
Proof. unfold i32; simpl. intros. rewrite Z.mod_small; lia. Qed.

Lemma i64_id z : - 2 ^ 63 ≤ z < 2 ^ 63 → i64 z = z.
Proof. intros Hz. unfold i64. rewrite Z.mod_small; lia. Qed.

(** A wrapped difference that is positive as an [int] did not wrap. *)
Lemma i32_u32_pos z : - 2 ^ 31 ≤ z < 2 ^ 32 → 0 < i32 (u32 z) → u32 z = z ∧ 0 < z.
Proof.
  intros Hz. destruct (decide (0 ≤ z)) as [Hp|Hn].
  - rewrite u32_id by (simpl; lia). intros Hi. split; [done|].
    destruct (decide (z = 0)) as [->|]; [done|lia].
  - replace (u32 z) with (z + 2 ^ 32); [|unfold u32; zlia].
    unfold i32. replace (z + 2 ^ 32 + 2 ^ 31) with (z + 2 ^ 31 + 1 * 2 ^ 32) by lia.
    rewrite Z_mod_plus_full, Z.mod_small by lia. lia.
Qed.

Lemma u8_range z : 0 ≤ u8 z < 2 ^ 8.
Proof. apply Z.mod_pos_bound. lia. Qed.
Lemma u32_range z : 0 ≤ u32 z < 2 ^ 32.
Proof. apply Z.mod_pos_bound. lia. Qed.
Lemma u64_range z : 0 ≤ u64 z < 2 ^ 64.
Proof. apply Z.mod_pos_bound. lia. Qed.

#[export] Hint Resolve u8_range u32_range u64_range : cdb.

(** ** [ALIGN_UP], [ALIGN_DOWN], [DIV_ROUNDUP] (on [uint64_t] operands) *)

Definition ALIGN_UP (num what : Z) : Z :=
  Z.land (u64 (num + what - 1)) (u64 (Z.lnot (what - 1))).
Definition ALIGN_DOWN (num what : Z) : Z :=
  Z.land num (u64 (Z.lnot (what - 1))).
Definition DIV_ROUNDUP (a b : Z) : Z := u64 (a + (b - 1)) / b.

(** ** Bits *)

Lemma land_lnot_ones z n : 0 ≤ n → Z.land z (Z.lnot (Z.ones n)) = z - z mod 2 ^ n.
Proof.
  intros Hn. rewrite <-Z.ldiff_land, Z.ldiff_ones_r by done.
  rewrite Z.shiftr_div_pow2, Z.shiftl_mul_pow2 by done.
  pose proof (Z.div_mod z (2 ^ n)). lia.
Qed.

(** Masking a 64-bit word with the complement of [n] low ones. *)
Lemma land_u64_lnot_ones z n :
  0 ≤ n ≤ 64 → is_u64 z → Z.land z (u64 (Z.lnot (Z.ones n))) = z - z mod 2 ^ n.
Proof.
  intros Hn Hz. rewrite <-land_lnot_ones by lia. unfold u64.
  rewrite <-Z.land_ones by lia. rewrite (Z.land_comm (Z.lnot _)), Z.land_assoc.
  rewrite (Z.land_ones z 64) by lia. by rewrite Z.mod_small.
Qed.

Lemma ALIGN_DOWN_pow2 z n :
  0 ≤ n ≤ 63 → is_u64 z → ALIGN_DOWN z (2 ^ n) = z - z mod 2 ^ n.
Proof.
  intros Hn Hz. unfold ALIGN_DOWN.
  replace (2 ^ n - 1) with (Z.ones n) by (rewrite Z.ones_equiv; lia).
  apply land_u64_lnot_ones; [lia|done].
Qed.

Lemma ALIGN_UP_pow2 z n :
  0 ≤ n ≤ 63 → 0 ≤ z → z + 2 ^ n - 1 < 2 ^ 64 →
  ALIGN_UP z (2 ^ n) = (z + 2 ^ n - 1) / 2 ^ n * 2 ^ n.
Proof.
  intros Hn Hz Hb. unfold ALIGN_UP.
  pose proof (Z.pow_pos_nonneg 2 n ltac:(lia) ltac:(lia)).
  rewrite (u64_id (z + 2 ^ n - 1)) by (simpl; lia).
  replace (2 ^ n - 1) with (Z.ones n) by (rewrite Z.ones_equiv; lia).
  rewrite land_u64_lnot_ones by (simpl; lia).
  pose proof (Z.div_mod (z + 2 ^ n - 1) (2 ^ n)). lia.
Qed.


(** A disjoint [lor] is an addition. *)
Lemma land_low_high a b n :
  0 ≤ n → a mod 2 ^ n = 0 → 0 ≤ b < 2 ^ n → Z.land a b = 0.
Proof.
  intros Hn Ha Hb. apply Z.bits_inj'. intros i Hi.
  rewrite Z.land_spec, Z.bits_0.
  destruct (decide (i < n)).
  - rewrite <-(Z.mod_pow2_bits_low a n i) by lia. rewrite Ha.
    by rewrite Z.bits_0.
  - rewrite <-(Z.mod_small b (2 ^ n)) by lia.
    rewrite Z.mod_pow2_bits_high by lia. by rewrite andb_false_r.
Qed.

Lemma lor_low_high a b n :
  0 ≤ n → a mod 2 ^ n = 0 → 0 ≤ b < 2 ^ n → Z.lor a b = a + b.
Proof.
  intros Hn Ha Hb. pose proof (land_low_high a b n Hn Ha Hb) as Hl.
  rewrite (Z.add_nocarry_lxor _ _ Hl). symmetry. by apply Z.lxor_lor.
Qed.

Lemma testbit_1_low z : Z.land z 1 = z mod 2.
Proof. change 1 with (Z.ones 1). by rewrite Z.land_ones. Qed.

(** The bit operations on one byte of a bit map. *)
Lemma testbit_byte_set b k j :
  0 ≤ k < 8 → is_u8 b →
  Z.testbit (u8 (Z.lor b (Z.shiftl 1 k))) j
    = (if decide (j = k) then true else Z.testbit b j).
Proof.
  intros Hk Hb. unfold u8. rewrite Z.shiftl_1_l.
  destruct (decide (0 ≤ j < 8)).
  - rewrite Z.mod_pow2_bits_low by lia.
    rewrite Z.lor_spec, Z.pow2_bits_eqb by lia.
    destruct (Z.eqb_spec k j); case_decide; try congruence.
    + by rewrite orb_true_r.
    + by rewrite orb_false_r.
  - case_decide; [lia|]. destruct (decide (j < 0)).
    + by rewrite !Z.testbit_neg_r by lia.
    + rewrite Z.mod_pow2_bits_high by lia.
      rewrite <-(Z.mod_small b (2 ^ 8)) by (simpl in *; lia).
      by rewrite Z.mod_pow2_bits_high by lia.
Qed.

Lemma testbit_byte_clear b k j :
  0 ≤ k < 8 → is_u8 b →
  Z.testbit (u8 (Z.land b (Z.lnot (Z.shiftl 1 k)))) j
    = (if decide (j = k) then false else Z.testbit b j).
Proof.
  intros Hk Hb. unfold u8. rewrite Z.shiftl_1_l.
  destruct (decide (0 ≤ j < 8)).
  - rewrite Z.mod_pow2_bits_low by lia.
    rewrite Z.land_spec, Z.lnot_spec, Z.pow2_bits_eqb by lia.
    destruct (Z.eqb_spec k j); case_decide; try congruence; simpl.
    + by rewrite andb_false_r.
    + by rewrite andb_true_r.
  - case_decide; [lia|]. destruct (decide (j < 0)).
    + by rewrite !Z.testbit_neg_r by lia.
    + rewrite Z.mod_pow2_bits_high by lia.
      rewrite <-(Z.mod_small b (2 ^ 8)) by (simpl in *; lia).
      by rewrite Z.mod_pow2_bits_high by lia.
Qed.

(** [(b >> k) & 1] is bit [k]. *)
Lemma shiftr_land_1 b k : 0 ≤ k → Z.land (Z.shiftr b k) 1 = Z.b2z (Z.testbit b k).
Proof.
  intros. rewrite testbit_1_low. rewrite Z.testbit_spec' by done.
  by rewrite Z.shiftr_div_pow2.
Qed.
