(* ===== verification/Mem.v ===== *)
(** * Byte memory and [lib/mem.c]

    A memory maps the addresses that exist to the byte they hold; touching any
    other address is a [Fault].  The file models [memset] and [memcpy]
    ([src/src/lib/mem.c]), [memmove] ([src/src/lib/vec.c]) and the two copying
    helpers of [src/src/lib/alloc.c], and the little-endian loads and stores
    that the page tables and the ELF loader perform through pointers. *)

From S2P Require Import Prelude CInt.

Abbreviation mem := (gmap Z Z).

Definition load8 (m : mem) (a : Z) : res Z := of_option (m !! a).

Definition store8 (m : mem) (a b : Z) : res mem :=
  if bool_decide (is_Some (m !! a)) then Done (<[a := b]> m) else Fault.

(** All of [a .. a+n-1] exists. *)
Definition mapped (m : mem) (a n : Z) : Prop :=
  ∀ i, a ≤ i < a + n → is_Some (m !! i).

(** ** The code *)

Definition memset (m : mem) (s c n : Z) : res mem :=
  for_loop (Z.to_nat n) 0 (λ i m, store8 m (s + i) (u8 c)) m.

(** [dest[i] = src[i];] *)
Definition copy_byte (to from i : Z) (m : mem) : res mem :=
  b ← load8 m (from + i); store8 m (to + i) b.

Definition memcpy (m : mem) (to from n : Z) : res mem :=
  for_loop (Z.to_nat n) 0 (λ i m, copy_byte to from i m) m.

Definition memmove (m : mem) (dest src n : Z) : res mem :=
  if dest <? src then
    for_loop (Z.to_nat n) 0 (λ i m, copy_byte dest src i m) m
  else if src <? dest then
    for_loop (Z.to_nat n) 0 (λ k m, copy_byte dest src (n - k - 1) m) m
  else Done m.

(** ** Little-endian words *)

Fixpoint load_le (n : nat) (m : mem) (a : Z) : res Z :=
  match n with
  | O => Done 0
  | S n => b ← load8 m a; r ← load_le n m (a + 1); Done (b + 256 * r)
  end.

Fixpoint store_le (n : nat) (m : mem) (a v : Z) : res mem :=
  match n with
  | O => Done m
  | S n => m' ← store8 m a (v mod 256); store_le n m' (a + 1) (v / 256)
  end.

Definition load64 (m : mem) (a : Z) : res Z := load_le 8 m a.
Definition store64 (m : mem) (a v : Z) : res mem := store_le 8 m a v.
Definition load32 (m : mem) (a : Z) : res Z := load_le 4 m a.
Definition store32 (m : mem) (a v : Z) : res mem := store_le 4 m a v.

(** [liballoc_memset(s, c, n)]: the byte stored is [c] converted to [char]. *)
Definition liballoc_memset (m : mem) (s c n : Z) : res mem :=
  for_loop (Z.to_nat n) 0 (λ i m, store8 m (s + i) (u8 c)) m.

(** [liballoc_memcpy]: four bytes at a time, then the remaining bytes. *)
Definition liballoc_memcpy (m : mem) (s1 s2 n : Z) : res mem :=
  m' ← for_loop (Z.to_nat (n / 4)) 0
         (λ k m, w ← load32 m (s2 + 4 * k); store32 m (s1 + 4 * k) w) m;
  let off := 4 * (n / 4) in
  for_loop (Z.to_nat (n mod 4)) 0 (λ i m, copy_byte (s1 + off) (s2 + off) i m) m'.

(** A word as bytes, and back. *)
Fixpoint le_bytes (n : nat) (v : Z) : list Z :=
  match n with
  | O => []
  | S n => v mod 256 :: le_bytes n (v / 256)
  end.

Fixpoint of_bytes (l : list Z) : Z :=
  match l with
  | [] => 0
  | b :: l => b + 256 * of_bytes l
  end.

(** The bytes of [l] from [a] on. *)
Fixpoint store_bytes (m : mem) (a : Z) (l : list Z) : res mem :=
  match l with
  | [] => Done m
  | b :: l => m ← store8 m a b; store_bytes m (a + 1) l
  end.

Lemma of_le_bytes n v : of_bytes (le_bytes n v) = v mod 256 ^ Z.of_nat n.
Proof.
  revert v. induction n as [|n IH]; intros v; cbn [le_bytes of_bytes].
  - by rewrite Z.mod_1_r.
  - rewrite IH, Nat2Z.inj_succ, Z.pow_succ_r by lia. rewrite Z.rem_mul_r by lia. done.
Qed.

Lemma length_le_bytes n v : length (le_bytes n v) = n.
Proof. revert v. induction n as [|n IH]; intros v; simpl; [done|]. by rewrite IH. Qed.

(** ** Single cells *)

Lemma store8_Done m a b : is_Some (m !! a) → store8 m a b = Done (<[a := b]> m).
Proof. intros. unfold store8. by rewrite bool_decide_true. Qed.

Lemma store8_inv m a b m' :
  store8 m a b = Done m' → is_Some (m !! a) ∧ m' = <[a := b]> m.
Proof. unfold store8. case_bool_decide; naive_solver. Qed.

Lemma load8_Done m a b : load8 m a = Done b ↔ m !! a = Some b.
Proof. apply of_option_Done. Qed.

Lemma mapped_mono m a n b k : mapped m a n → a ≤ b → b + k ≤ a + n → mapped m b k.
Proof. intros H ?? i Hi. apply H. lia. Qed.

Lemma mapped_insert m a n b v : mapped m a n → mapped (<[b := v]> m) a n.
Proof.
  intros H i Hi. destruct (decide (b = i)) as [->|].
  - rewrite lookup_insert_eq. eauto.
  - rewrite lookup_insert_ne by done. by apply H.
Qed.
#[export] Hint Resolve mapped_insert : cdb.

(** ** Pointwise specifications *)

(** [m'] is [m] with [n] bytes from [to] on replaced by [f 0 .. f (n-1)]. *)
Definition overwritten (m m' : mem) (to n : Z) (f : Z → option Z) : Prop :=
  ∀ a, m' !! a = if bool_decide (to ≤ a < to + n) then f (a - to) else m !! a.

Lemma overwritten_out m m' to n f a :
  overwritten m m' to n f → ¬ (to ≤ a < to + n) → m' !! a = m !! a.
Proof. intros H ?. by rewrite H, bool_decide_false. Qed.

Lemma overwritten_in m m' to n f a :
  overwritten m m' to n f → to ≤ a < to + n → m' !! a = f (a - to).
Proof. intros H ?. by rewrite H, bool_decide_true. Qed.

Lemma overwritten_unique m m1 m2 to n f :
  overwritten m m1 to n f → overwritten m m2 to n f → m1 = m2.
Proof. intros H1 H2. apply map_eq. intros a. by rewrite H1, H2. Qed.

Lemma overwritten_mapped m m' to n f b k :
  overwritten m m' to n f → (∀ i, 0 ≤ i < n → is_Some (f i)) →
  mapped m b k → mapped m' b k.
Proof.
  intros H Hf Hm i Hi. rewrite H. case_bool_decide; [apply Hf; lia|by apply Hm].
Qed.

(** The same, as a run of stores. *)
Lemma store_bytes_overwritten l m a :
  mapped m a (length_z l) →
  ∃ m', store_bytes m a l = Done m' ∧ overwritten m m' a (length_z l) (λ i, l !!z i).
Proof.
  revert m a. induction l as [|b l IH]; intros m a Hm.
  { exists m. split; [done|]. intros i. by rewrite bool_decide_false by (unfold length_z; simpl; lia). }
  assert (length_z (b :: l) = length_z l + 1) as Hl by (unfold length_z; simpl; lia). rewrite Hl in *.
  assert (0 ≤ length_z l) by (unfold length_z; lia).
  cbn [store_bytes]. rewrite store8_Done by (apply Hm; lia). cbn [mbind res_bind].
  destruct (IH (<[a := b]> m) (a + 1)) as (m' & -> & Ho).
  { apply mapped_insert. eapply mapped_mono; [exact Hm|lia..]. }
  exists m'. split; [done|]. intros i. rewrite Ho. destruct (decide (i = a)) as [->|Hia].
  - by rewrite bool_decide_false, lookup_insert_eq, bool_decide_true, Z.sub_diag by lia.
  - rewrite lookup_insert_ne by done. destruct (decide (a + 1 ≤ i < a + 1 + length_z l)).
    + rewrite !bool_decide_true, !lookup_z_nat by lia.
      by replace (Z.to_nat (i - a)) with (S (Z.to_nat (i - (a + 1)))) by lia.
    + by rewrite !bool_decide_false by lia.
Qed.

(** The loop step all the copying routines share. *)
Lemma overwritten_grow_up m m' to k f b :
  overwritten m m' to k f → 0 ≤ k → f k = Some b →
  overwritten m (<[to + k := b]> m') to (k + 1) f.
Proof.
  intros H Hk Hf a. destruct (decide (a = to + k)) as [->|].
  - rewrite lookup_insert_eq, bool_decide_true by lia.
    by replace (to + k - to) with k by lia.
  - rewrite lookup_insert_ne, H by done.
    repeat case_bool_decide; try done; lia.
Qed.

(** ... and the one of a loop that runs downwards. *)
Lemma overwritten_grow_down m m' to k f b :
  overwritten m m' (to + 1) k (λ i, f (i + 1)) → 0 ≤ k → f 0 = Some b →
  overwritten m (<[to := b]> m') to (k + 1) f.
Proof.
  intros H Hk Hf a. destruct (decide (a = to)) as [->|].
  - rewrite lookup_insert_eq, bool_decide_true by lia. by rewrite Z.sub_diag.
  - rewrite lookup_insert_ne, H by done.
    repeat case_bool_decide; try done; try lia. f_equal. lia.
Qed.

Lemma overwritten_nil m to f : overwritten m m to 0 f.
Proof. intros a. rewrite bool_decide_false by lia. done. Qed.

Section specs.
Implicit Types (m : mem).

Lemma memset_spec m s c n :
  0 ≤ n → mapped m s n →
  ∃ m', memset m s c n = Done m' ∧ overwritten m m' s n (λ _, Some (u8 c)).
Proof.
  intros Hn Hm. unfold memset.
  destruct (for_loop_inv (λ k m', overwritten m m' s k (λ _, Some (u8 c)))
    (Z.to_nat n) 0 (λ i m, store8 m (s + i) (u8 c)) m) as (m' & Hr & HI).
  - apply overwritten_nil.
  - intros k m1 Hk H1. eexists. split.
    + apply store8_Done. rewrite (overwritten_out _ _ _ _ _ _ H1) by lia.
      apply Hm. lia.
    + apply overwritten_grow_up; [done|lia|done].
  - exists m'. split; [done|]. by replace n with (0 + Z.of_nat (Z.to_nat n)) by lia.
Qed.

(** A forward copy is right unless the destination starts inside the source. *)
Lemma copy_forward m to from n :
  0 ≤ n → mapped m to n → mapped m from n → to ≤ from ∨ from + n ≤ to →
  ∃ m', for_loop (Z.to_nat n) 0 (λ i m, copy_byte to from i m) m = Done m' ∧
        overwritten m m' to n (λ i, m !! (from + i)).
Proof.
  intros Hn Ht Hf Hdir.
  destruct (for_loop_inv (λ k m', overwritten m m' to k (λ i, m !! (from + i)))
    (Z.to_nat n) 0 (λ i m, copy_byte to from i m) m) as (m' & Hr & HI).
  - apply overwritten_nil.
  - intros k m1 Hk H1.
    destruct (Hf (from + k)) as [b Hb]; [lia|].
    exists (<[to + k := b]> m1). split.
    + unfold copy_byte, load8.
      rewrite (overwritten_out _ _ _ _ _ (from + k) H1) by lia.
      rewrite Hb. simpl. apply store8_Done.
      rewrite (overwritten_out _ _ _ _ _ _ H1) by lia. apply Ht. lia.
    + apply overwritten_grow_up; [done|lia|done].
  - exists m'. split; [done|]. by replace n with (0 + Z.of_nat (Z.to_nat n)) by lia.
Qed.

Lemma copy_backward m to from n :
  0 ≤ n → mapped m to n → mapped m from n → from ≤ to →
  ∃ m', for_loop (Z.to_nat n) 0 (λ k m, copy_byte to from (n - k - 1) m) m
          = Done m' ∧
        overwritten m m' to n (λ i, m !! (from + i)).
Proof.
  intros Hn Ht Hf Hdir.
  destruct (for_loop_inv
    (λ k m', overwritten m m' (to + (n - k)) k (λ i, m !! (from + (n - k) + i)))
    (Z.to_nat n) 0 (λ k m, copy_byte to from (n - k - 1) m) m) as (m' & Hr & HI).
  - apply overwritten_nil.
  - intros k m1 Hk H1.
    destruct (Hf (from + (n - k - 1))) as [b Hb]; [lia|].
    exists (<[to + (n - k - 1) := b]> m1). split.
    + unfold copy_byte, load8.
      rewrite (overwritten_out _ _ _ _ _ (from + (n - k - 1)) H1) by lia.
      rewrite Hb. simpl. apply store8_Done.
      rewrite (overwritten_out _ _ _ _ _ _ H1) by lia. apply Ht. lia.
    + replace (n - (k + 1)) with (n - k - 1) by lia.
      apply overwritten_grow_down; [|lia|by rewrite Z.add_0_r].
      intros a. replace (to + (n - k - 1) + 1) with (to + (n - k)) by lia.
      rewrite H1. case_bool_decide; [|done]. f_equal. lia.
  - exists m'. split; [done|]. intros a. rewrite HI.
    replace (0 + Z.of_nat (Z.to_nat n)) with n by lia.
    replace (to + (n - n)) with to by lia. case_bool_decide; [|done].
    f_equal. lia.
Qed.

Lemma memcpy_spec m to from n :
  0 ≤ n → mapped m to n → mapped m from n → to ≤ from ∨ from + n ≤ to →
  ∃ m', memcpy m to from n = Done m' ∧
        overwritten m m' to n (λ i, m !! (from + i)).
Proof. apply copy_forward. Qed.
End specs.

(** ** Little-endian lemmas *)

Lemma load_le_lookup n m m' a :
  (∀ i, a ≤ i < a + Z.of_nat n → m' !! i = m !! i) → load_le n m' a = load_le n m a.
Proof.
  revert a. induction n as [|n IH]; intros a H; simpl; [done|].
  unfold load8. rewrite (H a) by lia. destruct (m !! a); simpl; [|done].
  rewrite IH; [done|]. intros i Hi. apply H. lia.
Qed.

Lemma store_le_other n m a v m' i :
  store_le n m a v = Done m' → ¬ (a ≤ i < a + Z.of_nat n) → m' !! i = m !! i.
Proof.
  revert m a v. induction n as [|n IH]; intros m a v; simpl; [by intros [= ->]|].
  intros (m1 & [_ ->]%store8_inv & Hs)%bind_Done_inv Hi.
  rewrite (IH _ _ _ Hs) by lia. rewrite lookup_insert_ne by lia. done.
Qed.

Lemma store_le_total n m a v :
  mapped m a (Z.of_nat n) → ∃ m', store_le n m a v = Done m'.
Proof.
  revert m a v. induction n as [|n IH]; intros m a v Hm; [by exists m|].
  simpl. rewrite store8_Done by (apply Hm; lia). simpl.
  apply IH. apply mapped_insert. eapply mapped_mono; [done|lia..].
Qed.

Lemma store_le_mapped n m a v m' b k :
  store_le n m a v = Done m' → mapped m b k → mapped m' b k.
Proof.
  revert m a v. induction n as [|n IH]; intros m a v; simpl; [by intros [= ->]|].
  intros (m1 & [_ ->]%store8_inv & Hs)%bind_Done_inv Hm.
  eapply IH; [done|]. by apply mapped_insert.
Qed.

Lemma load_store_le n m a v m' :
  store_le n m a v = Done m' → load_le n m' a = Done (v mod 256 ^ Z.of_nat n).
Proof.
  revert m a v. induction n as [|n IH]; intros m a v.
  - simpl. intros _. by rewrite Z.mod_1_r.
  - intros (m1 & [_ ->]%store8_inv & Hs)%bind_Done_inv.
    replace (load_le (S n) m' a) with
      (b ← load8 m' a; r ← load_le n m' (a + 1); Done (b + 256 * r)) by done.
    unfold load8. rewrite (store_le_other _ _ _ _ _ a Hs) by lia.
    rewrite lookup_insert_eq. simpl. rewrite (IH _ _ _ Hs). simpl. f_equal.
    rewrite Nat2Z.inj_succ, Z.pow_succ_r by lia.
    rewrite Z.rem_mul_r; lia.
Qed.

Lemma load_le_total n m a :
  mapped m a (Z.of_nat n) → ∃ v, load_le n m a = Done v.
Proof.
  revert a. induction n as [|n IH]; intros a Hm; [by exists 0|].
  simpl. destruct (Hm a) as [b Hb]; [lia|].
  destruct (IH (a + 1)) as [v Hv]; [eapply mapped_mono; [done|lia..]|].
  unfold load8. rewrite Hb, Hv. simpl. eauto.
Qed.

Lemma load_le_zero n m a :
  (∀ i, a ≤ i < a + Z.of_nat n → m !! i = Some 0) → load_le n m a = Done 0.
Proof.
  revert a. induction n as [|n IH]; intros a H; simpl; [done|].
  unfold load8. rewrite H by lia. simpl. rewrite IH; [done|]. intros. apply H. lia.
Qed.

Section words.
Implicit Types (m : mem).

Lemma load_store_64 m a v m' :
  is_u64 v → store64 m a v = Done m' → load64 m' a = Done v.
Proof.
  intros Hv Hs. unfold load64. rewrite (load_store_le _ _ _ _ _ Hs).
  f_equal. by apply Z.mod_small.
Qed.

Lemma load_store_64_ne m a v m' b :
  store64 m a v = Done m' → a + 8 ≤ b ∨ b + 8 ≤ a → load64 m' b = load64 m b.
Proof.
  intros Hs Hd. apply load_le_lookup. intros i Hi.
  eapply store_le_other; [done|]. lia.
Qed.

Lemma store64_total m a v : mapped m a 8 → ∃ m', store64 m a v = Done m'.
Proof. apply (store_le_total 8). Qed.

Lemma load64_total m a : mapped m a 8 → ∃ v, load64 m a = Done v.
Proof. apply (load_le_total 8). Qed.

Lemma load64_overwritten m m' to n f a :
  overwritten m m' to n f → a + 8 ≤ to ∨ to + n ≤ a → load64 m' a = load64 m a.
Proof.
  intros H Hd. apply load_le_lookup. intros i Hi.
  eapply overwritten_out; [done|]. lia.
Qed.
End words.

(** Storing the value a load returned changes nothing, and storing a loaded
    word elsewhere copies its bytes (bytes in range). *)
Definition bytes_ok (m : mem) : Prop := map_Forall (λ _ b, is_u8 b) m.

Lemma bytes_ok_insert m a b : bytes_ok m → is_u8 b → bytes_ok (<[a := b]> m).
Proof. intros. by apply map_Forall_insert_2. Qed.

Lemma load_le_range n m a v : bytes_ok m → load_le n m a = Done v → 0 ≤ v < 256 ^ Z.of_nat n.
Proof.
  intros Hok. revert a v. induction n as [|n IH]; intros a v.
  - intros [= <-]. simpl. lia.
  - cbn [load_le]. intros (b & Hb%load8_Done & (r & Hr%IH & [= <-])%bind_Done_inv)%bind_Done_inv.
    pose proof (Hok _ _ Hb) as Hu. cbn in Hu. rewrite Nat2Z.inj_succ, Z.pow_succ_r by lia.
    change (2 ^ 8) with 256 in *. nia.
Qed.

Lemma load64_u64 m a v : bytes_ok m → load64 m a = Done v → is_u64 v.
Proof. intros Hok Hl. by apply (load_le_range 8 m a). Qed.

Lemma copy_word n m to from w m' :
  bytes_ok m → load_le n m from = Done w → store_le n m to w = Done m' →
  overwritten m m' to (Z.of_nat n) (λ i, m !! (from + i)).
Proof.
  intros Hok. enough (∀ m1 k, load_le n m (from + k) = Done w →
    store_le n m1 (to + k) w = Done m' →
    overwritten m1 m' (to + k) (Z.of_nat n) (λ i, m !! (from + k + i))) as H.
  { intros Hl Hs. specialize (H m 0). rewrite !Z.add_0_r in H. auto. }
  revert w m'. induction n as [|n IH]; intros w m' m1 k; simpl.
  - intros _ [= ->]. apply overwritten_nil.
  - intros (b & Hb%load8_Done & (r & Hr & [= <-])%bind_Done_inv)%bind_Done_inv.
    intros (m2 & [_ ->]%store8_inv & Hs)%bind_Done_inv.
    pose proof (Hok _ _ Hb) as Hbb. simpl in Hbb.
    replace ((b + 256 * r) mod 256) with b in Hs by zlia.
    replace ((b + 256 * r) / 256) with r in Hs by zlia.
    replace (from + k + 1) with (from + (k + 1)) in Hr by lia.
    replace (to + k + 1) with (to + (k + 1)) in Hs by lia.
    specialize (IH _ _ _ _ Hr Hs). intros a. rewrite IH.
    destruct (decide (a = to + k)) as [->|].
    + rewrite bool_decide_false, bool_decide_true, lookup_insert_eq by lia.
      rewrite Z.sub_diag, Z.add_0_r. done.
    + rewrite lookup_insert_ne by done.
      repeat case_bool_decide; try lia; try done. f_equal. lia.
Qed.

(** ** Properties *)

(** C24: [memmove] copies correctly for every pair of mapped ranges,
    overlapping or not: afterwards the destination holds what the source held
    before the call, and no other byte changed. *)
Theorem memmove_correct (m : mem) (dest src n : Z)
    (Hn : 0 ≤ n) (Hd : mapped m dest n) (Hs : mapped m src n) :
  ∃ m', memmove m dest src n = Done m' ∧
        overwritten m m' dest n (λ i, m !! (src + i)).
Proof.
  unfold memmove. destruct (Z.ltb_spec dest src); [|destruct (Z.ltb_spec src dest)].
  - apply copy_forward; auto; lia.
  - apply copy_backward; auto; lia.
  - assert (dest = src) as -> by lia. exists m. split; [done|].
    intros a. case_bool_decide; [|done]. f_equal. lia.
Qed.

Definition small_mem : mem := list_to_map (zip (seqZ 0 8) [1; 2; 3; 4; 5; 6; 7; 8]).

Lemma small_mem_mapped a n : bool_decide (0 ≤ a ∧ a + n ≤ 8) = true → mapped small_mem a n.
Proof.
  intros [? ?]%bool_decide_eq_true i Hi.
  assert (i = 0 ∨ i = 1 ∨ i = 2 ∨ i = 3 ∨ i = 4 ∨ i = 5 ∨ i = 6 ∨ i = 7) by lia.
  destruct_or!; subst; by eexists.
Qed.

Lemma memmove_correct_witness :
  memmove small_mem 2 0 5 =
    Done (list_to_map (zip (seqZ 0 8) [1; 2; 1; 2; 3; 4; 5; 8])) ∧
  ∃ m', memmove small_mem 2 0 5 = Done m' ∧
        overwritten small_mem m' 2 5 (λ i, small_mem !! (0 + i)).
Proof.
  split; [vm_compute; reflexivity|].
  apply (memmove_correct small_mem 2 0 5); [lia|by apply small_mem_mapped..].
Defined.

Lemma bytes_ok_overwritten m0 m m' to n f :
  bytes_ok m0 → bytes_ok m → overwritten m m' to n f →
  (∀ i b, f i = Some b → ∃ a, m0 !! a = Some b) → bytes_ok m'.
Proof.
  intros H0 Hm Ho Hf a b Hb. rewrite Ho in Hb. case_bool_decide.
  - destruct (Hf _ _ Hb) as [a' Ha']. by apply (H0 a').
  - by apply (Hm a).
Qed.

(** Running the word copy and then the tail is one overwrite. *)
Lemma overwritten_app m m1 m2 to n k f :
  0 ≤ n → 0 ≤ k →
  overwritten m m1 to n f → overwritten m1 m2 (to + n) k (λ i, f (n + i)) →
  overwritten m m2 to (n + k) f.
Proof.
  intros ?? H1 H2 a. rewrite H2, H1.
  repeat case_bool_decide; try lia; try done. f_equal. lia.
Qed.

(** The words of [liballoc_memcpy]. *)
Lemma word_copy_spec (m : mem) (s1 s2 n q : Z) :
  bytes_ok m → 0 ≤ q → 4 * q ≤ n → mapped m s1 n → mapped m s2 n →
  s1 + n ≤ s2 ∨ s2 + n ≤ s1 →
  ∃ m1, for_loop (Z.to_nat q) 0
      (λ k m, w ← load32 m (s2 + 4 * k); store32 m (s1 + 4 * k) w) m = Done m1 ∧
    overwritten m m1 s1 (4 * q) (λ i, m !! (s2 + i)).
Proof.
  intros Hok Hq Hqn Hd Hs Hdisj.
  destruct (for_loop_inv
    (λ k m', overwritten m m' s1 (4 * k) (λ i, m !! (s2 + i)))
    (Z.to_nat q) 0
    (λ k m, w ← load32 m (s2 + 4 * k); store32 m (s1 + 4 * k) w) m)
    as (m1 & Hl & H1); [apply overwritten_nil| |].
  { intros k ma Hk Hma.
    assert (mapped ma s1 n) as Hd1.
    { eapply overwritten_mapped; [done| |done]. intros. apply Hs. lia. }
    assert (mapped ma s2 n) as Hs1.
    { eapply overwritten_mapped; [done| |done]. intros. apply Hs. lia. }
    destruct (load_le_total 4 ma (s2 + 4 * k)) as [w Hw];
      [eapply mapped_mono; [exact Hs1|lia..]|].
    destruct (store_le_total 4 ma (s1 + 4 * k) w) as [mb Hmb];
      [eapply mapped_mono; [exact Hd1|lia..]|].
    exists mb. unfold load32, store32. rewrite Hw. split; [done|].
    replace (4 * (k + 1)) with (4 * k + 4) by lia.
    eapply overwritten_app; [lia..|done|].
    assert (bytes_ok ma) as Hoka.
    { apply (bytes_ok_overwritten m m _ s1 (4 * k) (λ i, m !! (s2 + i))); eauto. }
    pose proof (copy_word 4 ma _ _ _ _ Hoka Hw Hmb) as Hc.
    change (Z.of_nat 4) with 4 in Hc.
    intros a. rewrite Hc. case_bool_decide; [|done].
    rewrite (overwritten_out _ _ _ _ _ _ Hma) by lia. f_equal. lia. }
  exists m1. split; [done|]. by replace q with (0 + Z.of_nat (Z.to_nat q)) by lia.
Qed.

Lemma liballoc_memcpy_spec (m : mem) (s1 s2 n : Z) :
  bytes_ok m → 0 ≤ n → mapped m s1 n → mapped m s2 n → s1 + n ≤ s2 ∨ s2 + n ≤ s1 →
  ∃ m', liballoc_memcpy m s1 s2 n = Done m' ∧ overwritten m m' s1 n (λ i, m !! (s2 + i)).
Proof.
  intros Hok Hn Hd Hs Hdisj. unfold liballoc_memcpy.
  set (q := n / 4). assert (0 ≤ q ∧ 4 * q ≤ n ∧ n mod 4 = n - 4 * q) as (?&?&Hrem)
    by (subst q; zlia).
  destruct (word_copy_spec m s1 s2 n q) as (m1 & -> & H1); [done..|].
  cbn [mbind res_bind]. rewrite Hrem.
  destruct (copy_forward m1 (s1 + 4 * q) (s2 + 4 * q) (n - 4 * q))
    as (m2 & Hm2 & H2); [lia| | |lia|].
  { eapply overwritten_mapped; [exact H1| |].
    - intros. apply Hs. lia.
    - eapply mapped_mono; [exact Hd|lia..]. }
  { eapply overwritten_mapped; [exact H1| |].
    - intros. apply Hs. lia.
    - eapply mapped_mono; [exact Hs|lia..]. }
  exists m2. split; [exact Hm2|].
  replace n with (4 * q + (n - 4 * q)) by lia.
  eapply overwritten_app; [lia..|exact H1|].
  intros a. rewrite H2. case_bool_decide; [|done].
  rewrite (overwritten_out _ _ _ _ _ _ H1) by lia. f_equal. lia.
Qed.

Lemma liballoc_memset_spec m s c n :
  0 ≤ n → mapped m s n →
  ∃ m', liballoc_memset m s c n = Done m' ∧ overwritten m m' s n (λ _, Some (u8 c)).
Proof. apply memset_spec. Qed.

(** C38: the word-at-a-time copy [realloc] uses gives exactly the
    memory that the byte-at-a-time [memcpy] gives, on disjoint ranges. *)
Theorem liballoc_memcpy_is_memcpy (m : mem) (s1 s2 n : Z)
    (Hok : bytes_ok m) (Hn : 0 ≤ n) (Hd : mapped m s1 n) (Hs : mapped m s2 n)
    (Hdisj : s1 + n ≤ s2 ∨ s2 + n ≤ s1) :
  ∃ m', liballoc_memcpy m s1 s2 n = Done m' ∧ memcpy m s1 s2 n = Done m'.
Proof.
  destruct (memcpy_spec m s1 s2 n) as (m' & Hr & Ho); [done..|lia|].
  destruct (liballoc_memcpy_spec m s1 s2 n) as (m2 & Hr2 & Ho2); [done..|].
  exists m'. split; [|done]. rewrite Hr2. f_equal. by eapply overwritten_unique.
Qed.

Lemma small_mem_bytes_ok : bytes_ok small_mem.
Proof.
  unfold small_mem. simpl. repeat apply bytes_ok_insert; try (simpl; lia).
  apply map_Forall_empty.
Qed.

Lemma liballoc_memcpy_is_memcpy_witness :
  ∃ m', liballoc_memcpy small_mem 3 0 3 = Done m' ∧ memcpy small_mem 3 0 3 = Done m'.
Proof.
  apply (liballoc_memcpy_is_memcpy small_mem 3 0 3);
    [apply small_mem_bytes_ok|lia|by apply small_mem_mapped..|lia].
Defined.
