(* ===== verification/Lock.v ===== *)
(** * Spin locks, [lib/lock.h]

    The two primitives over the lock byte, what a call does on the one CPU the
    kernel runs ([lock] / [release]: a held lock spins for ever), and the
    interleaving semantics of several CPUs taking one lock, as a step relation
    on thread states, with mutual exclusion. *)

From S2P Require Import Prelude.
From stdpp Require Import relations fin_maps.

(** [__atomic_test_and_set]: the old value, and the new one. *)
Definition test_and_set (l : bool) : bool * bool := (l, true).

(** One evaluation of the loop condition of [spin_lock]: [None] when the loop
    goes round again, the lock's new value in both cases. *)
Definition spin_lock_iter (l : bool) : option unit * bool :=
  let '(old, new) := test_and_set l in (if old then None else Some tt, new).

Definition spin_release (l : bool) : bool := false.

(** A call on a single CPU, where nobody else can release the lock while the
    loop runs: it returns at the first iteration or never. *)
Definition spin_lock (l : bool) : res bool :=
  match spin_lock_iter l with
  | (Some tt, l') => Done l'
  | (None, _) => Hang
  end.

Lemma spin_lock_free : spin_lock false = Done true.
Proof. done. Qed.

(** ** Several CPUs *)

(** Where a CPU is: outside, in the loop of [spin_lock], or between the return
    of [spin_lock] and [spin_release]. *)
Inductive pc : Set := Outside | Spinning | Critical.

#[global] Instance pc_eq_dec : EqDecision pc.
Proof. solve_decision. Defined.

Record lstate : Type := LState {
  held : bool;
  cpus : gmap nat pc;
}.

Inductive lstep : lstate → lstate → Prop :=
  | step_enter l ts t :
      ts !! t = Some Outside →
      lstep (LState l ts) (LState l (<[t := Spinning]> ts))
  | step_spin l ts t l' :
      ts !! t = Some Spinning → spin_lock_iter l = (None, l') →
      lstep (LState l ts) (LState l' ts)
  | step_acquire l ts t l' :
      ts !! t = Some Spinning → spin_lock_iter l = (Some tt, l') →
      lstep (LState l ts) (LState l' (<[t := Critical]> ts))
  | step_release l ts t :
      ts !! t = Some Critical →
      lstep (LState l ts) (LState (spin_release l) (<[t := Outside]> ts)).

(** Boot: the static lock is 0 and every CPU is outside. *)
Definition linit (s : lstate) : Prop :=
  held s = false ∧ map_Forall (λ _ p, p = Outside) (cpus s).

(** At most one CPU is in the critical section, and then the lock is held. *)
Definition linv (s : lstate) : Prop :=
  (∀ t, cpus s !! t = Some Critical → held s = true) ∧
  (∀ t u, cpus s !! t = Some Critical → cpus s !! u = Some Critical → t = u) ∧
  (held s = true → ∃ t, cpus s !! t = Some Critical).

Lemma linit_linv s : linit s → linv s.
Proof.
  intros [Hl Ho]. split_and!.
  - intros t Ht%Ho. done.
  - intros t u Ht%Ho. done.
  - congruence.
Qed.

Lemma lookup_other_pc (ts : gmap nat pc) t u p q :
  <[t := p]> ts !! u = Some q → p ≠ q → t ≠ u ∧ ts !! u = Some q.
Proof.
  intros Hu Hne. destruct (decide (t = u)) as [->|].
  - rewrite lookup_insert_eq in Hu. congruence.
  - by rewrite lookup_insert_ne in Hu.
Qed.

Lemma linv_step s s' : linv s → lstep s s' → linv s'.
Proof.
  intros (H1 & H2 & H3) Hs. destruct Hs as [l ts t Ht|l ts t l' Ht Hi|l ts t l' Ht Hi|l ts t Ht];
    simpl in *.
  - split_and!; simpl.
    + intros u [_ Hu]%lookup_other_pc; [|done]. eauto.
    + intros u v [_ Hu]%lookup_other_pc [_ Hv]%lookup_other_pc; [|done..]. eauto.
    + intros [u Hu]%H3. exists u. rewrite lookup_insert_ne; [done|congruence].
  - destruct l; [|done]. injection Hi as <-. split_and!; eauto.
  - destruct l; [done|]. injection Hi as <-.
    assert (∀ u, ts !! u ≠ Some Critical) as Hno by (by intros u Hu%H1).
    split_and!; simpl; [done| |].
    + intros u v Hu Hv. destruct (decide (t = u)) as [<-|], (decide (t = v)) as [<-|];
        [done|rewrite lookup_insert_ne in Hv by done; by destruct (Hno v)
         |rewrite lookup_insert_ne in Hu by done; by destruct (Hno u)..].
    + intros _. exists t. by rewrite lookup_insert_eq.
  - split_and!; simpl.
    + intros u [Hne Hu]%lookup_other_pc; [|done]. by destruct Hne; eauto.
    + intros u v [Hne Hu]%lookup_other_pc; [|done]. by destruct Hne; eauto.
    + done.
Qed.

Lemma linv_reachable s s' : linv s → rtc lstep s s' → linv s'.
Proof. intros Hs Hr. induction Hr; [done|]. eauto using linv_step. Qed.

(** C29: mutual exclusion. From boot, whatever the interleaving of the
    CPUs' steps, two CPUs are never both between [spin_lock] and
    [spin_release]; and a CPU there implies the lock byte is set. *)
Theorem spin_lock_mutual_exclusion (s s' : lstate) (t u : nat)
    (Hinit : linit s) (Hreach : rtc lstep s s')
    (Ht : cpus s' !! t = Some Critical) (Hu : cpus s' !! u = Some Critical) :
  t = u ∧ held s' = true.
Proof.
  destruct (linv_reachable s s') as (H1 & H2 & _); [by apply linit_linv|done|]. eauto.
Qed.

Definition two_cpus : lstate := LState false {[0%nat := Outside; 1%nat := Outside]}.

Lemma two_cpus_init : linit two_cpus.
Proof.
  split; [done|]. apply map_Forall_insert_2; [done|]. by apply map_Forall_singleton.
Qed.

Lemma spin_lock_mutual_exclusion_witness :
  ∃ s, rtc lstep two_cpus s ∧ cpus s !! 1%nat = Some Critical ∧
    cpus s !! 0%nat = Some Spinning ∧ held s = true.
Proof.
  set (s := LState true {[0%nat := Spinning; 1%nat := Critical]}).
  assert (rtc lstep two_cpus s) as Hr.
  { eapply rtc_l; [by apply (step_enter _ _ 0%nat)|].
    eapply rtc_l; [by apply (step_enter _ _ 1%nat)|].
    eapply rtc_l; [by eapply (step_acquire _ _ 1%nat)|].
    eapply rtc_l; [by eapply (step_spin _ _ 0%nat)|].
    apply rtc_refl. }
  exists s. split; [done|]. split; [done|]. split; [done|].
  apply (spin_lock_mutual_exclusion two_cpus s 1%nat 1%nat two_cpus_init Hr); done.
Defined.

(** No lost release. Whenever the lock byte is clear, a CPU in
    the loop of [spin_lock] can take its next step into the critical section;
    and whenever it is set some CPU is there to clear it. *)
Theorem spin_lock_progress (s s' : lstate) (t : nat)
    (Hinit : linit s) (Hreach : rtc lstep s s') (Ht : cpus s' !! t = Some Spinning) :
  (held s' = false ∧ lstep s' (LState true (<[t := Critical]> (cpus s')))) ∨
  (held s' = true ∧ ∃ u, cpus s' !! u = Some Critical ∧
     lstep s' (LState false (<[u := Outside]> (cpus s')))).
Proof.
  destruct (linv_reachable s s') as (_ & _ & H3); [by apply linit_linv|done|].
  destruct s' as [[] ts]; simpl in *; [right|left].
  - split; [done|]. destruct H3 as [u Hu]; [done|]. exists u. split; [done|].
    by apply (step_release true).
  - split; [done|]. by eapply (step_acquire false).
Qed.

Lemma spin_lock_progress_witness :
  let ts : gmap nat pc := {[0%nat := Spinning; 1%nat := Outside]} in
  lstep (LState false ts) (LState true (<[0%nat := Critical]> ts)).
Proof.
  set (ts := {[0%nat := Spinning; 1%nat := Outside]} : gmap nat pc).
  destruct (spin_lock_progress two_cpus (LState false ts) 0) as [[_ H]|[H _]];
    [| | |exact H|discriminate H].
  - apply two_cpus_init.
  - apply rtc_once. by apply (step_enter false (cpus two_cpus) 0%nat).
  - done.
Defined.
