(* ===== verification/Arch.v ===== *)
(** * Constants of [kernel/arch] and the kernel's view of physical memory

    [src/src/kernel/arch/arch.h] and [src/src/kernel/arch/memory.h]: the page
    size and the two windows through which the kernel reaches physical memory. *)

From S2P Require Import Prelude CInt.

(** ** Constants and the kernel's view of physical memory *)

Definition PAGE_SIZE : Z := 4096.
Definition USER_STACK_TOP : Z := 2 ^ 47 - 8192.
Definition STACK_SIZE : Z := 0x4000.
Definition MMAP_IO_BASE : Z := 0xffff800000000000.
Definition MMAP_KERNEL_BASE : Z := 0xffffffff80000000.

(** The physical address behind a kernel pointer: the two windows that
    [vmm_initialize] maps, and the identity mapping below them. *)
Definition phys_of (va : Z) : Z :=
  if MMAP_KERNEL_BASE <=? va then va - MMAP_KERNEL_BASE
  else if MMAP_IO_BASE <=? va then va - MMAP_IO_BASE
  else va.

(** Physical addresses the direct window can name. *)
Definition phys_ok (p : Z) : Prop := 0 ≤ p < MMAP_KERNEL_BASE - MMAP_IO_BASE.

Lemma phys_of_io p : phys_ok p → phys_of (u64 (p + MMAP_IO_BASE)) = p.
Proof.
  unfold phys_ok, phys_of, MMAP_KERNEL_BASE, MMAP_IO_BASE. intros Hp.
  rewrite u64_id by (simpl; lia).
  destruct (Z.leb_spec 0xffffffff80000000 (p + 0xffff800000000000)); [lia|].
  destruct (Z.leb_spec 0xffff800000000000 (p + 0xffff800000000000)); lia.
Qed.

(** The three ways the kernel points at a frame: its physical address, and its
    address in either window. *)
Lemma phys_of_id p : 0 ≤ p < MMAP_IO_BASE → phys_of (u64 p) = p.
Proof.
  unfold phys_of, MMAP_KERNEL_BASE, MMAP_IO_BASE. intros Hp.
  rewrite u64_id by (simpl; lia).
  destruct (Z.leb_spec 0xffffffff80000000 p); [lia|].
  destruct (Z.leb_spec 0xffff800000000000 p); lia.
Qed.

Lemma phys_of_kernel p : 0 ≤ p < 2 ^ 31 → phys_of (u64 (p + MMAP_KERNEL_BASE)) = p.
Proof.
  unfold phys_of, MMAP_KERNEL_BASE, MMAP_IO_BASE. intros Hp.
  rewrite u64_id by (simpl; lia).
  destruct (Z.leb_spec 0xffffffff80000000 (p + 0xffffffff80000000)); lia.
Qed.

(** ** Model specific registers

    [asm_write_msr] ([src/src/kernel/arch/asm.h]) hands its value to the processor in
    two registers; what the processor puts together from them. *)
Definition asm_write_msr (value : Z) : Z :=
  let edx := u32 (Z.shiftr value 32) in
  let eax := u32 value in
  Z.lor (Z.shiftl edx 32) eax.

Lemma asm_write_msr_value v : is_u64 v → asm_write_msr v = v.
Proof.
  unfold is_u64, asm_write_msr, u32. intros Hv.
  rewrite Z.shiftr_div_pow2, Z.shiftl_mul_pow2, (Z.mod_small (v / 2 ^ 32)) by zlia.
  pose proof (Z.mod_pos_bound v (2 ^ 32)). rewrite (lor_low_high (v / 2 ^ 32 * 2 ^ 32) (v mod 2 ^ 32) 32);
    [zlia|lia|by apply Z.mod_mul|lia].
Qed.
