(* ===== verification/Boot.v ===== *)
(** * Boot information and kernel globals

    The entries of the stivale2 memory map ([src/src/kernel/stivale2.h]), and the
    globals of [src/src/kernel/bootstrap.c] with their accessors. *)

From S2P Require Import Prelude.

(** ** Memory map *)

Definition STIVALE2_MMAP_USABLE : Z := 1.
Definition STIVALE2_MMAP_BOOTLOADER_RECLAIMABLE : Z := 0x1000.
Definition STIVALE2_MMAP_KERNEL_AND_MODULES : Z := 0x1001.

Record mmap_entry : Type := MmapEntry {
  e_base : Z;
  e_length : Z;
  e_type : Z;
}.

Definition usable (e : mmap_entry) : bool := e_type e =? STIVALE2_MMAP_USABLE.

(** ** Globals *)

Record globals : Type := Globals {
  do_nerd_logs : bool;
  errno : Z;
}.

Definition nerd_logs (g : globals) : bool := do_nerd_logs g.
Definition set_errno (val : Z) (g : globals) : globals := Globals (do_nerd_logs g) val.
Definition get_errno (g : globals) : Z := errno g.
