(* ===== verification/Abi.v ===== *)
(** * Constants of the system call interface

    [src/src/lib/abi.h], [src/src/lib/errno.h] and
    [src/src/kernel/syscalls.h]: the values the modelled code uses. *)

From S2P Require Import Prelude.

Definition O_RDWR : Z := 3.
Definition O_APPEND : Z := 0x0008.
Definition O_CREAT : Z := 0x0010.
Definition O_DIRECTORY : Z := 0x0020.

Definition EINVAL : Z := 1026.
Definition EISDIR : Z := 1029.
Definition ENOENT : Z := 1043.

Definition SYSCALL_LOG : Z := 0.
Definition SYSCALL_MMAP : Z := 1.
Definition SYSCALL_SET_FS_BASE : Z := 2.
Definition SYSCALL_OPENAT : Z := 3.
Definition SYSCALL_READ : Z := 4.
Definition SYSCALL_WRITE : Z := 5.
Definition SYSCALL_CLOSE : Z := 6.
Definition SYSCALL_SEEK : Z := 7.
Definition SYSCALL_EXIT : Z := 8.
Definition SYSCALL_EXECVE : Z := 9.
