(* ===== verification/Pmm.v ===== *)
(** * The physical memory manager, [kernel/arch/memory/pmm.c]

    A bit map with one bit per 4 KiB frame (1 = in use).  [pmm] is the file's
    static state; the bit map is an object of [bitmap_size] bytes at
    [bitmap_data], and touching it outside is a [Fault].  [free_set] is the
    abstraction: the frames whose bit is clear. *)

From S2P Require Import Prelude CInt Mem Arch Boot.

(** ** Static state *)

Record pmm : Type := Pmm {
  highest_page : Z;
  usable_pages : Z;
  bitmap_data : Z;
  bitmap : list Z;
  bitmap_size : Z;
}.

Definition set_bitmap (st : pmm) (bm : list Z) (usable : Z) : pmm :=
  Pmm (highest_page st) usable (bitmap_data st) bm (bitmap_size st).

(** ** [BIT_SET], [BIT_CLEAR], [BIT_TEST] *)

Definition BIT_SET (bit : Z) (map : list Z) : res (list Z) :=
  b ← of_option (map !!z (bit / 8));
  Done (<[bit / 8 :=z u8 (Z.lor b (Z.shiftl 1 (bit mod 8)))]> map).

Definition BIT_CLEAR (bit : Z) (map : list Z) : res (list Z) :=
  b ← of_option (map !!z (bit / 8));
  Done (<[bit / 8 :=z u8 (Z.land b (Z.lnot (Z.shiftl 1 (bit mod 8))))]> map).

Definition BIT_TEST (bit : Z) (map : list Z) : res Z :=
  b ← of_option (map !!z (bit / 8));
  Done (Z.land (Z.shiftr b (bit mod 8)) 1).

(** ** Operations *)

Definition clear_page (st : pmm) (addr : Z) : res pmm :=
  bm ← BIT_CLEAR (addr / PAGE_SIZE) (bitmap st);
  Done (set_bitmap st bm (u64 (usable_pages st + 1))).

Definition set_page (st : pmm) (addr : Z) : res pmm :=
  bm ← BIT_SET (addr / PAGE_SIZE) (bitmap st);
  Done (set_bitmap st bm (u64 (usable_pages st - 1))).

Definition set_pages (st : pmm) (addr page_count : Z) : res pmm :=
  for_loop (Z.to_nat page_count) 0
    (λ i st, set_page st (u64 (addr + i * PAGE_SIZE))) st.

Definition pmm_free (st : pmm) (addr pages : Z) : res pmm :=
  for_loop (Z.to_nat pages) 0
    (λ i st, clear_page st (u64 (addr + i * PAGE_SIZE))) st.

(** The inner loop of [pmm_allocate]: [true] when it reaches
    [j == pages - 1], [false] when it breaks or runs out. *)
Fixpoint try_run (n : nat) (i j pages : Z) (bm : list Z) : res bool :=
  match n with
  | O => Done false
  | S n =>
      t ← BIT_TEST i bm;
      if negb (t =? 0) then Done false
      else if j =? pages - 1 then Done true
      else try_run n i (j + 1) pages bm
  end.

(** The outer loop, from frame [i] on. *)
Fixpoint scan (n : nat) (i pages : Z) (st : pmm) : res (Z * pmm) :=
  match n with
  | O => Done (0, st)
  | S n =>
      found ← try_run (Z.to_nat pages) i 0 pages (bitmap st);
      if found : bool then
        let ret := i * PAGE_SIZE in
        st' ← set_pages st ret pages; Done (ret, st')
      else scan n (i + 1) pages st
  end.

Definition pmm_allocate (st : pmm) (pages : Z) : res (Z * pmm) :=
  if bitmap_size st <? pages then Done (0, st)
  else scan (Z.to_nat (highest_page st / PAGE_SIZE)) 0 pages st.

(** [memset] reaches the frames through the window at [MMAP_IO_BASE]. *)
Definition pmm_allocate_zero (m : mem) (st : pmm) (pages : Z)
    : res (Z * (mem * pmm)) :=
  '(ret, st') ← pmm_allocate st pages;
  m' ← memset m (phys_of (u64 (ret + MMAP_IO_BASE))) 0 (u64 (pages * PAGE_SIZE));
  Done (ret, (m', st')).

(** ** Initialisation *)

Fixpoint find_highest (entries : list mmap_entry) (highest : Z) : Z :=
  match entries with
  | [] => highest
  | e :: rest =>
      if negb (e_type e =? STIVALE2_MMAP_USABLE) &&
         negb (e_type e =? STIVALE2_MMAP_BOOTLOADER_RECLAIMABLE) &&
         negb (e_type e =? STIVALE2_MMAP_KERNEL_AND_MODULES)
      then find_highest rest highest
      else
        let top := u64 (e_base e + e_length e) in
        find_highest rest (if highest <? top then top else highest)
  end.

(** The second loop: the first usable entry that is long enough gives up its
    start to the bit map; [None] leaves [bitmap.data] NULL. *)
Fixpoint place_bitmap (entries : list mmap_entry) (size : Z)
    : option Z * list mmap_entry :=
  match entries with
  | [] => (None, [])
  | e :: rest =>
      if usable e && (size <=? e_length e) then
        (Some (u64 (e_base e + MMAP_IO_BASE)),
         MmapEntry (u64 (e_base e + size)) (u64 (e_length e - size)) (e_type e) :: rest)
      else
        let '(d, rest') := place_bitmap rest size in (d, e :: rest')
  end.

(** The third loop. *)
Fixpoint free_usable (entries : list mmap_entry) (st : pmm) : res pmm :=
  match entries with
  | [] => Done st
  | e :: rest =>
      if usable e then
        st' ← pmm_free st (e_base e) (e_length e / PAGE_SIZE);
        free_usable rest st'
      else free_usable rest st
  end.

(** Returns the manager and the memory map, whose entry for the bit map the
    code has shortened.  [memset] of a NULL [bitmap.data] is a [Fault]. *)
Definition pmm_initialize (entries : list mmap_entry)
    : res (pmm * list mmap_entry) :=
  let highest := find_highest entries 0 in
  let bitmap_size :=
    ALIGN_UP (ALIGN_DOWN highest PAGE_SIZE / PAGE_SIZE / 8) PAGE_SIZE in
  if bitmap_size =? 0 then Hang
  else
    let '(data, entries') := place_bitmap entries bitmap_size in
    data ← of_option data;
    let st := Pmm highest 0 data (replicate (Z.to_nat bitmap_size) 0xff) bitmap_size in
    st' ← free_usable entries' st;
    Done (st', entries').

(** ** The abstraction *)

(** The bit of frame [f]. *)
Definition frame_bit (bm : list Z) (f : Z) : option bool :=
  if bool_decide (0 ≤ f) then (λ b, Z.testbit b (f mod 8)) <$> bm !!z (f / 8)
  else None.

Definition free_set (st : pmm) : gset Z :=
  list_to_set (filter (λ f, frame_bit (bitmap st) f = Some false)
                 (seqZ 0 (8 * length_z (bitmap st)))).

(** The frame first fit picks: the least free one below the top of memory. *)
Definition first_free (free : gset Z) (frames : Z) : option Z :=
  head (filter (λ f, f ∈ free) (seqZ 0 frames)).

(** The frames [f, f + 1, .., f + n - 1]. *)
Definition run (f n : Z) : gset Z := list_to_set (seqZ f n).

Record pmm_wf (st : pmm) : Prop := PmmWf {
  wf_bytes : Forall is_u8 (bitmap st);
  wf_length : length_z (bitmap st) = bitmap_size st;
  wf_highest : is_u64 (highest_page st);
  wf_covers : highest_page st / PAGE_SIZE ≤ 8 * bitmap_size st;
  wf_size : bitmap_size st < 2 ^ 48;
}.

(** *** Bits and bit-map bytes *)

Section bitmap.
Implicit Types (bm : list Z) (f g : Z).

Lemma frame_bit_range bm f v :
  frame_bit bm f = Some v → 0 ≤ f < 8 * length_z bm.
Proof.
  unfold frame_bit. case_bool_decide; [|done].
  intros (b & [Hb _]%lookup_z_Some & _)%fmap_Some. zlia.
Qed.

Lemma frame_bit_total bm f :
  0 ≤ f < 8 * length_z bm → ∃ v, frame_bit bm f = Some v.
Proof.
  intros Hf. unfold frame_bit. rewrite bool_decide_true by lia.
  destruct (proj2 (lookup_z_is_Some bm (f / 8))) as [b Hb]; [zlia|].
  rewrite Hb. simpl. eauto.
Qed.

Lemma lookup_z_u8 bm i b : Forall is_u8 bm → bm !!z i = Some b → is_u8 b.
Proof.
  intros Hb [_ Hl]%lookup_z_Some. by eapply Forall_lookup_1 in Hl.
Qed.

(** The byte update the two macros share. *)
Lemma frame_bit_update bm f b b' (v : bool) g :
  0 ≤ f → bm !!z (f / 8) = Some b →
  (∀ k, Z.testbit b' k = if decide (k = f mod 8) then v else Z.testbit b k) →
  frame_bit (<[f / 8 :=z b']> bm) g = if decide (g = f) then Some v else frame_bit bm g.
Proof.
  intros Hf Hb Hb'. pose proof (lookup_z_Some _ _ _ Hb) as [Hr _].
  unfold frame_bit. case_bool_decide; [|by case_decide; [lia|]].
  destruct (decide (g / 8 = f / 8)) as [Hq|Hq].
  - rewrite Hq, lookup_insert_z_eq, Hb by lia. simpl. rewrite Hb'.
    destruct (decide (g = f)) as [->|]; [by rewrite decide_True|].
    rewrite decide_False; [done|]. zlia.
  - rewrite lookup_insert_z_ne by done. rewrite decide_False; [done|].
    intros ->. done.
Qed.

Lemma Forall_insert_z bm i b : Forall is_u8 bm → is_u8 b → Forall is_u8 (<[i :=z b]> bm).
Proof.
  intros. unfold insert_z. case_bool_decide; [|done]. by apply Forall_insert.
Qed.

Lemma BIT_SET_spec bm f :
  Forall is_u8 bm → 0 ≤ f < 8 * length_z bm →
  ∃ bm', BIT_SET f bm = Done bm' ∧ Forall is_u8 bm' ∧ length_z bm' = length_z bm ∧
    ∀ g, frame_bit bm' g = if decide (g = f) then Some true else frame_bit bm g.
Proof.
  intros Hu Hf. unfold BIT_SET.
  destruct (proj2 (lookup_z_is_Some bm (f / 8))) as [b Hb]; [zlia|].
  pose proof (lookup_z_u8 _ _ _ Hu Hb) as Hb8.
  rewrite Hb. eexists. split_and!; [done| |apply length_insert_z|].
  - apply Forall_insert_z; [done|]. apply u8_range.
  - intros g. apply frame_bit_update with b; [lia|done|].
    intros k. apply testbit_byte_set; [zlia|done].
Qed.

Lemma BIT_CLEAR_spec bm f :
  Forall is_u8 bm → 0 ≤ f < 8 * length_z bm →
  ∃ bm', BIT_CLEAR f bm = Done bm' ∧ Forall is_u8 bm' ∧ length_z bm' = length_z bm ∧
    ∀ g, frame_bit bm' g = if decide (g = f) then Some false else frame_bit bm g.
Proof.
  intros Hu Hf. unfold BIT_CLEAR.
  destruct (proj2 (lookup_z_is_Some bm (f / 8))) as [b Hb]; [zlia|].
  pose proof (lookup_z_u8 _ _ _ Hu Hb) as Hb8.
  rewrite Hb. eexists. split_and!; [done| |apply length_insert_z|].
  - apply Forall_insert_z; [done|]. apply u8_range.
  - intros g. apply frame_bit_update with b; [lia|done|].
    intros k. apply testbit_byte_clear; [zlia|done].
Qed.

Lemma BIT_TEST_spec bm f v :
  frame_bit bm f = Some v → BIT_TEST f bm = Done (Z.b2z v).
Proof.
  unfold frame_bit, BIT_TEST. case_bool_decide; [|done].
  intros (b & Hb & ->)%fmap_Some. rewrite Hb. simpl.
  rewrite shiftr_land_1 by zlia. done.
Qed.
End bitmap.

(** *** Frames *)

Section frames.
Implicit Types (st : pmm) (f : Z).

Lemma elem_of_free_set st f :
  f ∈ free_set st ↔ frame_bit (bitmap st) f = Some false.
Proof.
  unfold free_set. rewrite elem_of_list_to_set, list_elem_of_filter, elem_of_seqZ.
  split; [tauto|]. intros H. pose proof (frame_bit_range _ _ _ H). split; [done|lia].
Qed.

Lemma elem_of_run f n g : g ∈ run f n ↔ f ≤ g < f + n.
Proof. unfold run. rewrite elem_of_list_to_set, elem_of_seqZ. lia. Qed.

Lemma run_0 f : run f 0 = ∅.
Proof. done. Qed.
Lemma run_1 f : run f 1 = {[f]}.
Proof. apply set_eq. intros g. rewrite elem_of_run, elem_of_singleton. lia. Qed.

Lemma free_set_range st f :
  pmm_wf st → f ∈ free_set st → 0 ≤ f < 8 * bitmap_size st.
Proof.
  intros Hwf Hf. apply elem_of_free_set, frame_bit_range in Hf.
  by rewrite (wf_length _ Hwf) in Hf.
Qed.

(** Everything but the two mutable fields is left alone. *)
Definition same_frame (st st' : pmm) : Prop :=
  highest_page st' = highest_page st ∧ bitmap_data st' = bitmap_data st ∧
  bitmap_size st' = bitmap_size st.

#[global] Instance same_frame_po : PreOrder same_frame.
Proof. split; [done|]. intros a b c (?&?&?) (?&?&?). repeat split; congruence. Qed.

Lemma page_frame f i :
  0 ≤ f → 0 ≤ i → f + i < 2 ^ 51 →
  u64 (f * PAGE_SIZE + i * PAGE_SIZE) / PAGE_SIZE = f + i.
Proof.
  intros. rewrite <-Z.mul_add_distr_r, u64_id by (unfold PAGE_SIZE; simpl; lia).
  apply Z.div_mul. done.
Qed.

Lemma set_page_spec st f addr :
  pmm_wf st → addr / PAGE_SIZE = f → 0 ≤ f < 8 * bitmap_size st →
  ∃ st', set_page st addr = Done st' ∧ pmm_wf st' ∧ same_frame st st' ∧
    free_set st' = free_set st ∖ {[f]} ∧ usable_pages st' = u64 (usable_pages st - 1).
Proof.
  intros Hwf Hd Hf. destruct (BIT_SET_spec (bitmap st) f) as (bm & Hr & Hu & Hl & Hb).
  { apply Hwf. } { by rewrite (wf_length _ Hwf). }
  unfold set_page. rewrite Hd, Hr. eexists.
  split_and!; [done| |done| |done].
  - destruct Hwf. split; simpl in *; (done || congruence).
  - apply set_eq. intros g. rewrite elem_of_difference, elem_of_singleton.
    rewrite !elem_of_free_set. simpl. rewrite Hb. case_decide; intuition congruence.
Qed.

Lemma clear_page_spec st f addr :
  pmm_wf st → addr / PAGE_SIZE = f → 0 ≤ f < 8 * bitmap_size st →
  ∃ st', clear_page st addr = Done st' ∧ pmm_wf st' ∧ same_frame st st' ∧
    free_set st' = free_set st ∪ {[f]} ∧ usable_pages st' = u64 (usable_pages st + 1).
Proof.
  intros Hwf Hd Hf. destruct (BIT_CLEAR_spec (bitmap st) f) as (bm & Hr & Hu & Hl & Hb).
  { apply Hwf. } { by rewrite (wf_length _ Hwf). }
  unfold clear_page. rewrite Hd, Hr. eexists.
  split_and!; [done| |done| |done].
  - destruct Hwf. split; simpl in *; (done || congruence).
  - apply set_eq. intros g. rewrite elem_of_union, elem_of_singleton.
    rewrite !elem_of_free_set. simpl. rewrite Hb. case_decide; intuition congruence.
Qed.

Lemma set_pages_spec st f n :
  pmm_wf st → 0 ≤ f → 1 ≤ n → f + n ≤ 8 * bitmap_size st →
  ∃ st', set_pages st (f * PAGE_SIZE) n = Done st' ∧ pmm_wf st' ∧ same_frame st st' ∧
    free_set st' = free_set st ∖ run f n ∧ usable_pages st' = u64 (usable_pages st - n).
Proof.
  intros Hwf Hf Hn Hb. pose proof (wf_size _ Hwf) as Hsz.
  destruct (for_loop_inv (λ k st', pmm_wf st' ∧ same_frame st st' ∧
     free_set st' = free_set st ∖ run f k ∧
     (k = 0 ∧ st' = st ∨ usable_pages st' = u64 (usable_pages st - k)))
    (Z.to_nat n) 0 (λ i st, set_page st (u64 (f * PAGE_SIZE + i * PAGE_SIZE))) st)
    as (st' & Hr & Hwf' & Hs & Hfree & Hus).
  - split_and!; [done..| |by left]. rewrite run_0. set_solver.
  - intros k s (Hk1 & Hk2) (Hw & Hsf & Hfr & Hu).
    destruct (set_page_spec s (f + k) (u64 (f * PAGE_SIZE + k * PAGE_SIZE)))
      as (s' & Hr & Hw' & Hs' & Hf' & Hu').
    { done. } { apply page_frame; lia. } { destruct Hsf as (_&_&->). lia. }
    exists s'. split_and!; [done..|by etrans| |right].
    + rewrite Hf', Hfr. apply set_eq. intros g.
      rewrite !elem_of_difference, !elem_of_run, elem_of_singleton.
      split; [intros [[? ?] ?]|intros [? ?]]; repeat split; (done || lia).
    + rewrite Hu'. destruct Hu as [[-> ->]| ->]; [f_equal; lia|].
      unfold u64. rewrite Zminus_mod_idemp_l. f_equal. lia.
  - exists st'. replace (0 + Z.of_nat (Z.to_nat n)) with n in * by lia.
    split_and!; try done. destruct Hus as [[? _]|?]; [lia|done].
Qed.

Lemma pmm_free_frames st f n :
  pmm_wf st → 0 ≤ f → 0 ≤ n → f + n ≤ 8 * bitmap_size st →
  ∃ st', pmm_free st (f * PAGE_SIZE) n = Done st' ∧ pmm_wf st' ∧ same_frame st st' ∧
    free_set st' = free_set st ∪ run f n ∧
    (is_u64 (usable_pages st) → usable_pages st' = u64 (usable_pages st + n)).
Proof.
  intros Hwf Hf Hn Hb. pose proof (wf_size _ Hwf) as Hsz.
  destruct (for_loop_inv (λ k st', pmm_wf st' ∧ same_frame st st' ∧
     free_set st' = free_set st ∪ run f k ∧
     (is_u64 (usable_pages st) → usable_pages st' = u64 (usable_pages st + k)))
    (Z.to_nat n) 0 (λ i st, clear_page st (u64 (f * PAGE_SIZE + i * PAGE_SIZE))) st)
    as (st' & Hr & Hwf' & Hs & Hfree & Hus).
  - split_and!; [done..| |]; [rewrite run_0; set_solver|].
    intros. rewrite Z.add_0_r. by rewrite u64_id.
  - intros k s (Hk1 & Hk2) (Hw & Hsf & Hfr & Hu).
    destruct (clear_page_spec s (f + k) (u64 (f * PAGE_SIZE + k * PAGE_SIZE)))
      as (s' & Hr & Hw' & Hs' & Hf' & Hu').
    { done. } { apply page_frame; lia. } { destruct Hsf as (_&_&->). lia. }
    exists s'. split_and!; [done..|by etrans| |].
    + rewrite Hf', Hfr. apply set_eq. intros g.
      rewrite !elem_of_union, !elem_of_run, elem_of_singleton.
      destruct (decide (g = f + k)); intuition lia.
    + intros H64. rewrite Hu', (Hu H64). unfold u64.
      rewrite Zplus_mod_idemp_l. f_equal. lia.
  - exists st'. replace (0 + Z.of_nat (Z.to_nat n)) with n in * by lia. done.
Qed.

(** *** First fit *)

Lemma first_free_Some free n f :
  first_free free n = Some f →
  f ∈ free ∧ 0 ≤ f < n ∧ ∀ g, 0 ≤ g < f → g ∉ free.
Proof.
  unfold first_free. intros H.
  assert (∀ k i, head (filter (λ f, f ∈ free) (seqZ i k)) = Some f →
    f ∈ free ∧ i ≤ f < i + k ∧ ∀ g, i ≤ g < f → g ∉ free) as Hg;
    [|by apply Hg in H]. clear H.
  intros k. destruct (decide (0 ≤ k)) as [Hk|Hk];
    [|intros i; rewrite seqZ_nil by lia; done].
  revert k Hk. apply (natlike_ind (λ k, ∀ i,
    head (filter (λ f, f ∈ free) (seqZ i k)) = Some f →
    f ∈ free ∧ i ≤ f < i + k ∧ ∀ g, i ≤ g < f → g ∉ free)); [done|].
  intros k Hk IH i. rewrite seqZ_cons, filter_cons by lia.
  replace (Z.pred (Z.succ k)) with k by lia.
  case_decide as Hi; simpl.
  - intros [= ->]. split_and!; [done|lia..|intros; lia].
  - intros (?&?&Hg)%IH. split_and!; [done|lia..|].
    intros g Hgi. destruct (decide (g = i)) as [->|]; [done|]. apply Hg. lia.
Qed.

Lemma first_free_None free n : first_free free n = None → ∀ g, 0 ≤ g < n → g ∉ free.
Proof.
  unfold first_free. intros H g Hg Hin.
  assert (g ∈ filter (λ f, f ∈ free) (seqZ 0 n)) as Hf.
  { apply list_elem_of_filter. rewrite elem_of_seqZ. split; [done|lia]. }
  destruct (filter _ _); [by apply not_elem_of_nil in Hf|done].
Qed.

Lemma first_free_ge free n : n ≤ 0 → first_free free n = None.
Proof. intros. unfold first_free. by rewrite seqZ_nil by lia. Qed.

Lemma try_run_busy n i j pages bm :
  frame_bit bm i = Some true → try_run n i j pages bm = Done false.
Proof. intros H. destruct n; simpl; [done|]. by rewrite (BIT_TEST_spec _ _ _ H). Qed.

Lemma try_run_free n i j pages bm :
  frame_bit bm i = Some false → 0 ≤ j → j + Z.of_nat n = pages → (0 < n)%nat →
  try_run n i j pages bm = Done true.
Proof.
  intros H. revert j. induction n as [|n IH]; intros j Hj Hp Hn; [lia|].
  simpl. rewrite (BIT_TEST_spec _ _ _ H). simpl.
  destruct (Z.eqb_spec j (pages - 1)); [done|]. apply IH; lia.
Qed.

(** The scan stops at the first frame [f] whose own bit is clear. *)
Lemma scan_spec st pages n i :
  pmm_wf st → 1 ≤ pages → 0 ≤ i → i + Z.of_nat n ≤ 8 * bitmap_size st →
  (∀ g, i ≤ g < i + Z.of_nat n → g ∉ free_set st) ∧ scan n i pages st = Done (0, st) ∨
  ∃ f, i ≤ f < i + Z.of_nat n ∧ f ∈ free_set st ∧ (∀ g, i ≤ g < f → g ∉ free_set st) ∧
    scan n i pages st =
      (st' ← set_pages st (f * PAGE_SIZE) pages; Done (f * PAGE_SIZE, st')).
Proof.
  intros Hwf Hp. revert i. induction n as [|n IH]; intros i Hi Hb.
  - left. split; [intros; lia|done].
  - destruct (frame_bit_total (bitmap st) i) as [[] Hv].
    { rewrite (wf_length _ Hwf). lia. }
    + assert (i ∉ free_set st) as Hni by (rewrite elem_of_free_set; congruence).
      simpl. rewrite try_run_busy by done. simpl.
      destruct (IH (i + 1)) as [(Hg & ->)|(f & Hf & Hin & Hg & ->)]; [lia..| |].
      * left. split; [|done]. intros g Hgi.
        destruct (decide (g = i)) as [->|]; [done|]. apply Hg. lia.
      * right. exists f. split_and!; [lia|lia|done| |done].
        intros g Hgi. destruct (decide (g = i)) as [->|]; [done|]. apply Hg. lia.
    + right. exists i. split_and!; [lia|lia|by apply elem_of_free_set|intros; lia|].
      simpl. rewrite try_run_free by (done || lia). done.
Qed.

(** What [pmm_allocate] does for any request it does not refuse. *)
Lemma pmm_allocate_spec st pages :
  pmm_wf st → 1 ≤ pages ≤ bitmap_size st →
  match first_free (free_set st) (highest_page st / PAGE_SIZE) with
  | None => pmm_allocate st pages = Done (0, st)
  | Some f =>
      f + pages ≤ 8 * bitmap_size st →
      ∃ st', pmm_allocate st pages = Done (f * PAGE_SIZE, st') ∧
        pmm_wf st' ∧ same_frame st st' ∧
        free_set st' = free_set st ∖ run f pages ∧
        usable_pages st' = u64 (usable_pages st - pages)
  end.
Proof.
  intros Hwf Hp. unfold pmm_allocate.
  destruct (Z.ltb_spec (bitmap_size st) pages); [lia|].
  set (frames := highest_page st / PAGE_SIZE).
  assert (0 ≤ frames) as Hfr.
  { pose proof (wf_highest _ Hwf). subst frames. unfold PAGE_SIZE. simpl in *. zlia. }
  pose proof (wf_covers _ Hwf) as Hc.
  destruct (scan_spec st pages (Z.to_nat frames) 0)
    as [(Hno & Hr)|(f & Hf & Hin & Hlt & Hr)]; [done|lia|lia|lia| |].
  - destruct (first_free _ _) as [f|] eqn:Hff; [|done].
    apply first_free_Some in Hff as (? & ? & _). exfalso. by apply (Hno f); [lia|].
  - destruct (first_free _ _) as [f'|] eqn:Hff.
    + apply first_free_Some in Hff as (? & ? & Hlt').
      assert (f' = f) as ->.
      { destruct (Z.lt_trichotomy f f') as [?|[?|?]]; [|done|].
        - exfalso. by apply (Hlt' f); [lia|].
        - exfalso. by apply (Hlt f'); [lia|]. }
      intros Hb. destruct (set_pages_spec st f pages) as (st' & Hs & ?);
        [done|lia..|]. exists st'. rewrite Hr, Hs. done.
    + exfalso. by apply (first_free_None _ _ Hff f); [lia|].
Qed.

(** The single-frame requests the kernel makes for page tables and user
    pages. *)
Lemma pmm_allocate_one st p st' :
  pmm_wf st → 1 ≤ bitmap_size st → pmm_allocate st 1 = Done (p, st') → p ≠ 0 →
  ∃ f, p = f * PAGE_SIZE ∧ 0 < f < highest_page st / PAGE_SIZE ∧
    f ∈ free_set st ∧ free_set st' = free_set st ∖ {[f]} ∧
    pmm_wf st' ∧ same_frame st st' ∧ usable_pages st' = u64 (usable_pages st - 1).
Proof.
  intros Hwf Hsz Hr Hp. pose proof (pmm_allocate_spec st 1 Hwf) as Hspec.
  destruct (first_free _ _) as [f|] eqn:Hff; [|rewrite Hspec in Hr; [|lia]; congruence].
  apply first_free_Some in Hff as (Hin & Hf & _).
  pose proof (wf_covers _ Hwf).
  destruct Hspec as (s & Hr' & Hw & Hs & Hfr & Hu); [lia..|].
  rewrite Hr' in Hr. injection Hr as <- <-. rewrite run_1 in Hfr.
  exists f. split_and!; try done; [|lia]. unfold PAGE_SIZE in *. lia.
Qed.

(** The bit map is determined by the frames' bits. *)
Lemma frame_bit_ext bm bm' :
  Forall is_u8 bm → Forall is_u8 bm' →
  (∀ f, frame_bit bm f = frame_bit bm' f) → bm = bm'.
Proof.
  intros Hu Hu' H. apply list_eq_z. intros i.
  destruct (decide (0 ≤ i)) as [Hi|]; [|unfold lookup_z; by rewrite bool_decide_false].
  assert (∀ k, 0 ≤ k < 8 → (λ b, Z.testbit b k) <$> bm !!z i =
                           (λ b, Z.testbit b k) <$> bm' !!z i) as Hk.
  { intros k Hk. specialize (H (8 * i + k)). unfold frame_bit in H.
    rewrite bool_decide_true in H by lia.
    replace ((8 * i + k) / 8) with i in H by zlia.
    by replace ((8 * i + k) mod 8) with k in H by zlia. }
  destruct (bm !!z i) as [b|] eqn:Hb, (bm' !!z i) as [b'|] eqn:Hb'; try done;
    [|by specialize (Hk 0 ltac:(lia))..].
  f_equal. pose proof (lookup_z_u8 _ _ _ Hu Hb) as Hr.
  pose proof (lookup_z_u8 _ _ _ Hu' Hb') as Hr'.
  apply Z.bits_inj'. intros k Hk0. destruct (decide (k < 8)).
  - specialize (Hk k ltac:(lia)). simpl in Hk. congruence.
  - rewrite <-(Z.mod_small b (2 ^ 8)), <-(Z.mod_small b' (2 ^ 8)) by (simpl in *; lia).
    by rewrite !Z.mod_pow2_bits_high by lia.
Qed.

Lemma frame_bit_free_set st st' :
  pmm_wf st → pmm_wf st' → bitmap_size st = bitmap_size st' →
  free_set st = free_set st' → bitmap st = bitmap st'.
Proof.
  intros Hw Hw' Hsz Hfs. apply frame_bit_ext; [apply Hw|apply Hw'|]. intros f.
  assert (length_z (bitmap st) = length_z (bitmap st')) as Hl.
  { rewrite (wf_length _ Hw), (wf_length _ Hw'). done. }
  pose proof (elem_of_free_set st f) as H1. pose proof (elem_of_free_set st' f) as H2.
  destruct (frame_bit (bitmap st) f) as [v|] eqn:E, (frame_bit (bitmap st') f) as [v'|] eqn:E'.
  - rewrite Hfs in H1. destruct v, v'; try done; exfalso;
      destruct H1 as [Ha Hb]; destruct H2 as [Hc Hd];
      [by specialize (Ha (Hd eq_refl))|by specialize (Hc (Hb eq_refl))].
  - apply frame_bit_range in E. rewrite Hl in E.
    destruct (frame_bit_total _ _ E). congruence.
  - apply frame_bit_range in E'. rewrite <-Hl in E'.
    destruct (frame_bit_total _ _ E'). congruence.
  - done.
Qed.
End frames.

(** *** The memory map *)

(** Frames of one usable entry. *)
Definition entry_frames (e : mmap_entry) (f : Z) : Prop :=
  usable e = true ∧
  e_base e / PAGE_SIZE ≤ f < e_base e / PAGE_SIZE + e_length e / PAGE_SIZE.

(** What the stivale2 specification promises of the map it passes: usable
    entries are page aligned and overlap nothing. *)
Record memmap_ok (entries : list mmap_entry) : Prop := MemmapOk {
  mm_range : ∀ e, e ∈ entries →
    0 ≤ e_base e ∧ 0 ≤ e_length e ∧ e_base e + e_length e < 2 ^ 46;
  mm_aligned : ∀ e, e ∈ entries → usable e = true →
    e_base e mod PAGE_SIZE = 0 ∧ e_length e mod PAGE_SIZE = 0;
  mm_disjoint : ∀ i j e e', entries !! i = Some e → entries !! j = Some e' →
    usable e = true → usable e' = true → i ≠ j →
    e_base e + e_length e ≤ e_base e' ∨ e_base e' + e_length e' ≤ e_base e;
}.

Section memmap.
Implicit Types (entries : list mmap_entry) (e : mmap_entry) (st : pmm).

Lemma find_highest_spec entries h :
  (∀ e, e ∈ entries → 0 ≤ e_base e ∧ 0 ≤ e_length e ∧ e_base e + e_length e < 2 ^ 46) →
  0 ≤ h < 2 ^ 46 →
  h ≤ find_highest entries h < 2 ^ 46 ∧
  ∀ e, e ∈ entries → usable e = true → e_base e + e_length e ≤ find_highest entries h.
Proof.
  revert h. induction entries as [|e es IH]; intros h Hr Hh; simpl.
  - split; [lia|]. intros e He. by apply not_elem_of_nil in He.
  - destruct (Hr e) as (? & ? & ?); [left|].
    assert (∀ x, x ∈ es → 0 ≤ e_base x ∧ 0 ≤ e_length x ∧ e_base x + e_length x < 2 ^ 46)
      as Hr' by (intros; apply Hr; by right).
    rewrite (u64_id (e_base e + e_length e)) by (simpl; lia).
    destruct (_ && _) eqn:Ht.
    + destruct (IH h Hr' Hh) as [IH1 IH2]. split; [done|].
      intros x [->|Hx]%elem_of_cons Hu; [|by apply IH2].
      unfold usable in Hu. rewrite Hu in Ht. done.
    + destruct (IH (if h <? e_base e + e_length e then e_base e + e_length e else h) Hr')
        as [IH1 IH2]; [destruct (Z.ltb_spec h (e_base e + e_length e)); lia|].
      destruct (Z.ltb_spec h (e_base e + e_length e));
        (split; [lia|]; intros x [->|Hx]%elem_of_cons Hu; [lia|by apply IH2]).
Qed.

(** The carved entry, in its place in the list. *)
Lemma place_bitmap_spec entries size :
  Exists (λ e, usable e && (size <=? e_length e)) entries →
  ∃ pre e post, entries = pre ++ e :: post ∧ usable e = true ∧ size ≤ e_length e ∧
    place_bitmap entries size =
      (Some (u64 (e_base e + MMAP_IO_BASE)),
       pre ++ MmapEntry (u64 (e_base e + size)) (u64 (e_length e - size)) (e_type e) :: post).
Proof.
  induction entries as [|e es IH]; intros He; [by apply Exists_nil in He|].
  simpl. destruct (usable e && (size <=? e_length e)) eqn:Hc.
  - apply andb_true_iff in Hc as [Hu Hl]. exists [], e, es.
    split_and!; [done|done|by apply Z.leb_le|done].
  - apply Exists_cons in He as [He|He]; [by rewrite Hc in He|].
    destruct (IH He) as (pre & e' & post & -> & Hu & Hl & Hp).
    exists (e :: pre), e', post. rewrite Hp. done.
Qed.

Lemma free_usable_spec entries st :
  pmm_wf st →
  (∀ e, e ∈ entries → usable e = true → 0 ≤ e_base e ∧ 0 ≤ e_length e ∧
     e_base e mod PAGE_SIZE = 0 ∧
     e_base e / PAGE_SIZE + e_length e / PAGE_SIZE ≤ 8 * bitmap_size st) →
  ∃ st', free_usable entries st = Done st' ∧ pmm_wf st' ∧ same_frame st st' ∧
    ∀ f, f ∈ free_set st' ↔ f ∈ free_set st ∨ ∃ e, e ∈ entries ∧ entry_frames e f.
Proof.
  revert st. induction entries as [|e es IH]; intros st Hwf He; simpl.
  - exists st. split_and!; [done..|]. intros f. split; [by left|].
    intros [?|(e & []%not_elem_of_nil & _)]; done.
  - destruct (usable e) eqn:Hu.
    + destruct (He e) as (Hb & Hl & Ha & Hc); [left|done|].
      destruct (pmm_free_frames st (e_base e / PAGE_SIZE) (e_length e / PAGE_SIZE))
        as (s & Hr & Hws & Hsf & Hfs & _);
        [done|unfold PAGE_SIZE in *; zlia..|done|].
      replace (e_base e / PAGE_SIZE * PAGE_SIZE) with (e_base e) in Hr
        by (unfold PAGE_SIZE in *; zlia).
      destruct (IH s Hws) as (s' & Hr' & Hw' & Hsf' & Hfs').
      { intros x Hx Hux. destruct Hsf as (_ & _ & ->). apply He; [by right|done]. }
      exists s'. rewrite Hr. simpl. split_and!; [done..|by etrans|].
      intros f. rewrite Hfs', Hfs, elem_of_union, elem_of_run. split.
      * intros [[?|?]|(x & ? & ?)]; [by left|right; exists e|right; exists x];
          (split; [by constructor|]); done.
      * intros [?|(x & [->|?]%elem_of_cons & Hx)]; [tauto| |right; eauto].
        left. right. apply Hx.
    + destruct (IH st Hwf) as (s' & Hr' & Hw' & Hsf' & Hfs').
      { intros x Hx. apply He. by right. }
      exists s'. split_and!; [done..|]. intros f. rewrite Hfs'. split.
      * intros [?|(x & ? & ?)]; [by left|right; exists x]. split; [by right|done].
      * intros [?|(x & [->|?]%elem_of_cons & Hx)]; [by left| |right; eauto].
        destruct Hx as [Hx _]. congruence.
Qed.

(** The bit map's size, and when it reaches every frame below the top. *)
Definition map_bytes (entries : list mmap_entry) : Z :=
  ALIGN_UP (ALIGN_DOWN (find_highest entries 0) PAGE_SIZE / PAGE_SIZE / 8) PAGE_SIZE.

Lemma map_bytes_spec entries :
  memmap_ok entries →
  map_bytes entries =
    (find_highest entries 0 / PAGE_SIZE / 8 + 4095) / PAGE_SIZE * PAGE_SIZE ∧
  0 ≤ map_bytes entries < 2 ^ 32.
Proof.
  intros Hok. destruct (find_highest_spec entries 0) as [Hh _];
    [apply Hok|lia|]. unfold map_bytes.
  set (h := find_highest entries 0) in *.
  assert (ALIGN_DOWN h PAGE_SIZE = h - h mod 4096) as ->.
  { apply (ALIGN_DOWN_pow2 h 12); simpl; lia. }
  assert ((h - h mod 4096) / PAGE_SIZE = h / PAGE_SIZE) as ->
    by (unfold PAGE_SIZE; zlia).
  assert (0 ≤ h / PAGE_SIZE / 8 < 2 ^ 32 - 4096) as Hq by (unfold PAGE_SIZE; zlia).
  set (q := h / PAGE_SIZE / 8) in *.
  assert (ALIGN_UP q PAGE_SIZE = (q + 2 ^ 12 - 1) / 2 ^ 12 * 2 ^ 12) as ->.
  { apply (ALIGN_UP_pow2 q 12); lia. }
  replace (q + 2 ^ 12 - 1) with (q + 4095) by lia.
  change (2 ^ 12) with PAGE_SIZE. split; [done|]. unfold PAGE_SIZE. zlia.
Qed.

(** The entry that holds the bit map, once its start is taken. *)
Definition carve e (size : Z) : mmap_entry :=
  MmapEntry (u64 (e_base e + size)) (u64 (e_length e - size)) (e_type e).

Lemma other_entry_disjoint entries pre e post x :
  memmap_ok entries → entries = pre ++ e :: post → usable e = true →
  x ∈ pre ∨ x ∈ post → usable x = true →
  e_base e + e_length e ≤ e_base x ∨ e_base x + e_length x ≤ e_base e.
Proof.
  intros Hok -> Hu Hx Hux.
  assert ((pre ++ e :: post) !! length pre = Some e) as He by by apply list_lookup_middle.
  destruct Hx as [[i Hi]%list_elem_of_lookup|[i Hi]%list_elem_of_lookup].
  - pose proof (lookup_lt_Some _ _ _ Hi). apply or_comm.
    eapply (mm_disjoint _ Hok i (length pre)); [|done..|lia].
    by rewrite lookup_app_l.
  - eapply (mm_disjoint _ Hok (length pre) (length pre + S i)); [done| |done..|lia].
    rewrite lookup_app_r by lia.
    by replace (length pre + S i - length pre)%nat with (S i) by lia.
Qed.

Lemma carve_frames entries e size f :
  memmap_ok entries → e ∈ entries → usable e = true →
  0 ≤ size ≤ e_length e → size mod PAGE_SIZE = 0 →
  entry_frames (carve e size) f ↔
    entry_frames e f ∧
    ¬ (e_base e / PAGE_SIZE ≤ f < e_base e / PAGE_SIZE + size / PAGE_SIZE).
Proof.
  intros Hok Hin Hu Hs Hm. destruct (mm_range _ Hok e Hin) as (? & ? & ?).
  destruct (mm_aligned _ Hok e Hin Hu). unfold entry_frames, carve. simpl.
  rewrite !u64_id by (simpl; lia). unfold PAGE_SIZE in *.
  split; [intros [_ ?]|intros [[_ ?] ?]]; repeat split; try done; zlia.
Qed.

(** Carving removes exactly the bit map's frames from the usable ones. *)
Lemma carved_frames entries pre e post size f :
  memmap_ok entries → entries = pre ++ e :: post → usable e = true →
  0 ≤ size ≤ e_length e → size mod PAGE_SIZE = 0 →
  (∃ x, x ∈ pre ++ carve e size :: post ∧ entry_frames x f) ↔
  (∃ x, x ∈ entries ∧ entry_frames x f) ∧
  ¬ (e_base e / PAGE_SIZE ≤ f < e_base e / PAGE_SIZE + size / PAGE_SIZE).
Proof.
  intros Hok Heq Hu Hs Hm.
  assert (e ∈ entries) as Hin by (rewrite Heq; set_solver).
  pose proof (carve_frames entries e size f Hok Hin Hu Hs Hm) as Hcf.
  assert (∀ x, x ∈ pre ∨ x ∈ post → entry_frames x f → x ∈ entries ∧
    ¬ (e_base e / PAGE_SIZE ≤ f < e_base e / PAGE_SIZE + size / PAGE_SIZE)) as Hout.
  { intros x Hx [Hux Hf].
    assert (x ∈ entries) as Hxin by (rewrite Heq; set_solver). split; [done|].
    destruct (mm_aligned _ Hok x Hxin Hux), (mm_aligned _ Hok e Hin Hu).
    destruct (mm_range _ Hok x Hxin) as (? & ? & ?).
    pose proof (other_entry_disjoint _ _ _ _ _ Hok Heq Hu Hx Hux).
    unfold PAGE_SIZE in *. zlia. }
  setoid_rewrite elem_of_app. setoid_rewrite elem_of_cons. split.
  - intros (x & [Hx|[->|Hx]] & Hf); [|apply Hcf in Hf as [??]; eauto|];
      destruct (Hout x); eauto.
  - intros [(x & Hx & Hf) Hnb]. rewrite Heq, elem_of_app, elem_of_cons in Hx.
    destruct Hx as [?|[->|?]]; [eauto|exists (carve e size)|eauto].
    split; [tauto|]. by apply Hcf.
Qed.

Lemma carved_bounds entries pre e post size top :
  memmap_ok entries → entries = pre ++ e :: post → usable e = true →
  0 ≤ size ≤ e_length e → size mod PAGE_SIZE = 0 →
  (∀ x, x ∈ entries → usable x = true → e_base x + e_length x ≤ top) →
  ∀ x, x ∈ pre ++ carve e size :: post → usable x = true →
    0 ≤ e_base x ∧ 0 ≤ e_length x ∧ e_base x mod PAGE_SIZE = 0 ∧
    e_base x / PAGE_SIZE + e_length x / PAGE_SIZE ≤ top / PAGE_SIZE.
Proof.
  intros Hok Heq Hu Hs Hm Htop x Hx Hux.
  assert (∀ y, y ∈ entries → usable y = true → 0 ≤ e_base y ∧ 0 ≤ e_length y ∧
    e_base y mod PAGE_SIZE = 0 ∧ e_length y mod PAGE_SIZE = 0 ∧
    e_base y + e_length y < 2 ^ 46 ∧
    e_base y / PAGE_SIZE + e_length y / PAGE_SIZE ≤ top / PAGE_SIZE) as Hall.
  { intros y Hy Huy. destruct (mm_range _ Hok y Hy) as (? & ? & ?).
    destruct (mm_aligned _ Hok y Hy Huy). pose proof (Htop y Hy Huy).
    split_and!; [done..|]. unfold PAGE_SIZE in *. zlia. }
  apply elem_of_app in Hx as [Hx|[->|Hx]%elem_of_cons].
  - destruct (Hall x) as (?&?&?&?&?&?); [rewrite Heq; set_solver|done|]. done.
  - destruct (Hall e) as (?&?&?&?&?&?); [rewrite Heq; set_solver|done|].
    unfold carve. simpl. rewrite !u64_id by (simpl; lia).
    unfold PAGE_SIZE in *. split_and!; zlia.
  - destruct (Hall x) as (?&?&?&?&?&?); [rewrite Heq; set_solver|done|]. done.
Qed.

Lemma empty_bitmap_free bm n : bm = replicate n 0xff →
  ∀ f, frame_bit bm f ≠ Some false.
Proof.
  intros -> f. unfold frame_bit. case_bool_decide; [|done].
  rewrite lookup_replicate_z. case_bool_decide; [|done]. simpl.
  assert (0 ≤ f mod 8 < 8) as Hm by zlia. intros [= Hf].
  assert (f mod 8 = 0 ∨ f mod 8 = 1 ∨ f mod 8 = 2 ∨ f mod 8 = 3 ∨ f mod 8 = 4 ∨
          f mod 8 = 5 ∨ f mod 8 = 6 ∨ f mod 8 = 7) as Hc by lia.
  destruct_or! Hc; rewrite Hc in Hf; done.
Qed.
End memmap.

(** What [pmm_initialize] makes of the map; [e] is the entry the bit map is in. *)
Record initialised (entries pre post : list mmap_entry) (e : mmap_entry) (st : pmm) : Prop := Initialised {
  ii_entries : entries = pre ++ e :: post;
  ii_entry : usable e = true ∧ map_bytes entries ≤ e_length e;
  ii_wf : pmm_wf st;
  ii_size : bitmap_size st = map_bytes entries;
  ii_highest : highest_page st = find_highest entries 0;
  ii_data : phys_of (bitmap_data st) = e_base e;
  ii_free f : f ∈ free_set st ↔
    (∃ x, x ∈ entries ∧ entry_frames x f) ∧
    ¬ (e_base e / PAGE_SIZE ≤ f < e_base e / PAGE_SIZE + map_bytes entries / PAGE_SIZE);
}.

Lemma pmm_initialize_spec entries :
  memmap_ok entries → Exists (λ e, usable e && (map_bytes entries <=? e_length e)) entries →
  map_bytes entries ≠ 0 → find_highest entries 0 / PAGE_SIZE ≤ 8 * map_bytes entries →
  ∃ pre e post st, pmm_initialize entries = Done (st, pre ++ carve e (map_bytes entries) :: post) ∧
    initialised entries pre post e st.
Proof.
  intros Hok Hplace Hnz Hcov.
  destruct (map_bytes_spec entries Hok) as [Hmb Hmbr].
  destruct (find_highest_spec entries 0) as [Hh Htop]; [apply Hok|lia|].
  unfold pmm_initialize. fold (map_bytes entries).
  destruct (Z.eqb_spec (map_bytes entries) 0) as [|_]; [done|].
  set (size := map_bytes entries) in *.
  assert (size mod PAGE_SIZE = 0) as Hsm by (rewrite Hmb; by apply Z.mod_mul).
  destruct (place_bitmap_spec entries size Hplace)
    as (pre & e & post & Heq & Hu & Hle & ->).
  assert (e ∈ entries) as Hin by (rewrite Heq; set_solver).
  destruct (mm_range _ Hok e Hin) as (Hb0 & Hl0 & Hbl).
  simpl. fold (carve e size). set (st0 := Pmm _ _ _ _ _).
  destruct (free_usable_spec (pre ++ carve e size :: post) st0)
    as (st & Hr & Hwf & Hsf & Hfs).
  { split; simpl; try lia.
    - apply Forall_replicate. simpl. lia.
    - unfold length_z. rewrite length_replicate. lia. }
  { intros x Hx Hux. simpl.
    destruct (carved_bounds entries pre e post size (find_highest entries 0)
      Hok Heq Hu ltac:(lia) Hsm Htop x Hx Hux) as (? & ? & ? & ?).
    split_and!; (done || lia). }
  exists pre, e, post, st. rewrite Hr. split; [done|].
  destruct Hsf as (Hsh & Hsd & Hss). split; try done.
  - rewrite Hsd. subst st0. simpl. apply phys_of_io.
    unfold phys_ok, MMAP_KERNEL_BASE, MMAP_IO_BASE; unfold PAGE_SIZE in *; lia.
  - intros f. rewrite Hfs, elem_of_free_set. subst st0. simpl.
    rewrite (carved_frames entries) by (done || lia).
    split; [|tauto]. intros [Hf|?]; [|done]. by eapply empty_bitmap_free in Hf.
Qed.

(** ** Properties *)

(** C21: a request of [pages] frames, if the bit map is not smaller
    than it, is first fit on the first frame only: [pmm_allocate] returns the
    least frame below [highest_page] whose own bit is clear, marks that frame
    and the [pages - 1] after it, and leaves every other bit alone; when no bit
    is clear it returns NULL and changes nothing. *)
Theorem pmm_allocate_first_fit (st : pmm) (pages : Z)
    (Hwf : pmm_wf st) (Hp : 1 ≤ pages ≤ bitmap_size st) :
  match first_free (free_set st) (highest_page st / PAGE_SIZE) with
  | None => pmm_allocate st pages = Done (0, st)
  | Some f =>
      f + pages ≤ 8 * bitmap_size st →
      ∃ st', pmm_allocate st pages = Done (f * PAGE_SIZE, st') ∧
        pmm_wf st' ∧ same_frame st st' ∧
        free_set st' = free_set st ∖ run f pages ∧
        usable_pages st' = u64 (usable_pages st - pages)
  end.
Proof. by apply pmm_allocate_spec. Qed.

(** A manager of 16 frames: frames 3, 4 and 6 free. *)
Definition pmm_sample : pmm :=
  Pmm 0x10000 3 (MMAP_IO_BASE + 0x1000) [0xa7; 0xff] 2.

Lemma pmm_sample_wf : pmm_wf pmm_sample.
Proof.
  split; unfold is_u64, PAGE_SIZE; simpl; try lia; try done.
  repeat constructor; simpl; lia.
Qed.

Lemma pmm_allocate_first_fit_witness :
  first_free (free_set pmm_sample) (highest_page pmm_sample / PAGE_SIZE) = Some 3 ∧
  ∃ st', pmm_allocate pmm_sample 2 = Done (3 * PAGE_SIZE, st') ∧
    pmm_wf st' ∧ same_frame pmm_sample st' ∧
    free_set st' = free_set pmm_sample ∖ run 3 2 ∧
    usable_pages st' = u64 (usable_pages pmm_sample - 2).
Proof.
  assert (first_free (free_set pmm_sample) (highest_page pmm_sample / PAGE_SIZE) = Some 3)
    as Hff by (vm_compute; reflexivity).
  split; [done|].
  pose proof (pmm_allocate_first_fit pmm_sample 2 pmm_sample_wf) as H.
  rewrite Hff in H. apply H; simpl; lia.
Defined.

(** The single-frame requests the page tables and [vmm_mmap] make
    never hand out a frame twice: a non-NULL result is the page-aligned address
    of a frame that was free, is in use afterwards, and is the only frame whose
    state changed. *)
Theorem pmm_allocate_one_fresh (st : pmm) (p : Z) (st' : pmm)
    (Hwf : pmm_wf st) (Hsz : 1 ≤ bitmap_size st)
    (Hr : pmm_allocate st 1 = Done (p, st')) (Hp : p ≠ 0) :
  p mod PAGE_SIZE = 0 ∧ 0 < p < highest_page st ∧
  p / PAGE_SIZE ∈ free_set st ∧ p / PAGE_SIZE ∉ free_set st' ∧
  (∀ f, f ≠ p / PAGE_SIZE → (f ∈ free_set st' ↔ f ∈ free_set st)) ∧ pmm_wf st'.
Proof.
  destruct (pmm_allocate_one _ _ _ Hwf Hsz Hr Hp)
    as (f & -> & Hf & Hin & Hfs & Hw & _).
  rewrite Z.div_mul by done. split_and!; [by apply Z.mod_mul| | |done| | |done].
  - unfold PAGE_SIZE in *. lia.
  - unfold PAGE_SIZE in *. zlia.
  - rewrite Hfs. set_solver.
  - rewrite Hfs. set_solver.
Qed.

Lemma pmm_allocate_one_fresh_witness :
  let st' := set_bitmap pmm_sample [0xaf; 0xff] 2 in
  3 * PAGE_SIZE / PAGE_SIZE ∈ free_set pmm_sample ∧
  3 * PAGE_SIZE / PAGE_SIZE ∉ free_set st'.
Proof.
  destruct (pmm_allocate_one_fresh pmm_sample (3 * PAGE_SIZE)
    (set_bitmap pmm_sample [0xaf; 0xff] 2)) as (_ & _ & H1 & H2 & _);
    [apply pmm_sample_wf|simpl; lia|vm_compute; reflexivity|done|].
  by split.
Defined.

(** Freeing the frame that a single-frame request returned
    restores the manager exactly: bit map, counter and all. *)
Theorem pmm_free_allocate (st : pmm) (p : Z) (st' : pmm)
    (Hwf : pmm_wf st) (Hsz : 1 ≤ bitmap_size st) (Hu : is_u64 (usable_pages st))
    (Hr : pmm_allocate st 1 = Done (p, st')) (Hp : p ≠ 0) :
  pmm_free st' p 1 = Done st.
Proof.
  destruct (pmm_allocate_one _ _ _ Hwf Hsz Hr Hp)
    as (f & -> & Hf & Hin & Hfs & Hw & Hsf & Hus).
  pose proof Hsf as (Hs1 & Hs2 & Hs3). pose proof (wf_covers _ Hwf).
  destruct (pmm_free_frames st' f 1) as (s & Hfr & Hws & Hss & Hset & Husz);
    [done|lia..|]. rewrite Hfr. f_equal.
  destruct Hss as (? & ? & ?).
  assert (bitmap s = bitmap st) as Hbm.
  { apply frame_bit_free_set; [done..|congruence|].
    rewrite Hset, Hfs, run_1. apply set_eq. intros g.
    rewrite elem_of_union, elem_of_difference, elem_of_singleton.
    destruct (decide (g = f)) as [->|]; tauto. }
  assert (usable_pages s = usable_pages st) as Hcnt.
  { rewrite Husz, Hus by (rewrite Hus; apply u64_range). unfold u64.
    rewrite Zplus_mod_idemp_l. replace (_ - 1 + 1) with (usable_pages st) by lia.
    by apply Z.mod_small. }
  destruct s, st; simpl in *; congruence.
Qed.

Lemma pmm_free_allocate_witness :
  pmm_free (set_bitmap pmm_sample [0xaf; 0xff] 2) (3 * PAGE_SIZE) 1 = Done pmm_sample.
Proof.
  apply (pmm_free_allocate pmm_sample (3 * PAGE_SIZE));
    [apply pmm_sample_wf|simpl; lia|simpl; lia|vm_compute; reflexivity|done].
Defined.

(** A request of several frames never looks at the bits after
    the first: when the least free frame is [f] and some frame [g] of the run
    [f .. f + pages - 1] is in use, [pmm_allocate] still returns [f], so the
    caller is given a frame that somebody else owns. *)
Theorem pmm_allocate_run_overlaps (st : pmm) (pages f g : Z)
    (Hwf : pmm_wf st) (Hp : 1 ≤ pages ≤ bitmap_size st)
    (Hff : first_free (free_set st) (highest_page st / PAGE_SIZE) = Some f)
    (Hfit : f + pages ≤ 8 * bitmap_size st)
    (Hg : f ≤ g < f + pages) (Hused : g ∉ free_set st) :
  ∃ st', pmm_allocate st pages = Done (f * PAGE_SIZE, st') ∧
    f * PAGE_SIZE ≤ g * PAGE_SIZE < f * PAGE_SIZE + pages * PAGE_SIZE ∧
    g ∉ free_set st.
Proof.
  pose proof (pmm_allocate_spec st pages Hwf Hp) as Hs. rewrite Hff in Hs.
  destruct (Hs Hfit) as (st' & Hr & _). exists st'.
  split_and!; [done| |unfold PAGE_SIZE; lia|done]. unfold PAGE_SIZE. lia.
Qed.

Lemma pmm_allocate_run_overlaps_witness :
  let st := set_bitmap pmm_sample [0xf7; 0xff] 1 in
  ∃ st', pmm_allocate st 2 = Done (3 * PAGE_SIZE, st') ∧
    3 * PAGE_SIZE ≤ 4 * PAGE_SIZE < 3 * PAGE_SIZE + 2 * PAGE_SIZE ∧ 4 ∉ free_set st.
Proof.
  apply (pmm_allocate_run_overlaps (set_bitmap pmm_sample [0xf7; 0xff] 1) 2 3 4).
  - split; unfold is_u64, PAGE_SIZE; simpl; try lia; try done.
    repeat constructor; simpl; lia.
  - simpl; lia.
  - vm_compute; reflexivity.
  - simpl; lia.
  - lia.
  - by vm_compute.
Defined.

(** C20: from a memory map as stivale2 promises it, with an entry long
    enough for the bit map and no frame past the bit map's end,
    [pmm_initialize] leaves exactly the frames of usable entries free, less
    those that hold the bit map itself: no later allocation can overlap it. *)
Theorem pmm_initialize_correct (entries : list mmap_entry)
    (Hok : memmap_ok entries)
    (Hplace : Exists (λ e, usable e && (map_bytes entries <=? e_length e)) entries)
    (Hnz : map_bytes entries ≠ 0)
    (Hcov : find_highest entries 0 / PAGE_SIZE ≤ 8 * map_bytes entries) :
  ∃ st entries', pmm_initialize entries = Done (st, entries') ∧ pmm_wf st ∧
    ∀ f, f ∈ free_set st ↔
      (∃ e, e ∈ entries ∧ entry_frames e f) ∧
      ¬ (phys_of (bitmap_data st) / PAGE_SIZE ≤ f <
         phys_of (bitmap_data st) / PAGE_SIZE + bitmap_size st / PAGE_SIZE).
Proof.
  destruct (pmm_initialize_spec entries Hok Hplace Hnz Hcov) as (pre & e & post & st & Hr & [_ _ Hwf Hs _ Hd Hf]).
  exists st, (pre ++ carve e (map_bytes entries) :: post). rewrite Hd, Hs. by split_and!.
Qed.

(** A 64 KiB machine: low memory, a reserved hole, and 32 KiB of RAM above. *)
Definition sample_map : list mmap_entry :=
  [MmapEntry 0x1000 0x3000 1; MmapEntry 0x4000 0x4000 2; MmapEntry 0x8000 0x8000 1].

Lemma sample_map_ok : memmap_ok sample_map.
Proof.
  split.
  - intros e He. repeat (apply elem_of_cons in He as [->|He]; [simpl; lia|]).
    by apply not_elem_of_nil in He.
  - intros e He. repeat (apply elem_of_cons in He as [->|He]; [by vm_compute|]).
    by apply not_elem_of_nil in He.
  - intros i j e e' Hi Hj Hu Hu' Hij.
    do 3 (destruct i as [|i]; [injection Hi as <-;
      do 3 (destruct j as [|j]; [injection Hj as <-; (lia || done || (simpl; lia))|]); done|]).
    done.
Qed.

Lemma sample_map_bytes : map_bytes sample_map = 4096.
Proof. by vm_compute. Qed.

Lemma pmm_initialize_correct_witness :
  ∃ st entries', pmm_initialize sample_map = Done (st, entries') ∧ pmm_wf st ∧
    ∀ f, f ∈ free_set st ↔
      (∃ e, e ∈ sample_map ∧ entry_frames e f) ∧
      ¬ (phys_of (bitmap_data st) / PAGE_SIZE ≤ f <
         phys_of (bitmap_data st) / PAGE_SIZE + bitmap_size st / PAGE_SIZE).
Proof.
  apply (pmm_initialize_correct sample_map).
  - apply sample_map_ok.
  - apply Exists_cons_hd. rewrite sample_map_bytes. done.
  - by rewrite sample_map_bytes.
  - by rewrite sample_map_bytes.
Defined.

(** Every frame a completed [pmm_free] clears has a byte in the bit map. *)
Lemma clear_page_inv st addr st' :
  clear_page st addr = Done st' →
  addr / PAGE_SIZE / 8 < length_z (bitmap st) ∧ length_z (bitmap st') = length_z (bitmap st).
Proof.
  unfold clear_page, BIT_CLEAR. intros H. inv_dones.
  split; [|apply length_insert_z]. apply lookup_z_Some in Ha0. lia.
Qed.

Lemma pmm_free_inv st addr n st' :
  pmm_free st addr n = Done st' →
  length_z (bitmap st') = length_z (bitmap st) ∧
  (0 < n → u64 (addr + (n - 1) * PAGE_SIZE) / PAGE_SIZE / 8 < length_z (bitmap st)).
Proof.
  intros H. unfold pmm_free in H.
  eapply (for_loop_partial (λ k s, length_z (bitmap s) = length_z (bitmap st) ∧
    (0 < k → u64 (addr + (k - 1) * PAGE_SIZE) / PAGE_SIZE / 8 < length_z (bitmap st))))
    in H as [Hl Hi].
  - split; [done|]. intros Hn. replace (0 + Z.of_nat (Z.to_nat n)) with n in Hi by lia. auto.
  - split; [done|lia].
  - intros k s s' Hk [Hl _] Hc. apply clear_page_inv in Hc as [Hc1 Hc2].
    split; [congruence|]. intros _. replace (k + 1 - 1) with k by lia. by rewrite <-Hl.
Qed.

Lemma free_usable_inv entries st st' e :
  free_usable entries st = Done st' → e ∈ entries → usable e = true →
  0 < e_length e / PAGE_SIZE →
  u64 (e_base e + (e_length e / PAGE_SIZE - 1) * PAGE_SIZE) / PAGE_SIZE / 8
    < length_z (bitmap st).
Proof.
  revert st. induction entries as [|x es IH]; intros st; simpl; [by intros _ []%not_elem_of_nil|].
  destruct (usable x) eqn:Hx; intros Hr [->|Hin]%elem_of_cons Hu Hn.
  - inv_dones. apply pmm_free_inv in Ha as [_ Ha]. by apply Ha.
  - inv_dones. apply pmm_free_inv in Ha as [Ha _]. rewrite <-Ha. by eapply IH.
  - congruence.
  - by eapply IH.
Qed.

(** The bit map is sized [frames / 8] rounded up to a page, so
    the division drops the last [frames mod 8] frames; when [frames / 8] is
    already a multiple of the page size nothing makes up for them, and a usable
    entry that reaches the top of memory makes [pmm_initialize] write outside
    the bit map: it never returns. *)
Theorem pmm_initialize_short_bitmap (entries : list mmap_entry) (d : option Z)
    (entries' : list mmap_entry) (e : mmap_entry) (k r : Z)
    (Hk : 0 < k < 2 ^ 20) (Hr : 0 < r < 8)
    (Htop : find_highest entries 0 = (8 * 4096 * k + r) * PAGE_SIZE)
    (Hplace : place_bitmap entries (4096 * k) = (d, entries'))
    (Hin : e ∈ entries') (Hu : usable e = true) (Hl : PAGE_SIZE ≤ e_length e)
    (Hb0 : 0 ≤ e_base e) (Hb : e_base e mod PAGE_SIZE = 0)
    (He : e_base e + e_length e = find_highest entries 0) :
  ∀ st, pmm_initialize entries ≠ Done st.
Proof.
  intros st Hd. unfold pmm_initialize in Hd. rewrite Htop in Hd.
  assert (ALIGN_UP (ALIGN_DOWN ((8 * 4096 * k + r) * PAGE_SIZE) PAGE_SIZE / PAGE_SIZE / 8)
    PAGE_SIZE = 4096 * k) as Hsz.
  { assert (ALIGN_DOWN ((8 * 4096 * k + r) * PAGE_SIZE) PAGE_SIZE =
      (8 * 4096 * k + r) * PAGE_SIZE - ((8 * 4096 * k + r) * PAGE_SIZE) mod 2 ^ 12) as ->
      by (apply (ALIGN_DOWN_pow2 _ 12); unfold PAGE_SIZE; simpl; lia).
    assert (((8 * 4096 * k + r) * PAGE_SIZE -
      ((8 * 4096 * k + r) * PAGE_SIZE) mod 2 ^ 12) / PAGE_SIZE / 8 = 4096 * k) as ->
      by (unfold PAGE_SIZE; zlia).
    assert (ALIGN_UP (4096 * k) PAGE_SIZE = (4096 * k + 2 ^ 12 - 1) / 2 ^ 12 * 2 ^ 12) as ->
      by (apply (ALIGN_UP_pow2 _ 12); lia).
    zlia. }
  rewrite Hsz, Hplace in Hd. destruct (Z.eqb_spec (4096 * k) 0); [lia|].
  inv_dones. eapply free_usable_inv in Ha0; [|done..|unfold PAGE_SIZE in *; zlia].
  simpl in Ha0. unfold length_z in Ha0. rewrite length_replicate in Ha0.
  rewrite Htop in He.
  rewrite u64_id in Ha0 by (unfold PAGE_SIZE in *; simpl; zlia).
  unfold PAGE_SIZE in *. zlia.
Qed.

(** The last page of 128 MiB + 4 KiB of memory. *)
Definition short_map : list mmap_entry := [MmapEntry 0x7fff000 0x2000 1].

Lemma pmm_initialize_short_bitmap_witness : ¬ ∃ st, pmm_initialize short_map = Done st.
Proof.
  intros [st Hst]. revert st Hst.
  apply (pmm_initialize_short_bitmap short_map (Some (u64 (0x7fff000 + MMAP_IO_BASE)))
    [MmapEntry 0x8000000 0x1000 1] (MmapEntry 0x8000000 0x1000 1) 1 1);
    (lia || (vm_compute; reflexivity) || (by left) || (unfold PAGE_SIZE; simpl; lia) || done).
Defined.
