(* ===== verification/Frames.v ===== *)
(** * The interface between the frame allocator and its clients

    What the page-table code needs from [pmm_allocate_zero(1)]: [FrameAlloc]
    names the operation and the predicates, [FrameAllocLaws] states the laws.
    The theorems of [Vmm] are proved against the laws, and [PmmFrames] proves
    them of the real allocator. *)

From S2P Require Import Prelude CInt Mem Arch.

Class FrameAlloc (F : Type) : Type := {
  (** One zeroed frame: its address (0 for none), the memory after clearing. *)
  alloc_zero : mem → F → res (Z * (mem * F));
  fa_inv : F → Prop;
  (** Frame number [f] has an owner. *)
  in_use : F → Z → Prop;
  (** [n] more calls will succeed in this memory. *)
  available : nat → mem → F → Prop;
}.

(** [m'] has every cell [m] has. *)
Definition dom_grows (m m' : mem) : Prop := ∀ a, is_Some (m !! a) → is_Some (m' !! a).

#[global] Instance dom_grows_po : PreOrder dom_grows.
Proof. split; [by intros m a|]. intros a b c H1 H2 x Hx. by apply H2, H1. Qed.

Lemma dom_grows_mapped m m' a n : dom_grows m m' → mapped m a n → mapped m' a n.
Proof. intros Hd Hm i Hi. by apply Hd, Hm. Qed.

Lemma store_le_dom n m a v m' : store_le n m a v = Done m' → dom_grows m m'.
Proof.
  intros Hs b Hb. pose proof (store_le_mapped _ _ _ _ _ b 1 Hs) as H.
  apply H; [|lia]. intros i Hi. by replace i with b by lia.
Qed.

Class FrameAllocLaws (F : Type) `{FrameAlloc F} : Prop := {
  fa_fresh m (s : F) p m' s' :
    fa_inv s → alloc_zero m s = Done (p, (m', s')) → p ≠ 0 →
    fa_inv s' ∧ p mod PAGE_SIZE = 0 ∧ 0 < p ∧ p + PAGE_SIZE ≤ 2 ^ 46 ∧
    ¬ in_use s (p / PAGE_SIZE) ∧
    (∀ f, in_use s' f ↔ in_use s f ∨ f = p / PAGE_SIZE) ∧
    overwritten m m' p PAGE_SIZE (λ _, Some 0);
  fa_total n m (s : F) :
    fa_inv s → available (S n) m s →
    ∃ p m' s', alloc_zero m s = Done (p, (m', s')) ∧ p ≠ 0 ∧ available n m' s';
  fa_mono n m m' (s : F) : dom_grows m m' → available n m s → available n m' s;
  fa_less n m (s : F) : available (S n) m s → available n m s;
}.

Lemma available_le {F} `{FrameAllocLaws F} n k m (s : F) :
  available k m s → (n ≤ k)%nat → available n m s.
Proof. intros Ha Hle. induction Hle as [|k Hle IH]; [done|]. by apply IH, fa_less. Qed.

Lemma overwritten_grows m m' to n f :
  overwritten m m' to n f → (∀ i, 0 ≤ i < n → is_Some (f i)) → dom_grows m m'.
Proof. intros Ho Hf a Ha. rewrite Ho. case_bool_decide; [apply Hf; lia|done]. Qed.
