(* ===== verification/Vmm.v ===== *)
(** * Page tables, [kernel/arch/memory/vmm.c]

    [vmm] is the state the file works on: physical memory, the frame allocator
    (through [FrameAlloc]), the file's static lock, and the two pieces of CPU
    state it writes (the addresses passed to [invlpg], and CR3).  The second
    half states what the MMU makes of the tables ([translate]) and proves that
    mapping and unmapping do to it what they should and nothing else. *)

From S2P Require Import Prelude CInt Mem Lock Arch Boot Frames.

Record vmm (F : Type) : Type := Vmm {
  ram : mem;
  frames : F;
  vlock : bool;
  tlb_flushed : list Z;
  cr3 : Z;
}.
Arguments Vmm {_} _ _ _ _ _.
Arguments ram {_} _.
Arguments frames {_} _.
Arguments vlock {_} _.
Arguments tlb_flushed {_} _.
Arguments cr3 {_} _.

Definition ALLOC_BASE : Z := 0x1000000.
Definition MAP_FIXED : Z := 0x04.
Definition MAP_ANONYMOUS : Z := 0x08.

(** [PML_ENTRY(addr, offset)]. *)
Definition PML_ENTRY (addr offset : Z) : Z :=
  Z.shiftr (Z.land addr (Z.shiftl 0x1ff offset)) offset.

Section vmm.
Context {F : Type} `{FrameAlloc F}.

Definition set_mem (st : vmm F) (m : mem) (s : F) : vmm F :=
  Vmm m s (vlock st) (tlb_flushed st) (cr3 st).
Definition set_lock (st : vmm F) (l : bool) : vmm F :=
  Vmm (ram st) (frames st) l (tlb_flushed st) (cr3 st).

(** The address of [table[index]] in physical memory. *)
Definition slot (table index : Z) : Z := phys_of (u64 (table + 8 * index)).

Definition get_next_level (table index flags : Z) (st : vmm F)
    : res (Z * vmm F) :=
  e ← load64 (ram st) (slot table index);
  st' ← (if Z.land e 1 =? 0 then
           '(p, (m1, s1)) ← alloc_zero (ram st) (frames st);
           m2 ← store64 m1 (slot table index) p;
           e1 ← load64 m2 (slot table index);
           m3 ← store64 m2 (slot table index) (Z.lor e1 flags);
           Done (set_mem st m3 s1)
         else Done st);
  e' ← load64 (ram st') (slot table index);
  Done (u64 (Z.land e' (u64 (Z.lnot 0x1ff)) + MMAP_IO_BASE), st').

Definition flush_tlb (addr : Z) (st : vmm F) : vmm F :=
  Vmm (ram st) (frames st) (vlock st) (addr :: tlb_flushed st) (cr3 st).

(** The three steps [vmm_map] and [vmm_unmap] share. *)
Definition last_level (pagemap virtual_address flags : Z) (st : vmm F)
    : res (Z * vmm F) :=
  let level4 := PML_ENTRY virtual_address 39 in
  let level3 := PML_ENTRY virtual_address 30 in
  let level2 := PML_ENTRY virtual_address 21 in
  '(pml3, st) ← get_next_level pagemap level4 flags st;
  '(pml2, st) ← get_next_level pml3 level3 flags st;
  get_next_level pml2 level2 flags st.

Definition vmm_map (pagemap physical_address virtual_address flags : Z)
    (st : vmm F) : res (vmm F) :=
  l ← spin_lock (vlock st);
  '(pml1, st) ← last_level pagemap virtual_address flags (set_lock st l);
  m ← store64 (ram st) (slot pml1 (PML_ENTRY virtual_address 12))
        (Z.lor physical_address flags);
  let st := flush_tlb virtual_address (set_mem st m (frames st)) in
  Done (set_lock st (spin_release (vlock st))).

Definition vmm_unmap (pagemap virtual_address flags : Z) (st : vmm F)
    : res (vmm F) :=
  '(pml1, st) ← last_level pagemap virtual_address flags st;
  m ← store64 (ram st) (slot pml1 (PML_ENTRY virtual_address 12)) 0;
  Done (set_mem st m (frames st)).

(** [for (i = start; i < end; i += PAGE_SIZE)]. *)
Definition vmm_map_range (pagemap start end_ offset flags : Z) (st : vmm F)
    : res (vmm F) :=
  for_loop (Z.to_nat ((end_ - start + (PAGE_SIZE - 1)) / PAGE_SIZE)) 0
    (λ k st, let i := start + k * PAGE_SIZE in
             vmm_map pagemap i (u64 (i + offset)) flags st) st.

Definition vmm_load_pagemap (pagemap : Z) (st : vmm F) : vmm F :=
  Vmm (ram st) (frames st) (vlock st) (tlb_flushed st) pagemap.

(** [vmm_mmap]: the return value is [*ret], the new [*used_pages] and the
    state; a request without [MAP_ANONYMOUS] never returns. *)
Definition vmm_mmap (pagemap hint size flags used_pages : Z) (st : vmm F)
    : res (Z * (Z * vmm F)) :=
  let actual_flags := Z.land flags 0xFFFFFFFF in
  if Z.land actual_flags MAP_ANONYMOUS =? 0 then Hang
  else
    let pages := ALIGN_UP size PAGE_SIZE / PAGE_SIZE in
    let '(virt, used_pages') :=
      if negb (Z.land actual_flags MAP_FIXED =? 0) then (hint, used_pages)
      else (u64 (u64 (used_pages * 4096) + ALLOC_BASE), u64 (used_pages + pages)) in
    st' ← for_loop (Z.to_nat pages) 0
      (λ i st,
         '(ret, (m, s)) ← alloc_zero (ram st) (frames st);
         vmm_map pagemap ret (u64 (virt + i * 4096)) 7 (set_mem st m s)) st;
    Done (virt, (used_pages', st')).

(** [foreachr(p, entry.length, PAGE_SIZE)] of [vmm_initialize]; [entry.base]
    is not used. *)
Definition map_entry (pagemap : Z) (e : mmap_entry) (st : vmm F) : res (vmm F) :=
  if usable e then
    for_loop (Z.to_nat ((e_length e + (PAGE_SIZE - 1)) / PAGE_SIZE)) 0
      (λ k st, let p := k * PAGE_SIZE in
               vmm_map pagemap p (u64 (p + MMAP_IO_BASE)) 3 st) st
  else Done st.

Fixpoint map_entries (pagemap : Z) (entries : list mmap_entry) (st : vmm F)
    : res (vmm F) :=
  match entries with
  | [] => Done st
  | e :: rest => st' ← map_entry pagemap e st; map_entries pagemap rest st'
  end.

(** Returns [kernel_pagemap] (a physical address) and the state. *)
Definition vmm_initialize (entries : list mmap_entry) (st : vmm F)
    : res (Z * vmm F) :=
  '(kernel_pagemap, (m, s)) ← alloc_zero (ram st) (frames st);
  st ← vmm_map_range kernel_pagemap 0 0x8000000 MMAP_KERNEL_BASE 3 (set_mem st m s);
  st ← vmm_map_range kernel_pagemap 0 0x100000000 MMAP_IO_BASE 3 st;
  st ← map_entries kernel_pagemap entries st;
  Done (kernel_pagemap, vmm_load_pagemap kernel_pagemap st).
End vmm.

(** ** What the MMU sees *)

(** The physical-address field of an entry (bits 12 to 51), as the processor
    reads it. *)
Definition frame_of (e : Z) : Z := Z.land e 0xffffffffff000.
Definition present (e : Z) : bool := negb (Z.land e 1 =? 0).

Definition entry (m : mem) (f i : Z) : option Z :=
  match load64 m (f + 8 * i) with
  | Done e => if present e then Some e else None
  | _ => None
  end.

Definition next (m : mem) (f i : Z) : option Z := frame_of <$> entry m f i.

(** The table reached from table [f] by a path of indices. *)
Fixpoint table_at (m : mem) (f : Z) (p : list Z) : option Z :=
  match p with
  | [] => Some f
  | i :: p => g ← next m f i; table_at m g p
  end.

Definition walk (m : mem) (root : Z) (p : list Z) (i : Z) : option Z :=
  t ← table_at m root p; entry m t i.

(** The leaf entry for [va] under the tables at [root], if it is mapped. *)
Definition translate (m : mem) (root va : Z) : option Z :=
  walk m root [PML_ENTRY va 39; PML_ENTRY va 30; PML_ENTRY va 21] (PML_ENTRY va 12).

(** The virtual page number: the 36 bits the walk depends on. *)
Definition vpn (va : Z) : Z := va / 2 ^ 12 mod 2 ^ 36.

(** ** Arithmetic of entries and indices *)

Lemma PML_ENTRY_div va k : 0 ≤ k → PML_ENTRY va k = va / 2 ^ k mod 512.
Proof.
  intros Hk. unfold PML_ENTRY. rewrite Z.shiftr_land, Z.shiftr_shiftl_l by lia.
  rewrite Z.sub_diag, Z.shiftl_0_r. change 0x1ff with (Z.ones 9).
  rewrite Z.land_ones by lia. by rewrite Z.shiftr_div_pow2.
Qed.

Definition idx_ok (i : Z) : Prop := 0 ≤ i < 512.

Lemma PML_ENTRY_ok va k : 0 ≤ k → idx_ok (PML_ENTRY va k).
Proof. intros. unfold idx_ok. rewrite PML_ENTRY_div by done. by apply Z.mod_pos_bound. Qed.

(** The four indices determine the page number and are determined by it. *)
Lemma vpn_split va :
  vpn va = PML_ENTRY va 12 + 512 * (PML_ENTRY va 21 + 512 *
             (PML_ENTRY va 30 + 512 * PML_ENTRY va 39)).
Proof.
  unfold vpn. rewrite !PML_ENTRY_div by lia.
  set (q := va / 2 ^ 12).
  assert (va / 2 ^ 21 = q / 512) as -> by (subst q; rewrite Z.div_div by lia; done).
  assert (va / 2 ^ 30 = q / 512 / 512) as ->
    by (subst q; rewrite !Z.div_div by lia; done).
  assert (va / 2 ^ 39 = q / 512 / 512 / 512) as ->
    by (subst q; rewrite !Z.div_div by lia; done).
  change (2 ^ 36) with 68719476736. clearbody q. zlia.
Qed.

Lemma vpn_neq va va' :
  vpn va' ≠ vpn va →
  ([PML_ENTRY va' 39; PML_ENTRY va' 30; PML_ENTRY va' 21], PML_ENTRY va' 12) ≠
  ([PML_ENTRY va 39; PML_ENTRY va 30; PML_ENTRY va 21], PML_ENTRY va 12).
Proof. intros Hne [= H1 H2 H3 H4]. apply Hne. rewrite !vpn_split. congruence. Qed.

(** Flags the code passes: some low bits, the present bit among them. *)
Definition flags_ok (fl : Z) : Prop := 0 ≤ fl < 512 ∧ fl mod 2 = 1.

Lemma frame_of_sub e : is_u64 e → frame_of e = e mod 2 ^ 52 - e mod 2 ^ 12.
Proof.
  intros He. unfold frame_of.
  change 0xffffffffff000 with (Z.land (Z.ones 52) (Z.lnot (Z.ones 12))).
  rewrite Z.land_assoc, Z.land_ones, land_lnot_ones by lia. f_equal.
  apply Z.mod_mod_divide. by exists (2 ^ 40).
Qed.

Lemma frame_flags p fl :
  p mod PAGE_SIZE = 0 → 0 ≤ p < 2 ^ 52 → flags_ok fl →
  Z.lor p fl = p + fl ∧ frame_of (Z.lor p fl) = p ∧ present (Z.lor p fl) = true ∧
  Z.land (Z.lor p fl) (u64 (Z.lnot 0x1ff)) = p.
Proof.
  unfold PAGE_SIZE, flags_ok. intros Hp Hr [Hf Hodd].
  assert (Z.lor p fl = p + fl) as -> by (apply (lor_low_high p fl 12); [lia|done|simpl; lia]).
  split_and!; [done|..].
  - rewrite frame_of_sub by (simpl; lia). rewrite (Z.mod_small (p + fl)) by zlia. zlia.
  - unfold present. rewrite testbit_1_low.
    replace ((p + fl) mod 2) with 1 by zlia. done.
  - change 0x1ff with (Z.ones 9). rewrite (land_u64_lnot_ones (p + fl) 9) by (simpl; zlia). zlia.
Qed.

Lemma present_land e : present e = negb (Z.land e 1 =? 0).
Proof. done. Qed.

(** ** Well-formed tables *)

Section tables.
Context {F : Type} `{FrameAlloc F, !FrameAllocLaws F}.
Implicit Types (m : mem) (s : F) (p q : list Z) (f g i j root : Z).

Definition is_path (n : nat) (p : list Z) : Prop :=
  (length p ≤ n)%nat ∧ Forall idx_ok p.

(** Every table reachable from [root] is an owned frame of RAM, no two paths
    reach the same frame, and non-leaf entries hold an address the code and
    the processor read alike. *)
Record pt_ok (m : mem) (s : F) (root : Z) : Prop := PtOk {
  pt_frames q f : is_path 3 q → table_at m root q = Some f →
    f mod PAGE_SIZE = 0 ∧ 0 < f ∧ f + PAGE_SIZE ≤ 2 ^ 46 ∧
    mapped m f PAGE_SIZE ∧ in_use s (f / PAGE_SIZE);
  pt_inj q q' f : is_path 3 q → is_path 3 q' →
    table_at m root q = Some f → table_at m root q' = Some f → q = q';
  pt_entries q f i e : is_path 2 q → idx_ok i → table_at m root q = Some f →
    load64 m (f + 8 * i) = Done e → present e = true →
    Z.land e (u64 (Z.lnot 0x1ff)) = frame_of e;
}.

(** Address [a] lies in a page table. *)
Definition in_table m root (a : Z) : Prop :=
  ∃ q f, is_path 3 q ∧ table_at m root q = Some f ∧ f ≤ a < f + PAGE_SIZE.

Lemma is_path_snoc n p i : is_path n p → idx_ok i → is_path (S n) (p ++ [i]).
Proof.
  intros [Hl Hf] Hi. split; [rewrite length_app; simpl; lia|].
  apply Forall_app. split; [done|]. by constructor.
Qed.
Lemma is_path_snoc_inv n p i : is_path (S n) (p ++ [i]) → is_path n p ∧ idx_ok i.
Proof.
  intros [Hl [Hf Hi]%Forall_app]. rewrite length_app in Hl. simpl in Hl.
  split; [split; [lia|done]|]. by inversion Hi.
Qed.
Lemma is_path_le n k p : is_path n p → (n ≤ k)%nat → is_path k p.
Proof. intros [??] ?. split; [lia|done]. Qed.
Lemma is_path_list n p : (length p ≤ n)%nat → (∀ i, i ∈ p → idx_ok i) → is_path n p.
Proof. intros Hl Hp. split; [done|]. apply list.Forall_forall. intros i Hi. by apply Hp. Qed.
Lemma is_path_nil n : is_path n [].
Proof. split; [simpl; lia|constructor]. Qed.

Lemma table_at_snoc m f p i :
  table_at m f (p ++ [i]) = g ← table_at m f p; next m g i.
Proof.
  revert f. induction p as [|j p IH]; intros f; simpl.
  - by destruct (next m f i).
  - destruct (next m f j); simpl; [apply IH|done].
Qed.

Lemma entry_lookup m m' f i :
  load64 m' (f + 8 * i) = load64 m (f + 8 * i) → entry m' f i = entry m f i.
Proof. unfold entry. by intros ->. Qed.

Lemma next_lookup m m' f i :
  load64 m' (f + 8 * i) = load64 m (f + 8 * i) → next m' f i = next m f i.
Proof. intros. unfold next. by rewrite (entry_lookup m m'). Qed.

(** The bytes of an entry lie in its table's frame. *)
Lemma entry_page f j a :
  f mod PAGE_SIZE = 0 → idx_ok j → f + 8 * j ≤ a < f + 8 * j + 8 →
  a / PAGE_SIZE = f / PAGE_SIZE ∧ f ≤ a < f + PAGE_SIZE.
Proof. unfold PAGE_SIZE, idx_ok. intros. zlia. Qed.

(** Only the entry [i] of the table at path [p] may differ between [m] and
    [m']; every other owned byte is the same. *)
Definition only_entry m m' s (f i : Z) : Prop :=
  ∀ a, in_use s (a / PAGE_SIZE) → ¬ (f + 8 * i ≤ a < f + 8 * i + 8) → m' !! a = m !! a.

Lemma only_entry_load m m' s root p f i q g j :
  pt_ok m s root → only_entry m m' s f i →
  is_path 3 p → table_at m root p = Some f → idx_ok i →
  is_path 3 q → table_at m root q = Some g → idx_ok j →
  (q, j) ≠ (p, i) → load64 m' (g + 8 * j) = load64 m (g + 8 * j).
Proof.
  intros Hok Honly Hp Hf Hi Hq Hg Hj Hne.
  destruct (pt_frames _ _ _ Hok p f Hp Hf) as (Hfa & _).
  destruct (pt_frames _ _ _ Hok q g Hq Hg) as (Hga & _ & _ & _ & Hgu).
  apply load_le_lookup. intros a Ha. change (Z.of_nat 8) with 8 in Ha.
  destruct (entry_page g j a Hga Hj Ha) as [Hpg Hin].
  apply Honly; [by rewrite Hpg|]. intros Hfa'.
  destruct (entry_page f i a Hfa Hi Hfa') as [Hpf Hinf].
  assert (f = g) as -> by (unfold PAGE_SIZE in *; zlia).
  assert (q = p) as -> by by eapply pt_inj. assert (j ≠ i) by congruence. lia.
Qed.

Lemma zero_page_entry m n j :
  (∀ a, n ≤ a < n + PAGE_SIZE → m !! a = Some 0) → idx_ok j →
  load64 m (n + 8 * j) = Done 0 ∧ entry m n j = None.
Proof.
  intros Hz Hj. assert (load64 m (n + 8 * j) = Done 0) as Hl.
  { apply load_le_zero. intros a Ha. apply Hz. unfold PAGE_SIZE, idx_ok in *. lia. }
  split; [done|]. unfold entry. by rewrite Hl.
Qed.

(** *** Linking a fresh, zeroed table under an absent entry *)

Record linked m m' s (f i n e : Z) : Prop := Linked {
  lk_only : only_entry m m' s f i;
  lk_dom : dom_grows m m';
  lk_absent : entry m f i = None;
  lk_entry : load64 m' (f + 8 * i) = Done e;
  lk_present : present e = true;
  lk_frame : frame_of e = n;
  lk_code : Z.land e (u64 (Z.lnot 0x1ff)) = n;
  lk_fresh : ¬ in_use s (n / PAGE_SIZE);
  lk_zero : ∀ a, n ≤ a < n + PAGE_SIZE → m' !! a = Some 0;
  lk_bytes : bytes_ok m → bytes_ok m';
}.

Section link.
Context m m' s root p f i n e
  (Hok : pt_ok m s root) (Hlk : linked m m' s f i n e)
  (Hp : is_path 2 p) (Hf : table_at m root p = Some f) (Hi : idx_ok i).

Lemma link_absent : table_at m root (p ++ [i]) = None.
Proof.
  rewrite table_at_snoc, Hf. simpl. unfold next. by rewrite (lk_absent _ _ _ _ _ _ _ Hlk).
Qed.

Lemma link_next : next m' f i = Some n.
Proof.
  unfold next, entry. rewrite (lk_entry _ _ _ _ _ _ _ Hlk), (lk_present _ _ _ _ _ _ _ Hlk).
  simpl. by rewrite (lk_frame _ _ _ _ _ _ _ Hlk).
Qed.

Lemma link_load q g j :
  is_path 3 q → table_at m root q = Some g → idx_ok j → (q, j) ≠ (p, i) →
  load64 m' (g + 8 * j) = load64 m (g + 8 * j).
Proof.
  intros Hq Hg Hj Hne. eapply (only_entry_load m m' s root p f i q); try done.
  - apply Hlk.
  - eapply is_path_le; [done|lia].
Qed.

Lemma link_table_at q :
  is_path 3 q →
  table_at m' root q = if decide (q = p ++ [i]) then Some n else table_at m root q.
Proof.
  induction q as [|j q IH] using rev_ind; intros Hq.
  { rewrite decide_False; [done|]. by destruct p. }
  apply is_path_snoc_inv in Hq as [Hq Hj].
  rewrite !table_at_snoc, IH by (eapply is_path_le; [done|lia]).
  destruct (decide (q = p ++ [i])) as [->|Hne]; simpl.
  - rewrite link_absent, decide_False; simpl.
    + unfold next. by rewrite (proj2 (zero_page_entry m' n j (lk_zero _ _ _ _ _ _ _ Hlk) Hj)).
    + intros Heq%(f_equal length). rewrite !length_app in Heq. simpl in Heq. lia.
  - destruct (table_at m root q) as [g|] eqn:Hg; simpl.
    + destruct (decide (q ++ [j] = p ++ [i])) as [[-> [= ->]]%app_inj_2|Hne']; [|done|].
      * rewrite Hf in Hg. injection Hg as <-. apply link_next.
      * apply next_lookup. eapply link_load; [|done..|].
        -- eapply is_path_le; [done|lia].
        -- congruence.
    + rewrite decide_False; [done|]. intros [-> _]%app_inj_2; [|done]. congruence.
Qed.

Lemma link_walk q j :
  is_path 3 q → length q = 3%nat → idx_ok j → walk m' root q j = walk m root q j.
Proof.
  intros Hq Hlen Hj. unfold walk. rewrite link_table_at by done.
  case_decide as Hd.
  - simpl. rewrite (proj2 (zero_page_entry m' n j (lk_zero _ _ _ _ _ _ _ Hlk) Hj)).
    by rewrite Hd, link_absent.
  - destruct (table_at m root q) as [g|] eqn:Hg; simpl; [|done].
    apply entry_lookup. eapply link_load; try done.
    intros [= -> _]. destruct Hp. lia.
Qed.

Lemma link_pt_ok s' :
  (∀ g, in_use s g → in_use s' g) → in_use s' (n / PAGE_SIZE) →
  n mod PAGE_SIZE = 0 → 0 < n → n + PAGE_SIZE ≤ 2 ^ 46 → pt_ok m' s' root.
Proof.
  intros Huse Hn Ha H0 Hb.
  assert (∀ q g, is_path 3 q → table_at m root q = Some g → g ≠ n) as Hold.
  { intros q g Hq Hg ->. destruct (pt_frames _ _ _ Hok _ _ Hq Hg) as (_&_&_&_&?).
    by apply (lk_fresh _ _ _ _ _ _ _ Hlk). }
  split.
  - intros q g Hq. rewrite link_table_at by done. case_decide.
    + intros [= <-]. split_and!; try done. intros a Hain.
      rewrite (lk_zero _ _ _ _ _ _ _ Hlk) by done. eauto.
    + intros Hg. destruct (pt_frames _ _ _ Hok _ _ Hq Hg) as (?&?&?&?&?).
      split_and!; try done; [|by apply Huse].
      eapply dom_grows_mapped; [apply Hlk|done].
  - intros q q' g Hq Hq'. rewrite !link_table_at by done.
    repeat case_decide; intros Hg Hg'; simplify_eq; try done.
    + by eapply Hold in Hg'.
    + by eapply Hold in Hg.
    + by eapply pt_inj.
  - intros q g j e' Hq Hj. assert (is_path 3 q) as Hq3 by (eapply is_path_le; [done|lia]).
    rewrite link_table_at by done. case_decide.
    + intros [= <-] Hl. destruct (zero_page_entry m' n j (lk_zero _ _ _ _ _ _ _ Hlk) Hj) as [Hz _].
      rewrite Hz in Hl. by injection Hl as <-.
    + intros Hg Hl Hpr. destruct (decide ((q, j) = (p, i))) as [[= -> ->]|Hne].
      * rewrite Hf in Hg. injection Hg as <-.
        rewrite (lk_entry _ _ _ _ _ _ _ Hlk) in Hl. injection Hl as <-.
        rewrite (lk_code _ _ _ _ _ _ _ Hlk). symmetry. apply Hlk.
      * rewrite (link_load q g j) in Hl by done. by eapply (pt_entries _ _ _ Hok q).
Qed.
End link.

(** *** Growing the tables *)

Record extends root m s m' (s' : F) : Prop := Extends {
  ex_use f : in_use s f → in_use s' f;
  ex_tables q f : is_path 3 q → table_at m root q = Some f → table_at m' root q = Some f;
  ex_walk q j : is_path 3 q → length q = 3%nat → idx_ok j →
    walk m' root q j = walk m root q j;
  ex_new a : in_use s (a / PAGE_SIZE) → in_table m' root a → in_table m root a;
  ex_data a : in_use s (a / PAGE_SIZE) → ¬ in_table m root a → m' !! a = m !! a;
  ex_dom : dom_grows m m';
  ex_bytes : bytes_ok m → bytes_ok m';
}.

Lemma extends_refl root m s : extends root m s m s.
Proof. by split. Qed.

Lemma extends_trans root m1 s1 m2 s2 m3 s3 :
  extends root m1 s1 m2 s2 → extends root m2 s2 m3 s3 → extends root m1 s1 m3 s3.
Proof.
  intros H12 H23. split.
  - intros f Hf. by apply (ex_use _ _ _ _ _ H23), (ex_use _ _ _ _ _ H12).
  - intros q f Hq Hf. eapply ex_tables; [exact H23|done|]. by apply (ex_tables _ _ _ _ _ H12).
  - intros q j Hq Hl Hj. rewrite (ex_walk _ _ _ _ _ H23) by done. by apply H12.
  - intros a Ha Ht. eapply ex_new; [exact H12|done|].
    eapply ex_new; [exact H23| |done]. by apply (ex_use _ _ _ _ _ H12).
  - intros a Ha Ht. rewrite (ex_data _ _ _ _ _ H23).
    + by apply H12.
    + by apply (ex_use _ _ _ _ _ H12).
    + intros Ht'. apply Ht. by apply (ex_new _ _ _ _ _ H12).
  - etrans; [apply H12|apply H23].
  - intros Hb. by apply (ex_bytes _ _ _ _ _ H23), (ex_bytes _ _ _ _ _ H12).
Qed.

Lemma link_extends m m' s s' root p f i n e :
  pt_ok m s root → linked m m' s f i n e → is_path 2 p → table_at m root p = Some f →
  idx_ok i → (∀ g, in_use s g → in_use s' g) → n mod PAGE_SIZE = 0 →
  extends root m s m' s'.
Proof.
  intros Hok Hlk Hp Hf Hi Huse Hn. split.
  - done.
  - intros q g Hq Hg. erewrite link_table_at by done. case_decide as Hd; [|done].
    subst q. by erewrite link_absent in Hg.
  - intros. by eapply link_walk.
  - intros a Ha (q & g & Hq & Hg & Hag). erewrite link_table_at in Hg by done.
    case_decide; [|by exists q, g]. injection Hg as <-. exfalso.
    apply (lk_fresh _ _ _ _ _ _ _ Hlk).
    by replace (n / PAGE_SIZE) with (a / PAGE_SIZE) by (unfold PAGE_SIZE in *; zlia).
  - intros a Ha Ht. apply Hlk; [done|]. intros Hain. apply Ht.
    assert (is_path 3 p) as Hp3 by (eapply is_path_le; [done|lia]).
    destruct (pt_frames _ _ _ Hok _ _ Hp3 Hf) as (Hfa & _).
    exists p, f. split; [done|]. split; [done|]. by apply (entry_page f i).
  - apply Hlk.
  - apply Hlk.
Qed.

(** *** [get_next_level] *)

Lemma overwritten_dom m m' a n b : overwritten m m' a n (λ _, Some b) → dom_grows m m'.
Proof. intros Ho x Hx. rewrite Ho. case_bool_decide; [eauto|done]. Qed.

Lemma bytes_ok_zeros m m' a n : bytes_ok m → overwritten m m' a n (λ _, Some 0) → bytes_ok m'.
Proof.
  intros Hok Ho x b Hb. rewrite Ho in Hb. case_bool_decide; [injection Hb as <-; simpl; lia|by eapply Hok].
Qed.

Lemma store_le_bytes n m a v m' : store_le n m a v = Done m' → bytes_ok m → bytes_ok m'.
Proof.
  revert m a v. induction n as [|n IH]; intros m a v; cbn [store_le]; [by intros [= <-]|].
  intros (m1 & [_ ->]%store8_inv & Hs)%bind_Done_inv Hb. eapply IH; [exact Hs|].
  apply bytes_ok_insert; [done|]. apply u8_range.
Qed.

(** Allocating a table and storing its entry links it. *)
Lemma alloc_links m s root p f i flags n m1 s1 :
  pt_ok m s root → fa_inv s → is_path 2 p → table_at m root p = Some f → idx_ok i →
  entry m f i = None → flags_ok flags →
  alloc_zero m s = Done (n, (m1, s1)) → n ≠ 0 →
  ∃ m2 m3, store64 m1 (f + 8 * i) n = Done m2 ∧ load64 m2 (f + 8 * i) = Done n ∧
    store64 m2 (f + 8 * i) (Z.lor n flags) = Done m3 ∧
    linked m m3 s f i n (Z.lor n flags) ∧ dom_grows m1 m3.
Proof.
  intros Hok Hinv Hp Hf Hi Habs Hfl Hal Hn0.
  destruct (fa_fresh _ _ _ _ _ Hinv Hal Hn0) as (_ & Hna & Hnp & Hnb & Hfresh & _ & Ho).
  assert (is_path 3 p) as Hp3 by (eapply is_path_le; [done|lia]).
  destruct (pt_frames _ _ _ Hok _ _ Hp3 Hf) as (Hfa & Hfp & Hfb & Hfm & Hfu).
  destruct (frame_flags n flags) as (Hlor & Hfr & Hpr & Hcode);
    [done|unfold PAGE_SIZE in Hnb; lia|done|].
  assert (f ≠ n) as Hfn by (intros ->; done).
  assert (dom_grows m m1) as Hd1 by by eapply overwritten_dom.
  assert (mapped m (f + 8 * i) 8) as Hsl.
  { eapply mapped_mono; [exact Hfm|unfold idx_ok, PAGE_SIZE in *; lia..]. }
  destruct (store64_total m1 (f + 8 * i) n) as [m2 Hm2]; [by eapply dom_grows_mapped|].
  pose proof (store_le_dom _ _ _ _ _ Hm2) as Hd2.
  destruct (store64_total m2 (f + 8 * i) (Z.lor n flags)) as [m3 Hm3].
  { eapply dom_grows_mapped; [exact Hd2|]. by eapply dom_grows_mapped. }
  pose proof (store_le_dom _ _ _ _ _ Hm3) as Hd3.
  assert (∀ a, ¬ (f + 8 * i ≤ a < f + 8 * i + 8) → m3 !! a = m1 !! a) as Hother.
  { intros a Ha. rewrite (store_le_other _ _ _ _ _ a Hm3) by (simpl; lia).
    by rewrite (store_le_other _ _ _ _ _ a Hm2) by (simpl; lia). }
  exists m2, m3. split_and!; [done| |done| |by etrans].
  - eapply load_store_64; [unfold PAGE_SIZE in Hnb; simpl; lia|done].
  - split; try done.
    + intros a Ha Hout. rewrite Hother by done. eapply overwritten_out; [done|].
      intros Hin. apply Hfresh.
      by replace (n / PAGE_SIZE) with (a / PAGE_SIZE) by (unfold PAGE_SIZE in *; zlia).
    + etrans; [done|]. by etrans.
    + eapply load_store_64; [|done]. rewrite Hlor.
      destruct Hfl. unfold PAGE_SIZE in *. simpl. lia.
    + intros a Ha. rewrite Hother; [by rewrite (overwritten_in _ _ _ _ _ _ Ho)|].
      intros Hin. destruct (entry_page f i a Hfa Hi Hin) as [_ ?].
      unfold PAGE_SIZE in *. zlia.
    + intros Hb. eapply store_le_bytes; [exact Hm3|]. eapply store_le_bytes; [exact Hm2|].
      by eapply bytes_ok_zeros.
Qed.

(** The tables that are missing on the way to [va]. *)
Definition need (t : option Z) : nat := match t with Some _ => 0 | None => 1 end.
Definition missing (m : mem) (root va : Z) : nat :=
  need (table_at m root [PML_ENTRY va 39]) + need (table_at m root [PML_ENTRY va 39; PML_ENTRY va 30]) +
  need (table_at m root [PML_ENTRY va 39; PML_ENTRY va 30; PML_ENTRY va 21]).

Lemma missing_le m root va : (missing m root va ≤ 3)%nat.
Proof. unfold missing, need. repeat destruct (table_at _ _ _); lia. Qed.

Lemma missing_none m root va :
  is_Some (table_at m root [PML_ENTRY va 39; PML_ENTRY va 30; PML_ENTRY va 21]) → missing m root va = 0%nat.
Proof.
  unfold missing. cbn [table_at]. intros [f Hf].
  destruct (next m root _) as [t|]; [|done]. cbn [mbind option_bind] in *.
  destruct (next m t _) as [u|]; [|done]. cbn [mbind option_bind] in *. by rewrite Hf.
Qed.

Lemma need_extends root m s m' s' q :
  extends root m s m' s' → is_path 3 q → (need (table_at m' root q) ≤ need (table_at m root q))%nat.
Proof.
  intros Hx Hq. unfold need. destruct (table_at m root q) as [f|] eqn:Hf.
  - by rewrite (ex_tables _ _ _ _ _ Hx q f).
  - destruct (table_at m' root q); lia.
Qed.

Lemma get_next_level_spec (st : vmm F) root p f i table flags n :
  pt_ok (ram st) (frames st) root → fa_inv (frames st) →
  available (need (table_at (ram st) root (p ++ [i])) + n) (ram st) (frames st) → flags_ok flags →
  is_path 2 p → table_at (ram st) root p = Some f → idx_ok i →
  slot table i = f + 8 * i →
  ∃ g m' s', get_next_level table i flags st =
      Done (u64 (g + MMAP_IO_BASE), set_mem st m' s') ∧
    table_at m' root (p ++ [i]) = Some g ∧ pt_ok m' s' root ∧ fa_inv s' ∧
    available n m' s' ∧
    extends root (ram st) (frames st) m' s'.
Proof.
  intros Hok Hinv Hav Hfl Hp Hf Hi Hslot.
  assert (is_path 3 p) as Hp3 by (eapply is_path_le; [done|lia]).
  destruct (pt_frames _ _ _ Hok _ _ Hp3 Hf) as (Hfa & Hfp & Hfb & Hfm & Hfu).
  destruct (load64_total (ram st) (f + 8 * i)) as [e He].
  { eapply mapped_mono; [exact Hfm|unfold idx_ok, PAGE_SIZE in *; lia..]. }
  unfold get_next_level. rewrite Hslot, He. cbn [mbind res_bind].
  destruct (Z.eqb_spec (Z.land e 1) 0) as [Hz|Hz].
  - assert (entry (ram st) f i = None) as Habs.
    { unfold entry. rewrite He. unfold present. by rewrite Hz. }
    rewrite table_at_snoc, Hf in Hav. cbn [mbind option_bind] in Hav. unfold next in Hav. rewrite Habs in Hav.
    destruct (fa_total _ _ _ Hinv Hav) as (q & m1 & s1 & Hal & Hq0 & Hav1).
    destruct (fa_fresh _ _ _ _ _ Hinv Hal Hq0) as (Hinv1 & Hqa & Hqp & Hqb & _ & Huse & _).
    destruct (alloc_links _ _ _ _ _ _ _ _ _ _ Hok Hinv Hp Hf Hi Habs Hfl Hal Hq0)
      as (m2 & m3 & Hm2 & Hl2 & Hm3 & Hlk & Hd).
    rewrite Hal. cbn [mbind res_bind]. rewrite Hm2. cbn [mbind res_bind].
    rewrite Hl2. cbn [mbind res_bind]. rewrite Hm3. cbn [mbind res_bind ram set_mem].
    rewrite (lk_entry _ _ _ _ _ _ _ Hlk). cbn [mbind res_bind].
    rewrite (lk_code _ _ _ _ _ _ _ Hlk).
    assert (∀ g, in_use (frames st) g → in_use s1 g) as Hmono by (intros; apply Huse; auto).
    exists q, m3, s1. split; [done|]. split; [|split; [|split; [done|split]]].
    + erewrite link_table_at; [by rewrite decide_True|done..|]. by apply is_path_snoc.
    + eapply link_pt_ok; try done. apply Huse. auto.
    + by eapply fa_mono.
    + by eapply link_extends.
  - assert (present e = true) as Hpr.
    { unfold present. by destruct (Z.eqb_spec (Z.land e 1) 0). }
    cbn [mbind res_bind]. rewrite He. cbn [mbind res_bind].
    rewrite (pt_entries _ _ _ Hok p f i e) by done.
    assert (table_at (ram st) root (p ++ [i]) = Some (frame_of e)) as Hnx.
    { rewrite table_at_snoc, Hf. simpl. unfold next, entry. by rewrite He, Hpr. }
    rewrite Hnx in Hav. exists (frame_of e), (ram st), (frames st).
    split; [by destruct st|]. split_and!; [done..|apply extends_refl].
Qed.

(** *** From the root to the last level *)

(** [pagemap] is a kernel pointer to the frame [root]. *)
Definition points_to (pagemap root : Z) : Prop :=
  ∀ i, idx_ok i → slot pagemap i = root + 8 * i.

Lemma points_to_io g :
  0 ≤ g → g + PAGE_SIZE ≤ 2 ^ 46 → points_to (u64 (g + MMAP_IO_BASE)) g.
Proof.
  unfold PAGE_SIZE, idx_ok. intros H0 Hb i Hi. unfold slot, idx_ok in *.
  replace (u64 (u64 (g + MMAP_IO_BASE) + 8 * i)) with (u64 (g + 8 * i + MMAP_IO_BASE)).
  - apply phys_of_io. unfold phys_ok, MMAP_KERNEL_BASE, MMAP_IO_BASE. lia.
  - unfold u64. rewrite Zplus_mod_idemp_l. f_equal. lia.
Qed.

Lemma points_to_id g : 0 ≤ g → g + PAGE_SIZE ≤ 2 ^ 46 → points_to g g.
Proof.
  unfold PAGE_SIZE, idx_ok. intros H0 Hb i Hi. unfold slot, idx_ok in *.
  apply phys_of_id. unfold MMAP_IO_BASE. lia.
Qed.

Lemma points_to_kernel g :
  0 ≤ g → g + PAGE_SIZE ≤ 2 ^ 31 → points_to (u64 (g + MMAP_KERNEL_BASE)) g.
Proof.
  unfold PAGE_SIZE, idx_ok. intros H0 Hb i Hi. unfold slot, idx_ok in *.
  replace (u64 (u64 (g + MMAP_KERNEL_BASE) + 8 * i)) with (u64 (g + 8 * i + MMAP_KERNEL_BASE)).
  - apply phys_of_kernel. simpl in *. lia.
  - unfold u64. rewrite Zplus_mod_idemp_l. f_equal. lia.
Qed.

(** What every operation of this file keeps. *)
Record vm_ok (st : vmm F) (root : Z) : Prop := VmOk {
  vm_tables : pt_ok (ram st) (frames st) root;
  vm_frames : fa_inv (frames st);
  vm_lock : vlock st = false;
}.

Lemma table_range m s root p f :
  pt_ok m s root → is_path 3 p → table_at m root p = Some f →
  0 < f ∧ f + PAGE_SIZE ≤ 2 ^ 46.
Proof. intros Hok Hp Hf. by destruct (pt_frames _ _ _ Hok _ _ Hp Hf) as (_&?&?&_). Qed.

Lemma last_level_spec (st : vmm F) root pagemap va flags n :
  pt_ok (ram st) (frames st) root → fa_inv (frames st) →
  available (missing (ram st) root va + n) (ram st) (frames st) → flags_ok flags → points_to pagemap root →
  ∃ t m' s', last_level pagemap va flags st = Done (u64 (t + MMAP_IO_BASE), set_mem st m' s') ∧
    table_at m' root [PML_ENTRY va 39; PML_ENTRY va 30; PML_ENTRY va 21] = Some t ∧
    pt_ok m' s' root ∧ fa_inv s' ∧ available n m' s' ∧
    extends root (ram st) (frames st) m' s'.
Proof.
  intros Hok Hinv Hav Hfl Hpt. unfold last_level, missing in *.
  pose proof (PML_ENTRY_ok va 39 ltac:(lia)) as H4.
  pose proof (PML_ENTRY_ok va 30 ltac:(lia)) as H3.
  pose proof (PML_ENTRY_ok va 21 ltac:(lia)) as H2.
  set (l4 := PML_ENTRY va 39) in *. set (l3 := PML_ENTRY va 30) in *.
  set (l2 := PML_ENTRY va 21) in *. set (n3 := need (table_at (ram st) root [l4; l3])) in *.
  set (n2 := need (table_at (ram st) root [l4; l3; l2])) in *.
  assert (is_path 1 [l4]) as Hp4 by (split; [simpl; lia|]; by apply Forall_singleton).
  assert (is_path 2 [l4; l3]) as Hp3 by (split; [simpl; lia|];
    apply Forall_cons_2; [done|]; by apply Forall_singleton).
  assert (is_path 3 [l4; l3; l2]) as Hp2 by (by apply (is_path_snoc 2 [l4; l3] l2)).
  destruct (get_next_level_spec st root [] root l4 pagemap flags (n3 + (n2 + n)))
    as (g4 & m4 & s4 & -> & Ht4 & Hok4 & Hinv4 & Hav4 & Hx4);
    [done..|eapply available_le; [exact Hav|cbn [app]; lia]|done|apply is_path_nil|done|done|by apply Hpt|].
  destruct (table_range _ _ _ _ _ Hok4 (is_path_le 1 3 _ Hp4 ltac:(lia)) Ht4) as [Hg4 Hb4].
  cbn [mbind res_bind].
  destruct (get_next_level_spec (set_mem st m4 s4) root [l4] g4 l3
    (u64 (g4 + MMAP_IO_BASE)) flags (n2 + n))
    as (g3 & m3 & s3 & -> & Ht3 & Hok3 & Hinv3 & Hav3 & Hx3);
    [done..| |done|apply (is_path_le 1 2); [done|lia]|done|done|apply points_to_io; (lia || done)|].
  { eapply available_le; [exact Hav4|]. apply Nat.add_le_mono_r.
    by apply (need_extends _ _ _ _ _ _ Hx4 (is_path_le 2 3 _ Hp3 ltac:(lia))). }
  destruct (table_range _ _ _ _ _ Hok3 (is_path_le 2 3 _ Hp3 ltac:(lia)) Ht3) as [Hg3 Hb3].
  cbn [mbind res_bind].
  destruct (get_next_level_spec (set_mem (set_mem st m4 s4) m3 s3) root [l4; l3] g3 l2
    (u64 (g3 + MMAP_IO_BASE)) flags n)
    as (g2 & m2 & s2 & -> & Ht2 & Hok2 & Hinv2 & Hav2 & Hx2);
    [done..| |done|done|done|done|apply points_to_io; (lia || done)|].
  { eapply available_le; [exact Hav3|]. apply Nat.add_le_mono_r.
    by apply (need_extends _ _ _ _ _ _ (extends_trans _ _ _ _ _ _ _ Hx4 Hx3) Hp2). }
  exists g2, m2, s2. split_and!; [done..|].
  eapply extends_trans; [exact Hx4|]. by eapply extends_trans.
Qed.

(** *** The leaf entry *)

Section leaf.
Context m s root p t i v m'
  (Hok : pt_ok m s root) (Hp : is_path 3 p) (Hlen : length p = 3%nat)
  (Ht : table_at m root p = Some t) (Hi : idx_ok i) (Hv : is_u64 v)
  (Hst : store64 m (t + 8 * i) v = Done m').

Lemma leaf_only : only_entry m m' s t i.
Proof. intros a _ Ha. by apply (store_le_other _ _ _ _ _ a Hst). Qed.

Lemma leaf_load q g j :
  is_path 3 q → table_at m root q = Some g → idx_ok j → (q, j) ≠ (p, i) →
  load64 m' (g + 8 * j) = load64 m (g + 8 * j).
Proof.
  intros Hq Hg Hj Hne. by apply (only_entry_load m m' s root p t i q g j); try apply leaf_only.
Qed.

Lemma leaf_table_at q : is_path 3 q → table_at m' root q = table_at m root q.
Proof.
  induction q as [|j q IH] using rev_ind; intros Hq; [done|].
  apply is_path_snoc_inv in Hq as [Hq Hj].
  assert (is_path 3 q) as Hq3 by (eapply is_path_le; [done|lia]).
  rewrite !table_at_snoc, IH by done.
  destruct (table_at m root q) as [g|] eqn:Hg; simpl; [|done].
  apply next_lookup. eapply leaf_load; [done..|]. intros [= -> _]. destruct Hq. lia.
Qed.

Lemma leaf_walk_eq : walk m' root p i = if present v then Some v else None.
Proof.
  unfold walk. rewrite leaf_table_at, Ht by done. simpl. unfold entry.
  by rewrite (load_store_64 _ _ _ _ Hv Hst).
Qed.

Lemma leaf_walk_ne q j :
  is_path 3 q → idx_ok j → (q, j) ≠ (p, i) → walk m' root q j = walk m root q j.
Proof.
  intros Hq Hj Hne. unfold walk. rewrite leaf_table_at by done.
  destruct (table_at m root q) as [g|] eqn:Hg; simpl; [|done].
  apply entry_lookup. by eapply leaf_load.
Qed.

Lemma leaf_pt_ok : pt_ok m' s root.
Proof.
  split.
  - intros q f Hq. rewrite leaf_table_at by done. intros Hf.
    destruct (pt_frames _ _ _ Hok q f Hq Hf) as (?&?&?&?&?). split_and!; try done.
    eapply dom_grows_mapped; [by eapply store_le_dom|done].
  - intros q q' f Hq Hq'. rewrite !leaf_table_at by done. by eapply pt_inj.
  - intros q f j e Hq Hj. assert (is_path 3 q) as Hq3 by (eapply is_path_le; [done|lia]).
    rewrite leaf_table_at by done. intros Hf. rewrite (leaf_load q) by
      (done || (intros [= -> _]; destruct Hq; lia)).
    by apply (pt_entries _ _ _ Hok q).
Qed.

Lemma leaf_data a : in_use s (a / PAGE_SIZE) → ¬ in_table m root a → m' !! a = m !! a.
Proof.
  intros Ha Hnt. apply leaf_only; [done|]. intros Hin. apply Hnt.
  destruct (pt_frames _ _ _ Hok _ _ Hp Ht) as (Hta & _).
  exists p, t. split; [done|]. split; [done|]. by apply (entry_page t i).
Qed.
End leaf.

(** *** Whole operations *)

Abbreviation va_path va := [PML_ENTRY va 39; PML_ENTRY va 30; PML_ENTRY va 21].

Lemma va_path_ok va : is_path 3 (va_path va).
Proof.
  apply is_path_list; [done|]. intros i Hi.
  repeat (apply elem_of_cons in Hi as [->|Hi]; [by apply PML_ENTRY_ok|]).
  by apply not_elem_of_nil in Hi.
Qed.

(** Walking to the last level and writing entry [v] there. *)
Lemma write_leaf (st : vmm F) root pagemap va flags v n :
  pt_ok (ram st) (frames st) root → fa_inv (frames st) →
  available (missing (ram st) root va + n) (ram st) (frames st) → flags_ok flags →
  points_to pagemap root → is_u64 v →
  ∃ pml1 m1 s1 m2, last_level pagemap va flags st = Done (pml1, set_mem st m1 s1) ∧
    store64 m1 (slot pml1 (PML_ENTRY va 12)) v = Done m2 ∧
    pt_ok m2 s1 root ∧ fa_inv s1 ∧ available n m2 s1 ∧
    translate m2 root va = (if present v then Some v else None) ∧
    (∀ va', vpn va' ≠ vpn va → translate m2 root va' = translate (ram st) root va') ∧
    (∀ q f, is_path 3 q → table_at (ram st) root q = Some f → table_at m2 root q = Some f) ∧
    (∀ f, in_use (frames st) f → in_use s1 f) ∧
    (∀ a, in_use (frames st) (a / PAGE_SIZE) → in_table m2 root a →
       in_table (ram st) root a) ∧
    (∀ a, in_use (frames st) (a / PAGE_SIZE) → ¬ in_table (ram st) root a →
       m2 !! a = ram st !! a) ∧
    dom_grows (ram st) m2 ∧ (bytes_ok (ram st) → bytes_ok m2) ∧
    is_Some (table_at m2 root (va_path va)).
Proof.
  intros Hok Hinv Hav Hfl Hpt Hv.
  destruct (last_level_spec st root pagemap va flags n)
    as (t & m1 & s1 & Hr & Ht & Hok1 & Hinv1 & Hav1 & Hx); [done..|].
  pose proof (va_path_ok va) as Hp. pose proof (PML_ENTRY_ok va 12 ltac:(lia)) as Hi.
  destruct (pt_frames _ _ _ Hok1 _ _ Hp Ht) as (Hta & Ht0 & Htb & Htm & Htu).
  assert (slot (u64 (t + MMAP_IO_BASE)) (PML_ENTRY va 12) = t + 8 * PML_ENTRY va 12) as Hsl
    by (apply points_to_io; (lia || done)).
  destruct (store64_total m1 (t + 8 * PML_ENTRY va 12) v) as [m2 Hm2].
  { eapply mapped_mono; [exact Htm|unfold idx_ok, PAGE_SIZE in *; lia..]. }
  assert (∀ q, is_path 3 q → table_at m2 root q = table_at m1 root q) as Htab
    by (intros; by eapply (leaf_table_at m1 s1 root (va_path va))).
  assert (∀ a, in_table m2 root a → in_table m1 root a) as Hit.
  { intros a (q & f & Hq & Hf & Ha). exists q, f. by rewrite <-Htab. }
  exists (u64 (t + MMAP_IO_BASE)), m1, s1, m2. rewrite Hsl. split_and!; try done.
  - by eapply (leaf_pt_ok m1 s1 root (va_path va)).
  - eapply fa_mono; [by eapply store_le_dom|done].
  - by apply (leaf_walk_eq m1 s1 root (va_path va) t (PML_ENTRY va 12)).
  - intros va' Hne%vpn_neq. unfold translate.
    rewrite (leaf_walk_ne m1 s1 root (va_path va) t (PML_ENTRY va 12) v m2);
      try done; try apply va_path_ok; try (apply PML_ENTRY_ok; lia).
    apply (ex_walk _ _ _ _ _ Hx); [apply va_path_ok|done|apply PML_ENTRY_ok; lia].
  - intros q f Hq Hf. rewrite Htab by done. by apply (ex_tables _ _ _ _ _ Hx).
  - apply Hx.
  - intros a Ha Hin. by apply (ex_new _ _ _ _ _ Hx), Hit.
  - intros a Ha Hnt. rewrite <-(ex_data _ _ _ _ _ Hx a Ha Hnt).
    eapply (leaf_data m1 s1 root (va_path va)); [done..|by apply (ex_use _ _ _ _ _ Hx)|].
    intros Hin. apply Hnt. by apply (ex_new _ _ _ _ _ Hx).
  - etrans; [apply Hx|]. by eapply store_le_dom.
  - intros Hb. eapply store_le_bytes; [exact Hm2|]. by apply (ex_bytes _ _ _ _ _ Hx).
  - rewrite Htab by done. by exists t.
Qed.

(** The effect of one mapping on everything but the lock and the TLB. *)
Record mapped_to root va (e : option Z) (st st' : vmm F) : Prop := MappedTo {
  mt_here : translate (ram st') root va = e;
  mt_other va' : vpn va' ≠ vpn va →
    translate (ram st') root va' = translate (ram st) root va';
  mt_use f : in_use (frames st) f → in_use (frames st') f;
  mt_tables a : in_use (frames st) (a / PAGE_SIZE) →
    in_table (ram st') root a → in_table (ram st) root a;
  mt_data a : in_use (frames st) (a / PAGE_SIZE) → ¬ in_table (ram st) root a →
    ram st' !! a = ram st !! a;
  mt_bytes : bytes_ok (ram st) → bytes_ok (ram st');
}.

(** With as many frames as tables are missing. *)
Lemma vmm_map_need (st : vmm F) root pagemap pa va flags n :
  vm_ok st root → available (missing (ram st) root va + n) (ram st) (frames st) →
  points_to pagemap root → flags_ok flags → pa mod PAGE_SIZE = 0 → 0 ≤ pa < 2 ^ 52 →
  ∃ st', vmm_map pagemap pa va flags st = Done st' ∧ vm_ok st' root ∧
    available n (ram st') (frames st') ∧
    tlb_flushed st' = va :: tlb_flushed st ∧ cr3 st' = cr3 st ∧
    mapped_to root va (Some (pa + flags)) st st' ∧ dom_grows (ram st) (ram st') ∧
    is_Some (table_at (ram st') root (va_path va)) ∧
    ∀ q f, is_path 3 q → table_at (ram st) root q = Some f → table_at (ram st') root q = Some f.
Proof.
  intros [Hok Hinv Hlk] Hav Hpt Hfl Hpa Hpr.
  destruct (frame_flags pa flags) as (Hlor & _ & Hpres & _); [done..|].
  assert (is_u64 (Z.lor pa flags)) as Hv
    by (rewrite Hlor; destruct Hfl; unfold PAGE_SIZE in *; simpl; lia).
  destruct (write_leaf (set_lock st true) root pagemap va flags (Z.lor pa flags) n)
    as (pml1 & m1 & s1 & m2 & Hl & Hm2 & Hok2 & Hinv2 & Hav2 & Hte & Hto & Htb & Hu & Ht & Hd & Hg & Hb & Hp);
    [done..|].
  unfold vmm_map. rewrite Hlk. simpl. rewrite Hl. simpl. rewrite Hm2.
  eexists. split; [done|]. rewrite Hpres, Hlor in Hte.
  split_and!; try done; by split.
Qed.

Lemma vmm_map_spec (st : vmm F) root pagemap pa va flags n :
  vm_ok st root → available (3 + n) (ram st) (frames st) → points_to pagemap root →
  flags_ok flags → pa mod PAGE_SIZE = 0 → 0 ≤ pa < 2 ^ 52 →
  ∃ st', vmm_map pagemap pa va flags st = Done st' ∧ vm_ok st' root ∧
    available n (ram st') (frames st') ∧
    tlb_flushed st' = va :: tlb_flushed st ∧ cr3 st' = cr3 st ∧
    mapped_to root va (Some (pa + flags)) st st' ∧ dom_grows (ram st) (ram st').
Proof.
  intros Hvm Hav Hpt Hfl Hpa Hpr. pose proof (missing_le (ram st) root va).
  destruct (vmm_map_need st root pagemap pa va flags n) as (st' & ?&?&?&?&?&?&?&_); try done.
  { eapply available_le; [exact Hav|lia]. }
  by exists st'.
Qed.

Lemma vmm_unmap_spec (st : vmm F) root pagemap va flags n :
  vm_ok st root → available (3 + n) (ram st) (frames st) → points_to pagemap root →
  flags_ok flags →
  ∃ st', vmm_unmap pagemap va flags st = Done st' ∧ vm_ok st' root ∧
    available n (ram st') (frames st') ∧
    tlb_flushed st' = tlb_flushed st ∧ cr3 st' = cr3 st ∧
    mapped_to root va None st st' ∧ dom_grows (ram st) (ram st').
Proof.
  intros [Hok Hinv Hlk] Hav Hpt Hfl.
  pose proof (missing_le (ram st) root va).
  destruct (write_leaf st root pagemap va flags 0 n)
    as (pml1 & m1 & s1 & m2 & Hl & Hm2 & Hok2 & Hinv2 & Hav2 & Hte & Hto & _ & Hu & Ht & Hd & Hg & Hb & _);
    try done; [eapply available_le; [exact Hav|lia]|].
  unfold vmm_unmap. rewrite Hl. simpl. rewrite Hm2.
  eexists. split; [done|]. split_and!; try done; by split.
Qed.

Lemma mapped_to_trans_other root va va' e st1 st2 st3 :
  mapped_to root va e st1 st2 → mapped_to root va' (translate (ram st3) root va') st2 st3 →
  vpn va ≠ vpn va' → translate (ram st3) root va = e.
Proof. intros H1 H2 Hne. rewrite (mt_other _ _ _ _ _ H2) by done. apply H1. Qed.

(** *** Writing outside the tables leaves them alone *)

Lemma in_table_use m s root a : pt_ok m s root → in_table m root a → in_use s (a / PAGE_SIZE).
Proof.
  intros Hok (q & f & Hq & Hf & Ha). destruct (pt_frames _ _ _ Hok _ _ Hq Hf) as (Hfa & _ & _ & _ & Hu).
  replace (a / PAGE_SIZE) with (f / PAGE_SIZE); [done|]. unfold PAGE_SIZE in *. zlia.
Qed.

Section alloc.
Context m s root m1 s1 (Hok : pt_ok m s root)
  (Hsame : ∀ a, in_table m root a → m1 !! a = m !! a)
  (Hdom : dom_grows m m1) (Huse : ∀ f, in_use s f → in_use s1 f).

Lemma alloc_load q f j :
  is_path 3 q → table_at m root q = Some f → idx_ok j →
  load64 m1 (f + 8 * j) = load64 m (f + 8 * j).
Proof.
  intros Hq Hf Hj. destruct (pt_frames _ _ _ Hok _ _ Hq Hf) as (Ha & _ & _ & _ & Hu).
  apply load_le_lookup. intros a Hin. change (Z.of_nat 8) with 8 in Hin.
  apply Hsame. exists q, f. split_and!; try done; unfold idx_ok, PAGE_SIZE in *; lia.
Qed.

Lemma alloc_table_at q : is_path 3 q → table_at m1 root q = table_at m root q.
Proof.
  induction q as [|j q IH] using rev_ind; intros Hq; [done|].
  apply is_path_snoc_inv in Hq as [Hq Hj].
  assert (is_path 3 q) as Hq3 by (eapply is_path_le; [done|lia]).
  rewrite !table_at_snoc, IH by done.
  destruct (table_at m root q) as [g|] eqn:Hg; simpl; [|done].
  apply next_lookup. by eapply alloc_load.
Qed.

Lemma alloc_walk q j : is_path 3 q → idx_ok j → walk m1 root q j = walk m root q j.
Proof.
  intros Hq Hj. unfold walk. rewrite alloc_table_at by done.
  destruct (table_at m root q) as [g|] eqn:Hg; simpl; [|done].
  apply entry_lookup. by eapply alloc_load.
Qed.

Lemma alloc_pt_ok : pt_ok m1 s1 root.
Proof.
  split.
  - intros q f Hq. rewrite alloc_table_at by done. intros Hf.
    destruct (pt_frames _ _ _ Hok q f Hq Hf) as (?&?&?&?&?).
    split_and!; try done; [by eapply dom_grows_mapped|by apply Huse].
  - intros q q' f Hq Hq'. rewrite !alloc_table_at by done. by eapply pt_inj.
  - intros q f j e Hq Hj. assert (is_path 3 q) as Hq3 by (eapply is_path_le; [done|lia]).
    rewrite alloc_table_at by done. intros Hf. rewrite (alloc_load q) by done.
    by apply (pt_entries _ _ _ Hok q).
Qed.

Lemma alloc_in_table a : in_table m1 root a → in_table m root a.
Proof.
  intros (q & f & Hq & Hf & Ha). exists q, f. by rewrite alloc_table_at in Hf.
Qed.
End alloc.

(** One round of the loop of [vmm_mmap]: a fresh zeroed frame behind [va]. *)
Lemma mmap_step (st : vmm F) root pagemap va n :
  vm_ok st root → available (4 + n) (ram st) (frames st) → points_to pagemap root →
  ∃ (p : Z) m s st', alloc_zero (ram st) (frames st) = Done (p, (m, s)) ∧
    vmm_map pagemap p va 7 (set_mem st m s) = Done st' ∧ vm_ok st' root ∧
    available n (ram st') (frames st') ∧ p mod PAGE_SIZE = 0 ∧ 0 < p ∧
    ¬ in_use (frames st) (p / PAGE_SIZE) ∧ in_use (frames st') (p / PAGE_SIZE) ∧
    (∀ a, p ≤ a < p + PAGE_SIZE → ram st' !! a = Some 0 ∧ ¬ in_table (ram st') root a) ∧
    mapped_to root va (Some (p + 7)) st st'.
Proof.
  intros [Hok Hinv Hlk] Hav Hpt.
  destruct (fa_total _ _ _ Hinv Hav) as (p & m & s & Hal & Hp0 & Hav1).
  destruct (fa_fresh _ _ _ _ _ Hinv Hal Hp0)
    as (Hinv1 & Hpa & Hpp & Hpb & Hfresh & Huse & Ho).
  assert (∀ a, in_use (frames st) (a / PAGE_SIZE) → m !! a = ram st !! a) as Hsame.
  { intros a Ha. eapply overwritten_out; [done|]. intros Hin. apply Hfresh.
    by replace (p / PAGE_SIZE) with (a / PAGE_SIZE) by (unfold PAGE_SIZE in *; zlia). }
  assert (∀ a, in_table (ram st) root a → m !! a = ram st !! a) as Hsamet
    by (intros a Ha; by eapply Hsame, in_table_use).
  assert (dom_grows (ram st) m) as Hdom by by eapply overwritten_dom.
  assert (∀ f, in_use (frames st) f → in_use s f) as Hmono by (intros; apply Huse; auto).
  destruct (vmm_map_spec (set_mem st m s) root pagemap p va 7 n)
    as (st' & Hr & Hvm & Hav' & _ & _ & Hmt & _); try done.
  { split; [by eapply alloc_pt_ok|done..]. }
  { unfold PAGE_SIZE in Hpb. lia. }
  exists p, m, s, st'. split_and!; try done.
  - apply Hmt. apply Huse. auto.
  - intros a Ha. assert (in_use s (a / PAGE_SIZE)) as Hau.
    { apply Huse. right. unfold PAGE_SIZE in *. zlia. }
    assert (¬ in_table (ram (set_mem st m s)) root a) as Hnt.
    { intros (q & f & Hq & Hf & Haf)%(alloc_in_table _ _ _ _ Hok Hsamet).
      destruct (pt_frames _ _ _ Hok _ _ Hq Hf) as (Hfa & _ & _ & _ & Hfu).
      apply Hfresh. replace (p / PAGE_SIZE) with (f / PAGE_SIZE); [done|].
      unfold PAGE_SIZE in *. zlia. }
    split; [|intros Hin; by apply Hnt, (mt_tables _ _ _ _ _ Hmt)].
    rewrite (mt_data _ _ _ _ _ Hmt) by done. by apply (overwritten_in _ _ _ _ _ _ Ho).
  - split; try apply Hmt.
    + intros va' Hne. rewrite (mt_other _ _ _ _ _ Hmt) by done.
      apply (alloc_walk _ _ _ _ Hok Hsamet); [apply va_path_ok|apply PML_ENTRY_ok; lia].
    + intros f Hf. apply Hmt. by apply Hmono.
    + intros a Ha Hin. eapply (alloc_in_table _ _ _ _ Hok Hsamet).
      apply (mt_tables _ _ _ _ _ Hmt); [by apply Hmono|done].
    + intros a Ha Hnt. rewrite (mt_data _ _ _ _ _ Hmt); [by apply Hsame|by apply Hmono|].
      intros Hin. by apply Hnt, (alloc_in_table _ _ _ _ Hok Hsamet).
    + intros Hb. apply Hmt. by eapply bytes_ok_zeros.
Qed.

(** After [k] rounds from [virt]: frame [fr i] behind page [i]. *)
Record mmapped root virt k (fr : Z → Z) (st st' : vmm F) : Prop := Mmapped {
  mp_here i : 0 ≤ i < k → translate (ram st') root (virt + i * 4096) = Some (fr i + 7);
  mp_frame i : 0 ≤ i < k → fr i mod PAGE_SIZE = 0 ∧ 0 < fr i ∧
    ¬ in_use (frames st) (fr i / PAGE_SIZE) ∧ in_use (frames st') (fr i / PAGE_SIZE) ∧
    ∀ a, fr i ≤ a < fr i + PAGE_SIZE → ram st' !! a = Some 0 ∧ ¬ in_table (ram st') root a;
  mp_distinct i j : 0 ≤ i < k → 0 ≤ j < k → fr i = fr j → i = j;
  mp_other va : (∀ i, 0 ≤ i < k → vpn va ≠ vpn (virt + i * 4096)) →
    translate (ram st') root va = translate (ram st) root va;
  mp_use f : in_use (frames st) f → in_use (frames st') f;
}.

Lemma vpn_page virt i j :
  0 ≤ virt → 0 ≤ i < 2 ^ 36 → 0 ≤ j < 2 ^ 36 →
  vpn (virt + i * 4096) = vpn (virt + j * 4096) → i = j.
Proof.
  unfold vpn. intros Hv Hi Hj.
  assert (∀ k, (virt + k * 4096) / 2 ^ 12 = virt / 2 ^ 12 + k) as Hd.
  { intros k. change (2 ^ 12) with 4096. by rewrite Z.div_add. }
  rewrite !Hd. change (2 ^ 36) with 68719476736 in *. zlia.
Qed.

Lemma mmapped_step root virt k fr st0 st st' (p : Z) :
  0 ≤ virt → 0 ≤ k < 2 ^ 36 →
  mmapped root virt k fr st0 st →
  mapped_to root (virt + k * 4096) (Some (p + 7)) st st' →
  p mod PAGE_SIZE = 0 → 0 < p → ¬ in_use (frames st) (p / PAGE_SIZE) →
  in_use (frames st') (p / PAGE_SIZE) →
  (∀ a, p ≤ a < p + PAGE_SIZE → ram st' !! a = Some 0 ∧ ¬ in_table (ram st') root a) →
  mmapped root virt (k + 1) (λ i, if decide (i = k) then p else fr i) st0 st'.
Proof.
  intros Hv Hk Hmp Hmt Hpa Hpp Hfresh Hpu Hz. split.
  - intros i Hi. case_decide as Hd; [subst; apply Hmt|].
    rewrite (mt_other _ _ _ _ _ Hmt); [apply Hmp; lia|].
    intros Heq%vpn_page; lia.
  - intros i Hi. case_decide as Hd.
    + split_and!; try done. intros Hu. by apply Hfresh, (mp_use _ _ _ _ _ _ Hmp).
    + destruct (mp_frame _ _ _ _ _ _ Hmp i ltac:(lia)) as (Ha & H0 & Hn & Hu & Hc).
      split_and!; try done; [by apply Hmt|]. intros a Hain.
      destruct (Hc a Hain) as [Hc0 Hcn].
      assert (a / PAGE_SIZE = fr i / PAGE_SIZE) as Hpg by (unfold PAGE_SIZE in *; zlia).
      rewrite (mt_data _ _ _ _ _ Hmt) by (done || by rewrite Hpg).
      split; [done|]. intros Hin. apply Hcn.
      apply (mt_tables _ _ _ _ _ Hmt); [by rewrite Hpg|done].
  - intros i j Hi Hj. repeat case_decide; intros Heq; subst; try done.
    + destruct (mp_frame _ _ _ _ _ _ Hmp j ltac:(lia)) as (_ & _ & _ & Hu & _). done.
    + destruct (mp_frame _ _ _ _ _ _ Hmp i ltac:(lia)) as (_ & _ & _ & Hu & _). done.
    + apply (mp_distinct _ _ _ _ _ _ Hmp); (lia || done).
  - intros va Hva. rewrite (mt_other _ _ _ _ _ Hmt) by (apply Hva; lia).
    apply (mp_other _ _ _ _ _ _ Hmp). intros i Hi. apply Hva. lia.
  - intros f Hf. by apply Hmt, (mp_use _ _ _ _ _ _ Hmp).
Qed.

Lemma mmap_loop (st : vmm F) root pagemap virt pages :
  vm_ok st root → available (4 * Z.to_nat pages) (ram st) (frames st) →
  points_to pagemap root → 0 ≤ virt → 0 ≤ pages < 2 ^ 36 → virt + pages * 4096 < 2 ^ 64 →
  ∃ st' fr, for_loop (Z.to_nat pages) 0
      (λ i st,
         '(ret, (m, s)) ← alloc_zero (ram st) (frames st);
         vmm_map pagemap ret (u64 (virt + i * 4096)) 7 (set_mem st m s)) st = Done st' ∧
    vm_ok st' root ∧ mmapped root virt pages fr st st'.
Proof.
  intros Hvm Hav Hpt Hv Hpg Hb.
  destruct (for_loop_inv (λ k st', vm_ok st' root ∧
      available (4 * Z.to_nat (pages - k)) (ram st') (frames st') ∧
      ∃ fr, mmapped root virt k fr st st') (Z.to_nat pages) 0
    (λ i st,
       '(ret, (m, s)) ← alloc_zero (ram st) (frames st);
       vmm_map pagemap ret (u64 (virt + i * 4096)) 7 (set_mem st m s)) st)
    as (st' & Hr & Hvm' & _ & fr & Hmp).
  - split; [done|]. rewrite Z.sub_0_r. split; [done|]. exists (λ _, 0).
    split; (done || lia).
  - intros k st1 Hk (Hvm1 & Hav1 & fr & Hmp).
    replace (4 * Z.to_nat (pages - k))%nat
      with (4 + 4 * Z.to_nat (pages - (k + 1)))%nat in Hav1 by lia.
    destruct (mmap_step st1 root pagemap (virt + k * 4096) _ Hvm1 Hav1 Hpt)
      as (p & m & s & st2 & Hal & Hmap & Hvm2 & Hav2 & Hpa & Hpp & Hf & Hu & Hz & Hmt).
    exists st2. rewrite Hal. simpl. rewrite u64_id by (simpl; lia).
    split_and!; [done..|].
    exists (λ i, if decide (i = k) then p else fr i). by eapply mmapped_step; [|lia|..].
  - exists st', fr. by replace (0 + Z.of_nat (Z.to_nat pages)) with pages in Hmp by lia.
Qed.

(** An all-zero root: no table below it, nothing mapped. *)
Lemma empty_root_tables m root q f :
  (∀ a, root ≤ a < root + PAGE_SIZE → m !! a = Some 0) → is_path 3 q →
  table_at m root q = Some f → q = [] ∧ f = root.
Proof.
  intros Hz [_ Hq]. destruct q as [|i q]; simpl; [by intros [= <-]|].
  apply Forall_cons_1 in Hq as [Hi _]. unfold next.
  by rewrite (proj2 (zero_page_entry m root i Hz Hi)).
Qed.

Lemma empty_root_ok m s root :
  (∀ a, root ≤ a < root + PAGE_SIZE → m !! a = Some 0) →
  root mod PAGE_SIZE = 0 → 0 < root → root + PAGE_SIZE ≤ 2 ^ 46 →
  in_use s (root / PAGE_SIZE) → pt_ok m s root.
Proof.
  intros Hz Ha H0 Hb Hu. split.
  - intros q f Hq [-> ->]%(empty_root_tables m); [|done..]. split_and!; try done.
    intros a Hain. rewrite Hz by done. eauto.
  - intros q q' f Hq Hq' [-> _]%(empty_root_tables m) [-> _]%(empty_root_tables m); done.
  - intros q f i e Hq Hi [-> ->]%(empty_root_tables m);
      [|done|apply (is_path_le 2 3); [done|lia]].
    rewrite (proj1 (zero_page_entry m root i Hz Hi)). by intros [= <-].
Qed.

(** *** Runs of pages *)

Lemma vpn_u64 a : vpn (u64 a) = vpn a.
Proof.
  unfold vpn, u64. change (2 ^ 64) with (2 ^ 12 * 2 ^ 52).
  rewrite Z.rem_mul_r by lia.
  rewrite (Z.add_comm (a mod 2 ^ 12)), (Z.mul_comm (2 ^ 12)), Z.div_add_l by lia.
  rewrite (Z.div_small (a mod 2 ^ 12)) by (apply Z.mod_pos_bound; lia).
  rewrite Z.add_0_r. apply Z.mod_mod_divide. by exists (2 ^ 16).
Qed.

(** [n] pages of memory from [start] on, each at its address plus [offset]. *)
Record ranged root start offset flags n (st st' : vmm F) : Prop := Ranged {
  rg_here k : 0 ≤ k < n →
    translate (ram st') root (u64 (start + k * PAGE_SIZE + offset)) =
      Some (start + k * PAGE_SIZE + flags);
  rg_other va : (∀ k, 0 ≤ k < n → vpn va ≠ vpn (start + offset + k * 4096)) →
    translate (ram st') root va = translate (ram st) root va;
  rg_use f : in_use (frames st) f → in_use (frames st') f;
  rg_tlb : cr3 st' = cr3 st;
  rg_bytes : bytes_ok (ram st) → bytes_ok (ram st');
}.

Lemma translate_vpn m root va va' : vpn va = vpn va' → translate m root va = translate m root va'.
Proof.
  intros Heq. rewrite !vpn_split in Heq.
  pose proof (PML_ENTRY_ok va 12 ltac:(lia)). pose proof (PML_ENTRY_ok va' 12 ltac:(lia)).
  pose proof (PML_ENTRY_ok va 21 ltac:(lia)). pose proof (PML_ENTRY_ok va' 21 ltac:(lia)).
  pose proof (PML_ENTRY_ok va 30 ltac:(lia)). pose proof (PML_ENTRY_ok va' 30 ltac:(lia)).
  unfold idx_ok in *. unfold translate.
  assert (PML_ENTRY va 12 = PML_ENTRY va' 12) as -> by lia.
  assert (PML_ENTRY va 21 = PML_ENTRY va' 21) as -> by lia.
  assert (PML_ENTRY va 30 = PML_ENTRY va' 30) as -> by lia.
  assert (PML_ENTRY va 39 = PML_ENTRY va' 39) as -> by lia. done.
Qed.

(** [n] frames from [pa] on behind the pages from [va] on, and nothing else. *)
Record run_mapped root pa va flags n (st st' : vmm F) : Prop := RunMapped {
  rm_here k : 0 ≤ k < n →
    translate (ram st') root (va + k * 4096) = Some (pa + k * 4096 + flags);
  rm_other va' : (∀ k, 0 ≤ k < n → vpn va' ≠ vpn (va + k * 4096)) →
    translate (ram st') root va' = translate (ram st) root va';
  rm_use f : in_use (frames st) f → in_use (frames st') f;
  rm_tables a : in_use (frames st) (a / PAGE_SIZE) →
    in_table (ram st') root a → in_table (ram st) root a;
  rm_data a : in_use (frames st) (a / PAGE_SIZE) → ¬ in_table (ram st) root a →
    ram st' !! a = ram st !! a;
  rm_dom : dom_grows (ram st) (ram st');
  rm_cr3 : cr3 st' = cr3 st;
  rm_bytes : bytes_ok (ram st) → bytes_ok (ram st');
}.

Lemma run_mapped_step root pa va flags k st0 st st' va' :
  0 ≤ va → 0 ≤ k < 2 ^ 36 → vpn va' = vpn (va + k * 4096) →
  run_mapped root pa va flags k st0 st →
  mapped_to root va' (Some (pa + k * 4096 + flags)) st st' → dom_grows (ram st) (ram st') →
  cr3 st' = cr3 st → run_mapped root pa va flags (k + 1) st0 st'.
Proof.
  intros Hv Hk Hvpn Hrm Hmt Hdom Hcr. split.
  - intros j Hj. destruct (decide (j = k)) as [->|].
    + rewrite (translate_vpn _ _ _ va') by done. apply Hmt.
    + rewrite (mt_other _ _ _ _ _ Hmt); [apply (rm_here _ _ _ _ _ _ _ Hrm); lia|]. rewrite Hvpn. intros Heq%vpn_page; lia.
  - intros w Hw. rewrite (mt_other _ _ _ _ _ Hmt); [apply (rm_other _ _ _ _ _ _ _ Hrm); intros; apply Hw; lia|].
    rewrite Hvpn. apply Hw. lia.
  - intros f Hf. by apply (mt_use _ _ _ _ _ Hmt), (rm_use _ _ _ _ _ _ _ Hrm).
  - intros a Ha Hin. apply (rm_tables _ _ _ _ _ _ _ Hrm); [done|].
    apply (mt_tables _ _ _ _ _ Hmt); [by apply (rm_use _ _ _ _ _ _ _ Hrm)|done].
  - intros a Ha Hnt. rewrite (mt_data _ _ _ _ _ Hmt);
      [by apply (rm_data _ _ _ _ _ _ _ Hrm)|by apply (rm_use _ _ _ _ _ _ _ Hrm)|].
    intros Hin. by apply Hnt, (rm_tables _ _ _ _ _ _ _ Hrm).
  - etrans; [apply (rm_dom _ _ _ _ _ _ _ Hrm)|done].
  - rewrite Hcr. apply (rm_cr3 _ _ _ _ _ _ _ Hrm).
  - intros Hb. by apply (mt_bytes _ _ _ _ _ Hmt), (rm_bytes _ _ _ _ _ _ _ Hrm).
Qed.

Lemma run_mapped_nil root pa va flags st : run_mapped root pa va flags 0 st st.
Proof. split; [intros k Hk; exfalso; lia|reflexivity|auto..|reflexivity|reflexivity|auto]. Qed.

(** Tables of the last level that [n] pages from [va] on lie in. *)
Definition tables_for (va n : Z) : nat :=
  if n <=? 0 then 0%nat else Z.to_nat ((va / 4096 mod 512 + n + 511) / 512).

Lemma tables_for_le va n : (tables_for va n ≤ Z.to_nat n)%nat.
Proof. unfold tables_for. destruct (Z.leb_spec n 0); [lia|]. zlia. Qed.

Lemma va_path_eq va va' : vpn va / 512 = vpn va' / 512 → va_path va = va_path va'.
Proof.
  rewrite !vpn_split. intros Heq.
  pose proof (PML_ENTRY_ok va 12 ltac:(lia)). pose proof (PML_ENTRY_ok va' 12 ltac:(lia)).
  pose proof (PML_ENTRY_ok va 21 ltac:(lia)). pose proof (PML_ENTRY_ok va' 21 ltac:(lia)).
  pose proof (PML_ENTRY_ok va 30 ltac:(lia)). pose proof (PML_ENTRY_ok va' 30 ltac:(lia)).
  unfold idx_ok in *.
  assert (PML_ENTRY va 21 = PML_ENTRY va' 21) as -> by zlia.
  assert (PML_ENTRY va 30 = PML_ENTRY va' 30) as -> by zlia.
  by assert (PML_ENTRY va 39 = PML_ENTRY va' 39) as -> by zlia.
Qed.

(** One page further: in the table of the page before, or in the next. *)
Lemma tables_for_step va k :
  0 ≤ va → 0 ≤ k →
  tables_for va (k + 1) = S (tables_for va k) ∨
  0 < k ∧ tables_for va (k + 1) = tables_for va k ∧
    vpn (va + k * 4096) / 512 = vpn (va + (k - 1) * 4096) / 512.
Proof.
  intros Hv Hk. unfold tables_for. rewrite (proj2 (Z.leb_gt (k + 1) 0)) by lia.
  destruct (Z.leb_spec k 0); [left; zlia|].
  destruct (decide ((va / 4096 + k) mod 512 = 0)); [left; zlia|]. right. split; [done|]. split; [zlia|].
  unfold vpn. change (2 ^ 12) with 4096. change (2 ^ 36) with 68719476736.
  rewrite !Z.div_add by done. zlia.
Qed.

(** A loop that maps frame after frame; [fa] and [fv] are the addresses as the
    caller computes them.  It needs at most three frames for each last table. *)
Lemma map_frames_need (st : vmm F) root pagemap (fa fv : Z → Z) pa va flags n r :
  vm_ok st root → available (3 * tables_for va n + r) (ram st) (frames st) →
  points_to pagemap root → flags_ok flags → pa mod PAGE_SIZE = 0 → 0 ≤ pa → 0 ≤ va →
  0 ≤ n ≤ 2 ^ 36 → pa + n * PAGE_SIZE ≤ 2 ^ 52 →
  (∀ k, 0 ≤ k < n → fa k = pa + k * 4096 ∧ vpn (fv k) = vpn (va + k * 4096)) →
  ∃ st', for_loop (Z.to_nat n) 0 (λ k st, vmm_map pagemap (fa k) (fv k) flags st) st = Done st' ∧
    vm_ok st' root ∧ available r (ram st') (frames st') ∧ run_mapped root pa va flags n st st'.
Proof.
  intros Hvm Hav Hpt Hfl Ha H0 Hv Hn Hb Hf.
  destruct (for_loop_inv (λ k st', vm_ok st' root ∧
      (∃ a, available (a + r) (ram st') (frames st') ∧ (3 * tables_for va n ≤ 3 * tables_for va k + a)%nat) ∧
      (0 < k → is_Some (table_at (ram st') root (va_path (va + (k - 1) * 4096)))) ∧
      run_mapped root pa va flags k st st') (Z.to_nat n) 0
    (λ k st, vmm_map pagemap (fa k) (fv k) flags st) st)
    as (st' & Hr & Hvm' & (a & Hav' & Hle) & _ & Hrm).
  - split; [exact Hvm|]. split; [exists (3 * tables_for va n)%nat; split; [exact Hav|lia]|].
    split; [lia|apply run_mapped_nil].
  - intros k st1 Hk (Hvm1 & (a & Hav1 & Hle) & Hpath & Hrm1). destruct (Hf k) as [-> Hfv]; [lia|].
    assert (∃ a', (missing (ram st1) root (fv k) + (a' + r) ≤ a + r)%nat ∧
      (3 * tables_for va n ≤ 3 * tables_for va (k + 1) + a')%nat) as (a' & Hneed & Hle').
    { destruct (tables_for_step va k Hv ltac:(lia)) as [Hs|(Hk0 & Hs & Hsame)].
      - pose proof (missing_le (ram st1) root (fv k)).
        assert (tables_for va (k + 1) ≤ tables_for va n)%nat.
        { unfold tables_for. destruct (Z.leb_spec (k + 1) 0), (Z.leb_spec n 0); [lia..|]. zlia. }
        exists (a - 3)%nat. lia.
      - exists a. rewrite Hs, missing_none; [lia|].
        rewrite (va_path_eq (fv k) (va + (k - 1) * 4096)) by (by rewrite Hfv). by apply Hpath. }
    destruct (vmm_map_need st1 root pagemap (pa + k * 4096) (fv k) flags (a' + r) Hvm1)
      as (st2 & Hr & Hvm2 & Hav2 & _ & Hcr & Hmt & Hdom & Hsome & _);
      [by eapply available_le|done..|unfold PAGE_SIZE in *; zlia|unfold PAGE_SIZE in *; lia|].
    exists st2. split; [exact Hr|]. split; [exact Hvm2|]. split; [by exists a'|]. split.
    + intros _. rewrite Z.add_simpl_r, (va_path_eq _ (fv k)) by (by rewrite Hfv). done.
    + eapply (run_mapped_step _ _ _ _ _ _ st1); [exact Hv|lia|exact Hfv|exact Hrm1|exact Hmt|exact Hdom|exact Hcr].
  - replace (0 + Z.of_nat (Z.to_nat n)) with n in * by lia. exists st'. split_and!; [done..| |done].
    eapply available_le; [exact Hav'|lia].
Qed.

Lemma map_frames (st : vmm F) root pagemap (fa fv : Z → Z) pa va flags n r :
  vm_ok st root → available (3 * Z.to_nat n + r) (ram st) (frames st) →
  points_to pagemap root → flags_ok flags → pa mod PAGE_SIZE = 0 → 0 ≤ pa → 0 ≤ va →
  0 ≤ n ≤ 2 ^ 36 → pa + n * PAGE_SIZE ≤ 2 ^ 52 →
  (∀ k, 0 ≤ k < n → fa k = pa + k * 4096 ∧ vpn (fv k) = vpn (va + k * 4096)) →
  ∃ st', for_loop (Z.to_nat n) 0 (λ k st, vmm_map pagemap (fa k) (fv k) flags st) st = Done st' ∧
    vm_ok st' root ∧ available r (ram st') (frames st') ∧ run_mapped root pa va flags n st st'.
Proof.
  intros Hvm Hav. apply map_frames_need; [exact Hvm|].
  eapply available_le; [exact Hav|]. pose proof (tables_for_le va n). lia.
Qed.

Lemma map_run (st : vmm F) root pagemap start offset flags n r :
  vm_ok st root → available (3 * tables_for (start + offset) n + r) (ram st) (frames st) →
  points_to pagemap root → flags_ok flags → start mod PAGE_SIZE = 0 → 0 ≤ start →
  0 ≤ offset → 0 ≤ n ≤ 2 ^ 36 → start + n * PAGE_SIZE ≤ 2 ^ 52 →
  ∃ st', for_loop (Z.to_nat n) 0
      (λ k st, vmm_map pagemap (start + k * PAGE_SIZE)
                 (u64 (start + k * PAGE_SIZE + offset)) flags st) st = Done st' ∧
    vm_ok st' root ∧ available r (ram st') (frames st') ∧
    ranged root start offset flags n st st'.
Proof.
  intros Hvm Hav Hpt Hfl Ha H0 Ho Hn Hb.
  assert (∀ k, vpn (u64 (start + k * PAGE_SIZE + offset)) = vpn (start + offset + k * 4096)) as Hvpn.
  { intros k. rewrite vpn_u64. f_equal. unfold PAGE_SIZE. lia. }
  destruct (map_frames_need st root pagemap (λ k, start + k * PAGE_SIZE)
    (λ k, u64 (start + k * PAGE_SIZE + offset)) start (start + offset) flags n r)
    as (st' & Hr & Hvm' & Hav' & Hrm); try done; [lia|].
  exists st'. split; [exact Hr|]. split; [exact Hvm'|]. split; [exact Hav'|]. destruct Hrm.
  split; [|assumption..]. intros k Hk. rewrite (translate_vpn _ _ _ _ (Hvpn k)). auto.
Qed.

(** Whatever every allocation of a frame keeps, mapping keeps. *)
Section keeps.
Context (R : relation F) `{!PreOrder R}
  (HR : ∀ m s (p : Z) m' s', alloc_zero m s = Done (p, (m', s')) → R s s').
Implicit Types (st : vmm F).

Lemma get_next_level_keeps table i flags st t st' :
  get_next_level table i flags st = Done (t, st') → R (frames st) (frames st').
Proof.
  unfold get_next_level.
  intros (e & _ & (st1 & Hst1 & (e' & _ & [= _ <-])%bind_Done_inv)%bind_Done_inv)%bind_Done_inv.
  destruct (Z.land e 1 =? 0); [|by injection Hst1 as <-].
  apply bind_Done_inv in Hst1 as ([p [m1 s1]] & Hal & (m2 & _ & Hst1)%bind_Done_inv).
  apply bind_Done_inv in Hst1 as (e1 & _ & (m3 & _ & [= <-])%bind_Done_inv). by eapply HR.
Qed.

Lemma vmm_map_keeps pagemap pa va flags st st' :
  vmm_map pagemap pa va flags st = Done st' → R (frames st) (frames st').
Proof.
  unfold vmm_map, last_level. intros (l & _ & H1)%bind_Done_inv.
  apply bind_Done_inv in H1 as ([t st1] & H1 & (m & _ & [= <-])%bind_Done_inv).
  apply bind_Done_inv in H1 as ([t3 st3] & H3%get_next_level_keeps & H1).
  apply bind_Done_inv in H1 as ([t2 st2] & H2%get_next_level_keeps & H1%get_next_level_keeps).
  cbn. etrans; [exact H3|]. by etrans.
Qed.

Lemma map_loop_keeps pagemap (fa fv : Z → Z) flags n i st st' :
  for_loop n i (λ k st, vmm_map pagemap (fa k) (fv k) flags st) st = Done st' →
  R (frames st) (frames st').
Proof.
  intros Hr. eapply (for_loop_partial (λ _ st', R (frames st) (frames st'))) in Hr; [done|done|].
  intros k t t' _ Ht H1%vmm_map_keeps. by etrans.
Qed.
Lemma vmm_map_range_keeps pagemap start end_ offset flags st st' :
  vmm_map_range pagemap start end_ offset flags st = Done st' → R (frames st) (frames st').
Proof.
  unfold vmm_map_range. generalize (Z.to_nat ((end_ - start + (PAGE_SIZE - 1)) / PAGE_SIZE)) as n.
  intros n Hr. by apply map_loop_keeps in Hr.
Qed.

Lemma map_entries_keeps pagemap entries st st' :
  map_entries pagemap entries st = Done st' → R (frames st) (frames st').
Proof.
  revert st. induction entries as [|e es IH]; intros st; cbn [map_entries]; [by intros [= <-]|].
  intros (st4 & H4 & H3)%bind_Done_inv. transitivity (frames st4); [|by apply IH].
  unfold map_entry in H4. destruct (usable e); [|by injection H4 as <-].
  by apply map_loop_keeps in H4.
Qed.

Lemma vmm_initialize_keeps entries st root st' :
  vmm_initialize entries st = Done (root, st') → R (frames st) (frames st').
Proof.
  unfold vmm_initialize. generalize 0x8000000, 0x100000000. intros z1 z2 ([p [m s]] & Hal%HR & H1)%bind_Done_inv.
  apply bind_Done_inv in H1 as (st1 & H1%vmm_map_range_keeps & H2).
  apply bind_Done_inv in H2 as (st2 & H2%vmm_map_range_keeps & H3).
  apply bind_Done_inv in H3 as (st3 & H3%map_entries_keeps & [= _ <-]).
  transitivity s; [exact Hal|]. transitivity (frames st1); [exact H1|].
  by transitivity (frames st2).
Qed.
End keeps.

(** *** The kernel's address space *)

(** 128 MiB behind the kernel window and [n] pages behind the I/O window. *)
Record kernel_map (m : mem) (root n : Z) : Prop := KernelMap {
  km_kernel k : 0 ≤ k < 2 ^ 15 →
    translate m root (MMAP_KERNEL_BASE + k * PAGE_SIZE) = Some (k * PAGE_SIZE + 3);
  km_io k : 0 ≤ k < n →
    translate m root (MMAP_IO_BASE + k * PAGE_SIZE) = Some (k * PAGE_SIZE + 3);
  km_none k : n ≤ k < 2 ^ 34 → translate m root (MMAP_IO_BASE + k * PAGE_SIZE) = None;
}.

Lemma vpn_io k : 0 ≤ k < 2 ^ 35 → vpn (MMAP_IO_BASE + k * 4096) = 2 ^ 35 + k.
Proof. unfold vpn, MMAP_IO_BASE. change (2 ^ 12) with 4096. change (2 ^ 36) with 68719476736.
  change (2 ^ 35) with 34359738368. intros. zlia. Qed.

Lemma vpn_kernel k : 0 ≤ k < 2 ^ 19 → vpn (MMAP_KERNEL_BASE + k * 4096) = 2 ^ 36 - 2 ^ 19 + k.
Proof. unfold vpn, MMAP_KERNEL_BASE. change (2 ^ 12) with 4096.
  change (2 ^ 36) with 68719476736. change (2 ^ 19) with 524288. intros. zlia. Qed.

(** The kernel window over tables that map nothing yet. *)
Lemma kernel_map_first (st st' : vmm F) root :
  (∀ a, root ≤ a < root + PAGE_SIZE → ram st !! a = Some 0) →
  ranged root 0 MMAP_KERNEL_BASE 3 (2 ^ 15) st st' → kernel_map (ram st') root 0.
Proof.
  intros Hz Hrg. assert (∀ va, translate (ram st) root va = None) as Hnone.
  { intros va. unfold translate, walk. simpl. unfold next.
    by rewrite (proj2 (zero_page_entry _ root _ Hz (PML_ENTRY_ok va 39 ltac:(lia)))). }
  split.
  - intros k Hk. pose proof (rg_here _ _ _ _ _ _ _ Hrg k Hk) as Ht.
    rewrite Z.add_0_l in Ht. rewrite <-Ht. apply translate_vpn. rewrite vpn_u64. f_equal. lia.
  - intros k Hk. exfalso. lia.
  - intros k Hk. rewrite (rg_other _ _ _ _ _ _ _ Hrg); [apply Hnone|].
    intros j Hj. unfold PAGE_SIZE. rewrite Z.add_0_l, vpn_kernel, vpn_io by lia. lia.
Qed.

(** Mapping the first [n] pages again behind the I/O window. *)
Lemma kernel_map_io (st st' : vmm F) root n0 n :
  0 ≤ n0 ≤ 2 ^ 34 → 0 ≤ n ≤ 2 ^ 34 → kernel_map (ram st) root n0 →
  ranged root 0 MMAP_IO_BASE 3 n st st' → kernel_map (ram st') root (Z.max n0 n).
Proof.
  intros Hn0 Hn Hkm Hrg. unfold PAGE_SIZE in *.
  assert (∀ k, 0 ≤ k < n →
    translate (ram st') root (MMAP_IO_BASE + k * 4096) = Some (k * 4096 + 3)) as Hio.
  { intros k Hk. pose proof (rg_here _ _ _ _ _ _ _ Hrg k Hk) as Ht.
    rewrite Z.add_0_l in Ht. unfold PAGE_SIZE in Ht. rewrite <-Ht. apply translate_vpn. rewrite vpn_u64. f_equal. lia. }
  assert (∀ k, n ≤ k < 2 ^ 34 → translate (ram st') root (MMAP_IO_BASE + k * 4096) =
    translate (ram st) root (MMAP_IO_BASE + k * 4096)) as Hout.
  { intros k Hk. apply (rg_other _ _ _ _ _ _ _ Hrg). intros j Hj.
    rewrite Z.add_0_l, !vpn_io by lia. lia. }
  split; unfold PAGE_SIZE.
  - intros k Hk. rewrite (rg_other _ _ _ _ _ _ _ Hrg); [by apply Hkm|].
    intros j Hj. rewrite Z.add_0_l, vpn_kernel, vpn_io by lia. lia.
  - intros k Hk. destruct (decide (k < n)); [apply Hio; lia|].
    rewrite Hout by lia. apply (km_io _ _ _ Hkm). lia.
  - intros k Hk. rewrite Hout by lia. apply (km_none _ _ _ Hkm). lia.
Qed.

(** Pages that [map_entries] maps, and the furthest of them. *)
Definition entry_pages (e : mmap_entry) : Z :=
  if usable e then (e_length e + (PAGE_SIZE - 1)) / PAGE_SIZE else 0.
Definition total_tables (entries : list mmap_entry) : nat :=
  foldr (λ e n, tables_for MMAP_IO_BASE (entry_pages e) + n)%nat 0%nat entries.
Definition furthest_page (entries : list mmap_entry) (n : Z) : Z :=
  foldl (λ n e, Z.max n (entry_pages e)) n entries.

Lemma avail_eq k k' m (s : F) : available k m s → k = k' → available k' m s.
Proof. by intros ? <-. Qed.

Lemma map_entries_spec entries (st : vmm F) root pagemap n r :
  vm_ok st root → available (3 * total_tables entries + r) (ram st) (frames st) →
  points_to pagemap root → 0 ≤ n ≤ 2 ^ 34 → kernel_map (ram st) root n →
  (∀ e, e ∈ entries → 0 ≤ e_length e ≤ 2 ^ 46) →
  ∃ st', map_entries pagemap entries st = Done st' ∧ vm_ok st' root ∧
    kernel_map (ram st') root (furthest_page entries n) ∧ available r (ram st') (frames st') ∧
    (bytes_ok (ram st) → bytes_ok (ram st')) ∧
    ∀ f, in_use (frames st) f → in_use (frames st') f.
Proof.
  revert st n. induction entries as [|e es IH]; intros st n Hvm Hav Hpt Hn Hkm He; simpl in *.
  { by exists st. }
  assert (0 ≤ entry_pages e ≤ 2 ^ 34) as Hep.
  { destruct (He e) as [? ?]; [left|]. unfold entry_pages, PAGE_SIZE.
    destruct (usable e); [zlia|lia]. }
  assert (∃ st1, map_entry pagemap e st = Done st1 ∧ vm_ok st1 root ∧
    available (3 * total_tables es + r) (ram st1) (frames st1) ∧
    kernel_map (ram st1) root (Z.max n (entry_pages e)) ∧ (bytes_ok (ram st) → bytes_ok (ram st1)) ∧
    ∀ f, in_use (frames st) f → in_use (frames st1) f) as (st1 & Hr1 & Hvm1 & Hav1 & Hk1 & Hb1 & Hu1).
  { unfold map_entry, entry_pages in *. destruct (usable e).
    - destruct (map_run st root pagemap 0 MMAP_IO_BASE 3
        ((e_length e + (PAGE_SIZE - 1)) / PAGE_SIZE) (3 * total_tables es + r))
        as (st1 & Hr & Hvm1 & Hav1 & Hrg);
        [exact Hvm|eapply avail_eq; [exact Hav|rewrite Z.add_0_l; lia]|exact Hpt
        |split; [lia|reflexivity]|reflexivity|lia|unfold MMAP_IO_BASE; lia|lia
        |unfold PAGE_SIZE in *; lia|].
      exists st1. split_and!; [exact Hr|exact Hvm1|exact Hav1| |exact (rg_bytes _ _ _ _ _ _ _ Hrg)|exact (rg_use _ _ _ _ _ _ _ Hrg)]. eapply kernel_map_io; [exact Hn|lia|exact Hkm|exact Hrg].
    - exists st. rewrite Z.max_l by lia. split_and!; [reflexivity|exact Hvm|exact Hav|exact Hkm|auto|auto]. }
  destruct (IH st1 (Z.max n (entry_pages e))) as (st' & Hr & Hvm' & Hk' & Hav' & Hb' & Hu'); [exact Hvm1|exact Hav1|exact Hpt|lia|exact Hk1| |].
  { intros x Hx. apply He. by right. }
  exists st'. rewrite Hr1. split_and!; [exact Hr|exact Hvm'|exact Hk'|exact Hav'|auto|auto].
Qed.

(** The first lines of [vmm_initialize]: a fresh root and the two windows. *)
Lemma vmm_initialize_windows (st : vmm F) r :
  fa_inv (frames st) → vlock st = false →
  available (1 + (3 * 64 + (3 * 2048 + r))) (ram st) (frames st) →
  ∃ (root : Z) m s st1 st2, alloc_zero (ram st) (frames st) = Done (root, (m, s)) ∧
    vmm_map_range root 0 0x8000000 MMAP_KERNEL_BASE 3 (set_mem st m s) = Done st1 ∧
    vmm_map_range root 0 0x100000000 MMAP_IO_BASE 3 st1 = Done st2 ∧
    points_to root root ∧ ¬ in_use (frames st) (root / PAGE_SIZE) ∧
    vm_ok st2 root ∧ available r (ram st2) (frames st2) ∧ kernel_map (ram st2) root (2 ^ 20) ∧
    (bytes_ok (ram st) → bytes_ok (ram st2)).
Proof.
  intros Hinv Hlk Hav.
  destruct (fa_total _ _ _ Hinv Hav) as (p & m & s & Hal & Hp0 & Hav1).
  destruct (fa_fresh _ _ _ _ _ Hinv Hal Hp0)
    as (Hinv1 & Hpa & Hpp & Hpb & Hfresh & Huse & Ho).
  assert (∀ a, p ≤ a < p + PAGE_SIZE → m !! a = Some 0) as Hz
    by (intros a Ha; by apply (overwritten_in _ _ _ _ _ _ Ho)).
  assert (points_to p p) as Hpt by (apply points_to_id; lia).
  assert (vm_ok (set_mem st m s) p) as Hvm.
  { split; [|exact Hinv1|exact Hlk]. apply empty_root_ok; try assumption.
    apply Huse. by right. }
  destruct (map_run (set_mem st m s) p p 0 MMAP_KERNEL_BASE 3 (2 ^ 15)
    (3 * 2048 + r)) as (st1 & Hr1 & Hvm1 & Hav2 & Hrg1);
    [exact Hvm|exact Hav1|exact Hpt|split; [lia|reflexivity]|reflexivity|lia
    |unfold MMAP_KERNEL_BASE; lia|lia|unfold PAGE_SIZE; lia|].
  destruct (map_run st1 p p 0 MMAP_IO_BASE 3 (2 ^ 20) r) as (st2 & Hr2 & Hvm2 & Hav3 & Hrg2);
    [exact Hvm1|exact Hav2|exact Hpt|split; [lia|reflexivity]|reflexivity|lia
    |unfold MMAP_IO_BASE; lia|lia|unfold PAGE_SIZE; lia|].
  exists p, m, s, st1, st2.
  split; [exact Hal|]. split; [exact Hr1|]. split; [exact Hr2|]. split; [exact Hpt|].
  split; [exact Hfresh|]. split; [exact Hvm2|]. split; [exact Hav3|]. split.
  - change (2 ^ 20) with (Z.max 0 (2 ^ 20)).
    eapply kernel_map_io; [lia|lia| |exact Hrg2].
    by apply (kernel_map_first (set_mem st m s)).
  - intros Hb. apply (rg_bytes _ _ _ _ _ _ _ Hrg2), (rg_bytes _ _ _ _ _ _ _ Hrg1).
    by eapply bytes_ok_zeros.
Qed.

(** [vmm_initialize] with [r] frames to spare. *)
Lemma vmm_initialize_spec (st : vmm F) entries r :
  fa_inv (frames st) → vlock st = false → (∀ e, e ∈ entries → 0 ≤ e_length e ≤ 2 ^ 46) →
  available (1 + (3 * 64 + (3 * 2048 + (3 * total_tables entries + r)))) (ram st) (frames st) →
  ∃ root st', vmm_initialize entries st = Done (root, st') ∧ cr3 st' = root ∧
    ¬ in_use (frames st) (root / PAGE_SIZE) ∧ vm_ok st' root ∧
    kernel_map (ram st') root (furthest_page entries (2 ^ 20)) ∧
    available r (ram st') (frames st') ∧ (bytes_ok (ram st) → bytes_ok (ram st')).
Proof.
  intros Hinv Hlk Hlen Hav.
  destruct (vmm_initialize_windows st _ Hinv Hlk Hav)
    as (root & m & s & st1 & st2 & Hal & Hr1 & Hr2 & Hpt & Hfr & Hvm & Hav2 & Hkm & Hb2).
  destruct (map_entries_spec entries st2 root root (2 ^ 20) r)
    as (st3 & Hr3 & Hvm3 & Hkm3 & Hav3 & Hb3 & _); [exact Hvm|exact Hav2|exact Hpt|lia|exact Hkm|exact Hlen|].
  exists root, (vmm_load_pagemap root st3). unfold vmm_initialize.
  split.
  { eapply bind_Done_eq; [exact Hal|]. cbn beta iota.
    eapply bind_Done_eq; [exact Hr1|]. eapply bind_Done_eq; [exact Hr2|].
    eapply bind_Done_eq; [exact Hr3|]. reflexivity. }
  split; [reflexivity|]. split; [exact Hfr|]. destruct Hvm3. split; [by split|].
  split; [exact Hkm3|]. split; [exact Hav3|auto].
Qed.

(** ** Properties *)

(** C6: [vmm_map] maps. Under well-formed tables, with three frames to
    spare and the file's lock free, it returns; the processor then translates
    the address to [physical_address] with the given flags, every address on
    another page translates as before, memory outside the page tables is
    untouched, the page's TLB entry is flushed and the lock released. *)
Theorem vmm_map_correct (st : vmm F) (root pagemap pa va flags : Z) (n : nat)
    (Hvm : vm_ok st root) (Hav : available (3 + n) (ram st) (frames st))
    (Hpt : points_to pagemap root) (Hfl : flags_ok flags)
    (Hpa : pa mod PAGE_SIZE = 0) (Hpr : 0 ≤ pa < 2 ^ 52) :
  ∃ st', vmm_map pagemap pa va flags st = Done st' ∧ vm_ok st' root ∧
    translate (ram st') root va = Some (pa + flags) ∧
    (∀ va', vpn va' ≠ vpn va →
       translate (ram st') root va' = translate (ram st) root va') ∧
    (∀ a, in_use (frames st) (a / PAGE_SIZE) → ¬ in_table (ram st) root a →
       ram st' !! a = ram st !! a) ∧
    tlb_flushed st' = va :: tlb_flushed st ∧ available n (ram st') (frames st').
Proof.
  destruct (vmm_map_spec st root pagemap pa va flags n)
    as (st' & Hr & Hok & Hav' & Htlb & _ & [] & _); [done..|].
  exists st'. by split_and!.
Qed.

(** [vmm_unmap] removes the translation of exactly one page and
    touches no other translation and no memory outside the tables, but the
    set of flushed TLB entries is unchanged: the processor may go on using
    the old mapping. *)
Theorem vmm_unmap_correct (st : vmm F) (root pagemap va flags : Z) (n : nat)
    (Hvm : vm_ok st root) (Hav : available (3 + n) (ram st) (frames st))
    (Hpt : points_to pagemap root) (Hfl : flags_ok flags) :
  ∃ st', vmm_unmap pagemap va flags st = Done st' ∧ vm_ok st' root ∧
    translate (ram st') root va = None ∧
    (∀ va', vpn va' ≠ vpn va →
       translate (ram st') root va' = translate (ram st) root va') ∧
    (∀ a, in_use (frames st) (a / PAGE_SIZE) → ¬ in_table (ram st) root a →
       ram st' !! a = ram st !! a) ∧
    tlb_flushed st' = tlb_flushed st.
Proof.
  destruct (vmm_unmap_spec st root pagemap va flags n)
    as (st' & Hr & Hok & Hav' & Htlb & _ & [] & _); [done..|].
  exists st'. by split_and!.
Qed.

(** C28: an anonymous [vmm_mmap] without [MAP_FIXED] returns the next
    unused range of the task's heap, and behind each of its pages puts a frame
    that nobody owned, different for each page, zeroed and outside every page
    table, writable from user mode; all other translations are kept. *)
Theorem vmm_mmap_anonymous (st : vmm F) (root pagemap hint size flags used : Z)
    (Hvm : vm_ok st root) (Hpt : points_to pagemap root)
    (Hanon : Z.land (Z.land flags 0xFFFFFFFF) MAP_ANONYMOUS ≠ 0)
    (Hfix : Z.land (Z.land flags 0xFFFFFFFF) MAP_FIXED = 0)
    (Hsize : 0 ≤ size < 2 ^ 47) (Hused : 0 ≤ used < 2 ^ 35)
    (Hav : available (4 * Z.to_nat ((size + 4095) / 4096)) (ram st) (frames st)) :
  let virt := used * 4096 + ALLOC_BASE in
  let pages := (size + 4095) / 4096 in
  ∃ st' fr, vmm_mmap pagemap hint size flags used st =
      Done (virt, (used + pages, st')) ∧ vm_ok st' root ∧
    (∀ i, 0 ≤ i < pages →
       translate (ram st') root (virt + i * 4096) = Some (fr i + 7) ∧
       ¬ in_use (frames st) (fr i / PAGE_SIZE) ∧
       ∀ a, fr i ≤ a < fr i + PAGE_SIZE →
         ram st' !! a = Some 0 ∧ ¬ in_table (ram st') root a) ∧
    (∀ i j, 0 ≤ i < pages → 0 ≤ j < pages → fr i = fr j → i = j) ∧
    (∀ va, (∀ i, 0 ≤ i < pages → vpn va ≠ vpn (virt + i * 4096)) →
       translate (ram st') root va = translate (ram st) root va).
Proof.
  intros virt pages. unfold vmm_mmap.
  destruct (Z.eqb_spec (Z.land (Z.land flags 0xFFFFFFFF) MAP_ANONYMOUS) 0); [done|].
  rewrite Hfix. change (0 =? 0) with true. cbn [negb].
  assert (ALIGN_UP size PAGE_SIZE / PAGE_SIZE = pages) as ->.
  { assert (ALIGN_UP size PAGE_SIZE = (size + 2 ^ 12 - 1) / 2 ^ 12 * 2 ^ 12) as ->
      by (apply (ALIGN_UP_pow2 size 12); lia).
    unfold PAGE_SIZE, pages. change (2 ^ 12) with 4096. rewrite Z.div_mul by done.
    f_equal. lia. }
  assert (0 ≤ pages < 2 ^ 35 + 1) as Hpg by (subst pages; zlia).
  assert (ALLOC_BASE = 0x1000000) as HAB by done.
  rewrite (u64_id (used * 4096)), (u64_id (used * 4096 + ALLOC_BASE)),
    (u64_id (used + pages)) by (simpl; lia).
  fold virt. destruct (mmap_loop st root pagemap virt pages)
    as (st' & fr & -> & Hvm' & Hmp); [done..|lia|lia|lia|].
  exists st', fr. split; [done|]. split; [done|]. split_and!.
  - intros i Hi. destruct (mp_frame _ _ _ _ _ _ Hmp i Hi) as (_ & _ & Hn & _ & Hc).
    split_and!; [by apply Hmp|done..].
  - apply Hmp.
  - apply Hmp.
Qed.
(** [vmm_initialize] builds the kernel's address space. With frames
    enough - one for the root, and three for each 2 MiB it maps - it returns; the
    page map it loads in [cr3] is a fresh frame and is
    well formed; the first 128 MiB are mapped behind the kernel window, and
    behind the I/O window exactly the first 4 GiB or, when one is longer, as
    many pages as the longest usable entry has: an entry's [base] plays no
    part. *)
Theorem vmm_initialize_correct (st : vmm F) (entries : list mmap_entry)
    (Hinv : fa_inv (frames st)) (Hlk : vlock st = false)
    (Hlen : ∀ e, e ∈ entries → 0 ≤ e_length e ≤ 2 ^ 46)
    (Hav : available (1 + (3 * 64 + (3 * 2048 + (3 * total_tables entries + 0)))) (ram st) (frames st)) :
  ∃ root st', vmm_initialize entries st = Done (root, st') ∧ cr3 st' = root ∧
    ¬ in_use (frames st) (root / PAGE_SIZE) ∧ vm_ok st' root ∧
    kernel_map (ram st') root (furthest_page entries (2 ^ 20)).
Proof.
  destruct (vmm_initialize_spec st entries 0 Hinv Hlk Hlen Hav)
    as (root & st' & Hr & Hc & Hf & Hvm & Hkm & _).
  exists root, st'. by split_and!.
Qed.
End tables.
