(* ===== verification/PmmFrames.v ===== *)
(** * The physical memory manager is a frame allocator

    [pmm_allocate_zero(1)] satisfies the laws that [Vmm] relies on, so the
    theorems of [Vmm] hold of the two files together.  The end of the file runs
    them on a concrete machine. *)

From S2P Require Import Prelude CInt Mem Arch Pmm Frames Vmm.

(** Free frames below the top of memory. *)
Definition usable_frames (st : pmm) : gset Z :=
  filter (λ f, f < highest_page st / PAGE_SIZE) (free_set st).

#[global] Instance pmm_frames : FrameAlloc pmm := {
  alloc_zero m st := pmm_allocate_zero m st 1;
  fa_inv st := pmm_wf st ∧ 1 ≤ bitmap_size st ∧ highest_page st ≤ 2 ^ 46;
  in_use st f := (f ∉ free_set st);
  available n m st :=
    (n ≤ size (usable_frames st))%nat ∧ (0 ∉ free_set st) ∧
    ∀ f, f ∈ free_set st → mapped m (f * PAGE_SIZE) PAGE_SIZE;
}.

Lemma memset_inv m s c n m' :
  0 ≤ n → memset m s c n = Done m' → overwritten m m' s n (λ _, Some (u8 c)).
Proof.
  intros Hn Hr. unfold memset in Hr.
  eapply (for_loop_partial (λ k m', overwritten m m' s k (λ _, Some (u8 c)))) in Hr.
  - by replace (0 + Z.of_nat (Z.to_nat n)) with n in Hr by lia.
  - apply overwritten_nil.
  - intros k t t' Hk Ho [_ ->]%store8_inv. apply overwritten_grow_up; [done|lia|done].
Qed.

(** One frame from the manager, as [Vmm] sees it. *)
Lemma pmm_allocate_zero_inv m st p m' st' :
  pmm_wf st → 1 ≤ bitmap_size st → highest_page st ≤ 2 ^ 46 →
  pmm_allocate_zero m st 1 = Done (p, (m', st')) → p ≠ 0 →
  pmm_allocate st 1 = Done (p, st') ∧ p + PAGE_SIZE ≤ 2 ^ 46 ∧
  overwritten m m' p PAGE_SIZE (λ _, Some 0).
Proof.
  intros Hwf Hsz Hh. unfold pmm_allocate_zero.
  intros ([ret st1] & Hal & (m1 & Hms & [= <- <- <-])%bind_Done_inv)%bind_Done_inv Hp.
  destruct (pmm_allocate_one _ _ _ Hwf Hsz Hal Hp) as (f & -> & Hf & _).
  rewrite phys_of_io in Hms
    by (unfold phys_ok, MMAP_KERNEL_BASE, MMAP_IO_BASE, PAGE_SIZE in *; zlia).
  apply memset_inv in Hms; [|by vm_compute].
  split_and!; [done|unfold PAGE_SIZE in *; zlia|done].
Qed.

#[global] Instance pmm_frames_laws : FrameAllocLaws pmm.
Proof.
  split; simpl.
  - intros m s p m' s' (Hwf & Hsz & Hh) Hr Hp.
    destruct (pmm_allocate_zero_inv _ _ _ _ _ Hwf Hsz Hh Hr Hp) as (Hal & Hb & Ho).
    destruct (pmm_allocate_one _ _ _ Hwf Hsz Hal Hp)
      as (f & -> & Hf & Hin & Hfs & Hw & (Hs1 & Hs2 & Hs3) & _).
    rewrite Z.div_mul by done. rewrite Hs1, Hs3, Hfs.
    split_and!; try done.
    + by apply Z.mod_mul.
    + unfold PAGE_SIZE in *. lia.
    + intros Hn. by apply Hn.
    + intros g. rewrite not_elem_of_difference, elem_of_singleton. tauto.
  - intros n m s (Hwf & Hsz & Hh) (Hn & H0 & Hmap).
    assert (∃ f, f ∈ usable_frames s) as [f0 Hf0].
    { apply set_choose_L. intros He. rewrite He, size_empty in Hn. lia. }
    apply elem_of_filter in Hf0 as [Hf0 Hin0].
    pose proof (pmm_allocate_spec s 1 Hwf ltac:(lia)) as Hspec.
    destruct (first_free _ _) as [f|] eqn:Hff.
    2: { exfalso. pose proof (free_set_range _ _ Hwf Hin0).
         by apply (first_free_None _ _ Hff f0); [lia|]. }
    apply first_free_Some in Hff as (Hin & Hf & _).
    assert (f ≠ 0) as Hfz by (intros ->; done).
    pose proof (wf_covers _ Hwf).
    destruct Hspec as (s' & Hal & Hw & (Hs1 & Hs2 & Hs3) & Hfs & _); [lia|].
    rewrite run_1 in Hfs.
    destruct (memset_spec m (f * PAGE_SIZE) 0 PAGE_SIZE) as (m' & Hms & Ho);
      [done|by apply Hmap|].
    exists (f * PAGE_SIZE), m', s'. split_and!.
    + unfold pmm_allocate_zero. rewrite Hal. simpl.
      rewrite phys_of_io
        by (unfold phys_ok, MMAP_KERNEL_BASE, MMAP_IO_BASE, PAGE_SIZE in *; zlia).
      change (u64 (1 * PAGE_SIZE)) with PAGE_SIZE. by rewrite Hms.
    + unfold PAGE_SIZE. lia.
    + assert (usable_frames s' = usable_frames s ∖ {[f]}) as ->.
      { apply set_eq. intros g. unfold usable_frames.
        rewrite elem_of_difference, !elem_of_filter, Hfs, Hs1, elem_of_difference. tauto. }
      rewrite size_difference, size_singleton; [lia|].
      apply singleton_subseteq_l, elem_of_filter. split; [lia|done].
    + rewrite Hfs, elem_of_difference. tauto.
    + intros g. rewrite Hfs. intros [Hg _]%elem_of_difference.
      eapply dom_grows_mapped; [by eapply overwritten_dom|by apply Hmap].
  - intros n m m' s Hd (Hn & H0 & Hmap). split_and!; try done.
    intros f Hf. eapply dom_grows_mapped; [done|by apply Hmap].
  - intros n m s (Hn & H0 & Hmap). split_and!; try done. lia.
Qed.

(** A run of free frames from the first free one, cleared. *)
Record run_taken m (st : pmm) (f n : Z) m' (st' : pmm) : Prop := RunTaken {
  rt_inv : fa_inv st';
  rt_fresh g : f ≤ g < f + n → ¬ in_use st g;
  rt_use g : in_use st' g ↔ in_use st g ∨ f ≤ g < f + n;
  rt_zero : overwritten m m' (f * PAGE_SIZE) (n * PAGE_SIZE) (λ _, Some 0);
  rt_range : 0 < f ∧ (f + n) * PAGE_SIZE ≤ 2 ^ 46;
  rt_left k : available (Z.to_nat n + k) m st → available k m' st';
  rt_free : free_set st' = free_set st ∖ run f n;
  rt_same : same_frame st st';
  rt_top : (f + n) * PAGE_SIZE ≤ highest_page st;
}.

Lemma pmm_allocate_zero_run m (st : pmm) f n :
  fa_inv st → available 1 m st → 1 ≤ n ≤ bitmap_size st →
  first_free (free_set st) (highest_page st / PAGE_SIZE) = Some f → run f n ⊆ usable_frames st →
  ∃ m' st', pmm_allocate_zero m st n = Done (f * PAGE_SIZE, (m', st')) ∧ run_taken m st f n m' st'.
Proof.
  intros (Hwf & Hsz & Hh) (_ & H0 & Hmap) Hn Hff Hrun.
  assert (∀ g, f ≤ g < f + n → g < highest_page st / PAGE_SIZE ∧ g ∈ free_set st) as Hfree.
  { intros g Hg. assert (g ∈ usable_frames st) as Hu by by apply Hrun, elem_of_run.
    by apply elem_of_filter in Hu. }
  pose proof (wf_covers _ Hwf). destruct (Hfree (f + n - 1)) as [Hlast _]; [lia|].
  assert (0 < f) as Hf0.
  { destruct (Hfree f) as [_ Hin]; [lia|]. pose proof (free_set_range _ _ Hwf Hin).
    destruct (decide (f = 0)) as [->|]; [done|lia]. }
  assert ((f + n) * PAGE_SIZE ≤ 2 ^ 46) as Htop by (unfold PAGE_SIZE in *; zlia).
  pose proof (pmm_allocate_spec st n Hwf Hn) as Hspec. rewrite Hff in Hspec.
  destruct Hspec as (st' & Hal & Hw & (Hs1 & Hs2 & Hs3) & Hfs & _); [lia|].
  destruct (memset_spec m (f * PAGE_SIZE) 0 (n * PAGE_SIZE)) as (m' & Hms & Ho);
    [unfold PAGE_SIZE; lia| |].
  { intros a Ha. apply (Hmap (a / PAGE_SIZE)); [|unfold PAGE_SIZE in *; zlia].
    apply Hfree. unfold PAGE_SIZE in *. zlia. }
  exists m', st'. split.
  - unfold pmm_allocate_zero. rewrite Hal. cbn [mbind res_bind].
    rewrite phys_of_io by (unfold phys_ok, MMAP_KERNEL_BASE, MMAP_IO_BASE, PAGE_SIZE in *; zlia).
    rewrite u64_id by (unfold PAGE_SIZE in *; simpl; lia). by rewrite Hms.
  - split; simpl.
    + by rewrite Hs1, Hs3.
    + intros g Hg Hu. by apply Hu, Hfree.
    + intros g. rewrite Hfs, not_elem_of_difference, elem_of_run. done.
    + done.
    + done.
    + intros k (Hk & _). rewrite Hfs. split_and!.
      * assert (usable_frames st' = usable_frames st ∖ run f n) as ->.
        { apply set_eq. intros g. unfold usable_frames.
          rewrite elem_of_difference, !elem_of_filter, Hfs, Hs1, elem_of_difference. tauto. }
        rewrite size_difference by done. unfold run.
        rewrite (size_list_to_set (C := gset Z)) by apply NoDup_seqZ. rewrite length_seqZ. lia.
      * set_solver.
      * intros g [Hg _]%elem_of_difference.
        eapply dom_grows_mapped; [by eapply overwritten_dom|by apply Hmap].
    + done.
    + done.
    + unfold PAGE_SIZE in *. zlia.
Qed.

(** The free frames are one run that ends below the top of memory, as after boot
    on a machine with one usable range: every request takes from its front. *)
Definition tidy (st : pmm) : Prop :=
  fa_inv st ∧ ∃ f n, free_set st = run f n ∧ 0 < f ∧ f + n ≤ highest_page st / PAGE_SIZE.

Lemma run_minus f n k : 0 ≤ k → run f n ∖ run f k = run (f + k) (n - k).
Proof. intros Hk. apply set_eq. intros g. rewrite elem_of_difference, !elem_of_run. lia. Qed.

Lemma tidy_first st f n :
  free_set st = run f n → 0 < n → 0 < f → f + n ≤ highest_page st / PAGE_SIZE →
  first_free (free_set st) (highest_page st / PAGE_SIZE) = Some f.
Proof.
  intros Hfree Hn Hf Htop. destruct (first_free _ _) as [g|] eqn:Hff.
  - apply first_free_Some in Hff as (Hin & Hg & Hlt). rewrite Hfree, elem_of_run in Hin.
    destruct (decide (f = g)) as [->|]; [done|]. exfalso. apply (Hlt f); [lia|].
    rewrite Hfree, elem_of_run. lia.
  - exfalso. apply (first_free_None _ _ Hff f); [lia|]. rewrite Hfree, elem_of_run. lia.
Qed.

(** With [k] frames to spare the run has them. *)
Lemma tidy_run m st k :
  tidy st → available k m st → (1 ≤ k)%nat →
  ∃ f n, free_set st = run f n ∧ Z.of_nat k ≤ n ∧ 0 < f ∧
    first_free (free_set st) (highest_page st / PAGE_SIZE) = Some f ∧
    run f (Z.of_nat k) ⊆ usable_frames st.
Proof.
  intros (_ & f & n & Hfree & Hf & Htop) (Hk & _) H1.
  assert (Z.of_nat k ≤ n) as Hn.
  { assert (size (usable_frames st) ≤ Z.to_nat n)%nat; [|lia].
    unfold usable_frames. rewrite Hfree.
    etrans; [apply (subseteq_size _ (run f n)); by intros g [_ Hg]%elem_of_filter|].
    unfold run. rewrite (size_list_to_set (C := gset Z)) by apply NoDup_seqZ. by rewrite length_seqZ. }
  exists f, n. split_and!; [done..|eapply tidy_first; (done || lia)|].
  intros g Hg%elem_of_run. apply elem_of_filter. rewrite Hfree, elem_of_run. lia.
Qed.

(** What taking frames one by one keeps. *)
Definition tidy_same (s s' : pmm) : Prop := tidy s → tidy s' ∧ same_frame s s'.

#[global] Instance tidy_same_po : PreOrder tidy_same.
Proof.
  split; [by intros s|]. intros s1 s2 s3 H12 H23 H1. destruct (H12 H1) as [H2 E2].
  destruct (H23 H2) as [H3 E3]. split; [done|by etrans].
Qed.

Lemma tidy_alloc m st p m' st' :
  pmm_allocate_zero m st 1 = Done (p, (m', st')) →
  tidy_same st st'.
Proof.
  intros Hr Ht. destruct Ht as (Hinv & f & n & Hfree & Hf & Htop).
  pose proof Hinv as (Hwf & Hsz & Hh). destruct (decide (p = 0)) as [->|Hp].
  - pose proof (pmm_allocate_spec st 1 Hwf ltac:(lia)) as Hspec.
    destruct (first_free _ _) as [g|] eqn:Hff.
    + apply first_free_Some in Hff as (Hin & Hg & _). rewrite Hfree, elem_of_run in Hin.
      pose proof (wf_covers _ Hwf). destruct Hspec as (s & Hs & _); [lia|].
      unfold pmm_allocate_zero in Hr. rewrite Hs in Hr.
      apply bind_Done_inv in Hr as ([? ?] & [= <- <-] & (? & _ & [= ? _ _])%bind_Done_inv).
      unfold PAGE_SIZE in *. lia.
    + unfold pmm_allocate_zero in Hr. rewrite Hspec in Hr.
      apply bind_Done_inv in Hr as ([? ?] & [= <- <-] & (? & _ & [= _ <-])%bind_Done_inv).
      split; [|done]. split; [done|]. by exists f, n.
  - destruct (pmm_allocate_zero_inv _ _ _ _ _ Hwf Hsz Hh Hr Hp) as (Hal' & _ & _).
    destruct (pmm_allocate_one _ _ _ Hwf Hsz Hal' Hp) as (g & -> & Hg & Hin & Hfs & Hw & Hsf & _).
    pose proof Hsf as (Hs1 & _ & Hs3). split; [|done]. split; [simpl; by rewrite Hs1, Hs3|].
    pose proof Hin as Hin'. rewrite Hfree, elem_of_run in Hin'.
    assert (g = f) as ->.
    { pose proof (pmm_allocate_spec st 1 Hwf ltac:(lia)) as Hspec.
      rewrite (tidy_first st f n) in Hspec by (done || lia). pose proof (wf_covers _ Hwf).
      destruct Hspec as (s & Hs & _); [lia|]. rewrite Hs in Hal'. injection Hal' as Heq _.
      unfold PAGE_SIZE in *. lia. }
    exists (f + 1), (n - 1). rewrite Hfs, Hfree, <-run_1, run_minus, Hs1 by lia. split; [done|lia].
Qed.

Lemma tidy_keeps m (st : pmm) (p : Z) m' st' : alloc_zero m st = Done (p, (m', st')) → tidy_same st st'.
Proof. apply tidy_alloc. Qed.

Lemma tidy_run_taken m st f n m' st' :
  tidy st → run_taken m st f n m' st' →
  first_free (free_set st) (highest_page st / PAGE_SIZE) = Some f → 0 ≤ n → tidy st'.
Proof.
  intros (_ & g & k & Hfree & Hg & Htop) [Hinv _ _ _ _ _ Hfs (Hhigh & _ & _) _] Hff Hn. split; [done|].
  pose proof Hff as (Hin & _ & _)%first_free_Some. rewrite Hfree, elem_of_run in Hin.
  rewrite (tidy_first st g k) in Hff by (done || lia). injection Hff as ->.
  exists (f + n), (k - n). rewrite Hfs, Hfree, run_minus, Hhigh by lia. split; [done|lia].
Qed.

(** ** A concrete machine

    256 KiB of zeroed RAM; frames 0 to 15 owned, the root table in frame 8. *)

Definition sample_ram : mem := gset_to_gmap 0 (list_to_set (seqZ 0 0x40000)).
Definition sample_pmm : pmm :=
  Pmm 0x40000 48 (MMAP_IO_BASE + 0x1000) [0xff; 0xff; 0; 0; 0; 0; 0; 0] 8.
Definition sample_vmm : vmm pmm := Vmm sample_ram sample_pmm false [] 0.
Definition sample_root : Z := 0x8000.
Definition sample_pagemap : Z := u64 (sample_root + MMAP_IO_BASE).

Lemma sample_ram_lookup a : 0 ≤ a < 0x40000 → sample_ram !! a = Some 0.
Proof.
  intros Ha. apply lookup_gset_to_gmap_Some. split; [|done].
  apply elem_of_list_to_set, elem_of_seqZ. lia.
Qed.

Lemma sample_pmm_wf : pmm_wf sample_pmm.
Proof.
  split; unfold is_u64, PAGE_SIZE; simpl; try lia; try done.
  repeat constructor; simpl; lia.
Qed.

Lemma sample_in_use f : bool_decide (f ∈ free_set sample_pmm) = false → in_use sample_pmm f.
Proof. intros Hf. by apply bool_decide_eq_false in Hf. Qed.

Lemma sample_available n :
  (n ≤ size (usable_frames sample_pmm))%nat → available n sample_ram sample_pmm.
Proof.
  intros Hn. split; [done|]. split; [by apply (sample_in_use 0)|].
  intros f Hf i Hi. apply (free_set_range _ _ sample_pmm_wf) in Hf. simpl in Hf.
  rewrite sample_ram_lookup; [eauto|]. unfold PAGE_SIZE in *. lia.
Qed.

Lemma sample_usable : size (usable_frames sample_pmm) = 48%nat.
Proof. by vm_compute. Qed.

Lemma sample_vm_ok : vm_ok sample_vmm sample_root.
Proof.
  split; [|split_and!; [apply sample_pmm_wf|simpl; lia..]|done].
  apply empty_root_ok; [|done|done|done|by apply sample_in_use].
  intros a Ha. apply sample_ram_lookup. unfold sample_root, PAGE_SIZE in *. lia.
Qed.

Lemma sample_points_to : points_to sample_pagemap sample_root.
Proof. by apply points_to_io. Qed.

Lemma vmm_map_correct_witness :
  ∃ st', vmm_map sample_pagemap 0x9000 0x7f0000001000 7 sample_vmm = Done st' ∧
    translate (ram st') sample_root 0x7f0000001000 = Some 0x9007 ∧
    translate (ram st') sample_root 0x7f0000002000 =
      translate (ram sample_vmm) sample_root 0x7f0000002000.
Proof.
  destruct (vmm_map_correct sample_vmm sample_root sample_pagemap 0x9000 0x7f0000001000 7 0)
    as (st' & Hr & _ & Ht & Ho & _);
    [apply sample_vm_ok|apply sample_available; rewrite sample_usable; lia
    |apply sample_points_to|done|done|lia|].
  exists st'. split; [exact Hr|]. split; [exact Ht|].
  apply (Ho 0x7f0000002000). by vm_compute.
Defined.

Lemma vmm_unmap_correct_witness :
  ∃ st', vmm_unmap sample_pagemap 0x7f0000001000 7 sample_vmm = Done st' ∧
    translate (ram st') sample_root 0x7f0000001000 = None ∧ tlb_flushed st' = [].
Proof.
  destruct (vmm_unmap_correct sample_vmm sample_root sample_pagemap 0x7f0000001000 7 0)
    as (st' & Hr & _ & Ht & _ & _ & Htlb);
    [apply sample_vm_ok|apply sample_available; rewrite sample_usable; lia
    |apply sample_points_to|done|].
  exists st'. split; [exact Hr|]. by split.
Defined.

Lemma vmm_mmap_anonymous_witness :
  ∃ st' fr, vmm_mmap sample_pagemap 0 8000 MAP_ANONYMOUS 3 sample_vmm =
      Done (3 * 4096 + ALLOC_BASE, (3 + 2, st')) ∧
    translate (ram st') sample_root 0x1004000 = Some (fr 1 + 7) ∧ fr 0 ≠ fr 1.
Proof.
  destruct (vmm_mmap_anonymous sample_vmm sample_root sample_pagemap 0 8000 MAP_ANONYMOUS 3)
    as (st' & fr & Hr & _ & Ht & Hd & _);
    [apply sample_vm_ok|apply sample_points_to|done|done|lia|lia
    |apply sample_available; rewrite sample_usable; vm_compute; lia|].
  exists st', fr. split; [exact Hr|]. split; [apply (Ht 1); vm_compute; split; congruence|].
  intros He. apply (Hd 0 1) in He; [discriminate|vm_compute; split; congruence..].
Defined.
