(* ===== verification/Start.v ===== *)
(** * The memory of a running kernel

    [kernel_main] calls [pmm_initialize] and then [vmm_initialize]
    ([src/src/kernel/main.c]), which both read the memory map of the boot loader;
    the first cuts the space of its bit map out of it. *)

From S2P Require Import Prelude CInt Mem Arch Boot Pmm Frames Vmm PmmFrames.

Definition start_memory (entries : list mmap_entry) (st : vmm pmm) : res (Z * vmm pmm) :=
  '(f, entries) ← pmm_initialize entries;
  vmm_initialize entries (Vmm.set_mem st (ram st) f).

(** ** Proofs *)

(** A machine of at most 128 MiB whose usable memory is one entry, [e]. *)
Record one_bank (entries pre post : list mmap_entry) (e : mmap_entry) : Prop := OneBank {
  ob_map : memmap_ok entries;
  ob_split : entries = pre ++ e :: post;
  ob_usable : usable e = true ∧ Forall (λ x, usable x = false) (pre ++ post);
  ob_base : 0 < e_base e;
  ob_top : find_highest entries 0 ≤ 0x8000000;
  ob_bitmap : 0 < map_bytes entries ≤ e_length e;
  ob_covered : find_highest entries 0 / PAGE_SIZE ≤ 8 * map_bytes entries;
}.

Section one_bank.
Context (entries pre post : list mmap_entry) (e : mmap_entry) (Hob : one_bank entries pre post e).

Lemma one_bank_entry x : x ∈ entries → usable x = true → x = e.
Proof.
  intros Hx Hu. destruct Hob as [_ -> [_ Ho] _ _ _ _]. apply elem_of_app in Hx.
  rewrite elem_of_cons in Hx. rewrite Forall_app in Ho. destruct Ho as [H1 H2].
  rewrite !Forall_forall in H1, H2.
  destruct Hx as [Hx|[->|Hx]]; [|done|]; apply list_elem_of_In in Hx;
    [specialize (H1 x Hx)|specialize (H2 x Hx)]; congruence.
Qed.
End one_bank.

(** The memory [start_memory] leaves, with [k] frames to spare. *)
Record memory_up (k : nat) (root : Z) (st : vmm pmm) : Prop := MemoryUp {
  mu_vm : vm_ok st root;
  mu_cr3 : cr3 st = root;
  mu_map : kernel_map (ram st) root (2 ^ 20);
  mu_tidy : tidy (frames st);
  mu_spare : available k (ram st) (frames st);
  mu_root : root + PAGE_SIZE ≤ 0x8000000;
  mu_bytes : bytes_ok (ram st);
  mu_bitmap : 4096 ≤ bitmap_size (frames st);
  mu_top : highest_page (frames st) ≤ 0x8000000;
}.

Lemma split_unique {A} (P : A → Prop) (pre pre' post post' : list A) x y :
  pre ++ x :: post = pre' ++ y :: post' → Forall (λ z, ¬ P z) (pre ++ post) → P y →
  pre = pre' ∧ x = y ∧ post = post'.
Proof.
  revert pre'. induction pre as [|z pre IH]; intros [|z' pre'] Heq Hno Hy; simpl in *.
  - by injection Heq.
  - injection Heq as -> ->. exfalso. apply Forall_app in Hno as [_ Hno]. by apply Forall_cons_1 in Hno as [? _].
  - injection Heq as -> _. by apply Forall_cons_1 in Hno as [? _].
  - injection Heq as -> Heq. apply Forall_cons_1 in Hno as [_ Hno].
    destruct (IH pre' Heq Hno Hy) as (-> & -> & ->). done.
Qed.

Lemma total_tables_app l l' : total_tables (l ++ l') = (total_tables l + total_tables l')%nat.
Proof. induction l as [|e l IH]; simpl; [done|]. rewrite IH. lia. Qed.

Lemma total_tables_unusable l : Forall (λ x, usable x = false) l → total_tables l = 0%nat.
Proof.
  induction 1 as [|x l Hx _ IH]; simpl; [done|]. rewrite IH. unfold entry_pages. by rewrite Hx.
Qed.

Lemma furthest_page_within l n : Forall (λ e, entry_pages e ≤ n) l → furthest_page l n = n.
Proof.
  induction 1 as [|x l Hx _ IH]; simpl; [done|]. unfold furthest_page in *. simpl. by rewrite Z.max_l by lia.
Qed.

Section up.
Context (entries pre post : list mmap_entry) (e : mmap_entry) (Hob : one_bank entries pre post e).
Abbreviation size := (map_bytes entries).

Lemma one_bank_range :
  e_base e mod PAGE_SIZE = 0 ∧ e_length e mod PAGE_SIZE = 0 ∧ size mod PAGE_SIZE = 0 ∧
  e_base e + e_length e ≤ find_highest entries 0 ∧ 4096 ≤ size ≤ e_length e.
Proof.
  destruct Hob as [Hok Hsp [Hu _] H0 Htop Hbm _].
  assert (e ∈ entries) as Hin by (rewrite Hsp; apply elem_of_app; right; apply list_elem_of_here).
  destruct (mm_aligned _ Hok e Hin Hu). destruct (map_bytes_spec entries Hok) as [Hmb _].
  destruct (find_highest_spec entries 0) as [_ Hh]; [apply Hok|lia|].
  assert (size mod PAGE_SIZE = 0) by (rewrite Hmb; by apply Z.mod_mul).
  split_and!; [done..|by apply Hh|unfold PAGE_SIZE in *; zlia|lia].
Qed.

(** The frames behind the bit map are free. *)
Lemma one_bank_free pre' post' e' st :
  initialised entries pre' post' e' st →
  free_set st = run ((e_base e + size) / PAGE_SIZE) ((e_length e - size) / PAGE_SIZE).
Proof.
  intros [Hsp' [Hu' _] _ _ _ _ Hfree]. pose proof one_bank_range as (Hb & Hl & Hs & _ & Hsz).
  assert (e' = e) as ->.
  { apply (one_bank_entry entries pre post e Hob); [|done]. rewrite Hsp'.
    apply elem_of_app. right. apply list_elem_of_here. }
  apply set_eq. intros f. rewrite Hfree, elem_of_run. split.
  - intros [(x & Hx & Hux & Hf) Hout]. rewrite (one_bank_entry entries pre post e Hob x) in Hf by done.
    unfold PAGE_SIZE in *. zlia.
  - intros Hf. split; [|unfold PAGE_SIZE in *; zlia]. exists e. destruct Hob as [_ Hsp [Hu _] _ _ _ _].
    split; [rewrite Hsp; apply elem_of_app; right; apply list_elem_of_here|]. split; [done|].
    unfold PAGE_SIZE in *. zlia.
Qed.

Lemma one_bank_tidy pre' post' e' st m k :
  initialised entries pre' post' e' st → mapped m 0 (find_highest entries 0) →
  Z.of_nat k * PAGE_SIZE ≤ e_length e - size → tidy st ∧ available k m st.
Proof.
  intros Hii Hm Hk. pose proof (one_bank_free _ _ _ _ Hii) as Hfree.
  pose proof one_bank_range as (Hb & Hl & Hs & Htop & Hsz).
  destruct Hii as [_ _ Hwf Hbs Hh _ _]. pose proof (ob_top _ _ _ _ Hob). pose proof (ob_base _ _ _ _ Hob).
  set (f := (e_base e + size) / PAGE_SIZE) in *. set (n := (e_length e - size) / PAGE_SIZE) in *.
  assert (0 < f ∧ f + n ≤ highest_page st / PAGE_SIZE) as [Hf0 Hfn]
    by (rewrite Hh; subst f n; unfold PAGE_SIZE in *; zlia).
  split.
  - split; [|by exists f, n]. split; [done|]. rewrite Hbs, Hh. lia.
  - assert (usable_frames st = run f n) as Hu.
    { unfold usable_frames. rewrite Hfree. apply set_eq. intros g.
      rewrite elem_of_filter, elem_of_run. lia. }
    split; [|split].
    + rewrite Hu. unfold run. rewrite (size_list_to_set (C := gset Z)) by apply NoDup_seqZ.
      rewrite length_seqZ. subst n. unfold PAGE_SIZE in *. zlia.
    + rewrite Hfree, elem_of_run. lia.
    + intros g. rewrite Hfree, elem_of_run. intros Hg a Ha. apply Hm.
      rewrite Hh in Hfn. unfold PAGE_SIZE in *. zlia.
Qed.
End up.

(** What [map_entries] costs after [pmm_initialize] cut its bit map out. *)
Lemma carved_tables entries pre post e :
  one_bank entries pre post e →
  let es := pre ++ carve e (map_bytes entries) :: post in
  (total_tables es ≤ 64)%nat ∧ furthest_page es (2 ^ 20) = 2 ^ 20 ∧
  ∀ x, x ∈ es → 0 ≤ e_length x ≤ 2 ^ 46.
Proof.
  intros Hob. cbv zeta. pose proof (one_bank_range _ _ _ _ Hob) as (Hb & Hl & Hs & Htop & Hsz).
  destruct Hob as [Hok Hsp [Hu Ho] H0 Hh Hbm _]. apply Forall_app in Ho as [Ho1 Ho2].
  assert (e_length (carve e (map_bytes entries)) = e_length e - map_bytes entries) as Hcl.
  { apply u64_id. simpl. lia. }
  assert (0 ≤ entry_pages (carve e (map_bytes entries)) ≤ 2 ^ 15) as Hep.
  { unfold entry_pages. rewrite Hcl. destruct (usable _); unfold PAGE_SIZE in *; zlia. }
  assert (∀ x, usable x = false → entry_pages x ≤ 2 ^ 20) as Hun
    by (intros x Hx; unfold entry_pages; rewrite Hx; lia).
  split_and!.
  - rewrite total_tables_app. cbn [total_tables foldr]. fold (total_tables post).
    rewrite !total_tables_unusable by done. unfold tables_for, MMAP_IO_BASE. destruct (_ <=? 0); [lia|]. zlia.
  - apply furthest_page_within. apply Forall_app. split; [eapply Forall_impl; [exact Hun|exact Ho1]|].
    apply Forall_cons_2; [lia|]. eapply Forall_impl; [exact Hun|exact Ho2].
  - intros x Hx.
    assert (x = carve e (map_bytes entries) ∨ x ∈ entries) as [->|Hin].
    { rewrite Hsp, !elem_of_app, !elem_of_cons in *. tauto. }
    + rewrite Hcl. lia.
    + destruct (mm_range _ Hok x Hin) as (?&?&?). lia.
Qed.

(** [pmm_initialize] cuts its bit map out of the bank. *)
Lemma one_bank_pmm entries pre post e :
  one_bank entries pre post e →
  ∃ s, pmm_initialize entries = Done (s, pre ++ carve e (map_bytes entries) :: post) ∧
    initialised entries pre post e s.
Proof.
  intros Hob. pose proof (one_bank_range _ _ _ _ Hob) as (_ & _ & _ & Htop & Hsz).
  pose proof Hob as [Hok Hsp [Hu Ho] H0 Hh Hbm Hcov].
  destruct (pmm_initialize_spec entries Hok) as (pre' & e' & post' & s & Hr & Hii); [|lia|exact Hcov|].
  { apply list.Exists_exists. exists e. split; [rewrite Hsp; apply elem_of_app; right; apply list_elem_of_here|].
    rewrite Hu. simpl. apply Is_true_true, Z.leb_le. lia. }
  destruct (split_unique (λ x, usable x = true) pre pre' post post' e e') as (<- & <- & <-);
    [rewrite <-Hsp; apply Hii|by eapply Forall_impl; [|exact Ho]; intros x Hx; cbn in Hx; rewrite Hx|apply Hii|].
  by exists s.
Qed.

(** Starting the two managers. *)
Lemma start_memory_run (entries pre post : list mmap_entry) (e : mmap_entry) (st0 : vmm pmm) (k : nat)
    (Hob : one_bank entries pre post e)
    (Hlock : vlock st0 = false)
    (Hm : mapped (ram st0) 0 (find_highest entries 0)) (Hby : bytes_ok (ram st0))
    (Hfr : (6529 + Z.of_nat k) * PAGE_SIZE ≤ e_length e - map_bytes entries) :
  ∃ root st, start_memory entries st0 = Done (root, st) ∧ memory_up k root st.
Proof.
  pose proof (one_bank_range _ _ _ _ Hob) as (_ & _ & _ & Htop & Hsz).
  pose proof Hob as [_ _ _ H0 Hh _ _].
  destruct (one_bank_pmm _ _ _ _ Hob) as (s & Hr & Hii).
  destruct (one_bank_tidy _ _ _ _ Hob pre post e s (ram st0) (Z.to_nat 6529 + k) Hii Hm ltac:(unfold PAGE_SIZE in *; lia)) as [Htidy Hav].
  destruct (carved_tables _ _ _ _ Hob) as (Htt & Hfp & Hlen).
  destruct (vmm_initialize_spec (Vmm.set_mem st0 (ram st0) s) (pre ++ carve e (map_bytes entries) :: post) k)
    as (root & st & Hr' & Hc & Hfresh & Hvm & Hkm & Hav' & Hb'); [exact (proj1 Htidy)|exact Hlock|exact Hlen|apply (available_le _ _ (ram st0) s Hav); lia|].
  destruct (vmm_initialize_keeps tidy_same tidy_keeps _ _ _ _ Hr' Htidy)
    as [Htidy' (Hh' & _ & Hs')]. cbn [frames Vmm.set_mem] in *.
  exists root, st. unfold start_memory. rewrite Hr. cbn [mbind res_bind]. split; [done|].
  split; try done.
  - by rewrite <-Hfp.
  - destruct (decide (root / PAGE_SIZE ∈ free_set s)) as [Hin|]; [|done].
    rewrite (one_bank_free _ _ _ _ Hob _ _ _ _ Hii), elem_of_run in Hin.
    pose proof (pt_frames _ _ _ (vm_tables _ _ Hvm) [] root (is_path_nil 3) eq_refl) as (Hra & _).
    unfold PAGE_SIZE in *. zlia.
  - auto.
  - rewrite Hs', (ii_size _ _ _ _ _ Hii). lia.
  - rewrite Hh', (ii_highest _ _ _ _ _ Hii). lia.
Qed.

(** ** A machine

    64 MiB, the first of them reserved. *)

Definition pc_map : list mmap_entry := [MmapEntry 0 0x100000 2; MmapEntry 0x100000 0x3f00000 1].
Definition cleared (n : Z) : mem := gset_to_gmap 0 (list_to_set (seqZ 0 n)).

Lemma pc_mapped n : mapped (cleared n) 0 n.
Proof.
  intros a Ha. exists 0. apply lookup_gset_to_gmap_Some. split; [|done].
  apply elem_of_list_to_set, elem_of_seqZ. lia.
Qed.

Lemma pc_bytes n : bytes_ok (cleared n).
Proof. unfold cleared. intros a b Hb. by apply lookup_gset_to_gmap_Some in Hb as [_ <-]. Qed.

Lemma pc_map_ok : memmap_ok pc_map.
Proof.
  split.
  - intros e He. repeat (apply elem_of_cons in He as [->|He]; [simpl; lia|]).
    by apply not_elem_of_nil in He.
  - intros e He. repeat (apply elem_of_cons in He as [->|He]; [by vm_compute|]).
    by apply not_elem_of_nil in He.
  - intros i j e e' Hi Hj Hu Hu' Hij.
    do 2 (destruct i as [|i]; [injection Hi as <-;
      do 2 (destruct j as [|j]; [injection Hj as <-; (lia || done || (simpl; lia))|]); done|]).
    done.
Qed.

Lemma pc_one_bank : one_bank pc_map [MmapEntry 0 0x100000 2] [] (MmapEntry 0x100000 0x3f00000 1).
Proof.
  assert (find_highest pc_map 0 = 0x4000000) as Hh by reflexivity.
  assert (map_bytes pc_map = 4096) as Hb by (by vm_compute).
  split; [exact pc_map_ok|reflexivity|split; [reflexivity|by repeat constructor]|reflexivity|..];
    rewrite ?Hh, ?Hb; [lia|cbn [e_length]; lia|]. by vm_compute.
Qed.
