(* ===== verification/BumpFrames.v ===== *)
(** * A frame allocator that counts upwards

    A second instance of the interface of [Frames]: the next frame is always
    the successor of the last.  It has frames enough for [vmm_initialize], whose
    theorem is applied here to a machine with memory above 4 GiB. *)

From S2P Require Import Prelude CInt Mem Arch Boot Frames Vmm.

(** The page of address [p], cleared. *)
Definition zero_page (m : mem) (p : Z) : mem :=
  gset_to_gmap 0 (list_to_set (seqZ p PAGE_SIZE)) ∪ m.

(** The state is the next frame's number. *)
#[global] Instance bump_frames : FrameAlloc Z := {
  alloc_zero m n :=
    if n <? 2 ^ 34 then Done (n * PAGE_SIZE, (zero_page m (n * PAGE_SIZE), n + 1))
    else Done (0, (m, n));
  fa_inv n := 0 < n;
  in_use n f := f < n;
  available k _ n := n + Z.of_nat k ≤ 2 ^ 34;
}.

Lemma zero_page_overwritten m p :
  overwritten m (zero_page m p) p PAGE_SIZE (λ _, Some 0).
Proof.
  intros a. unfold zero_page. case_bool_decide as Ha.
  - apply lookup_union_Some_l, lookup_gset_to_gmap_Some. split; [|done].
    apply elem_of_list_to_set, elem_of_seqZ. lia.
  - apply lookup_union_r, lookup_gset_to_gmap_None.
    rewrite elem_of_list_to_set, elem_of_seqZ. lia.
Qed.

#[global] Instance bump_frames_laws : FrameAllocLaws Z.
Proof.
  split; unfold fa_inv, in_use, available, alloc_zero, bump_frames.
  - intros m s p m' s' Hs Hr Hp.
    destruct (Z.ltb_spec s (2 ^ 34)) in Hr; apply Done_triple_inj in Hr as (<- & <- & <-); [|congruence].
    rewrite Z.div_mul by done. unfold PAGE_SIZE in *.
    split_and!; [lia|by apply Z.mod_mul|lia|lia|lia|lia|exact (zero_page_overwritten _ _)].
  - intros n m s Hs Hav. destruct (Z.ltb_spec s (2 ^ 34)); [|lia].
    exists (s * PAGE_SIZE), (zero_page m (s * PAGE_SIZE)), (s + 1).
    split; [reflexivity|]. unfold PAGE_SIZE. lia.
  - intros. lia.
  - intros. lia.
Qed.

(** A machine with 1 GiB of RAM at 4 GiB: none of it is in the I/O window. *)
Definition high_ram : list mmap_entry := [MmapEntry (2 ^ 32) (2 ^ 30) STIVALE2_MMAP_USABLE].
Definition empty_vmm : vmm Z := Vmm ∅ 16 false [] 0.

Lemma high_ram_tables : total_tables high_ram = 512%nat.
Proof. by vm_compute. Qed.

Lemma vmm_initialize_correct_witness :
  ∃ root st', vmm_initialize high_ram empty_vmm = Done (root, st') ∧
    translate (ram st') root (MMAP_KERNEL_BASE + 1 * PAGE_SIZE) = Some (1 * PAGE_SIZE + 3) ∧
    translate (ram st') root (MMAP_IO_BASE + 2 ^ 20 * PAGE_SIZE) = None.
Proof.
  destruct (vmm_initialize_correct empty_vmm high_ram) as (root & st' & Hr & _ & _ & _ & Hkm).
  - simpl. lia.
  - reflexivity.
  - intros e ->%list_elem_of_singleton. simpl. lia.
  - rewrite high_ram_tables. unfold available, bump_frames, empty_vmm, frames. lia.
  - exists root, st'. split; [exact Hr|]. split; [apply (km_kernel _ _ _ Hkm); lia|].
    apply (km_none _ _ _ Hkm). split; [|lia]. by vm_compute.
Defined.
