(* ===== verification/Pages.v ===== *)
(** * What the heap asks of the page allocator

    [liballoc_alloc] and [liballoc_free] ([src/src/kernel/main.c]) as
    [src/src/lib/alloc.c] uses them: runs of pages, handed out and taken back as
    a unit. *)

From S2P Require Import Prelude CInt Mem Arch Frames.

Class PageSource (P : Type) : Type := {
  liballoc_alloc : Z → mem → P → res (Z * (mem * P));
  liballoc_free : Z → Z → P → res P;
  (** The run of [n] pages at [p] is handed out. *)
  region : P → Z → Z → Prop;
  pages_ok : P → Prop;
  (** [k] more requests of at most [l_pageCount] pages can be met. *)
  pages_room : nat → P → Prop;
  (** Memory that is not theirs to hand out. *)
  reserved : Z → Prop;
}.

Definition disjoint_range (a n b k : Z) : Prop := a + n ≤ b ∨ b + k ≤ a.

Class PageSourceLaws (P : Type) `{PageSource P} : Prop := {
  (** A call returns; what it hands out is mapped, and disjoint from all runs
      handed out before, whose memory it does not touch. *)
  alloc_pages_spec n m (s : P) :
    pages_ok s → 0 < n < 2 ^ 20 →
    ∃ p m' s', liballoc_alloc n m s = Done (p, (m', s')) ∧ pages_ok s' ∧
      (p = 0 ∧ m' = m ∧ (∀ q k, region s' q k ↔ region s q k) ∨
       0 < p ∧ mapped m' p (n * PAGE_SIZE) ∧ dom_grows m m' ∧ (bytes_ok m → bytes_ok m') ∧
       (∀ q k, region s q k → disjoint_range p (n * PAGE_SIZE) q (k * PAGE_SIZE)) ∧
       (∀ a, ¬ (p ≤ a < p + n * PAGE_SIZE) → m' !! a = m !! a) ∧
       (∀ q k, region s' q k ↔ region s q k ∨ q = p ∧ k = n));
  free_pages_spec p n (s : P) :
    pages_ok s → region s p n →
    ∃ s', liballoc_free p n s = Done s' ∧ pages_ok s' ∧
      ∀ q k, region s' q k ↔ region s q k ∧ q ≠ p;
  region_disjoint p n q k (s : P) :
    pages_ok s → region s p n → region s q k → p ≠ q →
    disjoint_range p (n * PAGE_SIZE) q (k * PAGE_SIZE);
  region_reserved p n a (s : P) :
    pages_ok s → region s p n → reserved (P := P) a → ¬ (p ≤ a < p + n * PAGE_SIZE);
  region_once p n k (s : P) : pages_ok s → region s p n → region s p k → n = k;
  region_size p n (s : P) :
    pages_ok s → region s p n → 0 < p ∧ 0 < n < 2 ^ 20 ∧ p + n * PAGE_SIZE < 2 ^ 64;
  pages_room_law k n m (s : P) p m' s' :
    pages_ok s → pages_room (S k) s → 0 < n ≤ 16 →
    liballoc_alloc n m s = Done (p, (m', s')) → p ≠ 0 ∧ pages_room k s';
  pages_room_less k (s : P) : pages_room (S k) s → pages_room k s;
}.

(** What is handed out is cleared. *)
Class ZeroPages (P : Type) `{PageSource P} : Prop :=
  alloc_pages_zero n m (s : P) p m' s' a :
    pages_ok s → 0 < n < 2 ^ 20 → liballoc_alloc n m s = Done (p, (m', s')) → p ≠ 0 →
    p ≤ a < p + n * PAGE_SIZE → m' !! a = Some 0.
