(* ===== verification/Alloc.v ===== *)
(** * The heap: the code ([src/src/lib/alloc.c])

    Boundary tags are records in a store of their own, indexed by address; the
    bytes a client sees are the [mem] beside it.  When two neighbours are merged
    the tag between them stops being one: it leaves the store, and touching it
    again is a [Fault].  [junk] is the content of the field, [size] of a split-off
    tag, that the code leaves uninitialised (so it does [index], which
    [insert_tag] sets before anything reads it). *)

From S2P Require Import Prelude CInt Mem Lock Arch Pages.

Definition LIBALLOC_MAGIC : Z := 0xc001c0de.
Definition MAXCOMPLETE : Z := 5.
Definition MAXEXP : Z := 32.
Definition MINEXP : Z := 8.
Definition MODE : Z := 0.
Definition l_pageSize : Z := 4096.
Definition l_pageCount : Z := 16.

(** The fields in the order of [struct boundary_tag]; 0 is NULL. *)
Record boundary_tag : Type := BTag {
  magic : Z; size : Z; real_size : Z; index : Z;
  split_left : Z; split_right : Z; next : Z; prev : Z;
}.
Definition sizeof_tag : Z := 48.

Definition set_size (n : Z) (t : boundary_tag) : boundary_tag :=
  BTag (magic t) n (real_size t) (index t) (split_left t) (split_right t) (next t) (prev t).
Definition set_real_size (n : Z) (t : boundary_tag) : boundary_tag :=
  BTag (magic t) (size t) n (index t) (split_left t) (split_right t) (next t) (prev t).
Definition set_index (n : Z) (t : boundary_tag) : boundary_tag :=
  BTag (magic t) (size t) (real_size t) n (split_left t) (split_right t) (next t) (prev t).
Definition set_split_left (p : Z) (t : boundary_tag) : boundary_tag :=
  BTag (magic t) (size t) (real_size t) (index t) p (split_right t) (next t) (prev t).
Definition set_split_right (p : Z) (t : boundary_tag) : boundary_tag :=
  BTag (magic t) (size t) (real_size t) (index t) (split_left t) p (next t) (prev t).
Definition set_next (p : Z) (t : boundary_tag) : boundary_tag :=
  BTag (magic t) (size t) (real_size t) (index t) (split_left t) (split_right t) p (prev t).
Definition set_prev (p : Z) (t : boundary_tag) : boundary_tag :=
  BTag (magic t) (size t) (real_size t) (index t) (split_left t) (split_right t) (next t) p.

(** [2^n <= size < 2^(n+1)], says its comment; -1 below [2^MINEXP].  The shift
    is an [int]'s: at 31 it is negative, and as a [size_t] larger than any size. *)
Definition getexp (sz : Z) : res Z :=
  if sz <? 2 ^ MINEXP then Done (-1)
  else
    while_loop 32 (λ shift,
      Done (if shift <? MAXEXP
            then if sz <? u64 (i32 (Z.shiftl 1 shift)) then inr (i32 (shift - 1))
                 else inl (shift + 1)
            else inr (i32 (shift - 1)))) MINEXP.

(** [size_t] arithmetic on the [unsigned] field: [tag->real_size - sizeof]. *)
Definition payload (t : boundary_tag) : Z := u64 (real_size t - sizeof_tag).

Section alloc.
Context {P : Type} `{PageSource P} (junk : Z).

Record heap : Type := MkHeap {
  tags : gmap Z boundary_tag;
  l_freePages : list Z;
  l_completePages : list Z;
  l_initialized : bool;
  llock : bool;
  pages : P;
}.
Implicit Types (h : heap).

Definition set_tags h (ts : gmap Z boundary_tag) : heap :=
  MkHeap ts (l_freePages h) (l_completePages h) (l_initialized h) (llock h) (pages h).
Definition set_free h (l : list Z) : heap :=
  MkHeap (tags h) l (l_completePages h) (l_initialized h) (llock h) (pages h).
Definition set_complete h (l : list Z) : heap :=
  MkHeap (tags h) (l_freePages h) l (l_initialized h) (llock h) (pages h).
Definition set_initialized h (b : bool) : heap :=
  MkHeap (tags h) (l_freePages h) (l_completePages h) b (llock h) (pages h).
Definition set_llock h (b : bool) : heap :=
  MkHeap (tags h) (l_freePages h) (l_completePages h) (l_initialized h) b (pages h).
Definition set_pages h (p : P) : heap :=
  MkHeap (tags h) (l_freePages h) (l_completePages h) (l_initialized h) (llock h) p.

(** [*tag], and [tag->field = ...]. *)
Definition tag_at h (a : Z) : res boundary_tag := of_option (tags h !! a).
Definition upd (a : Z) (f : boundary_tag → boundary_tag) h : res heap :=
  t ← tag_at h a; Done (set_tags h (<[a := f t]> (tags h))).
(** [if (p != NULL) p->field = ...]. *)
Definition upd_if (a : Z) (f : boundary_tag → boundary_tag) h : res heap :=
  if negb (a =? 0) then upd a f h else Done h.

Definition get_free h (i : Z) : res Z := of_option (l_freePages h !!z i).
Definition put_free h (i a : Z) : res heap :=
  _ ← get_free h i; Done (set_free h (<[i :=z a]> (l_freePages h))).
Definition get_complete h (i : Z) : res Z := of_option (l_completePages h !!z i).
Definition put_complete h (i n : Z) : res heap :=
  _ ← get_complete h i; Done (set_complete h (<[i :=z n]> (l_completePages h))).

(** The list index for a payload: [getexp], at least [MINEXP]. *)
Definition list_index (sz : Z) : res Z :=
  e ← getexp sz; Done (if e <? MINEXP then MINEXP else e).

Definition insert_tag (tag idx : Z) h : res heap :=
  realIndex ← (if idx <? 0 then t ← tag_at h tag; list_index (payload t) else Done idx);
  h ← upd tag (set_index realIndex) h;
  head ← get_free h realIndex;
  h ← (if negb (head =? 0)
       then h ← upd head (set_prev tag) h; upd tag (set_next head) h
       else Done h);
  put_free h realIndex tag.

Definition remove_tag (tag : Z) h : res heap :=
  t ← tag_at h tag;
  head ← get_free h (index t);
  h ← (if head =? tag then put_free h (index t) (next t) else Done h);
  t ← tag_at h tag;
  h ← upd_if (prev t) (set_next (next t)) h;
  t ← tag_at h tag;
  h ← upd_if (next t) (set_prev (prev t)) h;
  h ← upd tag (set_next 0) h;
  h ← upd tag (set_prev 0) h;
  upd tag (set_index (-1)) h.

(** The melted tag leaves the store. *)
Definition melt_left (tag : Z) h : res (Z * heap) :=
  t ← tag_at h tag;
  let left := split_left t in
  l ← tag_at h left;
  h ← upd left (set_real_size (u32 (real_size l + real_size t))) h;
  h ← upd left (set_split_right (split_right t)) h;
  h ← upd_if (split_right t) (set_split_left left) h;
  Done (left, set_tags h (delete tag (tags h))).

Definition absorb_right (tag : Z) h : res (Z * heap) :=
  t ← tag_at h tag;
  let right := split_right t in
  h ← remove_tag right h;
  t ← tag_at h tag;
  r ← tag_at h right;
  h ← upd tag (set_real_size (u32 (real_size t + real_size r))) h;
  h ← upd tag (set_split_right (split_right r)) h;
  h ← upd_if (split_right r) (set_split_left tag) h;
  Done (tag, set_tags h (delete right (tags h))).

Definition split_tag (tag : Z) h : res (Z * heap) :=
  t ← tag_at h tag;
  let remainder := u32 (real_size t - sizeof_tag - size t) in
  let new_tag := u64 (tag + sizeof_tag + size t) in
  let h := set_tags h (<[new_tag :=
    BTag LIBALLOC_MAGIC junk remainder (-1) tag (split_right t) 0 0]> (tags h)) in
  h ← upd_if (split_right t) (set_split_left new_tag) h;
  h ← upd tag (set_split_right new_tag) h;
  t ← tag_at h tag;
  h ← upd tag (set_real_size (u32 (real_size t - remainder))) h;
  h ← insert_tag new_tag (-1) h;
  Done (new_tag, h).

(** [unsigned int size]; NULL when there are no pages. *)
Definition allocate_new_tag (sz : Z) (m : mem) h : res (Z * (mem * heap)) :=
  let usage := u32 (sz + sizeof_tag) in
  let pgs := usage / l_pageSize in
  let pgs := if negb (usage mod l_pageSize =? 0) then pgs + 1 else pgs in
  let pgs := if i32 pgs <? l_pageCount then l_pageCount else pgs in
  '(tag, (m, p)) ← liballoc_alloc (i32 pgs) m (pages h);
  let h := set_pages h p in
  if tag =? 0 then Done (0, (m, h))
  else
    Done (tag, (m, set_tags h (<[tag :=
      BTag LIBALLOC_MAGIC sz (u32 (pgs * l_pageSize)) (-1) 0 0 0 0]> (tags h)))).

(** The search of [malloc] along one free list: the tag found, or NULL. *)
Definition find_tag (fuel : nat) (sz : Z) h (tag : Z) : res Z :=
  while_loop fuel (λ tag,
    if negb (tag =? 0) then
      t ← tag_at h tag;
      Done (if u64 (sz + sizeof_tag) <=? payload t then inr tag else inl (next t))
    else Done (inr 0)) tag.

Definition malloc_init h : heap :=
  if negb (l_initialized h)
  then set_initialized (set_complete (set_free h (replicate 32 0)) (replicate 32 0)) true
  else h.

(** From the tag found on: [tag->size = size] and the split. *)
Definition malloc_cut (sz tag : Z) h : res heap :=
  h ← upd tag (set_size (u32 sz)) h;
  t ← tag_at h tag;
  let remainder := u32 (real_size t - sz - sizeof_tag * 2) in
  if 0 <? i32 remainder then
    childIndex ← getexp remainder;
    if 0 <=? childIndex then '(_, h) ← split_tag tag h; Done h else Done h
  else Done h.

(** The block [malloc] works on: found in list [idx], or new.  The [getexp] of
    a new block's payload is left out: only debugging output reads it. *)
Definition malloc_fetch (sz idx tag : Z) (m : mem) h : res (Z * (mem * heap)) :=
  if tag =? 0 then allocate_new_tag (u32 sz) m h
  else
    h ← remove_tag tag h;
    t ← tag_at h tag;
    h ← (if (split_left t =? 0) && (split_right t =? 0)
         then n ← get_complete h idx; put_complete h idx (i32 (n - 1))
         else Done h);
    Done (tag, (m, h)).

Definition malloc (sz : Z) (m : mem) h : res (Z * (mem * heap)) :=
  l ← spin_lock (llock h);
  let h := malloc_init (set_llock h l) in
  e ← getexp sz;
  let idx := if e + MODE <? MINEXP then MINEXP else e + MODE in
  head ← get_free h idx;
  tag ← find_tag (S (base.size (tags h))) sz h head;
  '(tag, (m, h)) ← malloc_fetch sz idx tag m h;
  if tag =? 0 then Done (0, (m, set_llock h (spin_release (llock h))))
  else
    h ← malloc_cut sz tag h;
    Done (u64 (tag + sizeof_tag), (m, set_llock h (spin_release (llock h)))).

(** The two melting loops of [free]. *)
Definition melt_lefts (fuel : nat) (tag : Z) h : res (Z * heap) :=
  while_loop fuel (λ '(tag, h),
    t ← tag_at h tag;
    if negb (split_left t =? 0) then
      l ← tag_at h (split_left t);
      if 0 <=? index l then
        '(tag, h) ← melt_left tag h;
        h ← remove_tag tag h;
        Done (inl (tag, h))
      else Done (inr (tag, h))
    else Done (inr (tag, h))) (tag, h).

Definition melt_rights (fuel : nat) (tag : Z) h : res (Z * heap) :=
  while_loop fuel (λ '(tag, h),
    t ← tag_at h tag;
    if negb (split_right t =? 0) then
      r ← tag_at h (split_right t);
      if 0 <=? index r then
        '(tag, h) ← absorb_right tag h; Done (inl (tag, h))
      else Done (inr (tag, h))
    else Done (inr (tag, h))) (tag, h).

(** Handing a whole block back to the pages. *)
Definition release (tag : Z) h : res heap :=
  t ← tag_at h tag;
  let pgs := real_size t / l_pageSize in
  let pgs := if negb (real_size t mod l_pageSize =? 0) then pgs + 1 else pgs in
  let pgs := if i32 pgs <? l_pageCount then l_pageCount else pgs in
  p ← liballoc_free tag (i32 pgs) (pages h);
  Done (set_tags (set_pages h p) (delete tag (tags h))).

Definition free (ptr : Z) h : res heap :=
  if ptr =? 0 then Done h
  else
    l ← spin_lock (llock h);
    let h := set_llock h l in
    let tag := u64 (ptr - sizeof_tag) in
    t ← tag_at h tag;
    if negb (magic t =? LIBALLOC_MAGIC) then Done (set_llock h (spin_release (llock h)))
    else
      '(tag, h) ← melt_lefts (S (base.size (tags h))) tag h;
      '(tag, h) ← melt_rights (S (base.size (tags h))) tag h;
      t ← tag_at h tag;
      idx ← list_index (payload t);
      if (split_left t =? 0) && (split_right t =? 0) then
        n ← get_complete h idx;
        if n =? MAXCOMPLETE then
          h ← release tag h;
          Done (set_llock h (spin_release (llock h)))
        else
          h ← put_complete h idx (i32 (n + 1));
          h ← insert_tag tag idx h;
          Done (set_llock h (spin_release (llock h)))
      else
        h ← insert_tag tag idx h;
        Done (set_llock h (spin_release (llock h))).

Definition calloc (nobj sz : Z) (m : mem) h : res (Z * (mem * heap)) :=
  let real_size := i32 (nobj * sz) in
  '(p, (m, h)) ← malloc (u64 real_size) m h;
  m ← liballoc_memset m p 0 (u64 real_size);
  Done (p, (m, h)).

Definition realloc (p sz : Z) (m : mem) h : res (Z * (mem * heap)) :=
  if sz =? 0 then h ← free p h; Done (0, (m, h))
  else if p =? 0 then malloc sz m h
  else
    l ← spin_lock (llock h);
    let h := set_llock h l in
    t ← tag_at h (u64 (p - sizeof_tag));
    let h := set_llock h (spin_release (llock h)) in
    let real_size := i32 (size t) in
    let real_size := if i32 sz <? real_size then i32 sz else real_size in
    '(ptr, (m, h)) ← malloc sz m h;
    m ← liballoc_memcpy m ptr p (u64 real_size);
    h ← free p h;
    Done (ptr, (m, h)).
End alloc.
Arguments heap _ : clear implicits.
Arguments MkHeap {_} _ _ _ _ _ _.

(** ** The tags in memory

    The tags are kept apart from the bytes, which is what the code amounts to as long
    as nobody writes outside of the blocks.  For a write that does, the layout of
    [struct boundary_tag], and the tags as they are read back after it. *)

Definition tag_bytes (t : boundary_tag) : list Z :=
  le_bytes 4 (magic t) ++ le_bytes 4 (size t) ++ le_bytes 4 (real_size t) ++ le_bytes 4 (u32 (index t)) ++
  le_bytes 8 (split_left t) ++ le_bytes 8 (split_right t) ++ le_bytes 8 (next t) ++ le_bytes 8 (prev t).
Definition tag_of_bytes (l : list Z) : boundary_tag :=
  let field i n := of_bytes (take n (drop i l)) in
  BTag (field 0%nat 4%nat) (field 4%nat 4%nat) (field 8%nat 4%nat) (i32 (field 12%nat 4%nat))
    (field 16%nat 8%nat) (field 24%nat 8%nat) (field 32%nat 8%nat) (field 40%nat 8%nat).

(** The tag at [x] after the bytes [bs] were stored from [a] on. *)
Definition tag_written (a : Z) (bs : list Z) (x : Z) (t : boundary_tag) : boundary_tag :=
  if bool_decide (a < x + sizeof_tag ∧ x < a + length_z bs)
  then tag_of_bytes (imap (λ i b, default b (bs !!z (x + Z.of_nat i - a))) (tag_bytes t))
  else t.
Definition tags_written {P} (a : Z) (bs : list Z) (h : heap P) : heap P :=
  set_tags h (map_imap (λ x t, Some (tag_written a bs x t)) (tags h)).

(** No tag lies in the [n] bytes from [a] on. *)
Definition no_tag_in {P} (h : heap P) (a n : Z) : Prop :=
  ∀ x, is_Some (tags h !! x) → x + sizeof_tag ≤ a ∨ a + n ≤ x.

Lemma tags_written_outside {P} (h : heap P) a bs :
  no_tag_in h a (length_z bs) → tags_written a bs h = h.
Proof.
  intros Ha. unfold tags_written. replace (map_imap _ (tags h)) with (tags h); [by destruct h|].
  apply map_eq. intros x. rewrite map_lookup_imap. destruct (tags h !! x) as [t|] eqn:Ht; [|done].
  cbn. unfold tag_written. destruct (Ha x) as [?|?]; [by eexists|..]; by rewrite bool_decide_false by lia.
Qed.

Record tag_fields_ok (t : boundary_tag) : Prop := TagFieldsOk {
  tf_words : is_u32 (magic t) ∧ is_u32 (size t) ∧ is_u32 (real_size t) ∧ is_i32 (index t);
  tf_pointers : is_u64 (split_left t) ∧ is_u64 (split_right t) ∧ is_u64 (next t) ∧ is_u64 (prev t);
}.

(** Reading back what was laid out. *)
Lemma tag_of_tag_bytes t : tag_fields_ok t → tag_of_bytes (tag_bytes t) = t.
Proof.
  intros [(H1 & H2 & H3 & H4) (H5 & H6 & H7 & H8)]. 
  change (BTag (of_bytes (le_bytes 4 (magic t))) (of_bytes (le_bytes 4 (size t)))
    (of_bytes (le_bytes 4 (real_size t))) (i32 (of_bytes (le_bytes 4 (u32 (index t)))))
    (of_bytes (le_bytes 8 (split_left t))) (of_bytes (le_bytes 8 (split_right t)))
    (of_bytes (le_bytes 8 (next t))) (of_bytes (le_bytes 8 (prev t))) = t).
  rewrite !of_le_bytes. change (256 ^ Z.of_nat 4) with (2 ^ 32). change (256 ^ Z.of_nat 8) with (2 ^ 64).
  unfold is_u32, is_u64, is_i32 in *. rewrite !(Z.mod_small (_ t)) by lia.
  assert (i32 (u32 (index t) mod 2 ^ 32) = index t) as ->; [|by destruct t].
  unfold i32, u32. rewrite Z.mod_mod, Zplus_mod_idemp_l, Z.mod_small by lia. lia.
Qed.

(** ** [getexp] *)

Lemma getexp_loop fuel sz shift :
  0 ≤ sz < 2 ^ 64 - 2 ^ 31 → 8 ≤ shift ≤ 31 → 2 ^ shift ≤ 2 * sz ∨ shift = 8 → 2 ^ 8 ≤ sz →
  (shift < 31 ∨ 2 ^ 30 ≤ sz) → (Z.to_nat (31 - shift) < fuel)%nat →
  while_loop fuel (λ shift,
    Done (if shift <? MAXEXP
          then if sz <? u64 (i32 (Z.shiftl 1 shift)) then inr (i32 (shift - 1))
               else inl (shift + 1)
          else inr (i32 (shift - 1)))) shift = Done (Z.min 30 (Z.log2 sz)).
Proof.
  revert shift. induction fuel as [|fuel IH]; intros shift Hsz Hs Hlow H8 H31 Hf; [lia|].
  cbn [while_loop]. unfold MAXEXP in *. destruct (Z.ltb_spec shift 32); [|lia].
  rewrite Z.shiftl_1_l. destruct (decide (shift = 31)) as [->|Hne].
  - change (u64 (i32 (2 ^ 31))) with (2 ^ 64 - 2 ^ 31).
    destruct (Z.ltb_spec sz (2 ^ 64 - 2 ^ 31)); [|lia]. cbn [mbind res_bind].
    rewrite i32_id by (simpl; lia). f_equal.
    assert (30 ≤ Z.log2 sz) by (apply Z.log2_le_pow2; lia). lia.
  - assert (2 ^ shift ≤ 2 ^ 30) by (apply Z.pow_le_mono_r; lia).
    pose proof (Z.pow_pos_nonneg 2 shift ltac:(lia) ltac:(lia)).
    rewrite i32_id, u64_id by (simpl in *; lia).
    destruct (Z.ltb_spec sz (2 ^ shift)); cbn [mbind res_bind].
    + rewrite i32_id by (simpl; lia). f_equal.
      destruct Hlow as [Hlow| ->]; [|lia].
      assert (Z.log2 sz = shift - 1) as ->; [|lia].
      apply Z.log2_unique; [lia|].
      replace (Z.succ (shift - 1)) with shift by lia. split; [|done].
      replace shift with (Z.succ (shift - 1)) in Hlow by lia.
      rewrite Z.pow_succ_r in Hlow by lia. lia.
    + apply IH; try lia.
      * left. rewrite Z.pow_add_r by lia. lia.
      * destruct (decide (shift = 30)) as [->|]; [right; lia|left; lia].
Qed.

Lemma getexp_spec sz :
  0 ≤ sz < 2 ^ 64 - 2 ^ 31 →
  getexp sz = Done (if sz <? 256 then -1 else Z.min 30 (Z.log2 sz)).
Proof.
  intros Hsz. unfold getexp, MINEXP. change (2 ^ 8) with 256.
  destruct (Z.ltb_spec sz 256); [done|].
  apply getexp_loop; lia.
Qed.

Lemma list_index_spec sz :
  0 ≤ sz < 2 ^ 63 → ∃ i, list_index sz = Done i ∧ 8 ≤ i ≤ 30.
Proof.
  intros Hsz. unfold list_index. rewrite getexp_spec by lia. cbn [mbind res_bind].
  unfold MINEXP. destruct (Z.ltb_spec sz 256); [exists 8; by split|].
  assert (8 ≤ Z.log2 sz) by (apply Z.log2_le_pow2; lia).
  destruct (Z.ltb_spec (Z.min 30 (Z.log2 sz)) 8); eexists; split; [done|lia|done|lia].
Qed.

(** On the last [2^31] sizes the loop runs to its end. *)
Lemma getexp_high sz : 2 ^ 64 - 2 ^ 31 ≤ sz < 2 ^ 64 → getexp sz = Done 31.
Proof.
  intros Hsz. unfold getexp, MINEXP. destruct (Z.ltb_spec sz (2 ^ 8)); [lia|].
  enough (∀ fuel shift, 8 ≤ shift ≤ 32 → 32 < shift + Z.of_nat fuel →
    while_loop fuel (λ shift,
      Done (if shift <? MAXEXP
            then if sz <? u64 (i32 (Z.shiftl 1 shift)) then inr (i32 (shift - 1))
                 else inl (shift + 1)
            else inr (i32 (shift - 1)))) shift = Done 31) as Hloop by (apply Hloop; lia).
  induction fuel as [|fuel IH]; intros shift H8 Hf; [lia|]. cbn [while_loop]. unfold MAXEXP in *.
  destruct (Z.ltb_spec shift 32); [|by replace shift with 32 by lia].
  rewrite Z.shiftl_1_l. assert (u64 (i32 (2 ^ shift)) ≤ 2 ^ 64 - 2 ^ 31) as Hle.
  { destruct (decide (shift = 31)) as [->|]; [done|].
    assert (2 ^ shift ≤ 2 ^ 30) by (apply Z.pow_le_mono_r; lia).
    pose proof (Z.pow_pos_nonneg 2 shift ltac:(lia) ltac:(lia)).
    rewrite i32_id, u64_id by (simpl in *; lia). lia. }
  rewrite (proj2 (Z.ltb_ge sz _)) by lia. cbn [mbind res_bind]. apply IH; lia.
Qed.

(** C39: the comment on [getexp] promises [2^n <= size < 2^(n+1)]; that
    holds from [2^8] to below [2^31].  Above, the shift has reached the sign bit of
    [int]: the answer is 30 up to [2^64 - 2^31] and 31 for the sizes from there on. *)
Theorem getexp_exponent (sz : Z) (Hsz : is_u64 sz) :
  (sz < 2 ^ 8 → getexp sz = Done (-1)) ∧
  (2 ^ 8 ≤ sz < 2 ^ 31 → ∃ n, getexp sz = Done n ∧ 2 ^ n ≤ sz < 2 ^ (n + 1)) ∧
  (2 ^ 31 ≤ sz < 2 ^ 64 - 2 ^ 31 → getexp sz = Done 30) ∧
  (2 ^ 64 - 2 ^ 31 ≤ sz → getexp sz = Done 31).
Proof.
  unfold is_u64 in Hsz. split; [|split; [|split]].
  - intros Hs. rewrite getexp_spec, (proj2 (Z.ltb_lt _ _)) by lia. done.
  - intros Hs. rewrite getexp_spec, (proj2 (Z.ltb_ge sz 256)) by lia. exists (Z.log2 sz).
    assert (Z.log2 sz < 31) by (apply Z.log2_lt_pow2; lia).
    rewrite Z.min_r by lia. split; [done|]. apply Z.log2_spec. lia.
  - intros Hs. rewrite getexp_spec, (proj2 (Z.ltb_ge sz 256)) by lia.
    assert (31 ≤ Z.log2 sz) by (apply Z.log2_le_pow2; lia). by rewrite Z.min_l by lia.
  - intros Hs. apply getexp_high. lia.
Qed.

Lemma getexp_exponent_witness : ∃ n, getexp 4000 = Done n ∧ 2 ^ n ≤ 4000 < 2 ^ (n + 1).
Proof. apply (getexp_exponent 4000); [by split|lia]. Defined.
