(* ===== verification/AllocInv.v ===== *)
(** * The heap: its invariant

    Blocks tile the runs of pages, the free lists are doubly linked and no two
    free blocks are neighbours; the list operations, the search and the melting
    of free neighbours keep it so. *)

From S2P Require Import Prelude CInt Mem Lock Arch Frames Pages Alloc.

(** What list operations leave alone, and what merging and splitting do. *)
Definition geo_of (t : boundary_tag) : Z * Z * Z * Z * Z :=
  (magic t, size t, real_size t, split_left t, split_right t).
Definition links_of (t : boundary_tag) : Z * Z * Z := (index t, next t, prev t).

Section invariant.
Context {P : Type} `{PageSourceLaws P}.
Implicit Types (h : heap P) (m : mem) (t u : boundary_tag).

(** A run the heap asked for. *)
Definition hregion (s : P) (p n : Z) : Prop := region s p n ∧ l_pageCount ≤ n.

(** The blocks tile the page runs: each lies in a run, touches its ends exactly
    when it has no neighbour there, and ends where its right neighbour starts. *)
Record geo (m : mem) (h : heap P) : Prop := Geo {
  g_tag a t : tags h !! a = Some t →
    magic t = LIBALLOC_MAGIC ∧ sizeof_tag ≤ real_size t ∧ mapped m a (real_size t);
  g_disjoint a b t u : tags h !! a = Some t → tags h !! b = Some u → a ≠ b →
    disjoint_range a (real_size t) b (real_size u);
  g_right a t : tags h !! a = Some t → split_right t ≠ 0 →
    split_right t = a + real_size t ∧
    ∃ u, tags h !! split_right t = Some u ∧ split_left u = a;
  g_left a t : tags h !! a = Some t → split_left t ≠ 0 →
    ∃ u, tags h !! split_left t = Some u ∧ split_right u = a;
  g_region a t : tags h !! a = Some t → ∃ p n, hregion (pages h) p n ∧
    p ≤ a ∧ a + real_size t ≤ p + n * PAGE_SIZE ∧
    (split_left t = 0 ↔ a = p) ∧ (split_right t = 0 ↔ a + real_size t = p + n * PAGE_SIZE);
  g_pages : pages_ok (pages h);
}.

(** The free lists: doubly linked, by index. *)
Record dll (h : heap P) : Prop := Dll {
  d_length : length_z (l_freePages h) = 32;
  d_index a t : tags h !! a = Some t → index t = -1 ∨ 8 ≤ index t ≤ 31;
  d_out a t : tags h !! a = Some t → index t = -1 → next t = 0 ∧ prev t = 0;
  d_prev a t : tags h !! a = Some t → index t ≠ -1 → prev t ≠ 0 →
    ∃ u, tags h !! prev t = Some u ∧ index u = index t ∧ next u = a;
  d_first a t : tags h !! a = Some t → index t ≠ -1 → prev t = 0 →
    l_freePages h !!z index t = Some a;
  d_next a t : tags h !! a = Some t → index t ≠ -1 → next t ≠ 0 →
    ∃ u, tags h !! next t = Some u ∧ index u = index t ∧ prev u = a;
  d_head i a : l_freePages h !!z i = Some a → a ≠ 0 →
    ∃ u, tags h !! a = Some u ∧ index u = i ∧ prev u = 0;
}.

(** No two free blocks are neighbours. *)
Definition coalesced (h : heap P) : Prop :=
  ∀ a t b u, tags h !! a = Some t → tags h !! b = Some u → index t ≠ -1 →
    b = split_left t ∨ b = split_right t → index u = -1.

(** Block [a] of [n] bytes is in use; the block [cur] an operation works on is
    not counted. *)
Definition live_but (cur : Z) (h : heap P) (a n : Z) : Prop :=
  ∃ t, tags h !! a = Some t ∧ index t = -1 ∧ size t = n ∧ a ≠ cur.

Definition fits_all (cur : Z) (h : heap P) : Prop :=
  ∀ a t, tags h !! a = Some t → index t = -1 → a ≠ cur →
    0 ≤ size t ∧ size t + sizeof_tag ≤ real_size t.

Record hinv (cur : Z) (m : mem) (h : heap P) : Prop := Hinv {
  hv_geo : geo m h;
  hv_dll : dll h;
  hv_coalesced : coalesced h;
  hv_fits : fits_all cur h;
  hv_complete : length_z (l_completePages h) = 32;
  hv_init : l_initialized h = true;
}.

(** The list operations change links and one index, nothing else. *)
Record relink (a i : Z) (h h' : heap P) : Prop := Relink {
  rl_pages : pages h' = pages h;
  rl_complete : l_completePages h' = l_completePages h;
  rl_init : l_initialized h' = l_initialized h;
  rl_lock : llock h' = llock h;
  rl_geo x : geo_of <$> tags h' !! x = geo_of <$> tags h !! x;
  rl_index x t t' : tags h !! x = Some t → tags h' !! x = Some t' →
    index t' = if decide (x = a) then i else index t;
}.

Lemma geo_lookup h h' x t' :
  (∀ x, geo_of <$> tags h' !! x = geo_of <$> tags h !! x) → tags h' !! x = Some t' →
  ∃ t, tags h !! x = Some t ∧ geo_of t' = geo_of t.
Proof.
  intros Hg Hx. specialize (Hg x). rewrite Hx in Hg.
  destruct (tags h !! x) as [t|]; [|done]. exists t. split; [done|]. by apply (inj Some) in Hg.
Qed.

Lemma geo_relink m a i h h' : relink a i h h' → geo m h → geo m h'.
Proof.
  intros Hr [H1 H2 H3 H4 H5 H6]. pose proof (rl_geo _ _ _ _ Hr) as Hg.
  assert (∀ x t, tags h !! x = Some t → ∃ t', tags h' !! x = Some t' ∧ geo_of t' = geo_of t) as Hback.
  { intros x t Hx. specialize (Hg x). rewrite Hx in Hg.
    destruct (tags h' !! x) as [t'|]; [|done]. exists t'. split; [done|]. by apply (inj Some) in Hg. }
  split.
  - intros x t' (t & Hx & [= -> Hs -> Hl Hrt])%(geo_lookup h h'); [|done]. by apply H1.
  - intros x y t' u' (t & Hx & [= _ _ -> _ _])%(geo_lookup h h') (u & Hy & [= _ _ -> _ _])%(geo_lookup h h');
      [|done..]. by apply H2.
  - intros x t' (t & Hx & [= _ _ -> _ ->])%(geo_lookup h h') Hne; [|done].
    destruct (H3 x t Hx Hne) as (Heq & u & Hu & Hl). split; [done|].
    destruct (Hback _ _ Hu) as (u' & Hu' & [= _ _ _ Hl' _]). exists u'. split; [done|]. congruence.
  - intros x t' (t & Hx & [= _ _ _ -> _])%(geo_lookup h h') Hne; [|done].
    destruct (H4 x t Hx Hne) as (u & Hu & Hl).
    destruct (Hback _ _ Hu) as (u' & Hu' & [= _ _ _ _ Hl']). exists u'. split; [done|]. congruence.
  - intros x t' (t & Hx & [= _ _ -> -> ->])%(geo_lookup h h'); [|done].
    rewrite (rl_pages _ _ _ _ Hr). by apply H5.
  - by rewrite (rl_pages _ _ _ _ Hr).
Qed.

(** *** Running the list operations *)

Definition alter_if (a : Z) (f : boundary_tag → boundary_tag) (ts : gmap Z boundary_tag) :=
  if a =? 0 then ts else alter f a ts.

Lemma upd_Done h a f : is_Some (tags h !! a) → upd a f h = Done (set_tags h (alter f a (tags h))).
Proof.
  intros [t Ht]. unfold upd, tag_at. rewrite Ht. cbn [of_option mbind res_bind].
  do 2 f_equal. apply map_eq. intros x. destruct (decide (x = a)) as [->|].
  - by rewrite lookup_insert_eq, lookup_alter_eq, Ht.
  - by rewrite lookup_insert_ne, lookup_alter_ne.
Qed.

Lemma upd_if_Done h a f :
  (a ≠ 0 → is_Some (tags h !! a)) → upd_if a f h = Done (set_tags h (alter_if a f (tags h))).
Proof.
  intros Ha. unfold upd_if, alter_if. destruct (Z.eqb_spec a 0); cbn [negb].
  - by destruct h.
  - by apply upd_Done, Ha.
Qed.

Lemma lookup_alter_if a f ts x :
  alter_if a f ts !! x = (λ t, if bool_decide (x = a ∧ a ≠ 0) then f t else t) <$> ts !! x.
Proof.
  unfold alter_if. destruct (Z.eqb_spec a 0) as [->|Hne].
  - rewrite bool_decide_false by tauto. by destruct (ts !! x).
  - destruct (decide (x = a)) as [->|Hx].
    + rewrite lookup_alter_eq. by rewrite bool_decide_true.
    + rewrite lookup_alter_ne by done. rewrite bool_decide_false by tauto. by destruct (ts !! x).
Qed.

Lemma is_Some_alter_if a f ts x : is_Some (alter_if a f ts !! x) ↔ is_Some (ts !! x).
Proof. by rewrite lookup_alter_if, fmap_is_Some. Qed.

Lemma is_Some_alter a f (ts : gmap Z boundary_tag) x :
  is_Some (ts !! x) → is_Some (alter f a ts !! x).
Proof.
  intros [t Ht]. destruct (decide (x = a)) as [->|].
  - rewrite lookup_alter_eq, Ht. by eexists.
  - rewrite lookup_alter_ne, Ht by done. by eexists.
Qed.

Lemma alter_is_if a f ts : a ≠ 0 → alter f a ts = alter_if a f ts.
Proof. intros Ha. unfold alter_if. by rewrite (proj2 (Z.eqb_neq a 0)). Qed.

(** The tag at [x] after unlinking [a], between [p] and [n]. *)
Definition unlinked a p n x t : boundary_tag :=
  BTag (magic t) (size t) (real_size t) (if decide (x = a) then -1 else index t)
    (split_left t) (split_right t)
    (if decide (x = a) then 0 else if decide (x = p ∧ p ≠ 0) then n else next t)
    (if decide (x = a) then 0 else if decide (x = n ∧ n ≠ 0) then p else prev t).

Lemma remove_tag_run h a t :
  dll h → a ≠ 0 → tags h !! a = Some t → index t ≠ -1 →
  ∃ h', remove_tag a h = Done h' ∧
    (∀ x, tags h' !! x = unlinked a (prev t) (next t) x <$> tags h !! x) ∧
    l_freePages h' = (if decide (l_freePages h !!z index t = Some a)
                      then <[index t :=z next t]> (l_freePages h) else l_freePages h) ∧
    pages h' = pages h ∧ l_completePages h' = l_completePages h ∧
    l_initialized h' = l_initialized h ∧ llock h' = llock h.
Proof.
  intros Hd Ha Ht Hi. destruct (d_index h Hd a t Ht) as [|Hidx]; [done|].
  unfold remove_tag, tag_at. rewrite Ht. cbn [of_option mbind res_bind].
  pose proof (d_length h Hd) as Hlen.
  destruct (proj2 (lookup_z_is_Some (l_freePages h) (index t))) as [head Hhead]; [lia|].
  unfold get_free. rewrite Hhead. cbn [of_option mbind res_bind].
  assert (∃ h1, (if head =? a then put_free h (index t) (next t) else Done h) = Done h1 ∧
    tags h1 = tags h ∧
    l_freePages h1 = (if decide (Some head = Some a)
                      then <[index t :=z next t]> (l_freePages h) else l_freePages h) ∧
    pages h1 = pages h ∧ l_completePages h1 = l_completePages h ∧
    l_initialized h1 = l_initialized h ∧ llock h1 = llock h) as (h1 & Hr & Htg & Hfr & Hrest).
  { destruct (Z.eqb_spec head a) as [->|Hne].
    - unfold put_free, get_free. rewrite Hhead. cbn [of_option mbind res_bind].
      eexists. split; [done|]. by rewrite decide_True.
    - exists h. rewrite decide_False by congruence. done. }
  rewrite Hr. cbn [mbind res_bind]. rewrite Htg, Ht. cbn [of_option mbind res_bind].
  rewrite upd_if_Done. 2: { intros Hp. rewrite Htg. destruct (d_prev h Hd a t Ht Hi Hp) as (u & -> & _). done. }
  cbn [mbind res_bind set_tags tags]. rewrite Htg.
  set (ts1 := alter_if (prev t) (set_next (next t)) (tags h)).
  assert (∃ t1, ts1 !! a = Some t1 ∧ next t1 = next t ∧ prev t1 = prev t) as (t1 & Ht1 & Hn1 & Hp1).
  { subst ts1. rewrite lookup_alter_if, Ht. cbn. case_bool_decide; eauto. }
  rewrite Ht1. cbn [of_option mbind res_bind]. rewrite Hn1, Hp1.
  rewrite upd_if_Done.
  2: { intros Hn. apply is_Some_alter_if.
       destruct (d_next h Hd a t Ht Hi Hn) as (u & -> & _). done. }
  cbn [mbind res_bind set_tags tags]. fold ts1.
  set (ts2 := alter_if (next t) (set_prev (prev t)) ts1).
  assert (is_Some (ts2 !! a)) as Hs2 by (unfold ts2; apply is_Some_alter_if; by rewrite Ht1).
  rewrite upd_Done by done. cbn [mbind res_bind set_tags tags].
  rewrite upd_Done by by apply is_Some_alter.
  cbn [mbind res_bind set_tags tags].
  rewrite upd_Done by by do 2 apply is_Some_alter.
  eexists. split; [done|]. cbn [tags set_tags l_freePages pages l_completePages l_initialized llock].
  split; [|by rewrite Hfr].
  intros x. rewrite !alter_is_if, !lookup_alter_if by done. subst ts2 ts1.
  rewrite !lookup_alter_if. destruct (tags h !! x) as [u|]; [|done]. cbn. f_equal.
  unfold unlinked. repeat case_bool_decide; repeat case_decide; try tauto; by destruct u.
Qed.

Section unlink.
Context (h h' : heap P) (a : Z) (t : boundary_tag).
Hypothesis Hd : dll h.
Hypothesis Hnz : ∀ x u, tags h !! x = Some u → x ≠ 0.
Hypothesis Ht : tags h !! a = Some t.
Hypothesis Hi : index t ≠ -1.
Hypothesis Htg : ∀ x, tags h' !! x = unlinked a (prev t) (next t) x <$> tags h !! x.
Hypothesis Hfr : l_freePages h' = (if decide (l_freePages h !!z index t = Some a)
  then <[index t :=z next t]> (l_freePages h) else l_freePages h).

Lemma unlinked_to x u : tags h !! x = Some u → tags h' !! x = Some (unlinked a (prev t) (next t) x u).
Proof. intros Hu. by rewrite Htg, Hu. Qed.

Lemma unlinked_lookup x t' :
  tags h' !! x = Some t' → ∃ u, tags h !! x = Some u ∧ t' = unlinked a (prev t) (next t) x u.
Proof. rewrite Htg. destruct (tags h !! x) as [u|]; [|done]. intros [= <-]. by exists u. Qed.

Lemma unlinked_bounds : length_z (l_freePages h) = 32 ∧ 8 ≤ index t ≤ 31.
Proof. destruct (d_index h Hd a t Ht); [done|]. by split; [apply d_length|]. Qed.

Lemma unlinked_index x t' : tags h' !! x = Some t' → index t' = -1 ∨ 8 ≤ index t' ≤ 31.
Proof.
  intros (u & Hu & ->)%unlinked_lookup. cbn [unlinked index next prev].
  destruct (decide (x = a)); [by left|by apply (d_index h Hd x)].
Qed.

Lemma unlinked_out x t' : tags h' !! x = Some t' → index t' = -1 → next t' = 0 ∧ prev t' = 0.
Proof.
  intros (u & Hu & ->)%unlinked_lookup. cbn [unlinked index next prev]. intros Hx.
  destruct (decide (x = a)); [done|]. destruct (d_out h Hd x u Hu Hx) as [Hn Hp].
  rewrite !decide_False; [done| |].
  + intros [-> Hne]. destruct (d_next h Hd a t Ht Hi Hne) as (v & Hv & Hiv & _). congruence.
  + intros [-> Hne]. destruct (d_prev h Hd a t Ht Hi Hne) as (v & Hv & Hiv & _). congruence.
Qed.

Lemma unlinked_prev x t' : tags h' !! x = Some t' → index t' ≠ -1 → prev t' ≠ 0 →
  ∃ u, tags h' !! prev t' = Some u ∧ index u = index t' ∧ next u = x.
Proof.
  intros (u & Hu & ->)%unlinked_lookup. cbn [unlinked index next prev].
  destruct (decide (x = a)) as [|Hxa]; [done|]. intros Hx.
  destruct (decide (x = next t ∧ next t ≠ 0)) as [[-> Hnn]|Hxn]; intros Hp.
  + destruct (d_next h Hd a t Ht Hi Hnn) as (v & Hv & Hiv & Hpv).
    assert (v = u) as -> by congruence.
    destruct (d_prev h Hd a t Ht Hi Hp) as (w & Hw & Hiw & Hnw).
    eexists. split; [by apply unlinked_to|]. cbn [unlinked index next prev].
    assert (prev t ≠ a) by (intros Heq; congruence).
    rewrite !(decide_False (P:=prev t = a)) by done. rewrite decide_True by done.
    split; [congruence|done].
  + destruct (d_prev h Hd x u Hu Hx Hp) as (w & Hw & Hiw & Hnw).
    eexists. split; [by apply unlinked_to|]. cbn [unlinked index next prev].
    assert (prev u ≠ a).
    { intros Heq. rewrite Heq in Hw. assert (w = t) as -> by congruence. subst x.
      apply Hxn. split; [done|]. by apply (Hnz _ u). }
    rewrite !(decide_False (P:=prev u = a)) by done. split; [done|].
    goal_decide as [[Heq Hne]|]; [|done].
    destruct (d_prev h Hd a t Ht Hi Hne) as (v & Hv & Hiv & Hnv). congruence.
Qed.

Lemma unlinked_first x t' : tags h' !! x = Some t' → index t' ≠ -1 → prev t' = 0 →
  l_freePages h' !!z index t' = Some x.
Proof.
  destruct unlinked_bounds as [Hlen Hidx].
  intros (u & Hu & ->)%unlinked_lookup. cbn [unlinked index next prev].
  destruct (decide (x = a)) as [|Hxa]; [done|]. intros Hx.
  destruct (decide (x = next t ∧ next t ≠ 0)) as [[-> Hnn]|Hxn]; intros Hp.
  + destruct (d_next h Hd a t Ht Hi Hnn) as (v & Hv & Hiv & Hpv).
    assert (v = u) as -> by congruence.
    pose proof (d_first h Hd a t Ht Hi Hp) as Hfa. rewrite Hfr, decide_True by done.
    rewrite Hiv. apply lookup_insert_z_eq. lia.
  + pose proof (d_first h Hd x u Hu Hx Hp) as Hfx. rewrite Hfr.
    goal_decide as [Hh|]; [|done]. rewrite lookup_insert_z_ne; [done|]. intros Heq. congruence.
Qed.

Lemma unlinked_next x t' : tags h' !! x = Some t' → index t' ≠ -1 → next t' ≠ 0 →
  ∃ u, tags h' !! next t' = Some u ∧ index u = index t' ∧ prev u = x.
Proof.
  intros (u & Hu & ->)%unlinked_lookup. cbn [unlinked index next prev].
  destruct (decide (x = a)) as [|Hxa]; [done|]. intros Hx.
  destruct (decide (x = prev t ∧ prev t ≠ 0)) as [[-> Hpn]|Hxp]; intros Hn.
  + destruct (d_prev h Hd a t Ht Hi Hpn) as (v & Hv & Hiv & Hnv).
    assert (v = u) as -> by congruence.
    destruct (d_next h Hd a t Ht Hi Hn) as (w & Hw & Hiw & Hpw).
    eexists. split; [by apply unlinked_to|]. cbn [unlinked index next prev].
    assert (next t ≠ a) by (intros Heq; congruence).
    rewrite !(decide_False (P:=next t = a)) by done. rewrite decide_True by done.
    split; [congruence|done].
  + destruct (d_next h Hd x u Hu Hx Hn) as (w & Hw & Hiw & Hpw).
    eexists. split; [by apply unlinked_to|]. cbn [unlinked index next prev].
    assert (next u ≠ a).
    { intros Heq. rewrite Heq in Hw. assert (w = t) as -> by congruence. subst x.
      apply Hxp. split; [done|]. by apply (Hnz _ u). }
    rewrite !(decide_False (P:=next u = a)) by done. split; [done|].
    goal_decide as [[Heq Hne]|]; [|done].
    destruct (d_next h Hd a t Ht Hi Hne) as (v & Hv & Hiv & Hnv). congruence.
Qed.

Lemma unlinked_head j x : l_freePages h' !!z j = Some x → x ≠ 0 →
  ∃ u, tags h' !! x = Some u ∧ index u = j ∧ prev u = 0.
Proof.
  destruct unlinked_bounds as [Hlen Hidx].
  intros Hy Hyn. rewrite Hfr in Hy.
  destruct (decide (l_freePages h !!z index t = Some a ∧ j = index t)) as [[Hh ->]|Hno].
  + rewrite decide_True, lookup_insert_z_eq in Hy by (done || lia). injection Hy as <-.
    destruct (d_next h Hd a t Ht Hi Hyn) as (w & Hw & Hiw & Hpw).
    destruct (d_head h Hd _ _ Hh (Hnz _ _ Ht)) as (v & Hv & _ & Hpv).
    assert (v = t) as -> by congruence.
    eexists. split; [by apply unlinked_to|]. cbn [unlinked index next prev].
    assert (next t ≠ a) by (intros Heq; pose proof (Hnz _ _ Ht); congruence).
    rewrite !(decide_False (P:=next t = a)) by done. rewrite decide_True by done. done.
  + assert (l_freePages h !!z j = Some x) as Hold.
    { destruct (decide (l_freePages h !!z index t = Some a)); [|done].
      rewrite lookup_insert_z_ne in Hy; [done|]. intros <-. tauto. }
    destruct (d_head h Hd _ _ Hold Hyn) as (v & Hv & Hiv & Hpv).
    eexists. split; [by apply unlinked_to|]. cbn [unlinked index next prev].
    assert (x ≠ a) as Hya by (intros ->; apply Hno; split; congruence).
    rewrite !(decide_False (P:=x = a)) by done. split; [done|].
    goal_decide as [[-> Hne]|]; [|done].
    destruct (d_next h Hd a t Ht Hi Hne) as (w & Hw & Hiw & Hpw).
    pose proof (Hnz _ _ Ht). congruence.
Qed.

(** Unlinking [a] keeps the lists well formed. *)
Lemma unlinked_dll : dll h'.
Proof.
  split; [|exact unlinked_index|exact unlinked_out|exact unlinked_prev|exact unlinked_first|exact unlinked_next|exact unlinked_head].
  destruct unlinked_bounds as [Hlen _]. rewrite Hfr. goal_decide as [|]; [by rewrite length_insert_z|done].
Qed.
End unlink.

Lemma geo_nonzero m h a t : geo m h → tags h !! a = Some t → 0 < a.
Proof.
  intros Hg Ht. destruct (g_region m h Hg a t Ht) as (p & n & Hr & Hp & _).
  destruct (region_size p n _ (g_pages m h Hg) (proj1 Hr)) as [? _]. lia.
Qed.

Lemma remove_tag_spec h a t :
  dll h → (∀ x u, tags h !! x = Some u → x ≠ 0) → tags h !! a = Some t → index t ≠ -1 →
  ∃ h', remove_tag a h = Done h' ∧ dll h' ∧ relink a (-1) h h'.
Proof.
  intros Hd Hnz Ht Hi.
  destruct (remove_tag_run h a t Hd (Hnz _ _ Ht) Ht Hi)
    as (h' & Hr & Htg & Hfr & Hpg & Hcp & Hin & Hlk).
  exists h'. split; [done|]. split; [by eapply unlinked_dll|]. split; try done.
  - intros x. rewrite Htg. by destruct (tags h !! x).
  - intros x u u' Hu Hu'. rewrite Htg, Hu in Hu'. by injection Hu' as <-.
Qed.

(** The tag at [x] after linking [a] in front of [head] in list [i]. *)
Definition linked_in a i head x t : boundary_tag :=
  BTag (magic t) (size t) (real_size t) (if decide (x = a) then i else index t)
    (split_left t) (split_right t)
    (if decide (x = a ∧ head ≠ 0) then head else next t)
    (if decide (x = head ∧ head ≠ 0) then a else prev t).

Lemma insert_tag_run h a t idx i head :
  a ≠ 0 → tags h !! a = Some t →
  (if idx <? 0 then list_index (payload t) else Done idx) = Done i →
  l_freePages h !!z i = Some head → (head ≠ 0 → is_Some (tags h !! head)) →
  ∃ h', insert_tag a idx h = Done h' ∧
    (∀ x, tags h' !! x = linked_in a i head x <$> tags h !! x) ∧
    l_freePages h' = <[i :=z a]> (l_freePages h) ∧
    pages h' = pages h ∧ l_completePages h' = l_completePages h ∧
    l_initialized h' = l_initialized h ∧ llock h' = llock h.
Proof.
  intros Ha Ht Hidx Hhead Hs. unfold insert_tag, tag_at. rewrite Ht.
  cbn [of_option mbind res_bind].
  replace (if idx <? 0 then list_index (payload t) else Done idx) with (Done i).
  cbn [mbind res_bind]. rewrite upd_Done by (by rewrite Ht). cbn [mbind res_bind].
  unfold get_free. cbn [set_tags l_freePages]. rewrite Hhead. cbn [of_option mbind res_bind].
  destruct (Z.eqb_spec head 0) as [->|Hne]; cbn [negb mbind res_bind].
  - unfold put_free, get_free. cbn [set_tags l_freePages]. rewrite Hhead.
    eexists. split; [done|]. cbn [tags set_free set_tags]. split; [|done].
    intros x. rewrite alter_is_if, lookup_alter_if by done.
    destruct (tags h !! x) as [u|]; [|done]. cbn. f_equal. unfold linked_in.
    rewrite !(decide_False (P:=_ ∧ 0 ≠ 0)) by tauto.
    case_bool_decide as Hx; [destruct Hx as [-> _]; rewrite decide_True by done
      |rewrite decide_False by tauto]; by destruct u.
  - rewrite upd_Done by (apply is_Some_alter, Hs, Hne). cbn [mbind res_bind].
    rewrite upd_Done by (do 2 apply is_Some_alter; by rewrite Ht). cbn [mbind res_bind].
    unfold put_free, get_free. cbn [set_tags l_freePages]. rewrite Hhead.
    eexists. split; [done|]. cbn [tags set_free set_tags]. split; [|done].
    intros x. rewrite !alter_is_if, !lookup_alter_if by done.
    destruct (tags h !! x) as [u|]; [|done]. cbn. f_equal. unfold linked_in.
    repeat case_bool_decide; repeat goal_decide as [|]; try tauto; by destruct u.
Qed.

Section link.
Context (h h' : heap P) (a i head : Z) (t : boundary_tag).
Hypothesis Hd : dll h.
Hypothesis Hnz : ∀ x u, tags h !! x = Some u → x ≠ 0.
Hypothesis Ht : tags h !! a = Some t.
Hypothesis Hi : index t = -1.
Hypothesis Hir : 8 ≤ i ≤ 31.
Hypothesis Hhead : l_freePages h !!z i = Some head.
Hypothesis Htg : ∀ x, tags h' !! x = linked_in a i head x <$> tags h !! x.
Hypothesis Hfr : l_freePages h' = <[i :=z a]> (l_freePages h).

Lemma linked_to x u : tags h !! x = Some u → tags h' !! x = Some (linked_in a i head x u).
Proof. intros Hu. by rewrite Htg, Hu. Qed.

Lemma linked_in_lookup x t' :
  tags h' !! x = Some t' → ∃ u, tags h !! x = Some u ∧ t' = linked_in a i head x u.
Proof. rewrite Htg. destruct (tags h !! x) as [u|]; [|done]. intros [= <-]. by exists u. Qed.

Lemma linked_head : head ≠ 0 → head ≠ a ∧ ∃ u, tags h !! head = Some u ∧ index u = i ∧ prev u = 0.
Proof.
  intros Hne. destruct (d_head h Hd i head Hhead Hne) as (u & Hu & Hiu & Hpu).
  split; [|by exists u]. intros ->. assert (u = t) as -> by congruence. lia.
Qed.

Lemma linked_ne x u : tags h !! x = Some u → index u ≠ -1 → x ≠ a.
Proof. intros Hu Hx ->. congruence. Qed.

Lemma linked_index x t' : tags h' !! x = Some t' → index t' = -1 ∨ 8 ≤ index t' ≤ 31.
Proof.
  intros (u & Hu & ->)%linked_in_lookup. cbn [linked_in index].
  goal_decide as [|]; [by right|by apply (d_index h Hd x)].
Qed.

Lemma linked_out x t' : tags h' !! x = Some t' → index t' = -1 → next t' = 0 ∧ prev t' = 0.
Proof.
  intros (u & Hu & ->)%linked_in_lookup.
  cbn [linked_in index next prev]. goal_decide as [|Hx]; [lia|]. intros Hiu.
  destruct (d_out h Hd x u Hu Hiu) as [Hn Hp]. rewrite !decide_False; [done| |tauto].
  intros [-> Hne]. destruct (linked_head Hne) as (Hha & v & Hv & Hiv & _). assert (v = u) as -> by congruence. lia.
Qed.

Lemma linked_prev x t' : tags h' !! x = Some t' → index t' ≠ -1 → prev t' ≠ 0 →
  ∃ u, tags h' !! prev t' = Some u ∧ index u = index t' ∧ next u = x.
Proof.
  pose proof (d_out h Hd a t Ht Hi) as [Hna Hpa].
  intros (u & Hu & ->)%linked_in_lookup.
  cbn [linked_in index next prev]. destruct (decide (x = head ∧ head ≠ 0)) as [[-> Hne]|Hno].
  + intros Hix _. destruct (linked_head Hne) as (Hha & v & Hv & Hiv & _). assert (v = u) as -> by congruence.
    eexists. split; [by apply linked_to|]. cbn [linked_in index next prev].
    rewrite (decide_False (P:=head = a)), !decide_True by auto. by split; [lia|].
  + destruct (decide (x = a)) as [->|Hx]; intros Hix Hp; [congruence|].
    destruct (d_prev h Hd x u Hu Hix Hp) as (v & Hv & Hiv & Hnv).
    assert (prev u ≠ a) by (apply (linked_ne _ v Hv); congruence).
    eexists. split; [by apply linked_to|]. cbn [linked_in index next prev].
    rewrite !decide_False by tauto. done.
Qed.

Lemma linked_first x t' : tags h' !! x = Some t' → index t' ≠ -1 → prev t' = 0 →
  l_freePages h' !!z index t' = Some x.
Proof.
  pose proof (d_length h Hd) as Hlen.
  intros (u & Hu & ->)%linked_in_lookup.
  cbn [linked_in index next prev]. rewrite Hfr.
  destruct (decide (x = a)) as [->|Hx]; [intros; apply lookup_insert_z_eq; lia|].
  destruct (decide (x = head ∧ head ≠ 0)) as [|Hno]; intros Hix Hp.
  { by apply Hnz in Ht. }
  pose proof (d_first h Hd x u Hu Hix Hp) as Hf.
  destruct (decide (index u = i)) as [Heq|Hne]; [|by rewrite lookup_insert_z_ne by done].
  exfalso. apply Hno. rewrite Heq, Hhead in Hf. injection Hf as ->.
  split; [done|by eapply Hnz].
Qed.

Lemma linked_next x t' : tags h' !! x = Some t' → index t' ≠ -1 → next t' ≠ 0 →
  ∃ u, tags h' !! next t' = Some u ∧ index u = index t' ∧ prev u = x.
Proof.
  pose proof (d_out h Hd a t Ht Hi) as [Hna Hpa].
  intros (u & Hu & ->)%linked_in_lookup.
  cbn [linked_in index next prev].
  destruct (decide (x = a ∧ head ≠ 0)) as [[-> Hne]|Hno].
  + intros _ _. destruct (linked_head Hne) as (Hha & v & Hv & Hiv & _).
    eexists. split; [by apply linked_to|]. cbn [linked_in index next prev].
    rewrite (decide_False (P:=head = a)), !decide_True by auto. done.
  + destruct (decide (x = a)) as [->|Hx]; intros Hix Hn; [congruence|].
    destruct (d_next h Hd x u Hu Hix Hn) as (v & Hv & Hiv & Hpv).
    assert (next u ≠ a) by (apply (linked_ne _ v Hv); congruence).
    eexists. split; [by apply linked_to|]. cbn [linked_in index next prev].
    rewrite decide_False by done. split; [done|]. goal_decide as [[Heq Hne]|]; [|done].
    destruct (linked_head Hne) as (Hha & w & Hw & _ & Hpw). apply Hnz in Hu. congruence.
Qed.

Lemma linked_head_ok j x : l_freePages h' !!z j = Some x → x ≠ 0 →
  ∃ u, tags h' !! x = Some u ∧ index u = j ∧ prev u = 0.
Proof.
  pose proof (d_length h Hd) as Hlen.
  pose proof (d_out h Hd a t Ht Hi) as [Hna Hpa].
  intros Hy Hyn. rewrite Hfr in Hy. destruct (decide (j = i)) as [->|Hji].
  + rewrite lookup_insert_z_eq in Hy by lia. injection Hy as <-.
    eexists. split; [by apply linked_to|]. cbn [linked_in index next prev].
    rewrite decide_True by done. rewrite decide_False; [done|]. intros [Heq Hne]. destruct (linked_head Hne); congruence.
  + rewrite lookup_insert_z_ne in Hy by done.
    destruct (d_head h Hd _ _ Hy Hyn) as (v & Hv & Hiv & Hpv).
    assert (x ≠ a) as Hya.
    { apply (linked_ne _ v Hv). apply lookup_z_Some in Hy as [? _]. lia. }
    eexists. split; [by apply linked_to|]. cbn [linked_in index next prev].
    rewrite decide_False by done. split; [done|]. goal_decide as [[-> Hne]|]; [|done].
    destruct (linked_head Hne) as (Hha & w & Hw & Hiw & _). congruence.
Qed.

Lemma linked_in_dll : dll h'.
Proof.
  split; [|exact linked_index|exact linked_out|exact linked_prev|exact linked_first|exact linked_next|exact linked_head_ok].
  rewrite Hfr, length_insert_z. by apply d_length.
Qed.
End link.

Lemma linked_in_relink h h' a t i head :
  tags h !! a = Some t →
  (∀ x, tags h' !! x = linked_in a i head x <$> tags h !! x) →
  pages h' = pages h → l_completePages h' = l_completePages h →
  l_initialized h' = l_initialized h → llock h' = llock h → relink a i h h'.
Proof.
  intros Ht Htg Hp Hc Hi Hl. split; try done.
  - intros x. rewrite Htg. by destruct (tags h !! x).
  - intros x u u' Hu Hu'. rewrite Htg, Hu in Hu'. by injection Hu' as <-.
Qed.
End invariant.

(** ** The operations keep the invariant *)

Section operations.
Context {P : Type} `{PageSourceLaws P} (junk : Z).
Implicit Types (h : heap P) (m : mem) (t u : boundary_tag).

Lemma geo_nz m h : geo m h → ∀ x u, tags h !! x = Some u → x ≠ 0.
Proof. intros Hg x u Hx. pose proof (geo_nonzero m h x u Hg Hx). lia. Qed.

Lemma geo_size m h a t : geo m h → tags h !! a = Some t →
  sizeof_tag ≤ real_size t < 2 ^ 32 ∧ a + real_size t < 2 ^ 64.
Proof.
  intros Hg Ht. destruct (g_tag m h Hg a t Ht) as (_ & Hr & _).
  destruct (g_region m h Hg a t Ht) as (p & n & Hreg & Hp & Hn & _).
  destruct (region_size p n _ (g_pages m h Hg) (proj1 Hreg)) as (? & ? & ?).
  unfold PAGE_SIZE in *. lia.
Qed.

Lemma payload_range m h a t : geo m h → tags h !! a = Some t →
  payload t = real_size t - sizeof_tag ∧ 0 ≤ payload t < 2 ^ 32.
Proof.
  intros Hg Ht. destruct (geo_size m h a t Hg Ht) as [? _]. unfold payload, sizeof_tag in *.
  rewrite u64_id by (simpl; lia). lia.
Qed.

Lemma insert_tag_spec m h a t idx :
  geo m h → dll h → tags h !! a = Some t → index t = -1 → idx < 0 ∨ 8 ≤ idx ≤ 30 →
  ∃ h' i, insert_tag a idx h = Done h' ∧ dll h' ∧ relink a i h h' ∧ 8 ≤ i ≤ 30.
Proof.
  intros Hg Hd Ht Hi Hidx. destruct (payload_range m h a t Hg Ht) as [_ Hpl].
  assert (∃ i, (if idx <? 0 then list_index (payload t) else Done idx) = Done i ∧ 8 ≤ i ≤ 30)
    as (i & Hli & Hir).
  { destruct (Z.ltb_spec idx 0); [apply list_index_spec; lia|exists idx; split; [done|lia]]. }
  pose proof (d_length h Hd) as Hlen.
  destruct (proj2 (lookup_z_is_Some (l_freePages h) i)) as [head Hhead]; [lia|].
  destruct (insert_tag_run h a t idx i head) as (h' & Hr & Htg & Hfr & Hp & Hc & Hin & Hlk);
    [by eapply geo_nz|done..| |].
  { intros Hne. destruct (d_head h Hd i head Hhead Hne) as (u & -> & _). done. }
  exists h', i. split; [done|]. split; [|split; [by eapply linked_in_relink|done]].
  eapply (linked_in_dll h h' a i head t); try done; [by eapply geo_nz|lia].
Qed.

(** Searching a free list ends: the tags visited so far are distinct, because
    each is the [prev] of the next and the first has none. *)
Record visited h (i : Z) (vs : list Z) : Prop := Visited {
  vi_nodup : NoDup vs;
  vi_tag j v : vs !! j = Some v → v ≠ 0 ∧ ∃ t, tags h !! v = Some t ∧ index t = i ∧
    prev t = default 0 (vs !! S j);
}.

Lemma visited_length h i vs : visited h i vs → (length vs ≤ base.size (tags h))%nat.
Proof.
  intros [Hnd Ht]. rewrite <-size_dom. rewrite <-(size_list_to_set (C:=gset Z) vs Hnd).
  apply subseteq_size. intros v Hv. apply elem_of_list_to_set in Hv.
  apply list_elem_of_lookup_1 in Hv as [j Hj]. destruct (Ht j v Hj) as (_ & t & Hl & _).
  apply elem_of_dom. eauto.
Qed.

Lemma visited_cons h i vs x t :
  visited h i vs → x ≠ 0 → tags h !! x = Some t → index t = i →
  prev t = default 0 (head vs) → visited h i (x :: vs).
Proof.
  intros [Hnd Hvt] Hx Ht Hi Hp. split.
  - constructor; [|done]. intros [j Hj]%list_elem_of_lookup_1.
    destruct (Hvt j x Hj) as (_ & t' & Ht' & _ & Hp'). assert (t' = t) as -> by congruence.
    rewrite Hp in Hp'. destruct vs as [|v vs]; [done|]. simpl in Hp'.
    destruct (vs !! j) as [w|] eqn:Hw; simpl in Hp'.
    + subst w. inversion Hnd as [|? ? Hn _]. apply Hn. by eapply list_elem_of_lookup_2.
    + subst v. by destruct (Hvt 0%nat 0) as [? _].
  - intros [|j] v; simpl; [|apply Hvt]. intros [= <-]. split; [done|].
    exists t. split; [done|]. split; [done|]. by destruct vs.
Qed.

Lemma find_tag_spec h sz i x :
  dll h → 8 ≤ i ≤ 30 → l_freePages h !!z i = Some x →
  ∃ r, find_tag (S (base.size (tags h))) sz h x = Done r ∧
    (r = 0 ∨ ∃ t, tags h !! r = Some t ∧ index t = i ∧ u64 (sz + sizeof_tag) ≤ payload t).
Proof.
  intros Hd Hi Hx. unfold find_tag.
  assert (∀ fuel vs x, visited h i vs → (length vs + fuel = S (base.size (tags h)))%nat →
    (x ≠ 0 → ∃ t, tags h !! x = Some t ∧ index t = i ∧ prev t = default 0 (head vs)) →
    ∃ r, while_loop fuel (λ tag,
        if negb (tag =? 0) then
          t ← tag_at h tag;
          Done (if u64 (sz + sizeof_tag) <=? payload t then inr tag else inl (next t))
        else Done (inr 0)) x = Done r ∧
      (r = 0 ∨ ∃ t, tags h !! r = Some t ∧ index t = i ∧ u64 (sz + sizeof_tag) ≤ payload t)) as Hgen.
  { induction fuel as [|fuel IH]; intros vs y Hvs Hlen Hy; cbn [while_loop].
    { pose proof (visited_length h i vs Hvs). lia. }
    destruct (Z.eqb_spec y 0) as [->|Hne]; cbn [negb mbind res_bind].
    { exists 0. split; [done|by left]. }
    destruct (Hy Hne) as (t & Ht & Hit & Hpt). unfold tag_at. rewrite Ht.
    cbn [of_option mbind res_bind].
    destruct (Z.leb_spec (u64 (sz + sizeof_tag)) (payload t)); cbn [mbind res_bind].
    { exists y. split; [done|]. right. by exists t. }
    apply (IH (y :: vs)); [by eapply visited_cons|simpl; lia|].
    intros Hn. destruct (d_next h Hd y t Ht) as (u & Hu & Hiu & Hpu); [lia|done|].
    exists u. split; [done|]. split; [congruence|done]. }
  apply (Hgen _ [] x); [split; [constructor|done]|done|].
  intros Hne. destruct (d_head h Hd i x Hx Hne) as (t & Ht & Hit & Hpt). by exists t.
Qed.

(** *** Geometry *)

(** The tag at [x] after block [b] is merged into its left neighbour [a];
    [c] is the right neighbour of [b]. *)
Definition merged (a c rs x : Z) t : boundary_tag :=
  BTag (magic t) (size t) (if decide (x = a) then rs else real_size t) (index t)
    (if decide (x = c ∧ c ≠ 0) then a else split_left t)
    (if decide (x = a) then c else split_right t) (next t) (prev t).

Section merge.
Context (m : mem) (h h' : heap P) (a b : Z) (ta tb : boundary_tag).
Hypothesis Hg : geo m h.
Hypothesis Ha : tags h !! a = Some ta.
Hypothesis Hb : tags h !! b = Some tb.
Hypothesis Hab : split_right ta = b.
Hypothesis Htg : ∀ x, tags h' !! x =
  if decide (x = b) then None
  else merged a (split_right tb) (real_size ta + real_size tb) x <$> tags h !! x.
Hypothesis Hpg : pages h' = pages h.

Lemma merge_facts :
  b = a + real_size ta ∧ split_left tb = a ∧ a ≠ b ∧
  (split_right tb ≠ 0 → split_right tb = b + real_size tb ∧
    ∃ tc, tags h !! split_right tb = Some tc ∧ split_left tc = b).
Proof.
  assert (split_right ta ≠ 0) as Hne by (rewrite Hab; by eapply geo_nz).
  destruct (g_right m h Hg a ta Ha Hne) as (Heq & u & Hu & Hl).
  rewrite Hab in *. assert (u = tb) as -> by congruence.
  destruct (g_tag m h Hg a ta Ha) as (_ & Hs & _). unfold sizeof_tag in Hs.
  split; [done|]. split; [done|]. split; [lia|]. intros Hc. by apply (g_right m h Hg b tb Hb).
Qed.

Lemma merge_lookup x t' :
  tags h' !! x = Some t' → x ≠ b ∧ ∃ t, tags h !! x = Some t ∧
    t' = merged a (split_right tb) (real_size ta + real_size tb) x t.
Proof.
  rewrite Htg. destruct (decide (x = b)); [done|]. destruct (tags h !! x) as [t|]; [|done].
  intros [= <-]. split; [done|]. by exists t.
Qed.

Lemma merge_to x t :
  tags h !! x = Some t → x ≠ b →
  tags h' !! x = Some (merged a (split_right tb) (real_size ta + real_size tb) x t).
Proof. intros Hx Hne. by rewrite Htg, Hx, decide_False. Qed.

(** Both blocks lie in the same run of pages. *)
Lemma merge_region : ∃ p n, hregion (pages h) p n ∧ p ≤ a ∧
  b + real_size tb ≤ p + n * PAGE_SIZE ∧ (split_left ta = 0 ↔ a = p) ∧
  (split_right tb = 0 ↔ b + real_size tb = p + n * PAGE_SIZE).
Proof.
  destruct merge_facts as (Heq & Hl & Hne & _).
  destruct (g_region m h Hg a ta Ha) as (p & n & Hr & Hp & Hn & Hlp & Hrp).
  destruct (g_region m h Hg b tb Hb) as (q & k & Hr' & Hq & Hk & Hlq & Hrq).
  destruct (g_tag m h Hg a ta Ha) as (_ & Hsa & _).
  destruct (g_tag m h Hg b tb Hb) as (_ & Hsb & _).
  assert (b ≠ 0) as Hb0 by by eapply geo_nz.
  assert (split_right ta ≠ 0) as Hra by congruence. unfold sizeof_tag in *.
  destruct (decide (p = q)) as [->|Hpq].
  - assert (k = n) as ->
      by (eapply (region_once q); [exact (g_pages m h Hg)|apply Hr'|apply Hr]).
    exists q, n. split_and!; try done.
  - exfalso. destruct (region_disjoint p n q k _ (g_pages m h Hg) (proj1 Hr) (proj1 Hr') Hpq); lia.
Qed.

Lemma merge_tags x t' : tags h' !! x = Some t' →
  magic t' = LIBALLOC_MAGIC ∧ sizeof_tag ≤ real_size t' ∧ mapped m x (real_size t').
Proof.
  destruct merge_facts as (Heq & Hl & Hne & Hc).
  destruct (g_tag m h Hg a ta Ha) as (Hma & Hsa & Hmpa).
  destruct (g_tag m h Hg b tb Hb) as (_ & Hsb & Hmpb). unfold sizeof_tag in *.
  intros (Hxb & t & Ht & ->)%merge_lookup. cbn [merged magic real_size].
  destruct (decide (x = a)) as [->|]; [|by apply (g_tag m h Hg)].
  assert (t = ta) as -> by congruence. split; [done|]. split; [unfold sizeof_tag; lia|].
  intros i Hi. destruct (decide (i < b)); [apply Hmpa|apply Hmpb]; lia.
Qed.

Lemma merge_disjoints x y t' u' : tags h' !! x = Some t' → tags h' !! y = Some u' → x ≠ y →
  disjoint_range x (real_size t') y (real_size u').
Proof.
  destruct merge_facts as (Heq & Hl & Hne & Hc).
  destruct (g_tag m h Hg a ta Ha) as (Hma & Hsa & Hmpa).
  destruct (g_tag m h Hg b tb Hb) as (_ & Hsb & Hmpb). unfold sizeof_tag in *.
  intros (Hxb & t & Ht & ->)%merge_lookup (Hyb & u & Hu & ->)%merge_lookup Hxy.
  cbn [merged real_size]. pose proof (g_disjoint m h Hg x y t u Ht Hu Hxy) as Hd.
  destruct (g_tag m h Hg x t Ht) as (_ & Hst & _).
  destruct (g_tag m h Hg y u Hu) as (_ & Hsu & _).
  unfold disjoint_range, sizeof_tag in *.
  destruct (decide (x = a)) as [->|]; [|destruct (decide (y = a)) as [->|]].
  + assert (t = ta) as -> by congruence. rewrite decide_False by done.
    pose proof (g_disjoint m h Hg b y tb u Hb Hu ltac:(done)) as Hd2.
    unfold disjoint_range in Hd2. lia.
  + assert (u = ta) as -> by congruence.
    pose proof (g_disjoint m h Hg x b t tb Ht Hb ltac:(done)) as Hd2.
    unfold disjoint_range in Hd2. lia.
  + done.
Qed.

Lemma merge_rights x t' : tags h' !! x = Some t' → split_right t' ≠ 0 →
  split_right t' = x + real_size t' ∧
  ∃ u, tags h' !! split_right t' = Some u ∧ split_left u = x.
Proof.
  destruct merge_facts as (Heq & Hl & Hne & Hc).
  destruct (g_tag m h Hg a ta Ha) as (Hma & Hsa & Hmpa).
  destruct (g_tag m h Hg b tb Hb) as (_ & Hsb & Hmpb). unfold sizeof_tag in *.
  intros (Hxb & t & Ht & ->)%merge_lookup. cbn [merged split_right real_size].
  destruct (decide (x = a)) as [->|Hxa]; intros Hn.
  + assert (t = ta) as -> by congruence. destruct (Hc Hn) as (Hceq & tc & Htc & Hlc).
    split; [lia|]. eexists. split; [apply (merge_to _ tc Htc); lia|].
    cbn [merged split_left]. by rewrite decide_True.
  + destruct (g_right m h Hg x t Ht Hn) as (Hxeq & u & Hu & Hlu). split; [done|].
    assert (split_right t ≠ b) as Hyb by (intros Heq'; rewrite Heq' in Hu; congruence).
    eexists. split; [by apply (merge_to _ u Hu)|]. cbn [merged split_left].
    rewrite decide_False; [done|]. intros [Hyc Hc0].
    destruct (Hc Hc0) as (_ & tc & Htc & Hlc). congruence.
Qed.

Lemma merge_lefts x t' : tags h' !! x = Some t' → split_left t' ≠ 0 →
  ∃ u, tags h' !! split_left t' = Some u ∧ split_right u = x.
Proof.
  destruct merge_facts as (Heq & Hl & Hne & Hc).
  destruct (g_tag m h Hg a ta Ha) as (Hma & Hsa & Hmpa).
  destruct (g_tag m h Hg b tb Hb) as (_ & Hsb & Hmpb). unfold sizeof_tag in *.
  intros (Hxb & t & Ht & ->)%merge_lookup. cbn [merged split_left].
  destruct (decide (x = split_right tb ∧ split_right tb ≠ 0)) as [[-> Hc0]|Hxc]; intros Hn.
  + eexists. split; [by apply (merge_to _ ta Ha)|]. cbn [merged split_right].
    by rewrite decide_True.
  + destruct (g_left m h Hg x t Ht Hn) as (u & Hu & Hru).
    assert (split_left t ≠ b) as Hyb.
    { intros Heq'. rewrite Heq' in Hu. assert (u = tb) as -> by congruence.
      apply Hxc. split; [done|]. rewrite Hru. by eapply geo_nz. }
    eexists. split; [by apply (merge_to _ u Hu)|]. cbn [merged split_right].
    rewrite decide_False; [done|]. intros Hya. congruence.
Qed.

Lemma merge_regions x t' : tags h' !! x = Some t' → ∃ p n, hregion (pages h') p n ∧
  p ≤ x ∧ x + real_size t' ≤ p + n * PAGE_SIZE ∧
  (split_left t' = 0 ↔ x = p) ∧ (split_right t' = 0 ↔ x + real_size t' = p + n * PAGE_SIZE).
Proof.
  destruct merge_facts as (Heq & Hl & Hne & Hc).
  destruct (g_tag m h Hg a ta Ha) as (Hma & Hsa & Hmpa).
  destruct (g_tag m h Hg b tb Hb) as (_ & Hsb & Hmpb). unfold sizeof_tag in *.
  intros (Hxb & t & Ht & ->)%merge_lookup. rewrite Hpg.
  cbn [merged split_left split_right real_size].
  destruct (decide (x = a)) as [->|Hxa].
  + assert (t = ta) as -> by congruence.
    destruct merge_region as (p & n & Hr & Hp & Hn & Hlp & Hrp).
    exists p, n.
    rewrite (decide_False (P:=a = _ ∧ _)) by (intros [Hx0 Hc0]; destruct (Hc Hc0); lia).
              split; [done|]. split; [done|]. split; [lia|]. split; [done|]. rewrite Hrp. lia.
  + destruct (g_region m h Hg x t Ht) as (p & n & Hr & Hp & Hn & Hlp & Hrp).
    exists p, n. split; [done|]. split; [done|]. split; [done|]. split; [|done].
    destruct (decide _) as [[-> Hc0]|]; [|done].
    destruct (Hc Hc0) as (_ & tc & Htc & Hlc). assert (tc = t) as -> by congruence.
    rewrite Hlc in Hlp. pose proof (geo_nz m h Hg _ _ Ha). pose proof (geo_nz m h Hg _ _ Hb).
    tauto.
Qed.

Lemma geo_merge : geo m h'.
Proof.
  split; [exact merge_tags|exact merge_disjoints|exact merge_rights|exact merge_lefts|exact merge_regions|].
  rewrite Hpg. by apply (g_pages m h).
Qed.
End merge.

(** The tag at [x], a different one from [nw], after block [a] is cut at [nw]. *)
Definition cut (a nw c rs : Z) (x : Z) t : boundary_tag :=
  BTag (magic t) (size t) (if decide (x = a) then rs else real_size t) (index t)
    (if decide (x = c ∧ c ≠ 0) then nw else split_left t)
    (if decide (x = a) then nw else split_right t) (next t) (prev t).

Section split.
Context (m : mem) (h h' : heap P) (a nw rs : Z) (ta tn : boundary_tag).
Hypothesis Hg : geo m h.
Hypothesis Ha : tags h !! a = Some ta.
Hypothesis Hnw : nw = a + rs.
Hypothesis Hrs : sizeof_tag ≤ rs.
Hypothesis Hrn : sizeof_tag ≤ real_size ta - rs.
Hypothesis Htn : magic tn = LIBALLOC_MAGIC ∧ real_size tn = real_size ta - rs ∧
  split_left tn = a ∧ split_right tn = split_right ta.
Hypothesis Htg : ∀ x, tags h' !! x =
  if decide (x = nw) then Some tn else cut a nw (split_right ta) rs x <$> tags h !! x.
Hypothesis Hpg : pages h' = pages h.

(** No tag lies inside the block. *)
Lemma split_fresh : tags h !! nw = None.
Proof.
  destruct (tags h !! nw) as [t|] eqn:Ht; [|done]. exfalso.
  destruct (g_tag m h Hg nw t Ht) as (_ & Hst & _). unfold sizeof_tag in *.
  destruct (g_disjoint m h Hg a nw ta t Ha Ht ltac:(lia)); lia.
Qed.

Lemma split_lookup x t' :
  tags h' !! x = Some t' → x = nw ∧ t' = tn ∨
  x ≠ nw ∧ ∃ t, tags h !! x = Some t ∧ t' = cut a nw (split_right ta) rs x t.
Proof.
  rewrite Htg. destruct (decide (x = nw)); [intros [= <-]; by left|].
  destruct (tags h !! x) as [t|]; [|done]. intros [= <-]. right. split; [done|]. by exists t.
Qed.

Lemma split_to x t :
  tags h !! x = Some t → tags h' !! x = Some (cut a nw (split_right ta) rs x t).
Proof.
  intros Hx. rewrite Htg, Hx. rewrite decide_False; [done|].
  intros ->. rewrite split_fresh in Hx. done.
Qed.

Lemma split_new : tags h' !! nw = Some tn.
Proof. by rewrite Htg, decide_True. Qed.

Lemma split_right_facts : split_right ta ≠ 0 →
  split_right ta = a + real_size ta ∧
  ∃ tc, tags h !! split_right ta = Some tc ∧ split_left tc = a.
Proof. apply (g_right m h Hg a ta Ha). Qed.

Lemma split_disjoint x t : tags h !! x = Some t → x ≠ a →
  disjoint_range x (real_size t) a rs ∧
  disjoint_range x (real_size t) nw (real_size ta - rs).
Proof.
  intros Ht Hne. pose proof (g_disjoint m h Hg x a t ta Ht Ha Hne) as Hd.
  destruct (g_tag m h Hg x t Ht) as (_ & Hst & _).
  unfold disjoint_range, sizeof_tag in *. lia.
Qed.

Lemma split_tags x t' : tags h' !! x = Some t' →
  magic t' = LIBALLOC_MAGIC ∧ sizeof_tag ≤ real_size t' ∧ mapped m x (real_size t').
Proof.
  destruct Htn as (Hmn & Hrsn & Hln & Hrn').
  destruct (g_tag m h Hg a ta Ha) as (Hma & Hsa & Hmpa).
  pose proof (geo_nz m h Hg a ta Ha) as Ha0. pose proof (geo_nonzero m h a ta Hg Ha) as Hap.
  pose proof split_right_facts as Hc.
  assert (nw ≠ 0) as Hnw0 by (unfold sizeof_tag in *; lia).
  intros [[-> ->]|(Hxn & t & Ht & ->)]%split_lookup.
  + split; [done|]. split; [lia|]. intros i Hi. apply Hmpa. unfold sizeof_tag in *. lia.
  + cbn [cut magic real_size]. destruct (decide (x = a)) as [->|]; [|by apply (g_tag m h Hg)].
    assert (t = ta) as -> by congruence. split; [done|]. split; [done|].
    intros i Hi. apply Hmpa. unfold sizeof_tag in *. lia.
Qed.

Lemma split_disjoints x y t' u' : tags h' !! x = Some t' → tags h' !! y = Some u' → x ≠ y →
  disjoint_range x (real_size t') y (real_size u').
Proof.
  destruct Htn as (Hmn & Hrsn & Hln & Hrn').
  destruct (g_tag m h Hg a ta Ha) as (Hma & Hsa & Hmpa).
  pose proof (geo_nz m h Hg a ta Ha) as Ha0. pose proof (geo_nonzero m h a ta Hg Ha) as Hap.
  pose proof split_right_facts as Hc.
  assert (nw ≠ 0) as Hnw0 by (unfold sizeof_tag in *; lia).
  intros [[-> ->]|(Hxn & t & Ht & ->)]%split_lookup
    [[-> ->]|(Hyn & u & Hu & ->)]%split_lookup Hxy; [done| | |]; cbn [cut real_size].
  + rewrite Hrsn. destruct (decide (y = a)) as [->|].
    * unfold disjoint_range. lia.
    * destruct (split_disjoint y u Hu) as [_ Hd]; [done|]. unfold disjoint_range in *. lia.
  + rewrite Hrsn. destruct (decide (x = a)) as [->|].
    * unfold disjoint_range. lia.
    * destruct (split_disjoint x t Ht) as [_ Hd]; [done|]. unfold disjoint_range in *. lia.
  + destruct (decide (x = a)) as [->|]; [|destruct (decide (y = a)) as [->|]].
    * rewrite decide_False by done.
      destruct (split_disjoint y u Hu) as [Hd _]; [done|]. unfold disjoint_range in *. lia.
    * by destruct (split_disjoint x t Ht).
    * by apply (g_disjoint m h Hg).
Qed.

Lemma split_rights x t' : tags h' !! x = Some t' → split_right t' ≠ 0 →
  split_right t' = x + real_size t' ∧
  ∃ u, tags h' !! split_right t' = Some u ∧ split_left u = x.
Proof.
  destruct Htn as (Hmn & Hrsn & Hln & Hrn').
  destruct (g_tag m h Hg a ta Ha) as (Hma & Hsa & Hmpa).
  pose proof (geo_nz m h Hg a ta Ha) as Ha0. pose proof (geo_nonzero m h a ta Hg Ha) as Hap.
  pose proof split_right_facts as Hc.
  assert (nw ≠ 0) as Hnw0 by (unfold sizeof_tag in *; lia).
  intros [[-> ->]|(Hxn & t & Ht & ->)]%split_lookup.
  + rewrite Hrn', Hrsn. intros Hn. destruct (Hc Hn) as (Hceq & tc & Htc & Hlc).
    split; [lia|]. eexists. split; [by apply (split_to _ tc)|]. cbn [cut split_left].
    by rewrite decide_True.
  + cbn [cut split_right real_size]. destruct (decide (x = a)) as [->|Hxa]; intros Hn.
    * split; [done|]. exists tn. split; [apply split_new|done].
    * destruct (g_right m h Hg x t Ht Hn) as (Hxeq & u & Hu & Hlu). split; [done|].
      eexists. split; [by apply (split_to _ u)|]. cbn [cut split_left].
      rewrite decide_False; [done|]. intros [Hyc Hc0].
      destruct (Hc Hc0) as (_ & tc & Htc & Hlc). congruence.
Qed.

Lemma split_lefts x t' : tags h' !! x = Some t' → split_left t' ≠ 0 →
  ∃ u, tags h' !! split_left t' = Some u ∧ split_right u = x.
Proof.
  destruct Htn as (Hmn & Hrsn & Hln & Hrn').
  destruct (g_tag m h Hg a ta Ha) as (Hma & Hsa & Hmpa).
  pose proof (geo_nz m h Hg a ta Ha) as Ha0. pose proof (geo_nonzero m h a ta Hg Ha) as Hap.
  pose proof split_right_facts as Hc.
  assert (nw ≠ 0) as Hnw0 by (unfold sizeof_tag in *; lia).
  intros [[-> ->]|(Hxn & t & Ht & ->)]%split_lookup.
  + rewrite Hln. intros _. eexists. split; [by apply (split_to _ ta)|]. cbn [cut split_right].
    by rewrite decide_True.
  + cbn [cut split_left].
    destruct (decide (x = split_right ta ∧ split_right ta ≠ 0)) as [[-> Hc0]|Hxc]; intros Hn.
    * exists tn. split; [apply split_new|done].
    * destruct (g_left m h Hg x t Ht Hn) as (u & Hu & Hru).
      eexists. split; [by apply (split_to _ u)|]. cbn [cut split_right].
      rewrite decide_False; [done|]. intros Hya. rewrite Hya in Hu.
      assert (u = ta) as -> by congruence. apply Hxc. split; [done|].
      rewrite Hru. by eapply geo_nz.
Qed.

Lemma split_regions x t' : tags h' !! x = Some t' → ∃ p n, hregion (pages h') p n ∧
  p ≤ x ∧ x + real_size t' ≤ p + n * PAGE_SIZE ∧
  (split_left t' = 0 ↔ x = p) ∧ (split_right t' = 0 ↔ x + real_size t' = p + n * PAGE_SIZE).
Proof.
  destruct Htn as (Hmn & Hrsn & Hln & Hrn').
  destruct (g_tag m h Hg a ta Ha) as (Hma & Hsa & Hmpa).
  pose proof (geo_nz m h Hg a ta Ha) as Ha0. pose proof (geo_nonzero m h a ta Hg Ha) as Hap.
  pose proof split_right_facts as Hc.
  assert (nw ≠ 0) as Hnw0 by (unfold sizeof_tag in *; lia).
  intros [[-> ->]|(Hxn & t & Ht & ->)]%split_lookup; rewrite Hpg.
  + destruct (g_region m h Hg a ta Ha) as (p & n & Hr & Hp & Hn & Hlp & Hrp).
    exists p, n. rewrite Hrsn, Hln, Hrn'. unfold sizeof_tag in *.
    split; [done|]. split; [lia|]. split; [lia|]. split; [lia|]. rewrite Hrp. lia.
  + cbn [cut split_left split_right real_size].
    destruct (g_region m h Hg x t Ht) as (p & n & Hr & Hp & Hn & Hlp & Hrp).
    exists p, n. destruct (decide (x = a)) as [->|Hxa].
    * assert (t = ta) as -> by congruence. unfold sizeof_tag in *.
      rewrite decide_False by (intros [Hx0 Hc0]; destruct (Hc Hc0); lia).
      split; [done|]. split; [done|]. split; [lia|]. split; [done|]. lia.
    * split; [done|]. split; [done|]. split; [done|]. split; [|done].
      destruct (decide _) as [[-> Hc0]|]; [|done].
      destruct (Hc Hc0) as (_ & tc & Htc & Hlc). assert (tc = t) as -> by congruence.
      rewrite Hlc in Hlp. tauto.
Qed.

Lemma geo_split : geo m h'.
Proof.
  split; [exact split_tags|exact split_disjoints|exact split_rights|exact split_lefts|exact split_regions|].
  rewrite Hpg. by apply (g_pages m h).
Qed.
End split.

(** *** Melting *)

(** A block that is in no list may enter, change in or leave the store, and
    geometry may change. *)
Lemma dll_change h h' b :
  dll h → (∀ u, tags h !! b = Some u → index u = -1) →
  (∀ u, tags h' !! b = Some u → index u = -1 ∧ next u = 0 ∧ prev u = 0) →
  l_freePages h' = l_freePages h →
  (∀ x, x ≠ b → links_of <$> tags h' !! x = links_of <$> tags h !! x) → dll h'.
Proof.
  intros Hd Hb Hb' Hfr Hl.
  assert (∀ x t', tags h' !! x = Some t' → index t' = -1 ∧ next t' = 0 ∧ prev t' = 0 ∨
    ∃ t, tags h !! x = Some t ∧ index t' = index t ∧ next t' = next t ∧ prev t' = prev t) as Hfrom.
  { intros x t' Hx. destruct (decide (x = b)) as [->|Hne]; [left; by apply Hb'|right].
    specialize (Hl x Hne). rewrite Hx in Hl. destruct (tags h !! x) as [t|]; [|done].
    exists t. split; [done|]. by injection Hl. }
  assert (∀ x t, tags h !! x = Some t → index t ≠ -1 → ∃ t', tags h' !! x = Some t' ∧
    index t' = index t ∧ next t' = next t ∧ prev t' = prev t) as Hto.
  { intros x t Hx Hi. assert (x ≠ b) as Hne by (intros ->; by apply Hi, Hb).
    specialize (Hl x Hne). rewrite Hx in Hl.
    destruct (tags h' !! x) as [t'|]; [|done]. exists t'. split; [done|]. by injection Hl. }
  split.
  - rewrite Hfr. by apply d_length.
  - intros x t' [(-> & _)|(t & Ht & -> & _ & _)]%Hfrom; [by left|by apply (d_index h Hd x)].
  - intros x t' [(_ & -> & ->)|(t & Ht & -> & -> & ->)]%Hfrom; [done|by apply (d_out h Hd x)].
  - intros x t' [(-> & _)|(t & Ht & -> & _ & ->)]%Hfrom Hi Hp; [done|].
    destruct (d_prev h Hd x t Ht Hi Hp) as (u & Hu & Hiu & Hnu).
    destruct (Hto _ u Hu) as (u' & Hu' & Hiu' & Hnu' & _); [congruence|].
    exists u'. split; [done|]. split; congruence.
  - intros x t' [(-> & _)|(t & Ht & -> & _ & ->)]%Hfrom; [done|].
    rewrite Hfr. by apply (d_first h Hd x).
  - intros x t' [(-> & _)|(t & Ht & -> & -> & _)]%Hfrom Hi Hp; [done|].
    destruct (d_next h Hd x t Ht Hi Hp) as (u & Hu & Hiu & Hpu).
    destruct (Hto _ u Hu) as (u' & Hu' & Hiu' & _ & Hpu'); [congruence|].
    exists u'. split; [done|]. split; congruence.
  - intros i y Hy Hyn. rewrite Hfr in Hy.
    destruct (d_head h Hd i y Hy Hyn) as (u & Hu & Hiu & Hpu).
    destruct (Hto _ u Hu) as (u' & Hu' & Hiu' & _ & Hpu').
    { apply lookup_z_Some in Hy as [? _]. lia. }
    exists u'. split; [done|]. split; congruence.
Qed.

Lemma dll_without h h' b tb :
  dll h → tags h !! b = Some tb → index tb = -1 →
  tags h' !! b = None → l_freePages h' = l_freePages h →
  (∀ x, x ≠ b → links_of <$> tags h' !! x = links_of <$> tags h !! x) → dll h'.
Proof. intros Hd Hb Hib Hb' Hfr Hl. apply (dll_change h h' b); [done|congruence|congruence|done|done]. Qed.

(** What merging [b] into [a], both out of the lists, does to the invariant. *)
Record melted (a b : Z) (h h' : heap P) (ta tb : boundary_tag) : Prop := Melted {
  me_tags x : tags h' !! x =
    if decide (x = b) then None
    else merged a (split_right tb) (real_size ta + real_size tb) x <$> tags h !! x;
  me_free : l_freePages h' = l_freePages h;
  me_pages : pages h' = pages h;
  me_complete : l_completePages h' = l_completePages h;
  me_init : l_initialized h' = l_initialized h;
  me_lock : llock h' = llock h;
}.

Lemma melted_run m h a b ta tb :
  geo m h → tags h !! a = Some ta → tags h !! b = Some tb → split_right ta = b →
  ∃ h', (h1 ← upd a (set_real_size (u32 (real_size ta + real_size tb))) h;
         h1 ← upd a (set_split_right (split_right tb)) h1;
         h1 ← upd_if (split_right tb) (set_split_left a) h1;
         Done (a, set_tags h1 (delete b (tags h1)))) = Done (a, h') ∧
    melted a b h h' ta tb.
Proof.
  intros Hg Ha Hb Hab. destruct (merge_facts m h a b ta tb Hg Ha Hb Hab) as (Heq & Hl & Hne & Hc).
  destruct (merge_region m h a b ta tb Hg Ha Hb Hab) as (p & n & Hr & Hp & Hn & _).
  destruct (region_size p n _ (g_pages m h Hg) (proj1 Hr)) as (? & ? & _).
  destruct (geo_size m h a ta Hg Ha) as [? _]. destruct (geo_size m h b tb Hg Hb) as [? _].
  unfold PAGE_SIZE, sizeof_tag in *. rewrite u32_id by (simpl; lia).
  rewrite upd_Done by (by rewrite Ha). cbn [mbind res_bind].
  rewrite upd_Done by (apply is_Some_alter; by rewrite Ha). cbn [mbind res_bind].
  rewrite upd_if_Done.
  2: { intros Hc0. do 2 apply is_Some_alter. destruct (Hc Hc0) as (_ & tc & -> & _). done. }
  cbn [mbind res_bind]. eexists. split; [done|]. split; try done.
  intros x. cbn [tags set_tags]. destruct (decide (x = b)) as [->|Hxb]; [by rewrite lookup_delete_eq|].
  rewrite lookup_delete_ne by done. pose proof (geo_nz m h Hg a ta Ha).
  rewrite lookup_alter_if, !alter_is_if, !lookup_alter_if by done.
  destruct (tags h !! x) as [t|]; [|done]. cbn. f_equal. unfold merged.
  repeat case_bool_decide; repeat goal_decide as [|]; try tauto; by destruct t.
Qed.

Lemma melted_links a b h h' ta tb x :
  melted a b h h' ta tb → x ≠ b → links_of <$> tags h' !! x = links_of <$> tags h !! x.
Proof.
  intros Hm Hx. rewrite (me_tags _ _ _ _ _ _ Hm), decide_False by done.
  by destruct (tags h !! x).
Qed.

Lemma melted_from a b h h' ta tb x t' :
  melted a b h h' ta tb → tags h' !! x = Some t' →
  x ≠ b ∧ ∃ t, tags h !! x = Some t ∧
    t' = merged a (split_right tb) (real_size ta + real_size tb) x t.
Proof.
  intros Hm. rewrite (me_tags _ _ _ _ _ _ Hm). destruct (decide (x = b)); [done|].
  destruct (tags h !! x) as [t|]; [|done]. intros [= <-]. split; [done|]. by exists t.
Qed.

Lemma melted_to a b h h' ta tb x t :
  melted a b h h' ta tb → tags h !! x = Some t → x ≠ b →
  tags h' !! x = Some (merged a (split_right tb) (real_size ta + real_size tb) x t).
Proof. intros Hm Hx Hne. by rewrite (me_tags _ _ _ _ _ _ Hm), Hx, decide_False. Qed.

Lemma melted_size a b h h' ta tb :
  melted a b h h' ta tb → tags h !! b = Some tb → (base.size (tags h') < base.size (tags h))%nat.
Proof.
  intros Hm Hb. rewrite <-!size_dom. apply subset_size. split.
  - intros x [t' Ht']%elem_of_dom. destruct (melted_from _ _ _ _ _ _ _ _ Hm Ht') as (_ & t & Ht & _).
    apply elem_of_dom. eauto.
  - intros Hsub. assert (b ∈ dom (tags h')) as [t' Ht']%elem_of_dom.
    { apply Hsub, elem_of_dom. eauto. }
    by destruct (melted_from _ _ _ _ _ _ _ _ Hm Ht').
Qed.

(** Merging [b] into [a] and taking the result out of its list, in either
    order, seen from outside. *)
Record joined (a b : Z) (h h' : heap P) (ta tb : boundary_tag) : Prop := Joined {
  jo_from x t' : tags h' !! x = Some t' → x ≠ b ∧ ∃ t, tags h !! x = Some t ∧
    size t' = size t ∧ index t' = (if decide (x = a) then -1 else index t) ∧
    real_size t' = (if decide (x = a) then real_size ta + real_size tb else real_size t) ∧
    split_left t' = (if decide (x = split_right tb ∧ split_right tb ≠ 0) then a else split_left t) ∧
    split_right t' = (if decide (x = a) then split_right tb else split_right t);
  jo_to x t : tags h !! x = Some t → x ≠ b → is_Some (tags h' !! x);
}.

Lemma joined_fits cur a b h h' ta tb :
  joined a b h h' ta tb → cur = a ∨ cur = b → fits_all cur h → fits_all a h'.
Proof.
  intros Hj Hcur Hf x t' Hx Hi Hxa.
  destruct (jo_from _ _ _ _ _ _ Hj x t' Hx) as (Hxb & t & Ht & Hs & Hit & Hr & _).
  rewrite decide_False in Hr, Hit by done. rewrite Hs, Hr. apply (Hf x); [done|congruence|].
  destruct Hcur; congruence.
Qed.

Lemma joined_coalesced a b h h' ta tb :
  joined a b h h' ta tb → coalesced h → coalesced h'.
Proof.
  intros Hj Hc x t' y u' Hx Hy Hi Hor.
  destruct (jo_from _ _ _ _ _ _ Hj x t' Hx) as (Hxb & t & Ht & _ & Hit & _ & Hsl & Hsr).
  destruct (jo_from _ _ _ _ _ _ Hj y u' Hy) as (Hyb & u & Hu & _ & Hiu & _).
  rewrite Hiu. goal_decide as [|Hya]; [done|].
  destruct (decide (x = a)) as [|Hxa]; [congruence|]. rewrite Hit in Hi.
  apply (Hc x t y u); try done. rewrite Hsl, Hsr in Hor.
  destruct (decide (x = split_right tb ∧ split_right tb ≠ 0)); [|done].
  destruct Hor; [congruence|by right].
Qed.

Lemma joined_live cur a b h h' ta tb x n :
  joined a b h h' ta tb → tags h !! a = Some ta → tags h !! b = Some tb →
  cur = a ∧ index tb ≠ -1 ∨ cur = b ∧ index ta ≠ -1 →
  live_but a h' x n ↔ live_but cur h x n.
Proof.
  intros Hj Ha Hb Hcur. split.
  - intros (t' & Ht' & Hi & Hn & Hxa).
    destruct (jo_from _ _ _ _ _ _ Hj x t' Ht') as (Hxb & t & Ht & Hs & Hit & _).
    rewrite decide_False in Hit by done. exists t. split_and!; [done|congruence|congruence|].
    destruct Hcur as [[-> _]|[-> _]]; done.
  - intros (t & Ht & Hi & Hn & Hxc).
    assert (x ≠ a ∧ x ≠ b) as [Hxa Hxb].
    { split; intros ->; destruct Hcur as [[-> Hf]|[-> Hf]]; congruence. }
    destruct (jo_to _ _ _ _ _ _ Hj x t Ht Hxb) as [t' Ht'].
    destruct (jo_from _ _ _ _ _ _ Hj x t' Ht') as (_ & t1 & Ht1 & Hs & Hit & _).
    rewrite decide_False in Hit by done. assert (t1 = t) as -> by congruence.
    exists t'. split_and!; [done|congruence|congruence|done].
Qed.

(** One round of either melting loop: the block in hand grows. *)
Record melt_step (m : mem) (cur cur' : Z) (h h' : heap P) : Prop := MeltStep {
  ms_inv : hinv cur' m h';
  ms_tag : ∃ t', tags h' !! cur' = Some t' ∧ index t' = -1;
  ms_size : (base.size (tags h') < base.size (tags h))%nat;
  ms_live x n : live_but cur' h' x n ↔ live_but cur h x n;
  ms_lock : llock h' = llock h;
}.

Lemma joined_melt_step m cur a b h h' ta tb :
  hinv cur m h → tags h !! a = Some ta → tags h !! b = Some tb →
  cur = a ∧ index tb ≠ -1 ∨ cur = b ∧ index ta ≠ -1 →
  joined a b h h' ta tb → geo m h' → dll h' → (base.size (tags h') < base.size (tags h))%nat →
  l_completePages h' = l_completePages h → l_initialized h' = l_initialized h →
  llock h' = llock h → a ≠ b → melt_step m cur a h h'.
Proof.
  intros [Hg Hd Hc Hf Hlc Hin] Ha Hb Hcur Hj Hg' Hd' Hsz Hcp Hi Hl Hab.
  split; [split|..]; try done.
  - by eapply joined_coalesced.
  - eapply joined_fits; [done| |done]. tauto.
  - by rewrite Hcp.
  - congruence.
  - destruct (jo_to _ _ _ _ _ _ Hj a ta Ha Hab) as [t' Ht']. exists t'. split; [done|].
    destruct (jo_from _ _ _ _ _ _ Hj a t' Ht') as (_ & ? & _ & _ & -> & _).
    by rewrite decide_True.
  - intros x n. by eapply joined_live.
Qed.

Lemma geo_of_fields t u : geo_of t = geo_of u →
  magic t = magic u ∧ size t = size u ∧ real_size t = real_size u ∧
  split_left t = split_left u ∧ split_right t = split_right u.
Proof. by intros [= -> -> -> -> ->]. Qed.

Lemma relink_from a i h h' x t' : relink a i h h' → tags h' !! x = Some t' →
  ∃ t, tags h !! x = Some t ∧ size t' = size t ∧ real_size t' = real_size t ∧
    split_left t' = split_left t ∧ split_right t' = split_right t ∧
    index t' = if decide (x = a) then i else index t.
Proof.
  intros Hr Ht'. destruct (geo_lookup h h' x t' (rl_geo _ _ _ _ Hr) Ht') as (t & Ht & Hgeo).
  apply geo_of_fields in Hgeo as (_ & ? & ? & ? & ?).
  exists t. split_and!; try done. by eapply rl_index.
Qed.

Lemma relink_to a i h h' x t : relink a i h h' → tags h !! x = Some t →
  ∃ t', tags h' !! x = Some t' ∧ size t' = size t ∧ real_size t' = real_size t ∧
    split_left t' = split_left t ∧ split_right t' = split_right t ∧
    index t' = if decide (x = a) then i else index t.
Proof.
  intros Hr Ht. pose proof (rl_geo _ _ _ _ Hr x) as Hg. rewrite Ht in Hg.
  destruct (tags h' !! x) as [t'|] eqn:Ht'; [|done].
  destruct (relink_from a i h h' x t' Hr Ht') as (t1 & Ht1 & Hrest).
  assert (t1 = t) as -> by congruence. by exists t'.
Qed.

Lemma relink_size a i h h' : relink a i h h' → base.size (tags h') = base.size (tags h).
Proof.
  intros Hr. rewrite <-!size_dom. f_equal. apply set_eq. intros x. rewrite !elem_of_dom.
  split; intros [t Ht]; [destruct (relink_from _ _ _ _ _ _ Hr Ht) as (u & Hu & _)
    |destruct (relink_to _ _ _ _ _ _ Hr Ht) as (u & Hu & _)]; eauto.
Qed.

(** The round of the first loop: [left] is free, it takes in [cur]. *)
Lemma melt_left_step m h cur t l tl :
  hinv cur m h → tags h !! cur = Some t → index t = -1 → split_left t = l →
  tags h !! l = Some tl → index tl ≠ -1 →
  ∃ h1 h', melt_left cur h = Done (l, h1) ∧ remove_tag l h1 = Done h' ∧
    melt_step m cur l h h'.
Proof.
  intros Hinv Ht Hi Hsl Hl Hil. destruct (Hinv) as [Hg Hd _ _ _ _].
  pose proof (geo_nz m h Hg l tl Hl) as Hl0.
  destruct (g_left m h Hg cur t Ht) as (u & Hu & Hru); [congruence|].
  rewrite Hsl in Hu. assert (u = tl) as -> by congruence.
  destruct (melted_run m h l cur tl t Hg Hl Ht Hru) as (h1 & Hr1 & Hm).
  destruct (merge_facts m h l cur tl t Hg Hl Ht Hru) as (_ & _ & Hne & _).
  assert (geo m h1) as Hg1.
  { eapply (geo_merge m h h1 l cur tl t); try done; by apply Hm. }
  assert (dll h1) as Hd1.
  { eapply (dll_without h h1 cur t); try done; [|by apply Hm|].
    - by rewrite (me_tags _ _ _ _ _ _ Hm), decide_True.
    - intros x Hx. by eapply melted_links. }
  pose proof (melted_to _ _ _ _ _ _ _ _ Hm Hl Hne) as Hl1.
  destruct (remove_tag_spec h1 l _ Hd1 (geo_nz m h1 Hg1) Hl1) as (h' & Hr2 & Hd' & Hrl); [done|].
  exists h1, h'. split.
  { unfold melt_left, tag_at. rewrite Ht. cbn [of_option mbind res_bind]. rewrite Hsl, Hl.
    exact Hr1. }
  split; [done|]. destruct Hm as [Htg Hfr Hpg Hcp Hin Hlk].
  eapply (joined_melt_step m cur l cur h h' tl t); try done; [by right| | | | | |].
  - split.
    + intros x t' Hx. destruct (relink_from _ _ _ _ _ _ Hrl Hx) as (t1 & Ht1 & -> & -> & -> & -> & ->).
      rewrite Htg in Ht1. destruct (decide (x = cur)) as [|Hxc]; [done|]. split; [done|].
      destruct (tags h !! x) as [t0|]; [|done]. injection Ht1 as <-. exists t0. done.
    + intros x t0 Hx Hxc. specialize (Htg x). rewrite Hx, decide_False in Htg by done.
      destruct (relink_to _ _ _ _ _ _ Hrl Htg) as (t' & -> & _). done.
  - by eapply geo_relink.
  - rewrite (relink_size _ _ _ _ Hrl). by eapply (melted_size l cur h h1 tl t).
  - by rewrite (rl_complete _ _ _ _ Hrl).
  - by rewrite (rl_init _ _ _ _ Hrl).
  - by rewrite (rl_lock _ _ _ _ Hrl).
Qed.

(** The round of the second loop: [right] is free and is absorbed. *)
Lemma absorb_right_step m h cur t r tr :
  hinv cur m h → tags h !! cur = Some t → index t = -1 → split_right t = r →
  tags h !! r = Some tr → index tr ≠ -1 →
  ∃ h', absorb_right cur h = Done (cur, h') ∧ melt_step m cur cur h h' ∧
    joined cur r h h' t tr.
Proof.
  intros Hinv Ht Hi Hsr Hr Hir. destruct (Hinv) as [Hg Hd _ _ _ _].
  destruct (remove_tag_spec h r tr Hd (geo_nz m h Hg) Hr Hir) as (h1 & Hr1 & Hd1 & Hrl).
  destruct (merge_facts m h cur r t tr Hg Ht Hr Hsr) as (_ & _ & Hne & _).
  assert (geo m h1) as Hg1 by by eapply geo_relink.
  destruct (relink_to _ _ _ _ _ _ Hrl Ht) as (t1 & Ht1 & _ & Hrs1 & _ & Hsr1 & Hi1).
  destruct (relink_to _ _ _ _ _ _ Hrl Hr) as (tr1 & Htr1 & _ & Hrsr1 & _ & Hsrr1 & Hir1).
  rewrite decide_True in Hir1 by done.
  destruct (melted_run m h1 cur r t1 tr1 Hg1 Ht1 Htr1) as (h' & Hr2 & Hm); [congruence|].
  assert (geo m h') as Hg'.
  { eapply (geo_merge m h1 h' cur r t1 tr1); try done; [congruence|by apply Hm..]. }
  exists h'. split.
  { unfold absorb_right, tag_at. rewrite Ht. cbn [of_option mbind res_bind]. rewrite Hsr, Hr1.
    cbn [mbind res_bind]. rewrite Ht1. cbn [of_option mbind res_bind]. rewrite Htr1.
    exact Hr2. }
  assert (joined cur r h h' t tr) as Hj.
  { split.
    + intros x t' Hx. destruct (melted_from _ _ _ _ _ _ _ _ Hm Hx) as (Hxr & u & Hu & ->).
      split; [done|].
      destruct (relink_from _ _ _ _ _ _ Hrl Hu) as (t0 & Ht0 & Hs & Hrs & Hl & Hsrt & Hix).
      exists t0. cbn [merged size index real_size split_left split_right].
      rewrite Hs, Hrs, Hl, Hsrt, Hrs1, Hrsr1, Hsrr1, Hix. rewrite (decide_False (P:=x = r)) by done.
      split; [done|]. split; [done|]. split; [|done].
      goal_decide as [->|]; [congruence|done].
    + intros x t0 Hx Hxr. destruct (relink_to _ _ _ _ _ _ Hrl Hx) as (u & Hu & _).
      rewrite (melted_to _ _ _ _ _ _ _ _ Hm Hu Hxr). done. }
  split; [|done].
  eapply (joined_melt_step m cur cur r h h' t tr); try done; [by left| | | | |].
  - eapply (dll_without h1 h' r tr1); try done; [|by apply Hm|].
    + by rewrite (me_tags _ _ _ _ _ _ Hm), decide_True.
    + intros x Hx. by eapply melted_links.
  - rewrite <-(relink_size _ _ _ _ Hrl). by eapply (melted_size cur r h1 h' t1 tr1).
  - by rewrite (me_complete _ _ _ _ _ _ Hm), (rl_complete _ _ _ _ Hrl).
  - by rewrite (me_init _ _ _ _ _ _ Hm), (rl_init _ _ _ _ Hrl).
  - by rewrite (me_lock _ _ _ _ _ _ Hm), (rl_lock _ _ _ _ Hrl).
Qed.

(** The left neighbour of [cur], if there is one, is in use; and the right one. *)
Definition left_used (cur : Z) h : Prop :=
  ∀ t, tags h !! cur = Some t → split_left t = 0 ∨
    ∃ u, tags h !! split_left t = Some u ∧ index u = -1.
Definition right_used (cur : Z) h : Prop :=
  ∀ t, tags h !! cur = Some t → split_right t = 0 ∨
    ∃ u, tags h !! split_right t = Some u ∧ index u = -1.

(** The block in hand during [free], compared with the one it started from. *)
Record in_hand (m : mem) (cur0 : Z) (h0 : heap P) (cur : Z) (h : heap P) : Prop := InHand {
  ih_inv : hinv cur m h;
  ih_tag : ∃ t, tags h !! cur = Some t ∧ index t = -1;
  ih_live x n : live_but cur h x n ↔ live_but cur0 h0 x n;
  ih_lock : llock h = llock h0;
}.

Lemma melt_step_hand m cur0 h0 cur h cur' h' :
  in_hand m cur0 h0 cur h → melt_step m cur cur' h h' → in_hand m cur0 h0 cur' h'.
Proof.
  intros [_ _ Hl Hk] [Hi Ht _ Hl' Hk']. split; [done|done| |congruence].
  intros x n. by rewrite Hl'.
Qed.

Lemma joined_left_used m h cur r h' t tr :
  geo m h → tags h !! cur = Some t → tags h !! r = Some tr → split_right t = r →
  index tr ≠ -1 → joined cur r h h' t tr → left_used cur h → left_used cur h'.
Proof.
  intros Hg Ht Hr Hsr Hir Hj Hlu t' Ht'.
  destruct (merge_facts m h cur r t tr Hg Ht Hr Hsr) as (Heq & _ & _ & Hc).
  destruct (geo_size m h cur t Hg Ht) as [? _]. destruct (geo_size m h r tr Hg Hr) as [? _].
  destruct (jo_from _ _ _ _ _ _ Hj cur t' Ht') as (_ & t0 & Ht0 & _ & _ & _ & Hsl & _).
  assert (t0 = t) as -> by congruence. unfold sizeof_tag in *.
  rewrite decide_False in Hsl by (intros [Hx Hc0]; destruct (Hc Hc0); lia).
  rewrite Hsl. destruct (Hlu t Ht) as [|(u & Hu & Hiu)]; [by left|right].
  destruct (jo_to _ _ _ _ _ _ Hj _ u Hu) as [u' Hu']; [intros Heq'; congruence|].
  exists u'. split; [done|].
  destruct (jo_from _ _ _ _ _ _ Hj _ u' Hu') as (_ & u0 & Hu0 & _ & Hi0 & _).
  assert (u0 = u) as -> by congruence. rewrite Hi0. by goal_decide as [|].
Qed.

Lemma index_test h x t : dll h → tags h !! x = Some t → (0 <=? index t) = negb (index t =? -1).
Proof.
  intros Hd Ht. destruct (d_index h Hd x t Ht) as [->|]; [done|].
  destruct (Z.leb_spec 0 (index t)); [|lia]. by rewrite (proj2 (Z.eqb_neq _ (-1))) by lia.
Qed.

Lemma melt_lefts_spec m cur h :
  in_hand m cur h cur h →
  ∃ cur' h', melt_lefts (S (base.size (tags h))) cur h = Done (cur', h') ∧
    in_hand m cur h cur' h' ∧ left_used cur' h'.
Proof.
  intros Hih. unfold melt_lefts.
  match goal with |- context [while_loop _ ?b _] =>
    destruct (while_loop_inv (λ st, in_hand m cur h st.1 st.2)
      (λ st, in_hand m cur h st.1 st.2 ∧ left_used st.1 st.2)
      (λ st, base.size (tags st.2)) (S (base.size (tags h))) b (cur, h))
      as ([cur' h'] & Hr & Hq) end; [done|simpl; lia| |by exists cur', h'].
  intros [c k] Hk. simpl in Hk. destruct (ih_tag _ _ _ _ _ Hk) as (t & Ht & Hi).
  pose proof (ih_inv _ _ _ _ _ Hk) as Hinv. pose proof (hv_dll _ _ _ Hinv) as Hd.
  pose proof (hv_geo _ _ _ Hinv) as Hg.
  unfold tag_at. rewrite Ht. cbn [of_option mbind res_bind].
  destruct (Z.eqb_spec (split_left t) 0) as [Hz|Hz]; cbn [negb mbind res_bind].
  { right. eexists. split; [done|]. split; [done|]. intros t' Ht'. left. simpl in Ht'. congruence. }
  destruct (g_left m k Hg c t Ht Hz) as (u & Hu & Hru). rewrite Hu. cbn [of_option mbind res_bind].
  rewrite (index_test k _ u Hd Hu). destruct (Z.eqb_spec (index u) (-1)) as [Hu1|Hu1]; cbn [negb].
  - right. eexists. split; [done|]. split; [done|]. intros t' Ht'. right. simpl in Ht'.
    assert (t' = t) as -> by congruence. by exists u.
  - left. destruct (melt_left_step m k c t _ u Hinv Ht Hi eq_refl Hu Hu1)
      as (h1 & h2 & Hm1 & Hm2 & Hst).
    rewrite Hm1. cbn [mbind res_bind]. rewrite Hm2. cbn [mbind res_bind].
    eexists. split; [done|]. split; [by eapply melt_step_hand|]. by apply Hst.
Qed.

Lemma melt_rights_spec m cur0 h0 cur h :
  in_hand m cur0 h0 cur h → left_used cur h →
  ∃ h', melt_rights (S (base.size (tags h))) cur h = Done (cur, h') ∧
    in_hand m cur0 h0 cur h' ∧ left_used cur h' ∧ right_used cur h'.
Proof.
  intros Hih Hlu. unfold melt_rights.
  match goal with |- context [while_loop _ ?b _] =>
    destruct (while_loop_inv (λ st, st.1 = cur ∧ in_hand m cur0 h0 st.1 st.2 ∧ left_used st.1 st.2)
      (λ st, st.1 = cur ∧ in_hand m cur0 h0 st.1 st.2 ∧ left_used st.1 st.2 ∧ right_used st.1 st.2)
      (λ st, base.size (tags st.2)) (S (base.size (tags h))) b (cur, h))
      as ([cur' h'] & Hr & Hq) end; [done|simpl; lia| |].
  2: { simpl in Hq. destruct Hq as [-> Hq]. by exists h'. }
  intros [c k] (Hc & Hk & Hl). simpl in Hc, Hk, Hl. subst c.
  destruct (ih_tag _ _ _ _ _ Hk) as (t & Ht & Hi).
  pose proof (ih_inv _ _ _ _ _ Hk) as Hinv. pose proof (hv_dll _ _ _ Hinv) as Hd.
  pose proof (hv_geo _ _ _ Hinv) as Hg.
  unfold tag_at. rewrite Ht. cbn [of_option mbind res_bind].
  destruct (Z.eqb_spec (split_right t) 0) as [Hz|Hz]; cbn [negb mbind res_bind].
  { right. eexists. split; [done|]. split; [done|]. split; [done|]. split; [done|].
    intros t' Ht'. left. simpl in Ht'. congruence. }
  destruct (g_right m k Hg cur t Ht Hz) as (_ & u & Hu & Hru). rewrite Hu.
  cbn [of_option mbind res_bind].
  rewrite (index_test k _ u Hd Hu). destruct (Z.eqb_spec (index u) (-1)) as [Hu1|Hu1]; cbn [negb].
  - right. eexists. split; [done|]. split; [done|]. split; [done|]. split; [done|].
    intros t' Ht'. right. simpl in Ht'. assert (t' = t) as -> by congruence. by exists u.
  - left. destruct (absorb_right_step m k cur t _ u Hinv Ht Hi eq_refl Hu Hu1)
      as (h2 & Hm2 & Hst & Hj).
    rewrite Hm2. cbn [mbind res_bind]. eexists. split; [done|]. split; [|by apply Hst].
    split; [done|]. split; [by eapply melt_step_hand|].
    by eapply (joined_left_used m k cur _ h2 t u).
Qed.
End operations.
