(* ===== verification/AllocSpec.v ===== *)
(** * The heap: what [malloc], [free], [calloc] and [realloc] promise

    Against any source of pages ([Pages.v]); [BumpPages.v] has one. *)

From S2P Require Import Prelude CInt Mem Lock Arch Frames Pages Alloc AllocInv.

Section operations.
Context {P : Type} `{PageSourceLaws P} (junk : Z).
Implicit Types (h : heap P) (m : mem) (t u : boundary_tag).

(** *** [free] *)

(** No block is its own neighbour; neighbours of [cur] are in use. *)
Lemma not_own_neighbour m h a t :
  geo m h → tags h !! a = Some t → a ≠ split_left t ∧ a ≠ split_right t.
Proof.
  intros Hg Ht. pose proof (geo_nz m h Hg a t Ht) as Ha.
  destruct (geo_size m h a t Hg Ht) as [? _]. unfold sizeof_tag in *. split; intros Heq.
  - destruct (g_left m h Hg a t Ht) as (u & Hu & Hru); [congruence|].
    rewrite <-Heq in Hu. assert (u = t) as -> by congruence.
    destruct (g_right m h Hg a t Ht) as [? _]; [congruence|]. lia.
  - destruct (g_right m h Hg a t Ht) as [? _]; [congruence|]. lia.
Qed.

Lemma neighbour_used m h cur t x t0 :
  geo m h → left_used cur h → right_used cur h → tags h !! cur = Some t →
  tags h !! x = Some t0 → cur = split_left t0 ∨ cur = split_right t0 → index t0 = -1.
Proof.
  intros Hg Hl Hr Ht Hx Hor. pose proof (geo_nz m h Hg cur t Ht).
  pose proof (geo_nz m h Hg x t0 Hx). destruct Hor as [Hor|Hor].
  - destruct (g_left m h Hg x t0 Hx) as (u & Hu & Hru); [congruence|].
    rewrite <-Hor in Hu. assert (u = t) as -> by congruence.
    destruct (Hr t Ht) as [Hz|(v & Hv & Hiv)]; [congruence|]. rewrite Hru in Hv. congruence.
  - destruct (g_right m h Hg x t0 Hx) as (_ & u & Hu & Hlu); [congruence|].
    rewrite <-Hor in Hu. assert (u = t) as -> by congruence.
    destruct (Hl t Ht) as [Hz|(v & Hv & Hiv)]; [congruence|]. rewrite Hlu in Hv. congruence.
Qed.

Lemma relink_coalesced m h h' cur i t :
  geo m h → coalesced h → left_used cur h → right_used cur h → tags h !! cur = Some t →
  relink cur i h h' → coalesced h'.
Proof.
  intros Hg Hc Hl Hr Ht Hrl x t' y u' Hx Hy Hxi Hor.
  destruct (relink_from _ _ _ _ _ _ Hrl Hx) as (t0 & Ht0 & _ & _ & Hsl & Hsr & Hix).
  destruct (relink_from _ _ _ _ _ _ Hrl Hy) as (u0 & Hu0 & _ & _ & _ & _ & Hiy).
  rewrite Hsl, Hsr in Hor. destruct (not_own_neighbour m h x t0 Hg Ht0) as [Hnl Hnr].
  rewrite Hiy. destruct (decide (y = cur)) as [->|Hyc].
  - exfalso. rewrite decide_False in Hix by (intros ->; destruct Hor; congruence).
    apply Hxi. rewrite Hix. by eapply (neighbour_used m h cur t x t0).
  - destruct (decide (x = cur)) as [->|Hxc].
    + assert (t0 = t) as -> by congruence. pose proof (geo_nz m h Hg y u0 Hu0).
      destruct Hor as [-> | ->]; [destruct (Hl t Ht) as [Hz|(v & Hv & Hiv)]
        |destruct (Hr t Ht) as [Hz|(v & Hv & Hiv)]]; congruence.
    + rewrite Hix in Hxi. by apply (Hc x t0 y u0).
Qed.

(** What no list operation touches. *)
Definition same_env (h h' : heap P) : Prop := llock h' = llock h ∧ pages h' = pages h.

(** The block in hand goes into a list. *)
Lemma put_back_spec m cur h idx :
  hinv cur m h → (∃ t, tags h !! cur = Some t ∧ index t = -1) →
  left_used cur h → right_used cur h → idx < 0 ∨ 8 ≤ idx ≤ 30 →
  ∃ h', insert_tag cur idx h = Done h' ∧ hinv 0 m h' ∧ same_env h h' ∧
    ∀ x n, live_but 0 h' x n ↔ live_but cur h x n.
Proof.
  intros [Hg Hd Hc Hf Hcp Hin] (t & Ht & Hi) Hl Hr Hidx.
  destruct (insert_tag_spec m h cur t idx Hg Hd Ht Hi Hidx) as (h' & i & Hrun & Hd' & Hrl & Hir).
  exists h'. split; [done|]. split; [|split; [by split; [rewrite (rl_lock _ _ _ _ Hrl)|rewrite (rl_pages _ _ _ _ Hrl)]|]].
  - split; [by eapply geo_relink|done| | |by rewrite (rl_complete _ _ _ _ Hrl)
      |by rewrite (rl_init _ _ _ _ Hrl)].
    + by eapply relink_coalesced.
    + intros x t' Hx Hxi _.
      destruct (relink_from _ _ _ _ _ _ Hrl Hx) as (t0 & Ht0 & Hs & Hrs & _ & _ & Hix).
      rewrite Hs, Hrs. destruct (decide (x = cur)); [lia|]. apply (Hf x); [done|congruence|done].
  - intros x n. split.
    + intros (t' & Hx & Hxi & Hn & _).
      destruct (relink_from _ _ _ _ _ _ Hrl Hx) as (t0 & Ht0 & Hs & _ & _ & _ & Hix).
      destruct (decide (x = cur)); [lia|]. exists t0. split_and!; congruence.
    + intros (t0 & Ht0 & Hxi & Hn & Hxc).
      destruct (relink_to _ _ _ _ _ _ Hrl Ht0) as (t' & Hx & Hs & _ & _ & _ & Hix).
      rewrite decide_False in Hix by done. exists t'.
      split_and!; [done|congruence|congruence|by eapply geo_nz].
Qed.

(** The blocks without the only one of a run, which was [cur]. *)
Lemma geo_without m h h' cur t n :
  geo m h → tags h !! cur = Some t → split_left t = 0 → split_right t = 0 →
  hregion (pages h) cur n → real_size t = n * PAGE_SIZE →
  (∀ x u, tags h' !! x = Some u ↔ tags h !! x = Some u ∧ x ≠ cur) →
  pages_ok (pages h') → (∀ q k, region (pages h') q k ↔ region (pages h) q k ∧ q ≠ cur) →
  geo m h'.
Proof.
  intros Hg Ht Hl Hr [Hreg Hn16] Hrs Htg Hok Hregs.
  destruct (region_size cur n _ (g_pages m h Hg) Hreg) as (Hc0 & Hnr & Hb).
  split.
  - intros x u [Hu _]%Htg. by apply (g_tag m h Hg).
  - intros x y u v [Hu _]%Htg [Hv _]%Htg. by apply (g_disjoint m h Hg).
  - intros x u [Hu Hx]%Htg Hne. destruct (g_right m h Hg x u Hu Hne) as (Heq & v & Hv & Hlv).
    split; [done|]. exists v. split; [|done]. apply Htg. split; [done|].
    intros Hy. rewrite Hy in Hv. assert (v = t) as -> by congruence.
    apply (geo_nz m h Hg x u Hu). congruence.
  - intros x u [Hu Hx]%Htg Hne. destruct (g_left m h Hg x u Hu Hne) as (v & Hv & Hrv).
    exists v. split; [|done]. apply Htg. split; [done|].
    intros Hy. rewrite Hy in Hv. assert (v = t) as -> by congruence.
    apply (geo_nz m h Hg x u Hu). congruence.
  - intros x u [Hu Hx]%Htg. destruct (g_region m h Hg x u Hu) as (q & k & [Hq Hk] & Hrest).
    exists q, k. split; [|done]. split; [|done]. apply Hregs. split; [done|]. intros ->.
    assert (k = n) as -> by (eapply (region_once cur); [exact (g_pages m h Hg)|done..]).
    pose proof (g_disjoint m h Hg x cur u t Hu Ht Hx) as Hdj.
    destruct (geo_size m h x u Hg Hu) as [? _]. unfold disjoint_range, sizeof_tag in *. lia.
  - done.
Qed.

(** A whole run goes back to the pages. *)
Lemma release_spec m cur h t :
  hinv cur m h → tags h !! cur = Some t → index t = -1 →
  split_left t = 0 → split_right t = 0 →
  ∃ h', release cur h = Done h' ∧ hinv 0 m h' ∧ llock h' = llock h ∧
    ∀ x n, live_but 0 h' x n ↔ live_but cur h x n.
Proof.
  intros [Hg Hd Hc Hf Hcp Hin] Ht Hi Hl Hr.
  destruct (g_region m h Hg cur t Ht) as (p & n & [Hreg Hn16] & Hp & Hn & Hlp & Hrp).
  pose proof (proj1 Hlp Hl) as <-. pose proof (proj1 Hrp Hr) as Hend.
  destruct (region_size cur n _ (g_pages m h Hg) Hreg) as (Hc0 & Hnr & Hb).
  assert (real_size t = n * l_pageSize) as Hrs by (unfold PAGE_SIZE, l_pageSize in *; lia).
  destruct (free_pages_spec cur n _ (g_pages m h Hg) Hreg) as (s' & Hfree & Hok & Hregs).
  unfold release, tag_at. rewrite Ht. cbn [of_option mbind res_bind]. rewrite Hrs.
  rewrite Z_mod_mult, Z_div_mult_full by done. cbn [Z.eqb negb].
  rewrite (i32_id n) by (simpl; lia). unfold l_pageCount in *.
  destruct (Z.ltb_spec n 16); [lia|]. rewrite (i32_id n) by (simpl; lia). rewrite Hfree.
  cbn [mbind res_bind]. eexists. split; [done|].
  set (h' := set_tags _ _).
  assert (∀ x u, tags h' !! x = Some u ↔ tags h !! x = Some u ∧ x ≠ cur) as Htg.
  { intros x u. subst h'. cbn [tags set_tags]. rewrite lookup_delete_Some. naive_solver. }
  assert (geo m h') as Hg' by (apply (geo_without m h h' cur t n); done || lia).
  split; [split; [done| | | |done|done]|split; [done|]].
  - apply (dll_without h h' cur t); try done; [by apply lookup_delete_eq|].
    intros x Hx. subst h'. cbn [tags set_tags]. by rewrite lookup_delete_ne.
  - intros x u y v [Hu _]%Htg [Hv _]%Htg. exact (Hc x u y v Hu Hv).
  - intros x u [Hu Hx]%Htg Hiu _. exact (Hf x u Hu Hiu Hx).
  - intros x k. split.
    + intros (u & [Hu Hx]%Htg & Hiu & Hk & _). by exists u.
    + intros (u & Hu & Hiu & Hk & Hx). exists u. split; [by apply Htg|].
      split_and!; [done|done|exact (geo_nz m h Hg x u Hu)].
Qed.

Lemma live_tag m h a n : hinv 0 m h → live_but 0 h a n →
  ∃ t, tags h !! a = Some t ∧ index t = -1 ∧ size t = n ∧ magic t = LIBALLOC_MAGIC ∧
    0 ≤ n ∧ n + sizeof_tag ≤ real_size t ∧ 0 < a ∧ a + real_size t < 2 ^ 64.
Proof.
  intros Hinv (t & Ht & Hi & Hn & _). exists t. pose proof (hv_geo _ _ _ Hinv) as Hg.
  destruct (hv_fits _ _ _ Hinv a t Ht Hi) as [? ?]; [by eapply geo_nz|].
  destruct (geo_size m h a t Hg Ht) as [_ ?]. destruct (g_tag m h Hg a t Ht) as (? & _ & _).
  pose proof (geo_nonzero m h a t Hg Ht). split_and!; try done; lia.
Qed.

(** The invariant without [cur]: leaving a live block out of the count. *)
Lemma hinv_weaken m h a : hinv 0 m h → hinv a m h.
Proof.
  intros [Hg Hd Hc Hf Hcp Hin]. split; try done. intros x t Hx Hi _. apply (Hf x t Hx Hi).
  by eapply geo_nz.
Qed.

Lemma hinv_lock cur m h b : hinv cur m h → hinv cur m (set_llock h b).
Proof.
  intros [[H1 H2 H3 H4 H5 H6] [G1 G2 G3 G4 G5 G6 G7] Hc Hf Hcp Hin]. by split; [split|split|..].
Qed.

(** What is in use once the block in hand, which was [a] at first, is given back. *)
Lemma in_hand_live m h a c h2 h' :
  hinv 0 m h → in_hand m a (set_llock h true) c h2 →
  (∀ x k, live_but 0 h' x k ↔ live_but c h2 x k) →
  ∀ x k, live_but 0 (set_llock h' false) x k ↔ live_but 0 h x k ∧ x ≠ a.
Proof.
  intros Hinv Hih Hl' x k. rewrite (Hl' x k : live_but 0 (set_llock h' false) x k ↔ _).
  rewrite (ih_live _ _ _ _ _ Hih). split.
  - intros (u & Hu & Hiu & Hk & Hxa). split; [|done]. exists u.
    split_and!; try done. by eapply (geo_nz m h (hv_geo _ _ _ Hinv)).
  - intros [(u & Hu & Hiu & Hk & _) Hxa]. by exists u.
Qed.

Lemma free_spec m h a n :
  hinv 0 m h → llock h = false → live_but 0 h a n →
  ∃ h', free (a + sizeof_tag) h = Done h' ∧ hinv 0 m h' ∧ llock h' = false ∧
    ∀ x k, live_but 0 h' x k ↔ live_but 0 h x k ∧ x ≠ a.
Proof.
  intros Hinv Hlk Hlive. destruct (live_tag m h a n Hinv Hlive)
    as (t & Ht & Hi & Hn & Hmg & Hn0 & Hfit & Ha & Hb).
  unfold free. unfold sizeof_tag in *. rewrite (proj2 (Z.eqb_neq _ 0)) by lia.
  rewrite Hlk, spin_lock_free. cbn [mbind res_bind].
  rewrite Z.add_simpl_r, u64_id by (simpl; lia).
  unfold tag_at. cbn [set_llock tags]. rewrite Ht. cbn [of_option mbind res_bind].
  rewrite Hmg, Z.eqb_refl. cbn [negb].
  set (h0 := set_llock h true).
  assert (in_hand m a h0 a h0) as Hih.
  { split; [by apply hinv_lock, hinv_weaken|by exists t|done|done]. }
  change (tags h) with (tags h0).
  destruct (melt_lefts_spec m a h0 Hih) as (c & h1 & -> & Hih1 & Hlu1). cbn [mbind res_bind].
  destruct (melt_rights_spec m a h0 c h1 Hih1 Hlu1) as (h2 & -> & Hih2 & Hlu & Hru).
  cbn [mbind res_bind]. destruct (ih_tag _ _ _ _ _ Hih2) as (t2 & Ht2 & Hi2). rewrite Ht2.
  cbn [of_option mbind res_bind]. pose proof (ih_inv _ _ _ _ _ Hih2) as Hinv2.
  destruct (payload_range m h2 c t2 (hv_geo _ _ _ Hinv2) Ht2) as [_ Hpl].
  destruct (list_index_spec (payload t2)) as (idx & -> & Hidx); [lia|]. cbn [mbind res_bind].
  pose proof (in_hand_live m h a c h2) as Hl.
  assert (∀ h3, hinv c m h3 → tags h3 = tags h2 → llock h3 = llock h2 →
    ∃ h', (h ← insert_tag c idx h3; Done (set_llock h (spin_release (llock h)))) = Done h' ∧
      hinv 0 m h' ∧ llock h' = false ∧
      ∀ x k, live_but 0 h' x k ↔ live_but 0 h x k ∧ x ≠ a) as Hput.
  { intros h3 Hinv3 Htg Hlk3.
    destruct (put_back_spec m c h3 idx Hinv3) as (h4 & -> & Hinv4 & [Hlk4 _] & Hl4).
    { exists t2. by rewrite Htg. }
    { unfold left_used. by rewrite Htg. }
    { unfold right_used. by rewrite Htg. }
    { by right. }
    cbn [mbind res_bind]. eexists. split; [done|]. split; [by apply hinv_lock|]. split; [done|].
    apply Hl; [done..|]. intros x k. rewrite Hl4. unfold live_but. by rewrite Htg. }
  destruct ((split_left t2 =? 0) && (split_right t2 =? 0)) eqn:Hw; [|by apply Hput].
  apply andb_true_iff in Hw as [Hwl%Z.eqb_eq Hwr%Z.eqb_eq].
  destruct (proj2 (lookup_z_is_Some (l_completePages h2) idx)) as [cnt Hcnt].
  { rewrite (hv_complete _ _ _ Hinv2). lia. }
  unfold get_complete. rewrite Hcnt. cbn [of_option mbind res_bind].
  destruct (Z.eqb_spec cnt MAXCOMPLETE).
  - destruct (release_spec m c h2 t2 Hinv2 Ht2 Hi2 Hwl Hwr) as (h3 & -> & Hinv3 & Hlk3 & Hl3).
    cbn [mbind res_bind]. eexists. split; [done|]. split; [by apply hinv_lock|]. split; [done|].
    by apply Hl.
  - unfold put_complete, get_complete. rewrite Hcnt. cbn [of_option mbind res_bind].
    apply Hput; [|done|done]. destruct Hinv2 as [[H1 H2 H3 H4 H5 H6] [G1 G2 G3 G4 G5 G6 G7] Hc Hf Hcp Hin].
    split; [by split|by split|done|done| |done]. cbn [l_completePages set_complete].
    by rewrite length_insert_z.
Qed.

(** *** [malloc] *)

Lemma coalesced_neighbours m h cur t :
  geo m h → coalesced h → tags h !! cur = Some t → index t ≠ -1 →
  left_used cur h ∧ right_used cur h.
Proof.
  intros Hg Hc Ht Hi. split; intros t' Ht'; assert (t' = t) as -> by congruence.
  - destruct (decide (split_left t = 0)) as [|Hne]; [by left|right].
    destruct (g_left m h Hg cur t Ht Hne) as (u & Hu & _). exists u. split; [done|].
    apply (Hc cur t (split_left t) u); [done..|by left].
  - destruct (decide (split_right t = 0)) as [|Hne]; [by left|right].
    destruct (g_right m h Hg cur t Ht Hne) as (_ & u & Hu & _). exists u. split; [done|].
    apply (Hc cur t (split_right t) u); [done..|by right].
Qed.

(** Taking a free block out of its list. *)
Lemma take_spec m h a t :
  hinv 0 m h → tags h !! a = Some t → index t ≠ -1 →
  ∃ h' t', remove_tag a h = Done h' ∧ hinv a m h' ∧ llock h' = llock h ∧ pages h' = pages h ∧
    right_used a h' ∧ tags h' !! a = Some t' ∧ index t' = -1 ∧ real_size t' = real_size t ∧
    ∀ x n, live_but a h' x n ↔ live_but 0 h x n.
Proof.
  intros [Hg Hd Hc Hf Hcp Hin] Ht Hi.
  destruct (remove_tag_spec h a t Hd (geo_nz m h Hg) Ht Hi) as (h' & Hr & Hd' & Hrl).
  destruct (relink_to _ _ _ _ _ _ Hrl Ht) as (ta & Hta & _ & Hrs & _ & _ & Hia).
  rewrite decide_True in Hia by done.
  destruct (coalesced_neighbours m h a t Hg Hc Ht Hi) as [_ Hru].
  exists h', ta. split; [done|]. split; [split|].
  - by eapply geo_relink.
  - done.
  - intros x t' y u' Hx Hy Hxi Hor.
    destruct (relink_from _ _ _ _ _ _ Hrl Hx) as (t0 & Ht0 & _ & _ & Hsl & Hsr & Hix).
    destruct (relink_from _ _ _ _ _ _ Hrl Hy) as (u0 & Hu0 & _ & _ & _ & _ & Hiy).
    destruct (decide (y = a)); [congruence|]. destruct (decide (x = a)); [congruence|].
    rewrite Hiy. apply (Hc x t0 y u0); congruence.
  - intros x t' Hx Hxi Hxa.
    destruct (relink_from _ _ _ _ _ _ Hrl Hx) as (t0 & Ht0 & Hs & Hrs0 & _ & _ & Hix).
    rewrite decide_False in Hix by done. rewrite Hs, Hrs0.
    apply (Hf x t0 Ht0); [congruence|by eapply geo_nz].
  - by rewrite (rl_complete _ _ _ _ Hrl).
  - by rewrite (rl_init _ _ _ _ Hrl).
  - split; [by rewrite (rl_lock _ _ _ _ Hrl)|]. split; [by rewrite (rl_pages _ _ _ _ Hrl)|].
    split; [|split_and!; try done].
    + intros t' Ht'. destruct (relink_from _ _ _ _ _ _ Hrl Ht') as (t0 & Ht0 & _ & _ & _ & Hsr & _).
      rewrite Hsr. destruct (Hru t0 Ht0) as [|(u & Hu & Hiu)]; [by left|right].
      destruct (relink_to _ _ _ _ _ _ Hrl Hu) as (u' & Hu' & _ & _ & _ & _ & Hiu').
      exists u'. split; [done|]. rewrite Hiu'. by goal_decide as [|].
    + intros x n. split.
      * intros (t' & Hx & Hxi & Hn & Hxa).
        destruct (relink_from _ _ _ _ _ _ Hrl Hx) as (t0 & Ht0 & Hs & _ & _ & _ & Hix).
        rewrite decide_False in Hix by done. exists t0.
        split_and!; [done|congruence|congruence|exact (geo_nz m h Hg x t0 Ht0)].
      * intros (t0 & Ht0 & Hxi & Hn & _). assert (x ≠ a) as Hxa by congruence.
        destruct (relink_to _ _ _ _ _ _ Hrl Ht0) as (t' & Hx & Hs & _ & _ & _ & Hix).
        rewrite decide_False in Hix by done. exists t'. split_and!; congruence.
Qed.

(** Cutting a block in use: what [split_tag] does before it lists the rest. *)
Lemma split_run m h a t r :
  geo m h → tags h !! a = Some t → 0 ≤ size t →
  r = real_size t - sizeof_tag - size t → sizeof_tag ≤ r →
  let nw := a + sizeof_tag + size t in
  let tn := BTag LIBALLOC_MAGIC junk r (-1) a (split_right t) 0 0 in
  ∃ h1, split_tag junk a h = (h' ← insert_tag nw (-1) h1; Done (nw, h')) ∧
    (∀ x, tags h1 !! x =
      if decide (x = nw) then Some tn
      else cut a nw (split_right t) (sizeof_tag + size t) x <$> tags h !! x) ∧
    l_freePages h1 = l_freePages h ∧ pages h1 = pages h ∧
    l_completePages h1 = l_completePages h ∧ l_initialized h1 = l_initialized h ∧
    llock h1 = llock h.
Proof.
  intros Hg Ht Hs -> Hr nw tn. destruct (geo_size m h a t Hg Ht) as [Hrs Hb].
  pose proof (geo_nonzero m h a t Hg Ht) as Ha. unfold sizeof_tag in *.
  unfold split_tag, tag_at. rewrite Ht. cbn [of_option mbind res_bind].
  unfold sizeof_tag. rewrite !u32_id by (simpl; lia). rewrite u64_id by (simpl; lia).
  assert (nw ≠ a) as Hna by (unfold nw; lia). fold nw.
  set (ts1 := <[nw := _]> (tags h)).
  assert (ts1 !! a = Some t) as Ha1 by (unfold ts1; by rewrite lookup_insert_ne).
  rewrite upd_if_Done.
  2: { intros Hn. cbn [tags set_tags]. destruct (g_right m h Hg a t Ht Hn) as (Heq & u & Hu & _).
       unfold ts1. rewrite lookup_insert_ne by lia. by rewrite Hu. }
  cbn [mbind res_bind set_tags tags].
  set (ts2 := alter_if _ _ ts1).
  assert (∃ t2, ts2 !! a = Some t2 ∧ real_size t2 = real_size t) as (t2 & Ht2 & Hrs2).
  { unfold ts2. rewrite lookup_alter_if, Ha1. cbn. case_bool_decide; eauto. }
  rewrite upd_Done by (cbn [tags set_tags]; by rewrite Ht2). cbn [mbind res_bind set_tags tags].
  rewrite lookup_alter_eq, Ht2. cbn [fmap option_fmap option_map of_option mbind res_bind].
  rewrite upd_Done by (cbn [tags set_tags]; apply is_Some_alter; by rewrite Ht2).
  cbn [mbind res_bind set_tags tags real_size set_split_right].
  replace (u32 _) with (48 + size t) by (rewrite Hrs2, u32_id; simpl; lia).
  eexists. split; [done|]. cbn [tags set_tags]. split; [|done].
  intros x. rewrite !alter_is_if, !lookup_alter_if by lia. unfold ts2, ts1.
  rewrite lookup_alter_if. destruct (decide (x = nw)) as [->|Hx].
  - rewrite lookup_insert_eq. cbn. rewrite !(bool_decide_false (nw = a ∧ _)) by tauto.
    rewrite bool_decide_false; [done|]. intros [Hxn Hn].
    destruct (g_right m h Hg a t Ht Hn) as (Heq & _). lia.
  - rewrite lookup_insert_ne by done. destruct (tags h !! x) as [u|] eqn:Hu; [|done].
    cbn. f_equal. unfold cut. assert (a ≠ 0) by lia.
    repeat case_bool_decide; repeat goal_decide as [|]; try tauto; by destruct u.
Qed.

Lemma cut_from a nw c rs tn h h1 x t' :
  (∀ x, tags h1 !! x =
    if decide (x = nw) then Some tn else cut a nw c rs x <$> tags h !! x) →
  tags h1 !! x = Some t' →
  x = nw ∧ t' = tn ∨ x ≠ nw ∧ ∃ t, tags h !! x = Some t ∧ t' = cut a nw c rs x t.
Proof.
  intros Htg. rewrite Htg. goal_decide as [|]; [intros [= <-]; by left|].
  destruct (tags h !! x) as [t|]; [|done]. intros [= <-]. right. split; [done|]. by exists t.
Qed.

(** The two halves are well formed before the new one is listed. *)
Lemma split_inv m h h1 a t r :
  hinv 0 m h → tags h !! a = Some t → index t = -1 →
  r = real_size t - sizeof_tag - size t → sizeof_tag ≤ r →
  let nw := a + sizeof_tag + size t in
  let tn := BTag LIBALLOC_MAGIC junk r (-1) a (split_right t) 0 0 in
  (∀ x, tags h1 !! x =
      if decide (x = nw) then Some tn
      else cut a nw (split_right t) (sizeof_tag + size t) x <$> tags h !! x) →
  l_freePages h1 = l_freePages h → pages h1 = pages h →
  l_completePages h1 = l_completePages h → l_initialized h1 = l_initialized h →
  hinv nw m h1 ∧ tags h !! nw = None.
Proof.
  intros [Hg Hd Hc Hf Hcp Hin] Ht Hi Hr Hr48 nw tn Htg Hfr Hpg Hcp1 Hin1.
  destruct (Hf a t Ht Hi (geo_nz m h Hg a t Ht)) as [Hs0 Hs].
  assert (tags h !! nw = None) as Hfresh.
  { apply (split_fresh m h a nw (sizeof_tag + size t) t); unfold nw, sizeof_tag in *; try done; lia. }
  assert (geo m h1) as Hg1.
  { apply (geo_split m h h1 a nw (sizeof_tag + size t) t tn); unfold nw, tn, sizeof_tag in *;
      try done; try lia. split_and!; cbn; try done; lia. }
  split; [split|done].
  - done.
  - apply (dll_change h h1 nw Hd); [congruence| |done|].
    + intros u. rewrite Htg, decide_True by done. by intros [= <-].
    + intros x Hx. rewrite Htg, decide_False by done. by destruct (tags h !! x).
  - intros x t' y u' Hx Hy Hxi Hor.
    destruct (cut_from _ _ _ _ _ _ _ _ _ Htg Hx) as [[-> ->]|(Hxn & t0 & Ht0 & ->)]; [done|].
    destruct (cut_from _ _ _ _ _ _ _ _ _ Htg Hy) as [[-> ->]|(Hyn & u0 & Hu0 & ->)]; [done|].
    cbn [cut index split_left split_right] in *. apply (Hc x t0 y u0 Ht0 Hu0 Hxi).
    destruct Hor as [Hor|Hor].
    + left. by destruct (decide (x = split_right t ∧ split_right t ≠ 0)).
    + right. by destruct (decide (x = a)).
  - intros x t' Hx Hxi Hxn.
    destruct (cut_from _ _ _ _ _ _ _ _ _ Htg Hx) as [[-> ->]|(_ & t0 & Ht0 & ->)]; [done|].
    cbn [cut index size real_size] in *.
    destruct (Hf x t0 Ht0 Hxi (geo_nz m h Hg x t0 Ht0)) as [? ?].
    destruct (decide (x = a)) as [->|]; [|done]. assert (t0 = t) as -> by congruence. lia.
  - by rewrite Hcp1.
  - by rewrite Hin1.
Qed.

Lemma split_tag_spec m h a t :
  hinv 0 m h → tags h !! a = Some t → index t = -1 → right_used a h →
  2 * sizeof_tag + size t ≤ real_size t →
  ∃ nw h', split_tag junk a h = Done (nw, h') ∧ hinv 0 m h' ∧ same_env h h' ∧
    ∀ x n, live_but 0 h' x n ↔ live_but 0 h x n.
Proof.
  intros Hinv Ht Hi Hru Hs. pose proof (hv_geo _ _ _ Hinv) as Hg.
  destruct (hv_fits _ _ _ Hinv a t Ht Hi (geo_nz m h Hg a t Ht)) as [Hs0 _].
  destruct (split_run m h a t (real_size t - sizeof_tag - size t) Hg Ht Hs0 eq_refl)
    as (h1 & Hrun & Htg & Hfr & Hpg & Hcp & Hin & Hlk); [lia|].
  destruct (split_inv m h h1 a t (real_size t - sizeof_tag - size t) Hinv Ht Hi eq_refl)
    as [Hinv1 Hfresh]; try done; [lia|].
  set (nw := a + sizeof_tag + size t) in *.
  assert (nw ≠ a) as Hna by (unfold nw, sizeof_tag; lia).
  pose proof (geo_nz m h Hg a t Ht) as Ha0.
  destruct (put_back_spec m nw h1 (-1) Hinv1) as (h' & Hins & Hinv' & [Hlk' Hpg'] & Hlive).
  - eexists. rewrite Htg, decide_True by done. by split.
  - intros t' Ht'. rewrite Htg, decide_True in Ht' by done. injection Ht' as <-. right.
    eexists. cbn [split_left]. rewrite Htg, decide_False, Ht by congruence. by split.
  - intros t' Ht'. rewrite Htg, decide_True in Ht' by done. injection Ht' as <-.
    cbn [split_right]. destruct (Hru t Ht) as [|(u & Hu & Hiu)]; [by left|right].
    eexists. rewrite Htg, decide_False, Hu by congruence. by split.
  - lia.
  - exists nw, h'. split; [by rewrite Hrun, Hins|]. split; [done|]. split; [split; congruence|].
    intros x n. rewrite Hlive. split.
    + intros (t' & Hx & Hxi & Hn & Hxn).
      destruct (cut_from _ _ _ _ _ _ _ _ _ Htg Hx) as [[-> ->]|(_ & t0 & Ht0 & ->)]; [done|].
      exists t0. split_and!; [done..|exact (geo_nz m h Hg x t0 Ht0)].
    + intros (t0 & Ht0 & Hxi & Hn & _). assert (x ≠ nw) as Hxn by congruence.
      eexists. rewrite Htg, decide_False, Ht0 by done. by split_and!.
Qed.

(** Giving a block its size. *)
Lemma set_size_spec m h a t n :
  hinv a m h → tags h !! a = Some t → index t = -1 → 0 ≤ n → n + sizeof_tag ≤ real_size t →
  let h' := set_tags h (<[a := set_size n t]> (tags h)) in
  hinv 0 m h' ∧ ∀ x k, live_but 0 h' x k ↔ x = a ∧ k = n ∨ live_but a h x k.
Proof.
  intros [Hg Hd Hc Hf Hcp Hin] Ht Hi Hn Hfit h'.
  assert (∀ x t', tags h' !! x = Some t' → ∃ t0, tags h !! x = Some t0 ∧
    t' = set_size (if decide (x = a) then n else size t0) t0) as Hfrom.
  { intros x t'. unfold h'. cbn [tags set_tags]. destruct (decide (x = a)) as [->|Hx].
    - rewrite lookup_insert_eq. intros [= <-]. by exists t.
    - rewrite lookup_insert_ne by done. intros Hx'. exists t'. split; [done|]. by destruct t'. }
  assert (∀ x t0, tags h !! x = Some t0 →
    tags h' !! x = Some (set_size (if decide (x = a) then n else size t0) t0)) as Hto.
  { intros x t0 Hx. unfold h'. cbn [tags set_tags]. destruct (decide (x = a)) as [->|Hxa].
    - rewrite lookup_insert_eq. congruence.
    - rewrite lookup_insert_ne by done. rewrite Hx. by destruct t0. }
  split; [split|].
  - split.
    + intros x ? (t0 & Ht0 & ->)%Hfrom. exact (g_tag m h Hg x t0 Ht0).
    + intros x y ? ? (t0 & Ht0 & ->)%Hfrom (u0 & Hu0 & ->)%Hfrom.
      exact (g_disjoint m h Hg x y t0 u0 Ht0 Hu0).
    + intros x ? (t0 & Ht0 & ->)%Hfrom Hne. destruct (g_right m h Hg x t0 Ht0 Hne) as (Heq & u & Hu & Hl).
      split; [done|]. eexists. split; [by apply Hto|done].
    + intros x ? (t0 & Ht0 & ->)%Hfrom Hne. destruct (g_left m h Hg x t0 Ht0 Hne) as (u & Hu & Hr).
      eexists. split; [by apply Hto|done].
    + intros x ? (t0 & Ht0 & ->)%Hfrom. exact (g_region m h Hg x t0 Ht0).
    + apply (g_pages m h Hg).
  - apply (dll_change h h' a Hd); [congruence| |done|].
    + intros u (t0 & Ht0 & ->)%Hfrom. assert (t0 = t) as -> by congruence.
      split; [done|]. exact (d_out h Hd a t Ht Hi).
    + intros x Hx. unfold h'. cbn [tags set_tags]. by rewrite lookup_insert_ne.
  - intros x ? y ? (t0 & Ht0 & ->)%Hfrom (u0 & Hu0 & ->)%Hfrom. apply (Hc x t0 y u0 Ht0 Hu0).
  - intros x ? (t0 & Ht0 & ->)%Hfrom Hxi _. cbn [set_size size real_size index] in *.
    destruct (decide (x = a)) as [->|Hxa]; [|exact (Hf x t0 Ht0 Hxi Hxa)].
    assert (t0 = t) as -> by congruence. done.
  - done.
  - done.
  - intros x k. split.
    + intros (? & (t0 & Ht0 & ->)%Hfrom & Hxi & Hk & _). cbn [set_size size index] in *.
      destruct (decide (x = a)); [by left|right]. by exists t0.
    + pose proof (geo_nz m h Hg) as Hnz. intros [[-> ->]|(t0 & Ht0 & Hxi & Hk & Hxa)].
      * eexists. split; [by apply Hto|]. rewrite decide_True by done.
        split_and!; [done..|exact (Hnz a t Ht)].
      * eexists. split; [by apply Hto|]. rewrite decide_False by done.
        split_and!; [done..|exact (Hnz x t0 Ht0)].
Qed.

(** A new run of pages: how many, and that they are enough. *)
Definition new_pages (sz : Z) : Z := Z.max l_pageCount ((sz + sizeof_tag + 4095) / l_pageSize).

Lemma new_pages_bounds sz : 0 ≤ sz < 2 ^ 31 →
  l_pageCount ≤ new_pages sz < 2 ^ 20 ∧ sz + sizeof_tag ≤ new_pages sz * l_pageSize.
Proof.
  intros Hsz. unfold new_pages, l_pageSize, l_pageCount, sizeof_tag.
  pose proof (Z.div_mod (sz + 48 + 4095) 4096 ltac:(lia)).
  pose proof (Z.mod_pos_bound (sz + 48 + 4095) 4096 ltac:(lia)). lia.
Qed.

Lemma allocate_new_tag_run sz m h : 0 ≤ sz < 2 ^ 31 →
  allocate_new_tag sz m h =
    '(tag, (m, p)) ← liballoc_alloc (new_pages sz) m (pages h);
    let h := set_pages h p in
    if tag =? 0 then Done (0, (m, h))
    else Done (tag, (m, set_tags h (<[tag :=
      BTag LIBALLOC_MAGIC sz (new_pages sz * l_pageSize) (-1) 0 0 0 0]> (tags h)))).
Proof.
  intros Hsz. destruct (new_pages_bounds sz Hsz) as [Hn _]. unfold allocate_new_tag.
  rewrite (u32_id (sz + sizeof_tag)) by (unfold sizeof_tag; simpl; lia).
  set (pgs := if negb ((sz + sizeof_tag) mod l_pageSize =? 0) then _ else _).
  assert (pgs = (sz + sizeof_tag + 4095) / l_pageSize) as Hp.
  { unfold pgs, l_pageSize, sizeof_tag.
    destruct (Z.eqb_spec ((sz + 48) mod 4096) 0); cbn [negb]; zlia. }
  assert (0 ≤ pgs) by (rewrite Hp; unfold l_pageSize, sizeof_tag; apply Z.div_pos; lia).
  assert ((if i32 pgs <? l_pageCount then l_pageCount else pgs) = new_pages sz) as Heq.
  { unfold new_pages in *. rewrite <-Hp in *. unfold l_pageCount, sizeof_tag, l_pageSize in *.
    rewrite i32_id by (simpl; lia). destruct (Z.ltb_spec pgs 16); lia. }
  cbv zeta. fold pgs. rewrite Heq. rewrite i32_id by (unfold l_pageCount in *; simpl; lia).
  rewrite u32_id; [done|]. unfold l_pageSize, l_pageCount in *. simpl. lia.
Qed.

(** The pages a block took: none, or one run; the call can have failed. *)
Definition pages_after (sz : Z) (m : mem) (h : heap P) (p : Z) (m' : mem) (h' : heap P) : Prop :=
  pages h' = pages h ∧ p ≠ 0 ∧ m' = m ∨
  liballoc_alloc (new_pages sz) m (pages h) = Done (p, (m', pages h')).

(** The tag of a new run joins the blocks. *)
Lemma geo_grow m m' h h' p n tn :
  geo m h → hregion (pages h') p n → pages_ok (pages h') → dom_grows m m' →
  mapped m' p (n * PAGE_SIZE) →
  (∀ q k, region (pages h) q k → region (pages h') q k ∧
    disjoint_range p (n * PAGE_SIZE) q (k * PAGE_SIZE)) →
  magic tn = LIBALLOC_MAGIC → real_size tn = n * PAGE_SIZE →
  split_left tn = 0 → split_right tn = 0 →
  tags h' = <[p := tn]> (tags h) → geo m' h' ∧ tags h !! p = None.
Proof.
  intros Hg Hreg Hok Hdom Hmap Hold Hmg Hrs Hsl Hsr Htg.
  destruct (region_size p n _ Hok (proj1 Hreg)) as (Hp0 & Hn & _).
  assert (∀ x t, tags h !! x = Some t → disjoint_range p (n * PAGE_SIZE) x (real_size t)) as Hdj.
  { intros x t Ht. destruct (g_region m h Hg x t Ht) as (q & k & Hr & Hq & Hk & _).
    destruct (Hold q k (proj1 Hr)) as [_ Hd]. unfold disjoint_range in *. lia. }
  assert (tags h !! p = None) as Hfresh.
  { destruct (tags h !! p) as [t|] eqn:Ht; [|done]. destruct (geo_size m h p t Hg Ht) as [? _].
    pose proof (Hdj p t Ht). unfold disjoint_range, PAGE_SIZE, sizeof_tag in *. lia. }
  assert (∀ x t, tags h' !! x = Some t → x = p ∧ t = tn ∨ x ≠ p ∧ tags h !! x = Some t) as Hfrom.
  { intros x t. rewrite Htg. destruct (decide (x = p)) as [->|Hx];
      [rewrite lookup_insert_eq; intros [= <-]; by left|rewrite lookup_insert_ne by done; by right]. }
  assert (∀ x t, tags h !! x = Some t → tags h' !! x = Some t) as Hto.
  { intros x t Hx. rewrite Htg, lookup_insert_ne; congruence. }
  split; [split|done].
  - intros x t [[-> ->]|[Hx Ht]]%Hfrom.
    + rewrite Hrs. split; [done|]. unfold sizeof_tag, PAGE_SIZE in *. split; [lia|done].
    + destruct (g_tag m h Hg x t Ht) as (? & ? & ?). split; [done|]. split; [done|].
      by eapply dom_grows_mapped.
  - intros x y t u [[-> ->]|[Hx Ht]]%Hfrom [[-> ->]|[Hy Hu]]%Hfrom Hxy; [done| | |].
    + rewrite Hrs. by apply Hdj.
    + rewrite Hrs. pose proof (Hdj x t Ht). unfold disjoint_range in *. lia.
    + exact (g_disjoint m h Hg x y t u Ht Hu Hxy).
  - intros x t [[-> ->]|[Hx Ht]]%Hfrom Hne; [done|].
    destruct (g_right m h Hg x t Ht Hne) as (Heq & u & Hu & Hl). eauto.
  - intros x t [[-> ->]|[Hx Ht]]%Hfrom Hne; [done|].
    destruct (g_left m h Hg x t Ht Hne) as (u & Hu & Hl). eauto.
  - intros x t [[-> ->]|[Hx Ht]]%Hfrom.
    + exists p, n. rewrite Hrs, Hsl, Hsr. split; [done|]. lia.
    + destruct (g_region m h Hg x t Ht) as (q & k & [Hr Hk] & Hrest). exists q, k.
      split; [split; [by apply Hold|done]|done].
  - done.
Qed.

(** Pages the heap could not get, or did not use, change nothing. *)
Lemma hinv_pages cur m h s :
  hinv cur m h → pages_ok s → (∀ q k, region s q k ↔ region (pages h) q k) →
  hinv cur m (set_pages h s).
Proof.
  intros [[H1 H2 H3 H4 H5 H6] [G1 G2 G3 G4 G5 G6 G7] Hc Hf Hcp Hin] Hok Hr.
  split; [|by split|done..]. split; try done. intros a t Ht.
  destruct (H5 a t Ht) as (p & n & [Hreg Hn] & Hrest). exists p, n.
  split; [split; [by apply Hr|done]|done].
Qed.

(** The bytes of all blocks, free ones included, are unchanged. *)
Definition blocks_same (h : heap P) (m m' : mem) : Prop :=
  (bytes_ok m → bytes_ok m') ∧
  ∀ x t i, tags h !! x = Some t → x ≤ i < x + real_size t → m' !! i = m !! i.

Lemma allocate_new_tag_spec sz m h :
  hinv 0 m h → 0 ≤ sz < 2 ^ 31 →
  ∃ tag m' h', allocate_new_tag sz m h = Done (tag, (m', h')) ∧ llock h' = llock h ∧
    pages_after sz m h tag m' h' ∧
    (tag = 0 ∧ m' = m ∧ hinv 0 m h' ∧ tags h' = tags h ∨
     tag ≠ 0 ∧ hinv tag m' h' ∧ right_used tag h' ∧
     (∃ t, tags h' !! tag = Some t ∧ index t = -1 ∧ sz + sizeof_tag ≤ real_size t) ∧
     (∀ x n, live_but tag h' x n ↔ live_but 0 h x n) ∧
     blocks_same h m m').
Proof.
  intros Hinv Hsz. destruct (new_pages_bounds sz Hsz) as [Hn Henough].
  rewrite allocate_new_tag_run by done. pose proof (hv_geo _ _ _ Hinv) as Hg.
  destruct (alloc_pages_spec (new_pages sz) m (pages h) (g_pages m h Hg))
    as (p & m' & s' & Hrun & Hok & Hcase); [unfold l_pageCount in *; lia|].
  rewrite Hrun. cbn [mbind res_bind]. destruct Hcase as [(-> & -> & Hregs)|(Hp & Hmap & Hdom & Hby & Hdj & Hsame & Hregs)].
  { eexists 0, m, _. split; [done|]. split; [done|]. split; [by right|]. left.
    split; [done|]. split; [done|]. split; [by apply hinv_pages|done]. }
  rewrite (proj2 (Z.eqb_neq p 0)) by lia. eexists p, m', _. split; [done|]. split; [done|].
  split; [by right|]. right.
  set (tn := BTag _ _ _ _ _ _ _ _). set (h' := set_tags _ _).
  destruct (geo_grow m m' h h' p (new_pages sz) tn) as [Hg' Hfresh]; try done.
  { split; [apply Hregs; by right|lia]. }
  { intros q k Hq. split; [apply Hregs; by left|by apply Hdj]. }
  assert (tags h' = <[p := tn]> (tags h)) as Htg by done.
  destruct Hinv as [_ Hd Hc Hf Hcp Hin].
  assert (∀ x t, tags h' !! x = Some t → x = p ∧ t = tn ∨ x ≠ p ∧ tags h !! x = Some t) as Hfrom.
  { intros x t. rewrite Htg. destruct (decide (x = p)) as [->|Hx];
      [rewrite lookup_insert_eq; intros [= <-]; by left|rewrite lookup_insert_ne by done; by right]. }
  split; [lia|]. split; [split; [done| | | |done|done]|].
  - apply (dll_change h h' p Hd); [congruence| |done|].
    + intros u [[_ ->]|[]]%Hfrom; done.
    + intros x Hx. by rewrite Htg, lookup_insert_ne.
  - intros x t y u [[-> ->]|[Hx Ht]]%Hfrom [[-> ->]|[Hy Hu]]%Hfrom Hi Hor; try done.
    exact (Hc x t y u Ht Hu Hi Hor).
  - intros x t [[-> ->]|[Hx Ht]]%Hfrom Hi Hxp; [done|].
    exact (Hf x t Ht Hi (geo_nz m h Hg x t Ht)).
  - split; [|split; [|split]].
    + intros u [[_ ->]|[]]%Hfrom; [by left|done].
    + exists tn. split; [by rewrite Htg, lookup_insert_eq|done].
    + intros x n. split.
      * intros (t & [[-> ->]|[Hx Ht]]%Hfrom & Hi & Hsn & Hxp); [done|]. exists t.
        split_and!; [done..|exact (geo_nz m h Hg x t Ht)].
      * intros (t & Ht & Hi & Hsn & _). assert (x ≠ p) by congruence. exists t.
        rewrite Htg, lookup_insert_ne by done. by split_and!.
    + split; [done|]. intros x t i Ht Hi. apply Hsame.
      destruct (g_region m h Hg x t Ht) as (q & k & [Hr _] & Hq & Hk & _).
      pose proof (Hdj q k Hr). unfold disjoint_range in *. lia.
Qed.

(** From the block taken to the pointer. *)
Lemma malloc_cut_spec m h a t sz :
  hinv a m h → tags h !! a = Some t → index t = -1 → right_used a h →
  0 ≤ sz < 2 ^ 31 → sz + sizeof_tag ≤ real_size t →
  ∃ h', malloc_cut junk sz a h = Done h' ∧ hinv 0 m h' ∧ same_env h h' ∧
    ∀ x n, live_but 0 h' x n ↔ x = a ∧ n = sz ∨ live_but a h x n.
Proof.
  intros Hinv Ht Hi Hru Hsz Hfit.
  destruct (set_size_spec m h a t sz Hinv Ht Hi) as [Hinv1 Hl1]; [lia|done|].
  set (h1 := set_tags h (<[a := set_size sz t]> (tags h))) in *.
  assert (tags h1 !! a = Some (set_size sz t)) as Ht1 by (unfold h1; cbn; by rewrite lookup_insert_eq).
  destruct (geo_size m h a t (hv_geo _ _ _ Hinv) Ht) as [Hrs _].
  unfold malloc_cut, upd, tag_at. rewrite (u32_id sz) by (simpl; lia). rewrite Ht.
  cbn [of_option mbind res_bind]. fold h1. rewrite Ht1. cbn [of_option mbind res_bind].
  cbn [set_size real_size]. unfold sizeof_tag in *.
  set (x := real_size t - sz - 48 * 2) in *.
  assert (0 <? i32 (u32 x) = true → u32 x = x ∧ 0 < x) as Hpos.
  { intros Hlt%Z.ltb_lt. apply i32_u32_pos; [unfold x; simpl; lia|done]. }
  destruct (0 <? i32 (u32 x)) eqn:Hx; [|by exists h1].
  destruct (Hpos eq_refl) as [-> Hx0].
  rewrite getexp_spec by (unfold x; simpl; lia). cbn [mbind res_bind].
  destruct (0 <=? _) eqn:Hexp; [|by exists h1].
  destruct (split_tag_spec m h1 a (set_size sz t) Hinv1 Ht1 Hi) as (nw & h2 & Hrun & Hinv2 & Hlk2 & Hl2).
  { intros u Hu. destruct (Hru t Ht) as [|(v & Hv & Hiv)]; assert (u = set_size sz t) as -> by congruence;
      [by left|right]. cbn [set_size split_right]. unfold h1. cbn [tags set_tags].
    destruct (decide (split_right t = a)) as [->|Hne];
      [rewrite lookup_insert_eq; by eexists|rewrite lookup_insert_ne by done; by exists v]. }
  { cbn [set_size size real_size]. unfold sizeof_tag, x in *. lia. }
  rewrite Hrun. cbn [mbind res_bind]. exists h2. split; [done|]. split; [done|].
  split; [done|]. intros y n. by rewrite Hl2, Hl1.
Qed.

Lemma hinv_counts cur m h l : hinv cur m h → length_z l = 32 → hinv cur m (set_complete h l).
Proof.
  intros [[H1 H2 H3 H4 H5 H6] [G1 G2 G3 G4 G5 G6 G7] Hc Hf Hcp Hin] Hl. by split; [split|split|..].
Qed.

Lemma malloc_fetch_spec sz idx a m h :
  hinv 0 m h → 0 ≤ sz < 2 ^ 31 → 8 ≤ idx ≤ 30 →
  (a = 0 ∨ ∃ t, tags h !! a = Some t ∧ index t = idx ∧ u64 (sz + sizeof_tag) ≤ payload t) →
  ∃ tag m' h', malloc_fetch sz idx a m h = Done (tag, (m', h')) ∧ llock h' = llock h ∧
    pages_after sz m h tag m' h' ∧
    (tag = 0 ∧ m' = m ∧ hinv 0 m h' ∧ tags h' = tags h ∨
     tag ≠ 0 ∧ hinv tag m' h' ∧ right_used tag h' ∧
     (∃ t, tags h' !! tag = Some t ∧ index t = -1 ∧ sz + sizeof_tag ≤ real_size t) ∧
     (∀ x n, live_but tag h' x n ↔ live_but 0 h x n) ∧
     blocks_same h m m').
Proof.
  intros Hinv Hsz Hidx Ha. unfold malloc_fetch. rewrite u32_id by (simpl; lia).
  destruct (Z.eqb_spec a 0) as [_|Hne]; [by apply allocate_new_tag_spec|].
  destruct Ha as [|(t & Ht & Hi & Hfit)]; [done|].
  destruct (payload_range m h a t (hv_geo _ _ _ Hinv) Ht) as [Hpl _].
  rewrite u64_id in Hfit by (unfold sizeof_tag; simpl; lia).
  destruct (take_spec m h a t Hinv Ht) as (h1 & ta & -> & Hinv1 & Hlk & Hpg & Hru & Hta & Hia & Hrs & Hl);
    [lia|].
  cbn [mbind res_bind]. unfold tag_at. rewrite Hta. cbn [of_option mbind res_bind].
  assert (∃ l, (if (split_left ta =? 0) && (split_right ta =? 0)
    then n ← get_complete h1 idx; put_complete h1 idx (i32 (n - 1)) else Done h1) =
    Done (set_complete h1 l) ∧ length_z l = 32) as (l & -> & Hlen).
  { pose proof (hv_complete _ _ _ Hinv1) as Hc. destruct (_ && _).
    - destruct (proj2 (lookup_z_is_Some (l_completePages h1) idx)) as [n Hn]; [lia|].
      unfold put_complete, get_complete. rewrite Hn. cbn [of_option mbind res_bind].
      eexists. split; [done|]. by rewrite length_insert_z.
    - exists (l_completePages h1). split; [by destruct h1|done]. }
  cbn [mbind res_bind]. eexists a, m, _. split; [done|]. split; [done|].
  split; [by left|]. right.
  split; [done|]. split; [by apply hinv_counts|]. split; [done|].
  split; [exists ta; unfold sizeof_tag in *; split_and!; [done..|lia]|]. by split.
Qed.

(** [malloc], from the first call on. *)
Definition heap_ok (m : mem) (h : heap P) : Prop :=
  llock h = false ∧ hinv 0 m (malloc_init h) ∧ (l_initialized h = false → tags h = ∅).

Lemma heap_ok_unlock m h : hinv 0 m h → heap_ok m (set_llock h (spin_release (llock h))).
Proof.
  intros Hinv. pose proof (hv_init _ _ _ Hinv) as Hin. unfold heap_ok, malloc_init.
  cbn [set_llock l_initialized llock]. rewrite Hin. split; [done|].
  split; [by apply hinv_lock|done].
Qed.

Lemma malloc_ok sz m h :
  heap_ok m h → 0 ≤ sz < 2 ^ 31 →
  ∃ tag m' h', malloc junk sz m h = Done (if tag =? 0 then 0 else tag + sizeof_tag, (m', h')) ∧
    heap_ok m' h' ∧ pages_after sz m h tag m' h' ∧
    (tag = 0 ∧ m' = m ∧ tags h' = tags h ∨
     0 < tag ∧ (∀ n, ¬ live_but 0 h tag n) ∧
     (blocks_same h m m') ∧
     ∀ x n, live_but 0 h' x n ↔ x = tag ∧ n = sz ∨ live_but 0 h x n).
Proof.
  intros (Hlk & Hinv & _) Hsz. unfold malloc. rewrite Hlk, spin_lock_free. cbn [mbind res_bind].
  set (h1 := malloc_init (set_llock h true)).
  assert (h1 = set_llock (malloc_init h) true) as Hh1
    by (unfold h1, malloc_init; cbn [set_llock l_initialized]; by destruct (l_initialized h)).
  assert (hinv 0 m h1) as Hinv1 by (rewrite Hh1; by apply hinv_lock).
  assert (tags h1 = tags h ∧ pages h1 = pages h) as [Htg1 Hpg1].
  { rewrite Hh1. unfold malloc_init. by destruct (l_initialized h). }
  clearbody h1. rewrite getexp_spec by (simpl; lia). cbn [mbind res_bind].
  unfold MODE, MINEXP. rewrite Z.add_0_r.
  set (idx := if _ <? 8 then 8 else _).
  assert (8 ≤ idx ≤ 30) as Hidx.
  { unfold idx. destruct (Z.ltb_spec (if sz <? 256 then -1 else Z.min 30 (Z.log2 sz)) 8); [lia|].
    destruct (Z.ltb_spec sz 256); lia. }
  pose proof (d_length h1 (hv_dll _ _ _ Hinv1)) as Hlen.
  destruct (proj2 (lookup_z_is_Some (l_freePages h1) idx)) as [x Hx]; [lia|].
  unfold get_free. rewrite Hx. cbn [of_option mbind res_bind].
  destruct (find_tag_spec h1 sz idx x (hv_dll _ _ _ Hinv1) Hidx Hx) as (r & -> & Hr).
  cbn [mbind res_bind].
  destruct (malloc_fetch_spec sz idx r m h1 Hinv1 Hsz Hidx Hr) as (tag & m' & h2 & Hf & Hlk2 & Hpa & Hcase).
  rewrite Hf. cbn [mbind res_bind]. unfold pages_after in *. rewrite Hpg1 in Hpa.
  destruct Hcase as [(-> & -> & Hinv2 & Htg2)|(Hne & Hinv2 & Hru & (t & Ht & Hi & Hfit) & Hl & Hm)].
  { exists 0, m. eexists. split; [done|]. split; [by apply heap_ok_unlock|]. split; [done|].
    left. split_and!; [done..|by rewrite <-Htg1, <-Htg2]. }
  rewrite (proj2 (Z.eqb_neq tag 0)) by done.
  destruct (malloc_cut_spec m' h2 tag t sz Hinv2 Ht Hi Hru Hsz Hfit)
    as (h3 & -> & Hinv3 & [_ Hpg3] & Hl3).
  cbn [mbind res_bind]. exists tag, m'. eexists.
  destruct (geo_size m' h2 tag t (hv_geo _ _ _ Hinv2) Ht) as [? Hb].
  pose proof (geo_nonzero m' h2 tag t (hv_geo _ _ _ Hinv2) Ht) as Hpos.
  rewrite u64_id by (unfold sizeof_tag in *; simpl; lia).
  rewrite (proj2 (Z.eqb_neq tag 0)) by done. split; [done|].
  split; [by apply heap_ok_unlock|]. cbn [pages set_llock]. rewrite Hpg3. split; [done|right].
  unfold live_but at 1 3, blocks_same. rewrite <-Htg1.
  split; [done|]. split; [|split; [done|]].
  - intros n Hn. apply (Hl tag n) in Hn as (_ & _ & _ & _ & Hbad). done.
  - intros y n. rewrite <-(Hl y n). exact (Hl3 y n).
Qed.

(** With room for another run a small request is met. *)
Lemma malloc_room k sz m h p m' h' :
  heap_ok m h → 0 ≤ sz ≤ l_pageCount * l_pageSize - sizeof_tag → pages_room (S k) (pages h) →
  malloc junk sz m h = Done (p, (m', h')) → p ≠ 0 ∧ pages_room k (pages h').
Proof.
  unfold l_pageCount, l_pageSize, sizeof_tag. intros Hok Hsz Hrm Hr.
  destruct (malloc_ok sz m h Hok) as (tag & m1 & h1 & Hr' & Hok1 & Hpa & Hcase); [lia|].
  rewrite Hr in Hr'. apply Done_triple_inj in Hr' as (-> & <- & <-).
  assert (pages_ok (pages h)) as Hpo.
  { destruct Hok as (_ & Hinv & _). pose proof (g_pages _ _ (hv_geo _ _ _ Hinv)) as Hg.
    unfold malloc_init in Hg. by destruct (l_initialized h). }
  assert (tag ≠ 0 ∧ pages_room k (pages h')) as [Hne Hrk].
  { destruct Hpa as [(-> & Hne & _)|Ha]; [split; [done|by apply pages_room_less]|].
    eapply pages_room_law; [done|done| |exact Ha].
    unfold new_pages, l_pageCount, l_pageSize, sizeof_tag.
    assert ((sz + 48 + 4095) / 4096 < 17) by (apply Z.div_lt_upper_bound; lia). lia. }
  split; [|done]. rewrite (proj2 (Z.eqb_neq tag 0)) by done.
  destruct Hcase as [(-> & _)|(Hpos & _)]; [done|unfold sizeof_tag; lia].
Qed.

Lemma heap_ok_init m h a n : heap_ok m h → live_but 0 h a n → hinv 0 m h.
Proof.
  intros (_ & Hinv & He) (t & Ht & _). unfold malloc_init in Hinv.
  destruct (l_initialized h); [done|]. rewrite (He eq_refl), lookup_empty in Ht. done.
Qed.

Lemma free_ok m h a n :
  heap_ok m h → live_but 0 h a n →
  ∃ h', free (a + sizeof_tag) h = Done h' ∧ heap_ok m h' ∧
    ∀ x k, live_but 0 h' x k ↔ live_but 0 h x k ∧ x ≠ a.
Proof.
  intros Hok Hl. pose proof (heap_ok_init m h a n Hok Hl) as Hinv. destruct Hok as [Hlk _].
  destruct (free_spec m h a n Hinv Hlk Hl) as (h' & Hr & Hinv' & Hlk' & Hl').
  exists h'. split; [done|]. split; [|done]. pose proof (hv_init _ _ _ Hinv') as Hin.
  unfold heap_ok, malloc_init. by rewrite Hin.
Qed.

(** ** What a client sees *)

(** The [n] bytes at [p] are an allocated block. *)
Definition allocated (h : heap P) (p n : Z) : Prop := live_but 0 h (p - sizeof_tag) n.

Lemma allocated_mapped m h p n : heap_ok m h → allocated h p n →
  0 < p ∧ 0 ≤ n ∧ p + n < 2 ^ 64 ∧ mapped m p n.
Proof.
  intros Hok Hl. pose proof (heap_ok_init m h _ n Hok Hl) as Hinv.
  destruct (live_tag m h _ n Hinv Hl) as (t & Ht & _ & _ & _ & Hn & Hfit & Hp & Hb).
  destruct (g_tag m h (hv_geo _ _ _ Hinv) _ t Ht) as (_ & _ & Hm).
  unfold sizeof_tag in *. split_and!; try lia. intros i Hi. apply Hm. lia.
Qed.

Lemma allocated_disjoint m h p n q k : heap_ok m h → allocated h p n → allocated h q k → p ≠ q →
  disjoint_range (p - sizeof_tag) (sizeof_tag + n) q k.
Proof.
  intros Hok Hp Hq Hne. pose proof (heap_ok_init m h _ n Hok Hp) as Hinv.
  destruct (live_tag m h _ n Hinv Hp) as (t & Ht & _ & _ & _ & Hn & Hfit & _).
  destruct (live_tag m h _ k Hinv Hq) as (u & Hu & _ & _ & _ & Hk & Hfit' & _).
  pose proof (g_disjoint m h (hv_geo _ _ _ Hinv) _ _ t u Ht Hu ltac:(lia)) as Hd.
  unfold disjoint_range, sizeof_tag in *. lia.
Qed.

Lemma allocated_same m m' h h' p n i :
  heap_ok m h → allocated h p n → p ≤ i < p + n →
  (blocks_same h m m') →
  m' !! i = m !! i.
Proof.
  intros Hok Hp Hi Hm. pose proof (heap_ok_init m h _ n Hok Hp) as Hinv.
  destruct (live_tag m h _ n Hinv Hp) as (t & Ht & _ & _ & _ & Hn & Hfit & _).
  apply (proj2 Hm (p - sizeof_tag) t); [done|]. unfold sizeof_tag in *. lia.
Qed.

(** Memory that is not the pages' to hand out is not touched. *)
Lemma heap_ok_pages m h : heap_ok m h → pages_ok (pages h).
Proof.
  intros (_ & Hinv & _). pose proof (g_pages _ _ (hv_geo _ _ _ Hinv)) as Hg.
  unfold malloc_init in Hg. by destruct (l_initialized h).
Qed.

Lemma pages_after_reserved sz m h tag m' h' a :
  heap_ok m h → 0 ≤ sz < 2 ^ 31 → pages_after sz m h tag m' h' → reserved (P := P) a → m' !! a = m !! a.
Proof.
  intros Hok Hsz [(_ & _ & ->)|Hr] Ha; [done|].
  destruct (new_pages_bounds sz Hsz) as [Hn _].
  destruct (alloc_pages_spec (new_pages sz) m (pages h) (heap_ok_pages _ _ Hok)) as (p & m1 & s1 & Hr1 & Hpo & Hc);
    [unfold l_pageCount in Hn; lia|].
  rewrite Hr in Hr1. apply Done_triple_inj in Hr1 as (<- & <- & <-).
  destruct Hc as [(_ & -> & _)|(_ & _ & _ & _ & _ & Hsame & Hreg)]; [done|]. apply Hsame.
  eapply region_reserved; [exact Hpo| |done]. apply Hreg. by right.
Qed.

Lemma allocated_reserved m h p n a : heap_ok m h → allocated h p n → reserved (P := P) a → ¬ (p ≤ a < p + n).
Proof.
  intros Hok Hp Ha Hin. pose proof (heap_ok_init m h _ n Hok Hp) as Hinv.
  destruct (live_tag m h _ n Hinv Hp) as (t & Ht & _ & _ & _ & _ & Hfit & _).
  destruct (g_region m h (hv_geo _ _ _ Hinv) _ t Ht) as (q & k & [Hq _] & Hlo & Hhi & _).
  apply (region_reserved q k a _ (heap_ok_pages _ _ Hok) Hq Ha). unfold sizeof_tag in *. lia.
Qed.

(** What [malloc] promises. *)
Record malloc_gives (sz : Z) (m : mem) (h : heap P) (p : Z) (m' : mem) (h' : heap P) : Prop := {
  mg_mapped : mapped m' p sz;
  mg_bytes : bytes_ok m → bytes_ok m';
  mg_new n : ¬ allocated h p n;
  mg_disjoint q k : allocated h q k → disjoint_range p sz q k;
  mg_same q k i : allocated h q k → q ≤ i < q + k → m' !! i = m !! i;
  mg_allocated q k : allocated h' q k ↔ allocated h q k ∨ q = p ∧ k = sz;
  mg_reserved a : reserved (P := P) a → m' !! a = m !! a ∧ ¬ (p ≤ a < p + sz);
}.

Lemma malloc_spec sz m h :
  heap_ok m h → 0 ≤ sz < 2 ^ 31 →
  ∃ p m' h', malloc junk sz m h = Done (p, (m', h')) ∧ heap_ok m' h' ∧
    (p = 0 ∧ m' = m ∧ tags h' = tags h ∨ 0 < p ∧ malloc_gives sz m h p m' h').
Proof.
  intros Hok Hsz. destruct (malloc_ok sz m h Hok Hsz) as (tag & m' & h' & Hr & Hok' & Hpa & Hcase).
  eexists _, m', h'. split; [exact Hr|]. split; [done|].
  destruct Hcase as [(-> & -> & Htg)|(Hne & Hnew & Hm & Hl)]; [left; by split_and!|right].
  rewrite (proj2 (Z.eqb_neq tag 0)) by lia.
  assert (allocated h' (tag + sizeof_tag) sz) as Ha
    by (unfold allocated; rewrite Z.add_simpl_r; apply Hl; by left).
  destruct (allocated_mapped m' h' _ _ Hok' Ha) as (Hp & _ & _ & Hmap).
  split; [done|]. split.
  - done.
  - apply Hm.
  - intros n. unfold allocated. rewrite Z.add_simpl_r. apply Hnew.
  - intros q k Hq. assert (allocated h' q k) as Hq' by (apply Hl; by right).
    pose proof (allocated_disjoint m' h' _ sz q k Hok' Ha Hq') as Hd.
    destruct (decide (q = tag + sizeof_tag)) as [->|].
    { unfold allocated in Hq. rewrite Z.add_simpl_r in Hq. by apply Hnew in Hq. }
    unfold disjoint_range, sizeof_tag in *. lia.
  - intros q k i Hq Hi. by eapply allocated_same.
  - intros q k. unfold allocated. rewrite Hl. unfold sizeof_tag. split; intros [?|?]; auto with lia.
  - intros a Hres. split; [by eapply pages_after_reserved|by eapply allocated_reserved].
Qed.

Lemma hinv_dom cur m m' h : dom_grows m m' → hinv cur m h → hinv cur m' h.
Proof.
  intros Hdom [[H1 H2 H3 H4 H5 H6] [G1 G2 G3 G4 G5 G6 G7] Hc Hf Hcp Hin].
  split; [split; try done|by split|done..].
  intros a t Ht. destruct (H1 a t Ht) as (? & ? & ?). split; [done|]. split; [done|].
  by eapply dom_grows_mapped.
Qed.

Lemma heap_ok_dom m m' h : dom_grows m m' → heap_ok m h → heap_ok m' h.
Proof. intros Hdom (Hlk & Hinv & He). split; [done|]. split; [by eapply hinv_dom|done]. Qed.

(** [calloc], the size as the [int] it is computed in. *)
Lemma calloc_spec nobj sz m h :
  let n := i32 (nobj * sz) in
  heap_ok m h → 0 < n → m !! 0 = None →
  (∃ h', malloc junk n m h = Done (0, (m, h')) ∧ calloc junk nobj sz m h = Fault) ∨
  ∃ p m' h', calloc junk nobj sz m h = Done (p, (m', h')) ∧ heap_ok m' h' ∧ 0 < p ∧
    (∀ i, p ≤ i < p + n → m' !! i = Some 0) ∧
    (∀ q k i, allocated h q k → q ≤ i < q + k → m' !! i = m !! i) ∧
    ∀ q k, allocated h' q k ↔ allocated h q k ∨ q = p ∧ k = n.
Proof.
  intros n Hok Hn Hz. assert (n < 2 ^ 31) as Hn31 by (unfold n, i32; zlia).
  unfold calloc. fold n. rewrite (u64_id n) by (simpl; lia).
  destruct (malloc_spec n m h Hok) as (p & m' & h' & Hm & Hok' & Hcase); [lia|].
  rewrite Hm. cbn [mbind res_bind]. destruct Hcase as [(-> & -> & _)|(Hp & Hg)].
  - left. exists h'. split; [done|]. unfold liballoc_memset. replace (Z.to_nat n) with (S (Z.to_nat (n - 1))) by lia.
    cbn [for_loop]. change (0 + 0) with 0. unfold store8. by rewrite Hz.
  - right. destruct (liballoc_memset_spec m' p 0 n) as (m2 & -> & Ho); [lia|apply Hg|].
    cbn [mbind res_bind]. exists p, m2, h'. split; [done|].
    split; [eapply heap_ok_dom; [by eapply overwritten_grows|done]|]. split; [done|].
    split; [intros i Hi; by rewrite Ho, bool_decide_true|]. split; [|apply Hg].
    intros q k i Hq Hi. pose proof (mg_disjoint _ _ _ _ _ _ Hg q k Hq).
    rewrite Ho, bool_decide_false by (unfold disjoint_range in *; lia).
    by eapply (mg_same _ _ _ _ _ _ Hg).
Qed.

Lemma liballoc_memcpy_null m a n : m !! 0 = None → 0 < n → mapped m a n →
  liballoc_memcpy m 0 a n = Fault.
Proof.
  intros Hz Hn Hm. unfold liballoc_memcpy.
  assert (∀ v, store32 m (0 + 4 * 0) v = Fault) as Hst.
  { intros v. change (0 + 4 * 0) with 0. unfold store32. cbn [store_le].
    unfold store8. by rewrite Hz. }
  destruct (decide (4 ≤ n)) as [H4|H4].
  - assert (1 ≤ n / 4) by zlia. replace (Z.to_nat (n / 4)) with (S (Z.to_nat (n / 4 - 1))) by lia.
    cbn [for_loop]. destruct (load_le_total 4 m (a + 4 * 0)) as [w Hw];
      [eapply mapped_mono; [done|lia..]|].
    unfold load32. rewrite Hw. cbn [mbind res_bind]. by rewrite Hst.
  - replace (n / 4) with 0 by zlia. replace (n mod 4) with n by zlia. change (Z.to_nat 0) with 0%nat. cbn [for_loop mbind res_bind].
    replace (Z.to_nat n) with (S (Z.to_nat (n - 1))) by lia. cbn [for_loop].
    destruct (Hm a) as [b Hb]; [lia|]. unfold copy_byte, load8, store8.
    change (4 * 0) with 0. rewrite !Z.add_0_r, Hb. cbn [of_option mbind res_bind].
    by rewrite Hz.
Qed.

Lemma heap_ok_relock m h : heap_ok m h → set_llock (set_llock h true) (spin_release true) = h.
Proof. intros [Hlk _]. destruct h. cbn in *. by rewrite Hlk. Qed.

Lemma realloc_moves p n sz m h :
  heap_ok m h → allocated h p n → 0 ≤ n < 2 ^ 31 → 0 < sz < 2 ^ 31 →
  realloc junk p sz m h =
    '(ptr, (m, h)) ← malloc junk sz m h;
    m ← liballoc_memcpy m ptr p (Z.min n sz);
    h ← free p h;
    Done (ptr, (m, h)).
Proof.
  intros Hok Hp Hn Hsz. destruct (allocated_mapped m h p n Hok Hp) as (Hp0 & _ & Hpb & _).
  pose proof Hp as (t & Ht & Hi & Hst & Hp48).
  assert (0 < p - sizeof_tag) as Hp48'.
  { pose proof (heap_ok_init m h _ n Hok Hp) as Hinv.
    apply (geo_nonzero m h _ t (hv_geo _ _ _ Hinv) Ht). }
  unfold realloc. rewrite (proj2 (Z.eqb_neq sz 0)), (proj2 (Z.eqb_neq p 0)) by lia.
  rewrite (proj1 Hok), spin_lock_free. cbn [mbind res_bind].
  unfold sizeof_tag in *. rewrite u64_id by (simpl; lia). unfold tag_at. cbn [set_llock tags].
  rewrite Ht. cbn [of_option mbind res_bind]. rewrite Hst, !i32_id by (simpl; lia).
  cbn [llock set_llock]. change (MkHeap _ _ _ _ (spin_release true) _)
    with (set_llock (set_llock h true) (spin_release true)).
  rewrite (heap_ok_relock m h Hok).
  replace (if sz <? n then sz else n) with (Z.min n sz) by (destruct (Z.ltb_spec sz n); lia).
  by rewrite (u64_id (Z.min n sz)) by (simpl; lia).
Qed.

(** A block that moves. *)
Lemma realloc_spec p n sz m h :
  heap_ok m h → bytes_ok m → allocated h p n → 0 < n < 2 ^ 31 → 0 < sz < 2 ^ 31 → m !! 0 = None →
  (∃ h', malloc junk sz m h = Done (0, (m, h')) ∧ realloc junk p sz m h = Fault) ∨
  ∃ q m' h', realloc junk p sz m h = Done (q, (m', h')) ∧ heap_ok m' h' ∧ 0 < q ∧
    mapped m' q sz ∧ (∀ x k, allocated h x k → disjoint_range q sz x k) ∧
    (∀ i, 0 ≤ i < Z.min n sz → m' !! (q + i) = m !! (p + i)) ∧
    (∀ x k i, allocated h x k → x ≤ i < x + k → m' !! i = m !! i) ∧ bytes_ok m' ∧
    (∀ x k, allocated h' x k ↔ allocated h x k ∧ x ≠ p ∨ x = q ∧ k = sz) ∧
    ∀ i, reserved (P := P) i → m' !! i = m !! i ∧ ¬ (q ≤ i < q + sz).
Proof.
  intros Hok Hby Hp Hn Hsz Hz. destruct (allocated_mapped m h p n Hok Hp) as (_ & _ & _ & Hmp).
  rewrite (realloc_moves p n) by (done || lia). set (k := Z.min n sz).
  destruct (malloc_spec sz m h Hok) as (q & m' & h' & Hm & Hok' & Hcase); [lia|].
  rewrite Hm. cbn [mbind res_bind]. destruct Hcase as [(-> & -> & _)|(Hq & Hg)].
  { left. exists h'. split; [done|]. rewrite liballoc_memcpy_null; [done|done|unfold k; lia|].
    eapply mapped_mono; [done|unfold k; lia..]. }
  pose proof (mg_disjoint _ _ _ _ _ _ Hg p n Hp) as Hd.
  assert (q ≠ p) as Hqp by (intros ->; by apply (mg_new _ _ _ _ _ _ Hg n)).
  assert (mapped m' p n) as Hmp'.
  { intros i Hi'. rewrite (mg_same _ _ _ _ _ _ Hg p n i Hp Hi'). by apply Hmp. }
  right. destruct (liballoc_memcpy_spec m' q p k) as (m2 & -> & Ho);
    [by apply (mg_bytes _ _ _ _ _ _ Hg)|unfold k; lia|
     eapply mapped_mono; [apply (mg_mapped _ _ _ _ _ _ Hg)|unfold k; lia..]|
     eapply mapped_mono; [exact Hmp'|unfold k; lia..]|unfold k, disjoint_range in *; lia|].
  cbn [mbind res_bind].
  assert (dom_grows m' m2) as Hdom.
  { eapply overwritten_grows; [done|]. intros i Hi'. apply Hmp'. unfold k in *. lia. }
  assert (heap_ok m2 h') as Hok2 by (by eapply heap_ok_dom).
  assert (allocated h' p n) as Hp' by (apply (mg_allocated _ _ _ _ _ _ Hg); by left).
  destruct (free_ok m2 h' _ n Hok2 Hp') as (h3 & Hfree & Hok3 & Hl3).
  rewrite Z.sub_add in Hfree. rewrite Hfree. cbn [mbind res_bind].
  exists q, m2, h3. split; [done|]. split; [done|]. split; [done|].
  split; [eapply dom_grows_mapped; [done|apply (mg_mapped _ _ _ _ _ _ Hg)]|].
  split; [exact (mg_disjoint _ _ _ _ _ _ Hg)|]. split; [|split; [|split; [|split]]].
  - intros i Hi'. rewrite Ho, bool_decide_true by lia. rewrite Z.add_simpl_l.
    apply (mg_same _ _ _ _ _ _ Hg p n); [done|unfold k in *; lia].
  - intros x j i Hx Hi'. pose proof (mg_disjoint _ _ _ _ _ _ Hg x j Hx).
    rewrite Ho, bool_decide_false by (unfold k, disjoint_range in *; lia).
    by apply (mg_same _ _ _ _ _ _ Hg x j).
  - pose proof (mg_bytes _ _ _ _ _ _ Hg Hby) as Hby'.
    eapply (bytes_ok_overwritten m' m'); [done|done|exact Ho|]. intros i b Hb. by exists (p + i).
  - intros x j. unfold allocated at 1. rewrite Hl3.
    change (live_but 0 h' (x - sizeof_tag) j) with (allocated h' x j).
    rewrite (mg_allocated _ _ _ _ _ _ Hg x j). unfold sizeof_tag.
    split; [intros [[? | [-> ->]] ?]; [left; split; [done|lia]|by right]|].
    intros [[? ?]|[-> ->]]; (split; [auto|lia]).
  - intros i Hi. destruct (mg_reserved _ _ _ _ _ _ Hg i Hi) as [<- Hni]. split; [|done].
    rewrite Ho, bool_decide_false; [done|unfold k; lia].
Qed.

(** A heap nobody has used. *)
Definition fresh_heap (s : P) : heap P := MkHeap ∅ (replicate 32 0) (replicate 32 0) false false s.

Lemma replicate_zero (i a : Z) : replicate 32 0 !!z i = Some a → a = 0.
Proof.
  intros [_ Ha]%lookup_z_Some. by apply lookup_replicate_1 in Ha as [-> _].
Qed.

Lemma heap_ok_empty m h :
  llock h = false → tags h = ∅ → pages_ok (pages h) → l_initialized h = false → heap_ok m h.
Proof.
  intros Hlk Htg Hpg Hin. split; [done|]. split; [|done]. unfold malloc_init. rewrite Hin. cbn [negb].
  split; try done; cbn [tags set_tags set_initialized set_complete set_free l_freePages pages].
  - split; cbn; rewrite ?Htg; intros; by rewrite ?lookup_empty in *.
  - split; cbn [tags set_initialized set_complete set_free l_freePages]; rewrite ?Htg;
      try (intros; by rewrite ?lookup_empty in *).
    intros i a Ha Hne. by apply replicate_zero in Ha.
  - intros a t b u. cbn. rewrite Htg. by rewrite lookup_empty.
  - intros a t. cbn. rewrite Htg. by rewrite lookup_empty.
Qed.

Lemma fresh_heap_ok m s : pages_ok s → heap_ok m (fresh_heap s).
Proof. intros Hs. by apply heap_ok_empty. Qed.

Lemma fresh_allocated s p n : ¬ allocated (fresh_heap s) p n.
Proof. intros (t & Ht & _). cbn in Ht. by rewrite lookup_empty in Ht. Qed.

(** *** A client *)

Inductive request : Type := Malloc (sz : Z) | Free (i : nat).

(** The client holds pointers and their sizes; [Free i] frees the [i]-th. *)
Fixpoint serve (rs : list request) (held : list (Z * Z)) (m : mem) (h : heap P) :
    res (list (Z * Z) * (mem * heap P)) :=
  match rs with
  | [] => Done (held, (m, h))
  | Malloc sz :: rs =>
      '(p, (m, h)) ← malloc junk sz m h;
      serve rs (if p =? 0 then held else (p, sz) :: held) m h
  | Free i :: rs =>
      match held !! i with
      | Some (p, _) => h ← free p h; serve rs (delete i held) m h
      | None => serve rs held m h
      end
  end.

(** The client holds exactly the allocated blocks. *)
Record serving (held : list (Z * Z)) (m : mem) (h : heap P) : Prop := {
  sv_ok : heap_ok m h;
  sv_nodup : NoDup held.*1;
  sv_held p n : (p, n) ∈ held ↔ allocated h p n;
}.

Lemma allocated_once h p n k : allocated h p n → allocated h p k → n = k.
Proof. intros (t & Ht & _ & Hn & _) (u & Hu & _ & Hk & _). congruence. Qed.

Lemma serving_malloc held m h sz p m' h' :
  serving held m h → heap_ok m' h' → malloc_gives sz m h p m' h' → serving ((p, sz) :: held) m' h'.
Proof.
  intros [Hok Hnd Hh] Hok' Hg. split; [done| |].
  - cbn. constructor; [|done]. intros [[q n] [-> Hq]]%list_elem_of_fmap_1.
    by apply (mg_new _ _ _ _ _ _ Hg n), Hh.
  - intros q k. rewrite elem_of_cons, (mg_allocated _ _ _ _ _ _ Hg), Hh.
    split; [intros [[= -> ->]|?]; auto|intros [?|[-> ->]]; auto].
Qed.

(** Deleting one entry of an association list without repeated keys. *)
Lemma delete_key (held : list (Z * Z)) i p n :
  NoDup held.*1 → held !! i = Some (p, n) →
  NoDup (delete i held).*1 ∧ ∀ q k, (q, k) ∈ delete i held ↔ (q, k) ∈ held ∧ q ≠ p.
Proof.
  intros Hnd Hi. rewrite delete_take_drop. set (l1 := take i held). set (l2 := drop (S i) held).
  assert (held = l1 ++ (p, n) :: l2) as Heq by (symmetry; by apply take_drop_middle).
  clearbody l1 l2. subst held. rewrite fmap_app, fmap_cons in Hnd.
  apply list.NoDup_app in Hnd as (Hn1 & Hd & Hn2). inversion Hn2 as [|? ? Hp Hn2']; subst.
  split.
  - rewrite fmap_app. apply list.NoDup_app. split; [done|]. split; [|done].
    intros x Hx Hx2. apply (Hd x Hx). by right.
  - assert (∀ k, (p, k) ∉ l1 ++ l2) as Hno.
    { intros k [Hk|Hk]%elem_of_app.
      - apply (Hd p); [by apply (list_elem_of_fmap_2 fst _ (p, k))|by left].
      - by apply Hp, (list_elem_of_fmap_2 fst _ (p, k)). }
    intros q k. rewrite !elem_of_app, elem_of_cons. split.
    + intros Hq. split; [tauto|]. intros ->. by apply (Hno k), elem_of_app.
    + intros [[|[[= -> ->]|]] ?]; tauto.
Qed.

Lemma serving_free held m h h' i p n :
  serving held m h → held !! i = Some (p, n) → heap_ok m h' →
  (∀ q k, allocated h' q k ↔ allocated h q k ∧ q ≠ p) → serving (delete i held) m h'.
Proof.
  intros [Hok Hnd Hh] Hi Hok' Hl. destruct (delete_key held i p n Hnd Hi) as [Hnd' Hd].
  split; [done|done|]. intros q k. by rewrite Hl, <-Hh, Hd.
Qed.

Lemma free_held held m h i p n :
  serving held m h → held !! i = Some (p, n) →
  ∃ h', free p h = Done h' ∧ serving (delete i held) m h'.
Proof.
  intros Hs Hi. pose proof (sv_ok _ _ _ Hs) as Hok.
  assert (allocated h p n) as Hp by (apply (sv_held _ _ _ Hs); by eapply list_elem_of_lookup_2).
  destruct (free_ok m h _ n Hok Hp) as (h' & Hr & Hok' & Hl). rewrite Z.sub_add in Hr.
  exists h'. split; [done|]. eapply serving_free; [done|done|done|].
  intros q k. unfold allocated. rewrite Hl. unfold sizeof_tag. split; intros [? ?]; (split; [done|lia]).
Qed.

Lemma serve_spec rs held m h :
  serving held m h → (∀ sz, Malloc sz ∈ rs → 0 ≤ sz < 2 ^ 31) →
  ∃ held' m' h', serve rs held m h = Done (held', (m', h')) ∧ serving held' m' h'.
Proof.
  revert held m h. induction rs as [|[sz|i] rs IH]; intros held m h Hs Hsz; cbn [serve].
  - by exists held, m, h.
  - destruct (malloc_spec sz m h (sv_ok _ _ _ Hs)) as (p & m' & h' & -> & Hok' & Hcase);
      [apply Hsz; by left|].
    cbn [mbind res_bind]. apply IH; [|intros; apply Hsz; by right].
    destruct Hcase as [(-> & -> & Htg)|(Hp & Hg)]; cbn [Z.eqb].
    + destruct Hs as [_ Hnd Hh]. split; [done|done|]. intros q k. rewrite Hh.
      unfold allocated, live_but. by rewrite Htg.
    + rewrite (proj2 (Z.eqb_neq p 0)) by lia. by eapply serving_malloc.
  - destruct (held !! i) as [[p n]|] eqn:Hi; [|apply IH; [done|intros; apply Hsz; by right]].
    destruct (free_held held m h i p n Hs Hi) as (h' & -> & Hs'). cbn [mbind res_bind].
    apply IH; [done|intros; apply Hsz; by right].
Qed.
End operations.

(** ** The theorems *)

(** C2: for any heap in use, [malloc] returns; what it returns is NULL and
    nothing has changed, or a block of the size asked for, mapped, disjoint from
    every block in use, none of whose bytes it has touched. *)
Theorem malloc_correct {P : Type} `{PageSourceLaws P} (junk sz : Z) (m : mem) (h : heap P)
    (Hok : heap_ok m h) (Hsz : 0 ≤ sz < 2 ^ 31) :
  ∃ p m' h', malloc junk sz m h = Done (p, (m', h')) ∧ heap_ok m' h' ∧
    (p = 0 ∧ m' = m ∧ (∀ q k, allocated h' q k ↔ allocated h q k) ∨
     0 < p ∧ mapped m' p sz ∧
     (∀ q k, allocated h q k → disjoint_range p sz q k ∧
        ∀ i, q ≤ i < q + k → m' !! i = m !! i) ∧
     (∀ n, ¬ allocated h p n) ∧
     ∀ q k, allocated h' q k ↔ allocated h q k ∨ q = p ∧ k = sz).
Proof.
  destruct (malloc_spec junk sz m h Hok Hsz) as (p & m' & h' & Hr & Hok' & Hcase).
  exists p, m', h'. split; [done|]. split; [done|].
  destruct Hcase as [(-> & -> & Htg)|(Hp & [])]; [left|right].
  - split_and!; [done..|]. intros q k. unfold allocated, live_but. by rewrite Htg.
  - split_and!; eauto.
Qed.

(** C3: [free] of a block in use takes that block, and only it, out of use,
    whatever merging and giving back of pages it does; NULL is ignored. *)
Theorem free_correct {P : Type} `{PageSourceLaws P} (m : mem) (h : heap P) (p n : Z)
    (Hok : heap_ok m h) (Hp : allocated h p n) :
  (∃ h', free p h = Done h' ∧ heap_ok m h' ∧
     ∀ q k, allocated h' q k ↔ allocated h q k ∧ q ≠ p) ∧
  free 0 h = Done h.
Proof.
  split; [|done]. destruct (free_ok m h _ n Hok Hp) as (h' & Hr & Hok' & Hl).
  rewrite Z.sub_add in Hr. exists h'. split; [done|]. split; [done|].
  intros q k. unfold allocated. rewrite Hl. unfold sizeof_tag.
  split; intros [? ?]; (split; [done|lia]).
Qed.

(** C4: from a fresh heap, every sequence of requests is served: none
    faults, and the blocks the client holds in the end are mapped, are exactly
    the allocated ones and are pairwise disjoint. *)
Theorem heap_serves {P : Type} `{PageSourceLaws P} (junk : Z) (rs : list request) (m : mem) (s : P)
    (Hs : pages_ok s) (Hsz : ∀ sz, Malloc sz ∈ rs → 0 ≤ sz < 2 ^ 31) :
  ∃ held m' h', serve junk rs [] m (fresh_heap s) = Done (held, (m', h')) ∧
    (∀ p n, (p, n) ∈ held ↔ allocated h' p n) ∧
    (∀ p n, (p, n) ∈ held → mapped m' p n) ∧
    (∀ i j p n q k, held !! i = Some (p, n) → held !! j = Some (q, k) → i ≠ j →
       disjoint_range p n q k).
Proof.
  destruct (serve_spec junk rs [] m (fresh_heap s)) as (held & m' & h' & Hr & [Hok Hnd Hh]).
  - split; [by apply fresh_heap_ok|constructor|]. intros p n.
    split; [by intros ?%elem_of_nil|by intros ?%fresh_allocated].
  - done.
  - exists held, m', h'. split; [done|]. split; [done|]. split.
    + intros p n Hp. by apply (allocated_mapped m' h' p n), Hh.
    + intros i j p n q k Hi Hj Hne.
      assert (p ≠ q) as Hpq.
      { intros ->. apply Hne. eapply (NoDup_lookup held.*1); [done| |];
          by rewrite list_lookup_fmap, ?Hi, ?Hj. }
      assert (allocated h' p n) as Hp by (apply Hh; by eapply list_elem_of_lookup_2).
      assert (allocated h' q k) as Hq by (apply Hh; by eapply list_elem_of_lookup_2).
      pose proof (allocated_disjoint m' h' p n q k Hok Hp Hq Hpq) as Hd.
      destruct (allocated_mapped m' h' p n Hok Hp) as (_ & Hn & _).
      unfold disjoint_range, sizeof_tag in *. lia.
Qed.

(** C5: [realloc] moves a block: the first bytes of the new one, as many
    as both have, are those of the old, which is freed; other blocks keep their
    bytes.  Without memory it copies to NULL, a fault. *)
Theorem realloc_correct {P : Type} `{PageSourceLaws P} (junk p n sz : Z) (m : mem) (h : heap P)
    (Hok : heap_ok m h) (Hby : bytes_ok m) (Hp : allocated h p n)
    (Hn : 0 < n < 2 ^ 31) (Hsz : 0 < sz < 2 ^ 31) (Hz : m !! 0 = None) :
  (∃ h', malloc junk sz m h = Done (0, (m, h')) ∧ realloc junk p sz m h = Fault) ∨
  ∃ q m' h', realloc junk p sz m h = Done (q, (m', h')) ∧ heap_ok m' h' ∧ 0 < q ∧
    mapped m' q sz ∧ (∀ x k, allocated h x k → disjoint_range q sz x k) ∧
    (∀ i, 0 ≤ i < Z.min n sz → m' !! (q + i) = m !! (p + i)) ∧
    (∀ x k i, allocated h x k → x ≤ i < x + k → m' !! i = m !! i) ∧ bytes_ok m' ∧
    ∀ x k, allocated h' x k ↔ allocated h x k ∧ x ≠ p ∨ x = q ∧ k = sz.
Proof.
  destruct (realloc_spec junk p n sz m h Hok Hby Hp Hn Hsz Hz) as [Hf|(q & m' & h' & Hr & ?&?&?&?&?&?&?&?&_)];
    [by left|right]. by exists q, m', h'.
Qed.

(** [calloc] returns zeroed memory, of the product's size as an
    [int]: a product of [2 ^ 32 + n] yields [n] bytes.  Without memory it clears
    at NULL, a fault. *)
Theorem calloc_correct {P : Type} `{PageSourceLaws P} (junk nobj sz : Z) (m : mem) (h : heap P)
    (Hok : heap_ok m h) (Hn : 0 < i32 (nobj * sz)) (Hz : m !! 0 = None) :
  (∃ h', malloc junk (i32 (nobj * sz)) m h = Done (0, (m, h')) ∧
     calloc junk nobj sz m h = Fault) ∨
  ∃ p m' h', calloc junk nobj sz m h = Done (p, (m', h')) ∧ heap_ok m' h' ∧ 0 < p ∧
    (∀ i, p ≤ i < p + i32 (nobj * sz) → m' !! i = Some 0) ∧
    (∀ q k i, allocated h q k → q ≤ i < q + k → m' !! i = m !! i) ∧
    ∀ q k, allocated h' q k ↔ allocated h q k ∨ q = p ∧ k = i32 (nobj * sz).
Proof. by apply calloc_spec. Qed.

(** The size is cut to 32 bits on the way to the pages: on a fresh
    heap a request of [sz] bytes is served like one of [sz mod 2^32]. *)
Theorem malloc_truncates {P : Type} `{PageSourceLaws P} (junk sz : Z) (m : mem) (s : P)
    (Hs : pages_ok s) (Hsz : 0 ≤ sz < 2 ^ 63) :
  malloc junk sz m (fresh_heap s) = malloc junk (u32 sz) m (fresh_heap s).
Proof.
  pose proof (u32_range sz) as Hu. unfold malloc. cbn [fresh_heap llock].
  rewrite spin_lock_free. cbn [mbind res_bind]. rewrite !getexp_spec by (simpl in *; lia).
  cbn [mbind res_bind]. unfold MODE, MINEXP. rewrite !Z.add_0_r.
  assert (∀ e, e ≤ 30 → get_free (malloc_init (set_llock (fresh_heap s) true))
    (if e <? 8 then 8 else e) = Done 0) as Hhead.
  { intros e He. change (of_option (replicate 32 0 !!z (if e <? 8 then 8 else e)) = Done 0).
    destruct (proj2 (lookup_z_is_Some (replicate 32 0) (if e <? 8 then 8 else e))) as [a Ha].
    - destruct (Z.ltb_spec e 8); unfold length_z; cbn; lia.
    - rewrite Ha. by apply replicate_zero in Ha as ->. }
  rewrite !Hhead by (match goal with |- context [?a <? 256] => destruct (a <? 256) end; lia).
  cbn [mbind res_bind].
  change (find_tag _ sz _ 0) with (@Done Z 0). change (find_tag _ (u32 sz) _ 0) with (@Done Z 0).
  cbn [mbind res_bind]. unfold malloc_fetch. cbn [Z.eqb].
  rewrite (u32_id (u32 sz)) by done.
  destruct (allocate_new_tag _ _ _) as [[tag [m' h']]| | |]; cbn [mbind res_bind]; [|done..].
  destruct (tag =? 0); [done|]. f_equal. unfold malloc_cut. rewrite (u32_id (u32 sz)) by done.
  destruct (upd _ _ _) as [h1| | |]; cbn [mbind res_bind]; [|done..].
  destruct (tag_at h1 tag) as [t| | |]; cbn [mbind res_bind]; [|done..].
  replace (u32 (real_size t - u32 sz - sizeof_tag * 2)) with (u32 (real_size t - sz - sizeof_tag * 2));
    [done|].
  unfold u32. pose proof (Z.div_mod sz (2 ^ 32) ltac:(lia)).
  replace (real_size t - sz - sizeof_tag * 2) with
    (real_size t - sz mod 2 ^ 32 - sizeof_tag * 2 + - (sz / 2 ^ 32) * 2 ^ 32) by lia.
  by rewrite Z_mod_plus_full.
Qed.
