(* ===== verification/BumpPages.v ===== *)
(** * A page source that counts upwards

    An instance of [Pages.v] that hands out ever higher runs below a limit and
    returns NULL from there on; the theorems of [AllocSpec.v] are applied to it. *)

From S2P Require Import Prelude CInt Mem Arch Frames Pages Alloc AllocInv AllocSpec.

Record bump : Type := Bump { bump_next : Z; bump_runs : gmap Z Z }.
Definition bump_limit : Z := 2 ^ 40.

(** [n] bytes from [p] on, cleared. *)
Definition zero_run (m : mem) (p n : Z) : mem :=
  gset_to_gmap 0 (list_to_set (seqZ p n)) ∪ m.

Record bump_ok (s : bump) : Prop := BumpOk {
  bo_next : 0 < bump_next s ≤ bump_limit;
  bo_run p n : bump_runs s !! p = Some n →
    0 < p ∧ 0 < n < 2 ^ 20 ∧ p + n * PAGE_SIZE ≤ bump_next s;
  bo_disjoint p n q k : bump_runs s !! p = Some n → bump_runs s !! q = Some k → p ≠ q →
    disjoint_range p (n * PAGE_SIZE) q (k * PAGE_SIZE);
}.

(** [zero] is kept abstract where the heap is run on a concrete input. *)
Definition bump_pages_with (zero : mem → Z → Z → mem) : PageSource bump := {|
  liballoc_alloc n m s :=
    let p := bump_next s in
    if p + n * PAGE_SIZE <=? bump_limit
    then Done (p, (zero m p (n * PAGE_SIZE), Bump (p + n * PAGE_SIZE) (<[p := n]> (bump_runs s))))
    else Done (0, (m, s));
  liballoc_free p n s := Done (Bump (bump_next s) (delete p (bump_runs s)));
  region s p n := bump_runs s !! p = Some n;
  pages_ok := bump_ok;
  pages_room k s := bump_next s + Z.of_nat k * (16 * PAGE_SIZE) ≤ bump_limit;
  reserved a := bump_limit ≤ a;
|}.
#[global] Instance bump_pages : PageSource bump := bump_pages_with zero_run.

Lemma zero_run_overwritten m p n : overwritten m (zero_run m p n) p n (λ _, Some 0).
Proof.
  intros a. unfold zero_run. case_bool_decide as Ha.
  - apply lookup_union_Some_l, lookup_gset_to_gmap_Some. split; [|done].
    apply elem_of_list_to_set, elem_of_seqZ. lia.
  - apply lookup_union_r, lookup_gset_to_gmap_None.
    rewrite elem_of_list_to_set, elem_of_seqZ. lia.
Qed.

Lemma bump_ok_alloc s n :
  bump_ok s → 0 < n < 2 ^ 20 → bump_next s + n * PAGE_SIZE ≤ bump_limit →
  bump_ok (Bump (bump_next s + n * PAGE_SIZE) (<[bump_next s := n]> (bump_runs s))).
Proof.
  intros [Hn Hr Hd] Hsz Hlim.
  assert (∀ p k, <[bump_next s := n]> (bump_runs s) !! p = Some k →
    p = bump_next s ∧ k = n ∨ bump_runs s !! p = Some k) as Hfrom.
  { intros p k. destruct (decide (p = bump_next s)) as [->|Hne];
      [rewrite lookup_insert_eq; intros [= <-]; by left|rewrite lookup_insert_ne by done; by right]. }
  split; cbn [bump_next bump_runs]; unfold PAGE_SIZE, bump_limit in *.
  - lia.
  - intros p k [[-> ->]|Hp]%Hfrom; [lia|]. specialize (Hr p k Hp). lia.
  - intros p k q j [[-> ->]|Hp]%Hfrom [[-> ->]|Hq]%Hfrom Hne; [done| | |by apply Hd].
    + specialize (Hr q j Hq). unfold disjoint_range. lia.
    + specialize (Hr p k Hp). unfold disjoint_range. lia.
Qed.

#[global] Instance bump_pages_laws : PageSourceLaws bump.
Proof.
  split; unfold pages_ok, region, liballoc_alloc, liballoc_free, bump_pages, bump_pages_with.
  - intros n m s Hs Hn. cbv zeta. destruct (Z.leb_spec (bump_next s + n * PAGE_SIZE) bump_limit) as [Hl|].
    2: { exists 0, m, s. split; [done|]. split; [done|]. by left. }
    eexists _, _, _. split; [done|]. split; [by apply bump_ok_alloc|]. right.
    pose proof (zero_run_overwritten m (bump_next s) (n * PAGE_SIZE)) as Ho.
    pose proof (bo_next s Hs). split; [lia|]. split; [|split; [|split; [|split; [|split]]]].
    + intros a Ha. rewrite Ho, bool_decide_true by lia. done.
    + intros a Ha. rewrite Ho. by case_bool_decide.
    + intros Hb a b. rewrite Ho. case_bool_decide; [intros [= <-]; simpl; lia|apply Hb].
    + intros q k Hq. destruct (bo_run s Hs q k Hq) as (? & ? & ?). unfold disjoint_range. lia.
    + intros a Ha. by rewrite Ho, bool_decide_false.
    + intros q k. cbn [bump_runs]. destruct (decide (q = bump_next s)) as [->|Hne].
      * rewrite lookup_insert_eq. split; [intros [= ->]; by right|]. intros [Hq|[_ ->]]; [|done].
        destruct (bo_run s Hs _ _ Hq) as (? & ? & ?). unfold PAGE_SIZE in *. lia.
      * rewrite lookup_insert_ne by done. split; [by left|]. intros [?|[? _]]; done.
  - intros p n s [Hn Hr Hd] Hp. eexists. split; [done|]. split.
    + split; cbn [bump_next bump_runs]; [done| |].
      * intros q k [_ Hq]%lookup_delete_Some. by apply Hr.
      * intros q k r j [_ Hq]%lookup_delete_Some [_ Hj]%lookup_delete_Some. by apply Hd.
    + intros q k. cbn [bump_runs]. rewrite lookup_delete_Some. naive_solver.
  - intros p n q k s Hs. by apply (bo_disjoint s Hs).
  - intros p n a s Hs Hp Ha. destruct (bo_run s Hs p n Hp) as (? & ? & ?).
    pose proof (bo_next s Hs). cbn in Ha. lia.
  - congruence.
  - intros p n s Hs Hp. destruct (bo_run s Hs p n Hp) as (? & ? & ?).
    pose proof (bo_next s Hs). unfold bump_limit in *. lia.
  - intros k n m s p m' s' Hs Hrm Hn. cbv zeta. unfold pages_room, PAGE_SIZE in *.
    cbn [pages_room bump_pages bump_pages_with] in Hrm.
    destruct (Z.leb_spec (bump_next s + n * 4096) bump_limit); [|unfold PAGE_SIZE in *; lia].
    intros (<- & _ & <-)%Done_triple_inj. cbn [bump_next]. pose proof (bo_next s Hs).
    unfold PAGE_SIZE in *. lia.
  - intros k s Hrm. cbn [pages_room bump_pages bump_pages_with] in *. unfold PAGE_SIZE in *. lia.
Qed.

#[global] Instance bump_zero : ZeroPages bump.
Proof.
  intros n m s p m' s' a Hs Hn Hr Hp Ha. unfold liballoc_alloc, bump_pages, bump_pages_with in Hr. cbv zeta in Hr.
  destruct (_ <=? _); [|by apply Done_triple_inj in Hr as (? & _); congruence].
  apply Done_triple_inj in Hr as (<- & <- & _). by rewrite zero_run_overwritten, bool_decide_true.
Qed.

(** ** The heap on these pages *)

Definition bump_start : bump := Bump 0x100000 ∅.

Lemma bump_start_ok : pages_ok bump_start.
Proof.
  change (bump_ok bump_start). split; cbn; [unfold bump_limit; lia|intros; by rewrite lookup_empty in *..].
Qed.

(** After [malloc(100)] on a fresh heap. *)
Definition one_block : heap bump :=
  MkHeap {[ 0x100000 := BTag LIBALLOC_MAGIC 100 148 (-1) 0 0x100094 0 0;
            0x100094 := BTag LIBALLOC_MAGIC 7 65388 15 0x100000 0 0 0 ]}
    (<[15%nat := 0x100094]> (replicate 32 0)) (replicate 32 0) true false
    (Bump 0x110000 {[ 0x100000 := 16 ]}).
Definition one_block_mem : mem := zero_run ∅ 0x100000 65536.

Lemma malloc_one_block_with zero :
  malloc (H := bump_pages_with zero) 7 100 ∅ (fresh_heap bump_start) =
  Done (0x100030, (zero ∅ 0x100000 65536, one_block)).
Proof. vm_compute. reflexivity. Qed.

Lemma malloc_one_block :
  malloc 7 100 ∅ (fresh_heap bump_start) = Done (0x100030, (one_block_mem, one_block)).
Proof. apply (malloc_one_block_with zero_run). Qed.

Lemma one_block_ok : heap_ok one_block_mem one_block.
Proof.
  destruct (malloc_spec 7 100 ∅ (fresh_heap bump_start)) as (p & m & h & Hr & Hok & _);
    [by apply fresh_heap_ok, bump_start_ok|lia|].
  rewrite malloc_one_block in Hr. apply Done_triple_inj in Hr as (_ & <- & <-). exact Hok.
Qed.

Lemma one_block_allocated : allocated one_block 0x100030 100.
Proof. by eexists. Qed.

Lemma one_block_bytes : bytes_ok one_block_mem.
Proof.
  intros a b. unfold one_block_mem. rewrite zero_run_overwritten.
  case_bool_decide; [intros [= <-]; simpl; lia|by rewrite lookup_empty].
Qed.

Lemma one_block_null : one_block_mem !! 0 = None.
Proof. unfold one_block_mem. by rewrite zero_run_overwritten, bool_decide_false by lia. Qed.

(** A second block is not the first. *)
Lemma malloc_correct_witness :
  ∃ p m' h', malloc 7 200 one_block_mem one_block = Done (p, (m', h')) ∧
    (p = 0 ∨ disjoint_range p 200 0x100030 100).
Proof.
  destruct (malloc_correct 7 200 one_block_mem one_block) as (p & m' & h' & Hr & _ & Hcase);
    [exact one_block_ok|lia|].
  exists p, m', h'. split; [exact Hr|].
  destruct Hcase as [[Hp _]|(_ & _ & Hd & _)]; [left; exact Hp|right].
  apply (Hd _ _ one_block_allocated).
Defined.

Lemma free_correct_witness :
  ∃ h', free 0x100030 one_block = Done h' ∧ ¬ allocated h' 0x100030 100.
Proof.
  destruct (free_correct one_block_mem one_block 0x100030 100 one_block_ok one_block_allocated)
    as [(h' & Hr & _ & Hl) _].
  exists h'. split; [exact Hr|]. intros Ha. apply (proj2 (proj1 (Hl _ _) Ha)). reflexivity.
Defined.

Lemma heap_serves_witness :
  ∃ held m' h', serve 7 [Malloc 100; Malloc 5000; Free 1; Malloc 70000] [] ∅ (fresh_heap bump_start)
    = Done (held, (m', h')).
Proof.
  destruct (heap_serves 7 [Malloc 100; Malloc 5000; Free 1; Malloc 70000] ∅ bump_start bump_start_ok)
    as (held & m' & h' & Hr & _).
  { intros sz Hsz. set_unfold in Hsz. naive_solver lia. }
  exists held, m', h'. exact Hr.
Defined.

Lemma realloc_correct_witness :
  (∃ h', malloc 7 40 one_block_mem one_block = Done (0, (one_block_mem, h')) ∧
     realloc 7 0x100030 40 one_block_mem one_block = Fault) ∨
  ∃ q m' h', realloc 7 0x100030 40 one_block_mem one_block = Done (q, (m', h')) ∧
    m' !! (q + 39) = Some 0.
Proof.
  destruct (realloc_correct 7 0x100030 100 40 one_block_mem one_block)
    as [Hf|(q & m' & h' & Hr & _ & _ & _ & _ & Hsame & _)];
    [exact one_block_ok|exact one_block_bytes|exact one_block_allocated|lia..|exact one_block_null| |].
  - left. exact Hf.
  - right. exists q, m', h'. split; [exact Hr|]. rewrite Hsame by lia.
    unfold one_block_mem. rewrite zero_run_overwritten, bool_decide_true by lia. reflexivity.
Defined.

(** Ten bytes for 2^31 + 5 pairs of bytes. *)
Lemma calloc_correct_witness :
  (∃ h', malloc 7 10 ∅ (fresh_heap bump_start) = Done (0, (∅, h')) ∧
     calloc 7 (2 ^ 31 + 5) 2 ∅ (fresh_heap bump_start) = Fault) ∨
  ∃ p m' h', calloc 7 (2 ^ 31 + 5) 2 ∅ (fresh_heap bump_start) = Done (p, (m', h')) ∧
    allocated h' p 10.
Proof.
  assert (i32 ((2 ^ 31 + 5) * 2) = 10) as Heq by reflexivity.
  destruct (calloc_correct 7 (2 ^ 31 + 5) 2 ∅ (fresh_heap bump_start))
    as [Hf|(p & m' & h' & Hr & _ & _ & _ & _ & Hl)];
    [apply fresh_heap_ok, bump_start_ok|rewrite Heq; lia|apply lookup_empty| |].
  - left. rewrite Heq in Hf. exact Hf.
  - right. exists p, m', h'. split; [exact Hr|]. rewrite Heq in Hl. apply Hl. right.
    split; reflexivity.
Defined.

Lemma malloc_truncates_witness :
  malloc 7 (2 ^ 32 + 100) ∅ (fresh_heap bump_start) = Done (0x100030, (one_block_mem, one_block)).
Proof.
  assert (u32 (2 ^ 32 + 100) = 100) as Heq by reflexivity.
  rewrite (malloc_truncates 7 (2 ^ 32 + 100) ∅ bump_start bump_start_ok) by lia.
  rewrite Heq. exact malloc_one_block.
Defined.
