(* ===== verification/KernelPages.v ===== *)
(** * The pages of the kernel's heap ([src/src/kernel/main.c])

    [liballoc_alloc] and [liballoc_free] as the kernel defines them, on the
    physical memory manager.  They are not an instance of [Pages.v]: the result
    is never NULL, and a run may hold frames in use (see [Pmm.v]). *)

From S2P Require Import Prelude CInt Mem Arch Boot Pmm.

Definition liballoc_alloc (s : Z) (m : mem) (st : pmm) : res (Z * (mem * pmm)) :=
  '(p, (m, st)) ← pmm_allocate_zero m st s;
  Done (u64 (p + MMAP_IO_BASE), (m, st)).

Definition liballoc_free (p s : Z) (st : pmm) : res (Z * pmm) :=
  st ← pmm_free st (u64 (p - MMAP_IO_BASE)) s;
  Done (0, st).

Lemma io_window_cancel p : u64 (u64 (p + MMAP_IO_BASE) - MMAP_IO_BASE) = u64 p.
Proof. unfold u64. rewrite Zminus_mod_idemp_l. by rewrite Z.add_simpl_r. Qed.

(** The cost of a run: the frames it takes are cleared, whoever they belong to. *)
Lemma pmm_allocate_zero_spec m st pages p st' :
  pmm_allocate st pages = Done (p, st') → phys_ok p → 0 ≤ pages * PAGE_SIZE < 2 ^ 64 →
  mapped m p (pages * PAGE_SIZE) →
  ∃ m', pmm_allocate_zero m st pages = Done (p, (m', st')) ∧
    overwritten m m' p (pages * PAGE_SIZE) (λ _, Some 0).
Proof.
  intros Hr Hp Hn Hm. unfold pmm_allocate_zero. rewrite Hr. cbn [mbind res_bind].
  rewrite phys_of_io, u64_id by (done || simpl; lia).
  destruct (memset_spec m p 0 (pages * PAGE_SIZE)) as (m' & -> & Ho); [lia|done|].
  by exists m'.
Qed.

(** With every frame in use [liballoc_alloc] does not return NULL, which
    is how the heap recognises that memory is exhausted, but the window's first
    address, and clears the first frames of memory: [malloc] would build a block
    there. *)
Theorem liballoc_alloc_exhausted (m : mem) (st : pmm) (pages : Z)
    (Hwf : pmm_wf st) (Hp : 1 ≤ pages ≤ bitmap_size st) (Hm : mapped m 0 (pages * PAGE_SIZE))
    (Hff : first_free (free_set st) (highest_page st / PAGE_SIZE) = None) :
  ∃ m', liballoc_alloc pages m st = Done (MMAP_IO_BASE, (m', st)) ∧
    overwritten m m' 0 (pages * PAGE_SIZE) (λ _, Some 0).
Proof.
  pose proof (pmm_allocate_spec st pages Hwf Hp) as Hr. rewrite Hff in Hr.
  pose proof (wf_size st Hwf). unfold PAGE_SIZE in *.
  destruct (pmm_allocate_zero_spec m st pages 0 st) as (m' & Hz & Ho); unfold PAGE_SIZE; try done.
  { simpl in *. lia. }
  exists m'. split; [|done]. unfold liballoc_alloc. by rewrite Hz.
Qed.

(** A machine of 16 frames, all in use. *)
Definition full_pmm : pmm := Pmm 0x10000 0 (MMAP_IO_BASE + 0x1000) [0xff; 0xff] 2.
(** The same with frame 0 free. *)
Definition one_free : pmm := Pmm 0x10000 1 (MMAP_IO_BASE + 0x1000) [0xfe; 0xff] 2.

Lemma full_pmm_wf : pmm_wf full_pmm.
Proof.
  split; unfold is_u64, PAGE_SIZE; simpl; try lia; try done.
  repeat constructor; simpl; lia.
Qed.

Lemma one_free_wf : pmm_wf one_free.
Proof.
  split; unfold is_u64, PAGE_SIZE; simpl; try lia; try done.
  repeat constructor; simpl; lia.
Qed.

Definition low_ram : mem := gset_to_gmap 7 (list_to_set (seqZ 0 PAGE_SIZE)).

Lemma liballoc_alloc_exhausted_witness :
  ∃ m', liballoc_alloc 1 low_ram full_pmm = Done (MMAP_IO_BASE, (m', full_pmm)) ∧ m' !! 5 = Some 0.
Proof.
  destruct (liballoc_alloc_exhausted low_ram full_pmm 1) as (m' & Hr & Ho).
  - exact full_pmm_wf.
  - simpl. lia.
  - intros i Hi. exists 7. apply lookup_gset_to_gmap_Some. split; [|done].
    apply elem_of_list_to_set, elem_of_seqZ. unfold PAGE_SIZE in *. lia.
  - vm_compute. reflexivity.
  - exists m'. split; [exact Hr|]. rewrite Ho, bool_decide_true; [reflexivity|]. unfold PAGE_SIZE. lia.
Defined.

(** A run of free frames is cleared, returned through the window, and
    [liballoc_free] gives exactly its frames back. *)
Theorem liballoc_alloc_free (m : mem) (st : pmm) (pages f : Z)
    (Hwf : pmm_wf st) (Hp : 1 ≤ pages ≤ bitmap_size st)
    (Hff : first_free (free_set st) (highest_page st / PAGE_SIZE) = Some f)
    (Hfree : run f pages ⊆ free_set st) (Hf : phys_ok (f * PAGE_SIZE))
    (Hm : mapped m (f * PAGE_SIZE) (pages * PAGE_SIZE)) :
  ∃ m' st1 st2, liballoc_alloc pages m st = Done (u64 (f * PAGE_SIZE + MMAP_IO_BASE), (m', st1)) ∧
    overwritten m m' (f * PAGE_SIZE) (pages * PAGE_SIZE) (λ _, Some 0) ∧
    free_set st1 = free_set st ∖ run f pages ∧
    liballoc_free (u64 (f * PAGE_SIZE + MMAP_IO_BASE)) pages st1 = Done (0, st2) ∧
    free_set st2 = free_set st ∧ pmm_wf st2.
Proof.
  pose proof (pmm_allocate_spec st pages Hwf Hp) as Hr. rewrite Hff in Hr.
  assert (f + pages ≤ 8 * bitmap_size st) as Hb.
  { assert (f + pages - 1 ∈ free_set st) as Hin.
    { apply Hfree, elem_of_list_to_set, elem_of_seqZ. lia. }
    apply elem_of_list_to_set, list_elem_of_filter in Hin as [_ Hin%elem_of_seqZ].
    rewrite (wf_length st Hwf) in Hin. lia. }
  destruct (Hr Hb) as (st1 & Hal & Hwf1 & (_ & _ & Hsz) & Hfs & _).
  pose proof (wf_size st Hwf).
  assert (0 ≤ f) as Hf0 by (unfold phys_ok, PAGE_SIZE in Hf; lia).
  destruct (pmm_allocate_zero_spec m st pages _ st1 Hal Hf) as (m' & Hz & Ho);
    [unfold PAGE_SIZE in *; simpl in *; lia|done|].
  destruct (pmm_free_frames st1 f pages) as (st2 & Hfr & Hwf2 & _ & Hfs2 & _); [done|lia|lia|lia|].
  exists m', st1, st2. unfold liballoc_alloc, liballoc_free. rewrite Hz, io_window_cancel.
  rewrite (u64_id (f * PAGE_SIZE)) by (unfold phys_ok, PAGE_SIZE, MMAP_KERNEL_BASE, MMAP_IO_BASE in *; simpl in *; lia).
  rewrite Hfr. split_and!; try done. rewrite Hfs2, Hfs.
  apply set_eq. intros x. destruct (decide (x ∈ run f pages)); set_solver.
Qed.

Lemma liballoc_alloc_free_witness :
  let st := one_free in
  ∃ m' st1 st2, liballoc_alloc 1 low_ram st = Done (MMAP_IO_BASE, (m', st1)) ∧
    liballoc_free MMAP_IO_BASE 1 st1 = Done (0, st2) ∧ free_set st2 = free_set st.
Proof.
  intros st.
  destruct (liballoc_alloc_free low_ram st 1 0) as (m' & st1 & st2 & Ha & _ & _ & Hf & Hs & _).
  - exact one_free_wf.
  - simpl. lia.
  - vm_compute. reflexivity.
  - vm_compute. set_solver.
  - unfold phys_ok, PAGE_SIZE, MMAP_KERNEL_BASE, MMAP_IO_BASE. lia.
  - intros i Hi. exists 7. apply lookup_gset_to_gmap_Some. split; [|done].
    apply elem_of_list_to_set, elem_of_seqZ. unfold PAGE_SIZE in *. lia.
  - exists m', st1, st2. split_and!; [exact Ha|exact Hf|exact Hs].
Defined.
