(* ===== verification/Vec.v ===== *)
(** * Growable arrays ([src/src/lib/vec.h], [src/src/lib/vec.c])

    A [vec_t(T)] is modelled element by element: [slots] are the [capacity]
    cells behind [data] ([None] is a cell never written), [length] and
    [capacity] the two [int]s.  [data] is NULL exactly when there are no slots.
    What [realloc] answers is a parameter: [realloc_ok b] says whether a request
    for [b] bytes succeeds; the block it returns starts with the old contents
    ([lib/alloc.c] copies them).  The macros of [vec.h] are the definitions
    without a final underscore. *)

From S2P Require Import Prelude CInt.

Record vec (A : Type) : Type := Vec {
  slots : list (option A);
  vlength : Z;
  capacity : Z;
}.
Arguments Vec {_} _ _ _.
Arguments slots {_} _.
Arguments vlength {_} _.
Arguments capacity {_} _.

Definition set_slots {A} (v : vec A) (s : list (option A)) : vec A :=
  Vec s (vlength v) (capacity v).
Definition set_length {A} (v : vec A) (n : Z) : vec A :=
  Vec (slots v) n (capacity v).

(** [memmove] of [n] whole cells; it accesses nothing when source and
    destination are equal or [n] is 0, and a negative [n] is a huge [size_t]. *)
Definition move_slots {A} (s : list (option A)) (dst src n : Z)
    : res (list (option A)) :=
  if (dst =? src) || (n =? 0) then Done s
  else if (0 <=? dst) && (0 <=? src) && (0 <=? n) &&
          (dst + n <=? length_z s) && (src + n <=? length_z s)
  then Done (take (Z.to_nat dst) s ++ take (Z.to_nat n) (drop (Z.to_nat src) s)
               ++ drop (Z.to_nat (dst + n)) s)
  else Fault.

(** [v->data[i]], read and written. *)
Definition vec_get {A} (v : vec A) (i : Z) : res A :=
  c ← of_option (slots v !!z i); of_option c.
Definition vec_set {A} (v : vec A) (i : Z) (x : A) : res (vec A) :=
  _ ← of_option (slots v !!z i); Done (set_slots v (<[i :=z Some x]> (slots v))).

Section vec.
Context {A : Type} (memsz : Z) (realloc_ok : Z → bool).
Implicit Types (v : vec A) (x : A).

(** [realloc(data, n * memsz)]: the product is an [int]. *)
Definition vec_realloc v (n : Z) : res (option (vec A)) :=
  _ ← assert_c (bool_decide (0 ≤ n * memsz < 2 ^ 31));
  Done (if realloc_ok (n * memsz)
        then Some (Vec (take (Z.to_nat n) (slots v)
                          ++ replicate (Z.to_nat n - length (slots v)) None)
                       (vlength v) n)
        else None).

Definition vec_init : vec A := Vec [] 0 0.
Definition vec_deinit v : vec A := vec_init.

Definition vec_expand_ v : res (Z * vec A) :=
  if capacity v <? vlength v + 1 then
    let n := if capacity v =? 0 then 1 else i32 (Z.shiftl (capacity v) 1) in
    ptr ← vec_realloc v n;
    match ptr with
    | None => Done (-1, v)
    | Some v' => Done (0, v')
    end
  else Done (0, v).

Definition vec_reserve_ v (n : Z) : res (Z * vec A) :=
  if capacity v <? n then
    ptr ← vec_realloc v n;
    match ptr with
    | None => Done (-1, v)
    | Some v' => Done (0, v')
    end
  else Done (0, v).

(** [while (n2 < n) n2 <<= 1;] *)
Fixpoint po2_loop (fuel : nat) (n2 n : Z) : res Z :=
  match fuel with
  | O => NoFuel
  | S fuel => if n2 <? n then po2_loop fuel (i32 (Z.shiftl n2 1)) n else Done n2
  end.

Definition vec_reserve_po2_ (fuel : nat) v (n : Z) : res (Z * vec A) :=
  if n =? 0 then Done (0, v)
  else n2 ← po2_loop fuel 1 n; vec_reserve_ v n2.

Definition vec_compact_ v : res (Z * vec A) :=
  if vlength v =? 0 then Done (0, Vec [] (vlength v) 0)
  else
    ptr ← vec_realloc v (vlength v);
    match ptr with
    | None => Done (-1, v)
    | Some v' => Done (0, v')
    end.

Definition vec_insert_ v (idx : Z) : res (Z * vec A) :=
  '(err, v) ← vec_expand_ v;
  if negb (err =? 0) then Done (err, v)
  else
    s ← move_slots (slots v) (idx + 1) idx (vlength v - idx);
    Done (0, set_slots v s).

Definition vec_splice_ v (start count : Z) : res (vec A) :=
  s ← move_slots (slots v) start (start + count) (vlength v - start - count);
  Done (set_slots v s).

Definition vec_swapsplice_ v (start count : Z) : res (vec A) :=
  s ← move_slots (slots v) start (vlength v - count) count;
  Done (set_slots v s).

Definition vec_swap_ v (idx1 idx2 : Z) : res (vec A) :=
  if idx1 =? idx2 then Done v
  else
    a ← of_option (slots v !!z idx1);
    b ← of_option (slots v !!z idx2);
    Done (set_slots v (<[idx2 :=z a]> (<[idx1 :=z b]> (slots v)))).

(** ** The macros *)

Definition vec_push v x : res (Z * vec A) :=
  '(err, v) ← vec_expand_ v;
  if negb (err =? 0) then Done (-1, v)
  else
    v' ← vec_set v (vlength v) x;
    Done (0, set_length v' (vlength v' + 1)).

Definition vec_pop v : res (A * vec A) :=
  let v := set_length v (vlength v - 1) in
  x ← vec_get v (vlength v); Done (x, v).

Definition vec_splice v (start count : Z) : res (vec A) :=
  v ← vec_splice_ v start count; Done (set_length v (vlength v - count)).

Definition vec_swapsplice v (start count : Z) : res (vec A) :=
  v ← vec_swapsplice_ v start count; Done (set_length v (vlength v - count)).

(** [(vec_insert_(..) ? -1 : (data[idx] = val, 0), length++, 0)]: the comma
    operator binds weaker than the conditional, so [length] grows and the
    value is 0 whether or not the cell was made. *)
Definition vec_insert v (idx : Z) x : res (Z * vec A) :=
  '(err, v) ← vec_insert_ v idx;
  v ← (if negb (err =? 0) then Done v else vec_set v idx x);
  Done (0, set_length v (vlength v + 1)).

Definition vec_truncate v (len : Z) : vec A :=
  set_length v (if len <? vlength v then len else vlength v).
Definition vec_clear v : vec A := set_length v 0.
Definition vec_first v : res A := vec_get v 0.
Definition vec_last v : res A := vec_get v (vlength v - 1).

(** [vec_pusharr]: the array's elements, read one by one. *)
Definition vec_pusharr (fuel : nat) v (arr : list A) : res (vec A) :=
  '(err, v) ← vec_reserve_po2_ fuel v (vlength v + length_z arr);
  if negb (err =? 0) then Done v
  else for_loop (length arr) 0
         (λ i v, x ← of_option (arr !!z i);
                 v' ← vec_set v (vlength v) x;
                 Done (set_length v' (vlength v' + 1))) v.

(** [while (i__--) vec_swap(v, i__, v->length - (i__ + 1));] *)
Fixpoint reverse_loop (i : nat) v : res (vec A) :=
  match i with
  | O => Done v
  | S i => v' ← vec_swap_ v (Z.of_nat i) (vlength v - (Z.of_nat i + 1)); reverse_loop i v'
  end.
Definition vec_reverse v : res (vec A) :=
  let i := Z.quot (vlength v) 2 in
  if i <? 0 then Fault else reverse_loop (Z.to_nat i) v.

(** [vec_foreach]: [body] on every element in order. *)
Definition vec_foreach {S} v (body : Z → A → S → res S) (s : S) : res S :=
  for_loop (Z.to_nat (vlength v)) 0 (λ i s, x ← vec_get v i; body i x s) s.
End vec.

Section find.
Context {A : Type} `{EqDecision A}.

(** The loop of [vec_find] from index [idx] on; [n] counts what is left. *)
Fixpoint find_loop (v : vec A) (x : A) (n : nat) (idx : Z) : res Z :=
  match n with
  | O => Done (-1)
  | S n => y ← vec_get v idx;
           if bool_decide (y = x) then Done idx else find_loop v x n (idx + 1)
  end.
Definition vec_find (v : vec A) (x : A) : res Z :=
  if vlength v <? 0 then Done 0 else find_loop v x (Z.to_nat (vlength v)) 0.

Definition vec_remove (v : vec A) (x : A) : res (vec A) :=
  idx ← vec_find v x;
  if idx =? -1 then Done v else vec_splice v idx 1.
End find.

(** ** Representation

    [v] holds the list [l]: its first [length l] slots; what lies behind them is
    left over from earlier operations. *)
Record vrep {A} (v : vec A) (l : list A) : Prop := Vrep {
  vr_slots : ∃ junk, slots v = (Some <$> l) ++ junk;
  vr_length : vlength v = length_z l;
  vr_capacity : capacity v = length_z (slots v);
}.

Section spec.
Context {A : Type}.
Implicit Types (v : vec A) (x : A) (l junk : list A).

Lemma length_z_app (l l' : list A) : length_z (l ++ l') = length_z l + length_z l'.
Proof. unfold length_z. rewrite length_app. lia. Qed.

Lemma vrep_init : vrep (vec_init : vec A) [].
Proof. split; [by exists []|done..]. Qed.

Lemma vrep_bounds v l : vrep v l → 0 ≤ vlength v ≤ capacity v.
Proof.
  intros [[j Hs] -> ->]. rewrite Hs. unfold length_z.
  rewrite length_app, length_fmap. lia.
Qed.

Lemma vrep_get v l i : vrep v l → 0 ≤ i < length_z l →
  vec_get v i = of_option (l !!z i).
Proof.
  intros [[j Hs] _ _] Hi. unfold vec_get. rewrite Hs.
  unfold length_z in Hi. rewrite !lookup_z_nat by lia.
  rewrite lookup_app_l by (rewrite length_fmap; lia). rewrite list_lookup_fmap.
  destruct (lookup_lt_is_Some_2 l (Z.to_nat i)) as [x ->]; [lia|]. done.
Qed.

(** Storing past the end of the list, into a spare cell. *)
Lemma vrep_push_cell v l x :
  vrep v l → vlength v + 1 ≤ capacity v →
  ∃ v', vec_set v (vlength v) x = Done v' ∧ vlength v' = vlength v ∧
    capacity v' = capacity v ∧ vrep (set_length v' (vlength v' + 1)) (l ++ [x]).
Proof.
  intros [[j Hs] Hl Hc] Hcap. unfold length_z in *.
  assert (∃ c j', j = c :: j') as (c & j' & ->).
  { destruct j as [|c j']; [|eauto]. rewrite Hs, app_nil_r, length_fmap in Hc. lia. }
  unfold vec_set. rewrite Hl, Hs, lookup_z_nat, Nat2Z.id by lia.
  rewrite lookup_app_r, length_fmap, Nat.sub_diag by (rewrite length_fmap; lia).
  eexists. split; [done|]. split; [done|]. split; [done|].
  unfold insert_z. rewrite bool_decide_true, Nat2Z.id by lia.
  assert (<[length l:=Some x]> ((Some <$> l) ++ c :: j') = (Some <$> l ++ [x]) ++ j') as Heq.
  { rewrite insert_app_r_alt, length_fmap, Nat.sub_diag by (rewrite length_fmap; lia).
    simpl. by rewrite fmap_app, <-app_assoc. }
  split; unfold set_length, set_slots, length_z; simpl.
  - exists j'. exact Heq.
  - rewrite length_app. simpl. lia.
  - rewrite Heq, Hc, Hs, !length_app, !length_fmap, !length_app. simpl. lia.
Qed.

Lemma move_slots_nat {B} (s : list (option B)) (d c n : nat) :
  (d + n ≤ length s)%nat → (c + n ≤ length s)%nat →
  move_slots s (Z.of_nat d) (Z.of_nat c) (Z.of_nat n) =
    Done (take d s ++ take n (drop c s) ++ drop (d + n) s).
Proof.
  intros Hd Hc. unfold move_slots, length_z.
  destruct (Z.eqb_spec (Z.of_nat d) (Z.of_nat c)) as [Heq|Hne]; simpl.
  { apply Nat2Z.inj in Heq as ->. f_equal.
    by rewrite <-drop_drop, !take_drop. }
  destruct (Z.eqb_spec (Z.of_nat n) 0) as [Heq|Hnz].
  { replace n with 0%nat by lia. simpl. by rewrite Nat.add_0_r, take_drop. }
  destruct (Z.leb_spec 0 (Z.of_nat d)); [|lia]. destruct (Z.leb_spec 0 (Z.of_nat c)); [|lia].
  destruct (Z.leb_spec 0 (Z.of_nat n)); [|lia].
  destruct (Z.leb_spec (Z.of_nat d + Z.of_nat n) (Z.of_nat (length s))); [|lia].
  destruct (Z.leb_spec (Z.of_nat c + Z.of_nat n) (Z.of_nat (length s))); [|lia].
  simpl. by rewrite <-Nat2Z.inj_add, !Nat2Z.id.
Qed.
End spec.

Section growth.
Context {A : Type} (memsz : Z) (realloc_ok : Z → bool).
Implicit Types (v : vec A) (x : A) (l : list A).

(** The growing operations: reallocating to [n] cells, [n] at least the length. *)
Lemma vec_realloc_spec v l n :
  vrep v l → vlength v ≤ n → 0 ≤ n * memsz < 2 ^ 31 → realloc_ok (n * memsz) = true →
  ∃ v', vec_realloc memsz realloc_ok v n = Done (Some v') ∧ vrep v' l ∧
    vlength v' = vlength v ∧ capacity v' = n.
Proof.
  intros [[j Hs] Hl Hc] Hn Hb Hok. unfold vec_realloc.
  rewrite bool_decide_true by done. cbn [assert_c mbind res_bind]. rewrite Hok.
  eexists. split; [done|]. split; [|done]. unfold length_z in *.
  split; simpl; [|done|].
  - rewrite Hs, take_app_ge by (rewrite length_fmap; lia).
    rewrite <-app_assoc. eauto.
  - unfold length_z. rewrite length_app, length_take, length_replicate. lia.
Qed.

Lemma vec_expand_spec v l :
  vrep v l → 0 < memsz → 2 * (length_z l + 1) * memsz < 2 ^ 31 →
  (∀ b, 0 ≤ b < 2 * (length_z l + 1) * memsz → realloc_ok b = true) →
  ∃ v', vec_expand_ memsz realloc_ok v = Done (0, v') ∧ vrep v' l ∧
    vlength v' = vlength v ∧ vlength v' + 1 ≤ capacity v'.
Proof.
  intros Hv Hm Hb Hok. pose proof (vrep_bounds v l Hv). unfold vec_expand_.
  pose proof (vr_length v l Hv) as Hl.
  destruct (Z.ltb_spec (capacity v) (vlength v + 1)); [|exists v; done].
  set (n := if capacity v =? 0 then 1 else i32 (Z.shiftl (capacity v) 1)).
  assert (n = if capacity v =? 0 then 1 else 2 * capacity v) as Hn.
  { subst n. destruct (Z.eqb_spec (capacity v) 0); [done|].
    rewrite Z.shiftl_mul_pow2 by lia. rewrite i32_id; simpl; nia. }
  clearbody n. assert (vlength v + 1 ≤ n ∧ 0 ≤ n * memsz < 2 * (length_z l + 1) * memsz) as [Hn1 Hn2]
    by (destruct (Z.eqb_spec (capacity v) 0); nia).
  destruct (vec_realloc_spec v l n) as (v' & Hr & Hv' & Hl' & Hc'); [done|lia|lia|auto|].
  exists v'. rewrite Hr. simpl. split; [done|]. split; [done|]. lia.
Qed.

Lemma vec_expand_fail v l :
  vrep v l → capacity v = vlength v →
  0 ≤ 2 * (length_z l + 1) * memsz < 2 ^ 31 → (∀ b, realloc_ok b = false) → 0 < memsz →
  vec_expand_ memsz realloc_ok v = Done (-1, v).
Proof.
  intros Hv Hc Hb Hok Hm. pose proof (vr_length v l Hv) as Hl.
  pose proof (vrep_bounds v l Hv). unfold vec_expand_.
  destruct (Z.ltb_spec (capacity v) (vlength v + 1)); [|lia].
  unfold vec_realloc. rewrite bool_decide_true.
  - simpl. by rewrite Hok.
  - destruct (Z.eqb_spec (capacity v) 0); [nia|].
    rewrite Z.shiftl_mul_pow2 by lia. rewrite i32_id; simpl; nia.
Qed.

(** Whatever [realloc] answers, pushing adds the element or changes nothing. *)
Lemma vec_push_keeps v l x e v' :
  vrep v l → capacity v < 2 ^ 31 → 0 < memsz → vec_push memsz realloc_ok v x = Done (e, v') →
  capacity v' < 2 ^ 31 ∧ (vrep v' l ∨ vrep v' (l ++ [x])).
Proof.
  intros Hv Hcap Hm ([e1 v1] & He & Hp)%bind_Done_inv.
  assert (vrep v1 l ∧ vlength v1 = vlength v ∧ capacity v1 < 2 ^ 31 ∧
    (e1 = 0 → vlength v1 + 1 ≤ capacity v1)) as (Hv1 & Hl1 & Hc1 & Hroom).
  { pose proof (vrep_bounds v l Hv) as Hb. unfold vec_expand_ in He.
    destruct (Z.ltb_spec (capacity v) (vlength v + 1)).
    2: { injection He as <- <-. split_and!; [done..|lia]. }
    apply bind_Done_inv in He as (ptr & Hr & He).
    assert (ptr = None ∨ ∃ n, vlength v < n < 2 ^ 31 ∧ ptr = Some (Vec
      (take (Z.to_nat n) (slots v) ++ replicate (Z.to_nat n - length (slots v)) None)
      (vlength v) n)) as [->|(n & Hn & ->)].
    { apply bind_Done_inv in Hr as (u & Hn%assert_c_Done%bool_decide_eq_true & [= <-]).
      destruct (realloc_ok _); [right|by left]. eexists. split; [|done].
      destruct (Z.eqb_spec (capacity v) 0); [lia|]. rewrite Z.shiftl_mul_pow2 in * by lia.
      destruct (decide (capacity v < 2 ^ 30)).
      { rewrite i32_id in * by (simpl; lia). nia. }
      exfalso. assert (i32 (capacity v * 2 ^ 1) < 0); [|nia]. unfold i32. zlia. }
    { injection He as <- <-. split_and!; [done..|]. intros [=]. }
    injection He as <- <-. cbn [vlength capacity]. split_and!; [|done|lia|lia].
    destruct Hv as [[j Hs] Hl Hc]. unfold length_z in *. split; cbn; [|done|].
    - rewrite Hs, take_app_ge by (rewrite length_fmap; lia). rewrite <-app_assoc. eauto.
    - unfold length_z. rewrite length_app, length_take, length_replicate. lia. }
  destruct (Z.eqb_spec e1 0) as [->|]; cbn [negb] in Hp.
  - destruct (vrep_push_cell v1 l x Hv1) as (v2 & Hs & Hl2 & Hc2 & Hv2); [by apply Hroom|].
    rewrite Hs in Hp. injection Hp as <- <-. split; [cbn; lia|by right].
  - injection Hp as <- <-. split; [done|by left].
Qed.

Lemma po2_loop_spec k m n :
  (0 ≤ k)%nat → 2 ^ (Z.of_nat m) < 2 * n → 0 < n ≤ 2 ^ 30 →
  (m + k = 31)%nat →
  ∃ e, po2_loop (S k) (2 ^ Z.of_nat m) n = Done (2 ^ Z.of_nat e) ∧
    n ≤ 2 ^ Z.of_nat e < 2 * n.
Proof.
  revert m. induction k as [|k IH]; intros m _ Hm Hn Hk.
  - replace m with 31%nat in * by lia. simpl in *. lia.
  - cbn [po2_loop]. destruct (Z.ltb_spec (2 ^ Z.of_nat m) n) as [Hlt|]; [|eauto].
    assert (i32 (Z.shiftl (2 ^ Z.of_nat m) 1) = 2 ^ Z.of_nat (S m)) as ->.
    { rewrite Z.shiftl_mul_pow2 by lia. rewrite Nat2Z.inj_succ, Z.pow_succ_r by lia.
      rewrite i32_id; simpl; lia. }
    apply IH; [lia| |lia|lia]. rewrite Nat2Z.inj_succ, Z.pow_succ_r by lia. lia.
Qed.

Lemma vec_reserve_po2_spec v l n :
  vrep v l → 0 < memsz → vlength v ≤ n → 0 < n → 2 * n * memsz < 2 ^ 31 →
  (∀ b, 0 ≤ b < 2 * n * memsz → realloc_ok b = true) →
  ∃ v', vec_reserve_po2_ memsz realloc_ok 32 v n = Done (0, v') ∧ vrep v' l ∧
    vlength v' = vlength v ∧ n ≤ capacity v'.
Proof.
  intros Hv Hm Hl Hn Hb Hok. unfold vec_reserve_po2_.
  destruct (Z.eqb_spec n 0); [lia|].
  destruct (po2_loop_spec 31 0 n) as (e & Hr & He); [lia|simpl; lia|simpl; nia|lia|].
  change (2 ^ Z.of_nat 0) with 1 in Hr. rewrite Hr. cbn [mbind res_bind].
  unfold vec_reserve_.
  destruct (Z.ltb_spec (capacity v) (2 ^ Z.of_nat e)); [|exists v; split_and!; [done..|lia]].
  destruct (vec_realloc_spec v l (2 ^ Z.of_nat e)) as (v' & Hr' & Hv' & Hl' & Hc');
    [done|lia|nia|apply Hok; nia|].
  exists v'. rewrite Hr'. simpl. split_and!; [done..|lia].
Qed.
End growth.

Section ops.
Context {A : Type} `{EqDecision A}.
Implicit Types (v : vec A) (x : A) (l : list A).

(** A vector whose slots start with a list's elements holds that list. *)
Lemma vrep_of v l n (s junk : list (option A)) :
  capacity v = length_z s → s = (Some <$> l) ++ junk → n = length_z l →
  vrep (set_length (set_slots v s) n) l.
Proof. intros Hc -> ->. split; [by exists junk|done|done]. Qed.

Lemma vec_splice_spec v l (s c : nat) :
  vrep v l → (s + c ≤ length l)%nat →
  ∃ v', vec_splice v (Z.of_nat s) (Z.of_nat c) = Done v' ∧
    vrep v' (take s l ++ drop (s + c) l).
Proof.
  intros [[j Hs] Hl Hc] Hb. unfold vec_splice, vec_splice_.
  assert (length (slots v) = length l + length j)%nat as Hlen
    by (rewrite Hs, length_app, length_fmap; lia).
  rewrite Hl. unfold length_z.
  replace (Z.of_nat (length l) - Z.of_nat s - Z.of_nat c)
    with (Z.of_nat (length l - s - c)) by lia.
  rewrite <-Nat2Z.inj_add, move_slots_nat by lia. simpl. eexists. split; [done|].
  eapply (vrep_of v).
  - rewrite Hc. unfold length_z. rewrite !length_app, !length_take, !length_drop. lia.
  - rewrite Hs. rewrite fmap_app, fmap_take, fmap_drop, <-app_assoc.
    rewrite take_app_le by (rewrite length_fmap; lia). f_equal.
    rewrite drop_app_le by (rewrite length_fmap; lia).
    rewrite take_app_length' by (rewrite length_drop, length_fmap; lia). done.
  - rewrite Hl. unfold length_z. rewrite length_app, length_take, length_drop. lia.
Qed.

Lemma vec_swapsplice_spec v l (s c : nat) :
  vrep v l → (s + c ≤ length l)%nat →
  ∃ v', vec_swapsplice v (Z.of_nat s) (Z.of_nat c) = Done v' ∧
    vrep v' (take (length l - c)
      (take s l ++ drop (length l - c) l ++ drop (s + c) l)).
Proof.
  intros [[j Hs] Hl Hc] Hb. unfold vec_swapsplice, vec_swapsplice_.
  assert (length (slots v) = length l + length j)%nat as Hlen
    by (rewrite Hs, length_app, length_fmap; lia).
  rewrite Hl. unfold length_z. rewrite <-Nat2Z.inj_sub by lia.
  rewrite move_slots_nat by lia. simpl. eexists. split; [done|].
  set (l' := take s l ++ drop (length l - c) l ++ drop (s + c) l).
  assert (length l' = length l) as Hl'.
  { subst l'. rewrite !length_app, length_take, !length_drop. lia. }
  eapply (vrep_of v _ _ _ ((Some <$> drop (length l - c) l') ++ j)).
  - rewrite Hc. unfold length_z. rewrite !length_app, !length_take, !length_drop. lia.
  - trans ((Some <$> l') ++ j); [|by rewrite app_assoc, <-fmap_app, take_drop].
    unfold l'. rewrite Hs.
    rewrite !fmap_app, fmap_take, !fmap_drop, <-!app_assoc.
    rewrite take_app_le by (rewrite length_fmap; lia). f_equal.
    rewrite (drop_app_le _ _ (length l - c)) by (rewrite length_fmap; lia).
    rewrite take_app_length' by (rewrite length_drop, length_fmap; lia). f_equal.
    by rewrite drop_app_le by (rewrite length_fmap; lia).
  - rewrite Hl. unfold length_z. rewrite length_take. lia.
Qed.

Lemma vec_swap_spec v l (i j : nat) x y :
  vrep v l → l !! i = Some x → l !! j = Some y →
  ∃ v', vec_swap_ v (Z.of_nat i) (Z.of_nat j) = Done v' ∧
    vlength v' = vlength v ∧ vrep v' (<[j := x]> (<[i := y]> l)).
Proof.
  intros [[k Hs] Hl Hc] Hi Hj. unfold vec_swap_.
  destruct (Z.eqb_spec (Z.of_nat i) (Z.of_nat j)) as [->%Nat2Z.inj|].
  { exists v. split; [done|]. split; [done|]. simplify_eq.
    rewrite !list_insert_id by (rewrite ?list_insert_id; done). by split; [exists k|..]. }
  pose proof (lookup_lt_Some _ _ _ Hi). pose proof (lookup_lt_Some _ _ _ Hj).
  rewrite Hs, !lookup_z_nat, !Nat2Z.id by lia.
  rewrite !lookup_app_l, !list_lookup_fmap, Hi, Hj by (rewrite length_fmap; lia). simpl.
  eexists. split; [done|]. split; [done|]. unfold insert_z.
  rewrite !bool_decide_true, !Nat2Z.id by lia.
  assert (<[j:=Some x]> (<[i:=Some y]> ((Some <$> l) ++ k))
          = (Some <$> <[j:=x]> (<[i:=y]> l)) ++ k) as Heq.
  { rewrite insert_app_l by (rewrite length_fmap; lia).
    rewrite insert_app_l by (rewrite length_insert, length_fmap; lia).
    by rewrite !list_fmap_insert. }
  split; simpl; [by exists k| |].
  - rewrite Hl. unfold length_z. by rewrite !length_insert.
  - rewrite Hc, Hs. unfold length_z. by rewrite !length_insert.
Qed.

Lemma reverse_loop_spec i v l :
  vrep v l → (2 * i ≤ length l)%nat →
  ∃ v' l', reverse_loop i v = Done v' ∧ vrep v' l' ∧ length l' = length l ∧
    ∀ k, l' !! k = if decide (k < i ∨ length l - i ≤ k < length l)%nat
                   then l !! (length l - 1 - k)%nat else l !! k.
Proof.
  revert v l. induction i as [|i IH]; intros v l Hv Hi.
  { exists v, l. split; [done|]. split; [done|]. split; [done|].
    intros k. rewrite decide_False by lia. done. }
  destruct (lookup_lt_is_Some_2 l i) as [x Hx]; [lia|].
  destruct (lookup_lt_is_Some_2 l (length l - S i)) as [y Hy]; [lia|].
  destruct (vec_swap_spec v l i (length l - S i) x y) as (v1 & Hr1 & Hl1 & Hv1); [done..|].
  destruct (IH v1 _ Hv1) as (v2 & l2 & Hr2 & Hv2 & Hlen2 & Hk2).
  { rewrite !length_insert. lia. }
  rewrite !length_insert in Hlen2, Hk2.
  exists v2, l2. cbn [reverse_loop]. pose proof (vr_length v l Hv) as Hvl.
  replace (vlength v - (Z.of_nat i + 1)) with (Z.of_nat (length l - S i))
    by (rewrite Hvl; unfold length_z; lia).
  rewrite Hr1. split; [exact Hr2|]. split; [done|]. split; [done|].
  intros k. rewrite Hk2. rewrite !list_lookup_insert, !length_insert.
  repeat case_decide; try lia; try done.
  all: first [by f_equal; lia|rewrite <-?Hx, <-?Hy; f_equal; lia].
Qed.
End ops.

(** ** What the operations promise, on lists *)

Inductive vop (A : Type) : Type :=
  | OPush (x : A)
  | OPop
  | OInsert (i : nat) (x : A)
  | OSplice (start count : nat)
  | OSwapsplice (start count : nat)
  | OSwap (i j : nat)
  | OTruncate (n : nat)
  | OClear
  | OPusharr (arr : list A)
  | OFind (x : A)
  | ORemove (x : A)
  | OReverse
  | OCompact
  | OGet (i : nat).
Arguments OPush {_} _.
Arguments OPop {_}.
Arguments OInsert {_} _ _.
Arguments OSplice {_} _ _.
Arguments OSwapsplice {_} _ _.
Arguments OSwap {_} _ _.
Arguments OTruncate {_} _.
Arguments OClear {_}.
Arguments OPusharr {_} _.
Arguments OFind {_} _.
Arguments ORemove {_} _.
Arguments OReverse {_}.
Arguments OCompact {_}.
Arguments OGet {_} _.

(** The value of a macro: nothing, an [int] or an element. *)
Inductive vout (A : Type) : Type :=
  | OutUnit
  | OutInt (n : Z)
  | OutElem (x : A).
Arguments OutUnit {_}.
Arguments OutInt {_} _.
Arguments OutElem {_} _.

Section abstract.
Context {A : Type} `{EqDecision A} (memsz limit : Z) (realloc_ok : Z → bool).
Implicit Types (v : vec A) (x : A) (l : list A).

Definition run_op (o : vop A) v : res (vout A * vec A) :=
  match o with
  | OPush x => '(n, v) ← vec_push memsz realloc_ok v x; Done (OutInt n, v)
  | OPop => '(x, v) ← vec_pop v; Done (OutElem x, v)
  | OInsert i x =>
      '(n, v) ← vec_insert memsz realloc_ok v (Z.of_nat i) x; Done (OutInt n, v)
  | OSplice s c => v ← vec_splice v (Z.of_nat s) (Z.of_nat c); Done (OutUnit, v)
  | OSwapsplice s c => v ← vec_swapsplice v (Z.of_nat s) (Z.of_nat c); Done (OutUnit, v)
  | OSwap i j => v ← vec_swap_ v (Z.of_nat i) (Z.of_nat j); Done (OutUnit, v)
  | OTruncate n => Done (OutUnit, vec_truncate v (Z.of_nat n))
  | OClear => Done (OutUnit, vec_clear v)
  | OPusharr arr => v ← vec_pusharr memsz realloc_ok 32 v arr; Done (OutUnit, v)
  | OFind x => n ← vec_find v x; Done (OutInt n, v)
  | ORemove x => v ← vec_remove v x; Done (OutUnit, v)
  | OReverse => v ← vec_reverse v; Done (OutUnit, v)
  | OCompact => '(n, v) ← vec_compact_ memsz realloc_ok v; Done (OutInt n, v)
  | OGet i => x ← vec_get v (Z.of_nat i); Done (OutElem x, v)
  end.

Fixpoint run_ops (os : list (vop A)) v : res (list (vout A) * vec A) :=
  match os with
  | [] => Done ([], v)
  | o :: os => '(r, v) ← run_op o v; '(rs, v) ← run_ops os v; Done (r :: rs, v)
  end.

(** Room for [n] elements: doubling stays within the byte limit. *)
Definition fits (n : nat) : bool := bool_decide (2 * Z.of_nat n * memsz < limit).

Definition index_of (x : A) l : Z :=
  match list_find (λ y, y = x) l with Some (i, _) => Z.of_nat i | None => -1 end.

Fixpoint remove_first (x : A) l : list A :=
  match l with
  | [] => []
  | y :: l => if bool_decide (y = x) then l else y :: remove_first x l
  end.

(** [None]: the operation is not called for. *)
Definition spec_op (o : vop A) l : option (vout A * list A) :=
  match o with
  | OPush x => if fits (length l + 1) then Some (OutInt 0, l ++ [x]) else None
  | OPop => option_map (λ x, (OutElem x, take (length l - 1) l)) (l !! (length l - 1)%nat)
  | OInsert i x =>
      if fits (length l + 1) && bool_decide (i ≤ length l)%nat
      then Some (OutInt 0, take i l ++ x :: drop i l) else None
  | OSplice s c =>
      if bool_decide (s + c ≤ length l)%nat
      then Some (OutUnit, take s l ++ drop (s + c) l) else None
  | OSwapsplice s c =>
      if bool_decide (s + c ≤ length l)%nat
      then Some (OutUnit, take (length l - c)
                   (take s l ++ drop (length l - c) l ++ drop (s + c) l)) else None
  | OSwap i j => x ← l !! i; y ← l !! j; Some (OutUnit, <[j := x]> (<[i := y]> l))
  | OTruncate n => Some (OutUnit, take n l)
  | OClear => Some (OutUnit, [])
  | OPusharr arr =>
      if fits (length l + length arr) then Some (OutUnit, l ++ arr) else None
  | OFind x => Some (OutInt (index_of x l), l)
  | ORemove x => Some (OutUnit, remove_first x l)
  | OReverse => Some (OutUnit, reverse l)
  | OCompact => if fits (length l) then Some (OutInt 0, l) else None
  | OGet i => option_map (λ x, (OutElem x, l)) (l !! i)
  end.

Fixpoint spec_ops (os : list (vop A)) l : option (list (vout A) * list A) :=
  match os with
  | [] => Some ([], l)
  | o :: os => '(r, l) ← spec_op o l; '(rs, l) ← spec_ops os l; Some (r :: rs, l)
  end.

Hypothesis memsz_pos : 0 < memsz.
Hypothesis limit_int : limit ≤ 2 ^ 31.
Hypothesis realloc_total : ∀ b, 0 ≤ b < limit → realloc_ok b = true.

Lemma fits_expand v l :
  vrep v l → fits (length l + 1) = true →
  ∃ v', vec_expand_ memsz realloc_ok v = Done (0, v') ∧ vrep v' l ∧
    vlength v' = vlength v ∧ vlength v' + 1 ≤ capacity v'.
Proof.
  intros Hv Hf%bool_decide_eq_true. apply vec_expand_spec; [done..| |].
  - unfold length_z. lia.
  - intros b Hb. apply realloc_total. unfold length_z in Hb. lia.
Qed.

Lemma push_ok v l x :
  vrep v l → fits (length l + 1) = true →
  ∃ v', vec_push memsz realloc_ok v x = Done (0, v') ∧ vrep v' (l ++ [x]).
Proof.
  intros Hv Hf. destruct (fits_expand v l Hv Hf) as (v1 & Hr & Hv1 & _ & Hc).
  destruct (vrep_push_cell v1 l x Hv1 Hc) as (v2 & Hs & Hl2 & _ & Hv2).
  exists (set_length v2 (vlength v2 + 1)).
  unfold vec_push. rewrite Hr. simpl. rewrite Hs. by simpl.
Qed.

Lemma insert_ok v l i x :
  vrep v l → fits (length l + 1) = true → (i ≤ length l)%nat →
  ∃ v', vec_insert memsz realloc_ok v (Z.of_nat i) x = Done (0, v') ∧
    vrep v' (take i l ++ x :: drop i l).
Proof.
  intros Hv Hf Hi. destruct (fits_expand v l Hv Hf) as (v1 & Hr & Hv1 & _ & Hc).
  destruct Hv1 as [[j Hs] Hl1 Hc1]. unfold length_z in *.
  assert (length (slots v1) = length l + length j)%nat as Hlen
    by (rewrite Hs, length_app, length_fmap; lia).
  destruct j as [|c j]; [simpl in *; lia|]. simpl in Hlen.
  unfold vec_insert, vec_insert_. rewrite Hr. simpl. rewrite Hl1.
  replace (Z.of_nat i + 1) with (Z.of_nat (S i)) by lia.
  replace (Z.of_nat (length l) - Z.of_nat i) with (Z.of_nat (length l - i)) by lia.
  rewrite move_slots_nat by lia. simpl.
  set (s := _ ++ _ ++ _).
  assert (∃ a, s = (Some <$> take i l) ++ a :: (Some <$> drop i l) ++ j) as [a ->].
  { assert (∃ a, take (S i) (slots v1) = (Some <$> take i l) ++ [a]) as [a Ha].
    { destruct (lookup_lt_is_Some_2 (slots v1) i) as [a Ha]; [lia|].
      exists a. rewrite (take_S_r _ _ _ Ha), Hs. f_equal.
      by rewrite take_app_le, fmap_take by (rewrite length_fmap; lia). }
    exists a. unfold s. rewrite Ha, <-app_assoc. simpl. do 2 f_equal. rewrite Hs.
    rewrite drop_app_le by (rewrite length_fmap; lia).
    rewrite take_app_length' by (rewrite length_drop, length_fmap; lia).
    rewrite fmap_drop. f_equal.
    replace (S (i + (length l - i))) with (length (Some <$> l ++ [x]))
      by (rewrite length_fmap, length_app; simpl; lia).
    rewrite (drop_app_ge _ _) by (rewrite !length_fmap, length_app; lia).
    rewrite !length_fmap, length_app. simpl.
    by replace (length l + 1 - length l)%nat with 1%nat by lia. }
  unfold vec_set. simpl. rewrite lookup_z_nat, Nat2Z.id by lia.
  rewrite list_lookup_middle by (rewrite length_fmap, length_take; lia). simpl.
  eexists. split; [done|]. unfold insert_z. rewrite bool_decide_true, Nat2Z.id by lia.
  rewrite insert_app_r_alt by (rewrite length_fmap, length_take; lia).
  rewrite length_fmap, length_take. replace (i - i `min` length l)%nat with 0%nat by lia.
  simpl. split; simpl.
  - exists j. by rewrite fmap_app, <-app_assoc.
  - rewrite Hl1. unfold length_z. rewrite length_app, length_take. simpl.
    rewrite length_drop. lia.
  - rewrite Hc1. unfold length_z. rewrite Hlen, length_app. simpl.
    rewrite length_app, !length_fmap, length_take, length_drop. lia.
Qed.

Lemma vrep_shrink v l n :
  vrep v l → (n ≤ length l)%nat → vrep (set_length v (Z.of_nat n)) (take n l).
Proof.
  intros [[j Hs] Hl Hc] Hn. split; [|unfold length_z; rewrite length_take; simpl; lia|done].
  exists ((Some <$> drop n l) ++ j). simpl.
  by rewrite app_assoc, <-fmap_app, take_drop.
Qed.

Lemma pop_ok v l x :
  vrep v l → l !! (length l - 1)%nat = Some x →
  ∃ v', vec_pop v = Done (x, v') ∧ vrep v' (take (length l - 1) l).
Proof.
  intros Hv Hx. pose proof (lookup_lt_Some _ _ _ Hx).
  pose proof (vr_length v l Hv) as Hl. unfold length_z in Hl.
  unfold vec_pop. replace (vlength v - 1) with (Z.of_nat (length l - 1)) by lia.
  assert (vec_get (set_length v (Z.of_nat (length l - 1))) (Z.of_nat (length l - 1)) = Done x) as Hg.
  { change (vec_get v (Z.of_nat (length l - 1)) = Done x).
    rewrite (vrep_get v l) by (unfold length_z; done || lia).
    rewrite lookup_z_nat, Nat2Z.id by lia. by rewrite Hx. }
  simpl. rewrite Hg. simpl. eexists. split; [done|]. apply vrep_shrink; [done|lia].
Qed.

Lemma truncate_ok v l n : vrep v l → vrep (vec_truncate v (Z.of_nat n)) (take n l).
Proof.
  intros Hv. pose proof (vr_length v l Hv) as Hl. unfold length_z in Hl.
  unfold vec_truncate. destruct (Z.ltb_spec (Z.of_nat n) (vlength v)).
  - apply vrep_shrink; [done|lia].
  - rewrite take_ge by lia. destruct Hv. by split.
Qed.

(** The copying loop of [vec_pusharr], once there is room. *)
Lemma pusharr_loop arr v l :
  vrep v l → vlength v + length_z arr ≤ capacity v →
  ∃ v', for_loop (length arr) 0
         (λ i v, x ← of_option (arr !!z i);
                 v' ← vec_set v (vlength v) x;
                 Done (set_length v' (vlength v' + 1))) v = Done v' ∧ vrep v' (l ++ arr).
Proof.
  intros Hv Hc. unfold length_z in Hc.
  destruct (for_loop_inv (λ i v', vrep v' (l ++ take (Z.to_nat i) arr) ∧
      capacity v' = capacity v ∧ vlength v' = vlength v + i) (length arr) 0
    (λ i v, x ← of_option (arr !!z i); v' ← vec_set v (vlength v) x;
            Done (set_length v' (vlength v' + 1))) v) as (v' & Hr & Hv' & _).
  - rewrite app_nil_r, Z.add_0_r. done.
  - intros k v1 Hk (Hv1 & Hc1 & Hl1).
    destruct (lookup_lt_is_Some_2 arr (Z.to_nat k)) as [x Hx]; [lia|].
    rewrite lookup_z_nat, Hx by lia. cbn [of_option mbind res_bind].
    destruct (vrep_push_cell v1 _ x Hv1) as (v2 & Hs & Hl2 & Hc2 & Hv2); [lia|].
    rewrite Hs. cbn [mbind res_bind]. eexists. split; [done|].
    replace (Z.to_nat (k + 1)) with (S (Z.to_nat k)) by lia.
    rewrite (take_S_r _ _ _ Hx), app_assoc. split; [done|]. simpl. lia.
  - exists v'. split; [exact Hr|]. by rewrite take_ge in Hv' by lia.
Qed.

Lemma pusharr_ok v l arr :
  vrep v l → fits (length l + length arr) = true →
  ∃ v', vec_pusharr memsz realloc_ok 32 v arr = Done v' ∧ vrep v' (l ++ arr).
Proof.
  intros Hv Hf%bool_decide_eq_true. pose proof (vr_length v l Hv) as Hl.
  unfold vec_pusharr. unfold length_z in *.
  destruct (decide (vlength v + Z.of_nat (length arr) = 0)) as [Hz|Hz].
  { assert (arr = []) as -> by (apply nil_length_inv; lia). rewrite app_nil_r.
    exists v. rewrite Hz. split; [|done]. reflexivity. }
  destruct (vec_reserve_po2_spec memsz realloc_ok v l (vlength v + Z.of_nat (length arr)))
    as (v1 & Hr & Hv1 & Hl1 & Hc1); [done|done|lia|lia|lia|intros b Hb; apply realloc_total; lia|].
  rewrite Hr. cbn -[for_loop]. apply pusharr_loop; [done|]. unfold length_z. lia.
Qed.

Lemma find_loop_spec v l x n i :
  vrep v l → (i + n = length l)%nat →
  find_loop v x n (Z.of_nat i) =
    Done (match list_find (λ y, y = x) (drop i l) with
          | Some (k, _) => Z.of_nat (i + k)
          | None => -1
          end).
Proof.
  intros Hv. revert i. induction n as [|n IH]; intros i Hi; cbn [find_loop].
  { by rewrite drop_ge by lia. }
  destruct (lookup_lt_is_Some_2 l i) as [y Hy]; [lia|].
  rewrite (vrep_get v l) by (unfold length_z; done || lia).
  rewrite lookup_z_nat, Nat2Z.id, Hy by lia. cbn [of_option mbind res_bind].
  rewrite (drop_S _ _ _ Hy). cbn [list_find].
  destruct (decide (y = x)) as [->|Hne].
  - rewrite bool_decide_true by done. by rewrite Nat.add_0_r.
  - rewrite bool_decide_false by done.
    replace (Z.of_nat i + 1) with (Z.of_nat (S i)) by lia. rewrite IH by lia.
    f_equal. destruct (list_find _ (drop (S i) l)) as [[k z]|]; simpl; [lia|done].
Qed.

Lemma find_ok v l x : vrep v l → vec_find v x = Done (index_of x l).
Proof.
  intros Hv. pose proof (vr_length v l Hv) as Hl. unfold length_z in Hl.
  unfold vec_find. destruct (Z.ltb_spec (vlength v) 0); [lia|].
  rewrite (find_loop_spec v l x _ 0) by (done || lia).
  rewrite drop_0. unfold index_of. by destruct (list_find _ l) as [[k z]|].
Qed.

Lemma remove_first_eq x l :
  remove_first x l = match list_find (λ y, y = x) l with
                     | Some (k, _) => take k l ++ drop (k + 1) l
                     | None => l
                     end.
Proof.
  induction l as [|y l IH]; simpl; [done|].
  destruct (decide (y = x)) as [->|Hne].
  - by rewrite bool_decide_true.
  - rewrite bool_decide_false by done. rewrite IH.
    by destruct (list_find _ l) as [[k z]|]; simpl.
Qed.

Lemma remove_ok_full v l x :
  vrep v l → ∃ v', vec_remove v x = Done v' ∧ vrep v' (remove_first x l) ∧
    capacity v' = capacity v.
Proof.
  intros Hv. unfold vec_remove. rewrite (find_ok v l x Hv). cbn [mbind res_bind].
  rewrite remove_first_eq. unfold index_of.
  destruct (list_find _ l) as [[k z]|] eqn:Hf; [|by exists v].
  apply list_find_Some in Hf as (Hk & _ & _). apply lookup_lt_Some in Hk.
  destruct (Z.eqb_spec (Z.of_nat k) (-1)); [lia|].
  destruct (vec_splice_spec v l k 1 Hv) as (v' & Hr & Hv'); [lia|].
  exists v'. split; [done|]. split; [done|]. unfold vec_splice, vec_splice_ in Hr.
  simpl in Hr. by inv_dones.
Qed.

Lemma remove_ok v l x :
  vrep v l → ∃ v', vec_remove v x = Done v' ∧ vrep v' (remove_first x l).
Proof. intros Hv. destruct (remove_ok_full v l x Hv) as (v' & ? & ? & _). by exists v'. Qed.

Lemma reverse_ok v l :
  vrep v l → ∃ v', vec_reverse v = Done v' ∧ vrep v' (reverse l).
Proof.
  intros Hv. pose proof (vr_length v l Hv) as Hl. unfold length_z in Hl.
  unfold vec_reverse. rewrite Hl. rewrite Z.quot_div_nonneg by lia.
  change 2 with (Z.of_nat 2). rewrite <-Nat2Z.inj_div.
  destruct (Z.ltb_spec (Z.of_nat (length l / 2)) 0); [lia|]. rewrite Nat2Z.id.
  pose proof (Nat.Div0.div_mod (length l) 2). pose proof (Nat.mod_upper_bound (length l) 2).
  destruct (reverse_loop_spec (length l / 2) v l Hv) as (v' & l' & Hr & Hv' & Hlen & Hk);
    [lia|].
  exists v'. split; [done|]. replace (reverse l) with l'; [done|].
  apply list_eq. intros k. rewrite Hk.
  destruct (decide (k < length l)%nat).
  - rewrite reverse_lookup by done. case_decide; f_equal; lia.
  - rewrite decide_False by lia. rewrite !lookup_ge_None_2; rewrite ?length_reverse; lia || done.
Qed.

Lemma compact_ok v l :
  vrep v l → fits (length l) = true →
  ∃ v', vec_compact_ memsz realloc_ok v = Done (0, v') ∧ vrep v' l.
Proof.
  intros Hv Hf%bool_decide_eq_true. pose proof (vr_length v l Hv) as Hl.
  unfold length_z in Hl. unfold vec_compact_.
  destruct (Z.eqb_spec (vlength v) 0) as [Hz|Hz].
  - assert (l = []) as -> by (apply nil_length_inv; lia).
    eexists. split; [done|]. rewrite Hz. by split; [exists []|..].
  - destruct (vec_realloc_spec memsz realloc_ok v l (vlength v)) as (v' & Hr & Hv' & _ & _);
      [done|lia|lia|apply realloc_total; lia|].
    exists v'. by rewrite Hr.
Qed.

(** Every operation, against its list-level specification. *)
Lemma run_op_ok o v l r l' :
  vrep v l → spec_op o l = Some (r, l') →
  ∃ v', run_op o v = Done (r, v') ∧ vrep v' l'.
Proof.
  intros Hv Ho. destruct o; cbn [spec_op run_op] in *;
    try (case_match eqn:Hg; [|done]); simplify_eq.
  - destruct (push_ok v l x Hv Hg) as (v' & -> & ?). by exists v'.
  - destruct (l !! _) as [x|] eqn:Hx; [|done]. simplify_eq/=.
    destruct (pop_ok v l x Hv Hx) as (v' & -> & ?). by exists v'.
  - apply andb_true_iff in Hg as [Hf Hi%bool_decide_eq_true].
    destruct (insert_ok v l i x Hv Hf Hi) as (v' & -> & ?). by exists v'.
  - apply bool_decide_eq_true in Hg.
    destruct (vec_splice_spec v l start count Hv Hg) as (v' & -> & ?). by exists v'.
  - apply bool_decide_eq_true in Hg.
    destruct (vec_swapsplice_spec v l start count Hv Hg) as (v' & -> & ?). by exists v'.
  - destruct (l !! i) as [x|] eqn:Hx; [|done]. destruct (l !! j) as [y|] eqn:Hy; [|done].
    simplify_eq/=. destruct (vec_swap_spec v l i j x y Hv Hx Hy) as (v' & -> & _ & ?).
    by exists v'.
  - eexists. split; [done|]. by apply truncate_ok.
  - eexists. split; [done|]. apply (vrep_shrink v l 0 Hv). lia.
  - destruct (pusharr_ok v l arr Hv Hg) as (v' & -> & ?). by exists v'.
  - rewrite (find_ok v _ x Hv). by exists v.
  - destruct (remove_ok v l x Hv) as (v' & -> & ?). by exists v'.
  - destruct (reverse_ok v l Hv) as (v' & -> & ?). by exists v'.
  - destruct (compact_ok v _ Hv Hg) as (v' & -> & ?). by exists v'.
  - destruct (l !! i) as [x|] eqn:Hx; [|done]. simplify_eq/=. exists v.
    pose proof (lookup_lt_Some _ _ _ Hx).
    rewrite (vrep_get v _ _ Hv) by (unfold length_z; lia).
    by rewrite lookup_z_nat, Nat2Z.id, Hx by lia.
Qed.
End abstract.

(** ** Properties *)

(** C22: the vector refines the list. For every sequence of operations whose
    list-level preconditions hold, run from a vector that holds [l], the code
    returns without an access outside the array, gives the values the list
    operations give, and ends holding the list they end with. The hypotheses:
    [realloc] succeeds below [limit] bytes and sizes stay within an [int]. *)
Theorem vec_refines_list {A} `{EqDecision A} (memsz limit : Z) (realloc_ok : Z → bool)
    (Hm : 0 < memsz) (Hlim : limit ≤ 2 ^ 31)
    (Hok : ∀ b, 0 ≤ b < limit → realloc_ok b = true)
    (os : list (vop A)) (v : vec A) (l : list A) rs l'
    (Hv : vrep v l) (Hspec : spec_ops memsz limit os l = Some (rs, l')) :
  ∃ v', run_ops memsz realloc_ok os v = Done (rs, v') ∧ vrep v' l'.
Proof.
  revert v l rs l' Hv Hspec. induction os as [|o os IH]; intros v l rs l' Hv Hspec.
  { injection Hspec as <- <-. by exists v. }
  cbn [spec_ops] in Hspec. destruct (spec_op memsz limit o l) as [[r l1]|] eqn:Ho; [|done].
  cbn [mbind option_bind] in Hspec.
  destruct (spec_ops memsz limit os l1) as [[rs' l2]|] eqn:Hos; [|done].
  injection Hspec as <- <-.
  destruct (run_op_ok memsz limit realloc_ok Hm Hlim Hok o v l r l1 Hv Ho) as (v1 & Hr & Hv1).
  destruct (IH v1 l1 rs' l2 Hv1 Hos) as (v2 & Hr2 & Hv2).
  exists v2. cbn [run_ops]. rewrite Hr. cbn [mbind res_bind]. by rewrite Hr2.
Qed.

(** A run of every kind of operation. *)
Lemma vec_refines_list_witness :
  ∃ v', run_ops 8 (λ _, true)
      [OPush 1; OPush 2; OPusharr [3; 4; 5]; OInsert 1 9; OFind 4; ORemove 2; OReverse; OPop;
       OSwap 0 2; OSplice 1 1; OSwapsplice 0 1; OGet 0; OTruncate 5; OCompact; OClear] vec_init
    = Done ([OutInt 0; OutInt 0; OutUnit; OutInt 0; OutInt 4; OutUnit; OutUnit; OutElem 1;
             OutUnit; OutUnit; OutUnit; OutElem 9; OutUnit; OutInt 0; OutUnit], v') ∧
    vrep v' [].
Proof.
  apply (vec_refines_list 8 (2 ^ 31) (λ _, true)) with (l := []).
  - lia.
  - lia.
  - reflexivity.
  - apply vrep_init.
  - vm_compute. reflexivity.
Defined.

(** When [realloc] fails on a full vector, [vec_push] reports -1 and
    changes nothing, but [vec_insert] reports success (0), stores nothing and
    counts one more element than there are cells: the next [vec_last] reads
    outside the array. *)
Theorem vec_insert_out_of_memory {A} (memsz : Z) (realloc_ok : Z → bool) (v : vec A)
    (l : list A) (idx : Z) (x : A)
    (Hv : vrep v l) (Hfull : capacity v = vlength v) (Hm : 0 < memsz)
    (Hsz : 2 * (length_z l + 1) * memsz < 2 ^ 31) (Hoom : ∀ b, realloc_ok b = false) :
  vec_push memsz realloc_ok v x = Done (-1, v) ∧
  vec_insert memsz realloc_ok v idx x = Done (0, set_length v (vlength v + 1)) ∧
  vec_last (set_length v (vlength v + 1)) = Fault.
Proof.
  assert (vec_expand_ memsz realloc_ok v = Done (-1, v)) as He.
  { apply (vec_expand_fail memsz realloc_ok v l); try done. unfold length_z in *. lia. }
  unfold vec_push, vec_insert, vec_insert_. rewrite He. split; [done|]. split; [done|].
  unfold vec_last, vec_get. simpl.
  replace (slots v !!z _) with (None : option (option A)); [done|].
  symmetry. apply lookup_z_None. rewrite <-(vr_capacity v l Hv). lia.
Qed.

Lemma vec_insert_out_of_memory_witness :
  vec_insert 8 (λ _, false) (Vec [Some 7] 1 1) 0 9 = Done (0, Vec [Some 7] 2 1) ∧
  vec_last (Vec [Some 7] 2 1) = Fault.
Proof.
  assert (vrep (Vec [Some 7] 1 1) [7]) as Hv by (split; [by exists []|done|done]).
  destruct (vec_insert_out_of_memory 8 (λ _, false) (Vec [Some 7] 1 1) [7] 0 9 Hv)
    as (_ & H1 & H2); [done|lia|done|done|]. by split.
Defined.

(** From 2^30 on the shift of [po2_loop] runs through the sign bit to 0. *)
Lemma po2_loop_zero fuel n : 0 < n → po2_loop fuel 0 n = NoFuel.
Proof.
  intros Hn. induction fuel as [|fuel IH]; cbn [po2_loop]; [done|].
  destruct (Z.ltb_spec 0 n); [|lia]. exact IH.
Qed.

Lemma po2_loop_stuck fuel k n :
  (k ≤ 30)%nat → 2 ^ 30 < n < 2 ^ 31 → po2_loop fuel (2 ^ Z.of_nat (30 - k)) n = NoFuel.
Proof.
  revert k. induction fuel as [|fuel IH]; intros k Hk Hn; [done|]. cbn [po2_loop].
  assert (2 ^ Z.of_nat (30 - k) ≤ 2 ^ 30) by (apply Z.pow_le_mono_r; lia).
  destruct (Z.ltb_spec (2 ^ Z.of_nat (30 - k)) n); [|lia].
  destruct k as [|k].
  - change (i32 (Z.shiftl (2 ^ Z.of_nat (30 - 0)) 1)) with (- 2 ^ 31).
    destruct fuel as [|fuel]; [done|]. cbn [po2_loop].
    destruct (Z.ltb_spec (- 2 ^ 31) n); [|lia].
    change (i32 (Z.shiftl (- 2 ^ 31) 1)) with 0. apply po2_loop_zero. lia.
  - rewrite Z.shiftl_mul_pow2, <-Z.pow_add_r by lia.
    replace (Z.of_nat (30 - S k) + 1) with (Z.of_nat (30 - k)) by lia.
    assert (2 ^ Z.of_nat (30 - k) ≤ 2 ^ 30) by (apply Z.pow_le_mono_r; lia).
    rewrite i32_id by (simpl in *; lia). apply IH; lia.
Qed.

(** Up to 2^30 the loop of [vec_reserve_po2_] ends after at most 31
    doublings with the least power of two that is large enough; for a larger
    [int] it never ends. *)
Theorem vec_reserve_po2_terminates (n : Z) (Hn : 0 < n < 2 ^ 31) :
  if bool_decide (n ≤ 2 ^ 30)
  then ∃ e : nat, po2_loop 32 1 n = Done (2 ^ Z.of_nat e) ∧ n ≤ 2 ^ Z.of_nat e < 2 * n
  else ∀ fuel, po2_loop fuel 1 n = NoFuel.
Proof.
  case_bool_decide as Hb.
  - apply (po2_loop_spec 31 0 n); simpl; lia.
  - intros fuel. apply (po2_loop_stuck fuel 30 n); lia.
Qed.

Lemma vec_reserve_po2_terminates_witness :
  0 < 1000 < 2 ^ 31 ∧ ∃ e : nat, po2_loop 32 1 1000 = Done (2 ^ Z.of_nat e) ∧
    1000 ≤ 2 ^ Z.of_nat e < 2 * 1000.
Proof. split; [lia|]. apply (vec_reserve_po2_terminates 1000). lia. Defined.
