(* ===== verification/Sched.v ===== *)
(** * The scheduler ([src/src/kernel/sched.c])

    The run queue and the round-robin tick.  A [Task *] is its address; the
    tasks themselves, and [task_init] and [sched_new_elf_process], which build
    them, are not in this file.  [processes] is a [Vec.vec] of 8-byte cells. *)

From S2P Require Import Prelude CInt Lock Vec.

Definition SWITCH_TICK : Z := 10.

(** The static variables of the file. *)
Record sched : Type := Sched {
  current_pid : Z;
  current_tick : Z;
  index : Z;
  current_task : Z;
  processes : vec Z;
  started : bool;
  slock : bool;
}.

(** Before [sched_init]. *)
Definition sched_boot : sched := Sched 0 9 0 0 vec_init false false.

Definition set_tick (s : sched) (t : Z) : sched :=
  Sched (current_pid s) t (index s) (current_task s) (processes s) (started s) (slock s).
Definition set_index (s : sched) (i : Z) : sched :=
  Sched (current_pid s) (current_tick s) i (current_task s) (processes s) (started s) (slock s).
Definition set_current (s : sched) (t : Z) : sched :=
  Sched (current_pid s) (current_tick s) (index s) t (processes s) (started s) (slock s).
Definition set_processes (s : sched) (p : vec Z) : sched :=
  Sched (current_pid s) (current_tick s) (index s) (current_task s) p (started s) (slock s).
Definition set_slock (s : sched) (l : bool) : sched :=
  Sched (current_pid s) (current_tick s) (index s) (current_task s) (processes s) (started s) l.

Definition sched_started (s : sched) : bool := started s.
Definition sched_start (s : sched) : sched :=
  Sched (current_pid s) (current_tick s) (index s) (current_task s) (processes s) true (slock s).

(** [sched_tick]: with an empty queue it halts, and nothing wakes it with a
    task on a single CPU; otherwise the task to run. *)
Definition sched_tick (s : sched) : res (Z * sched) :=
  if vlength (processes s) =? 0 then Hang
  else
    l ← spin_lock (slock s);
    let s := set_slock s l in
    if SWITCH_TICK <=? u64 (current_tick s + 1) then
      let s := set_tick s 0 in
      let s := if i32 (index s) =? vlength (processes s) then set_index s 0 else s in
      t ← vec_get (processes s) (index s);
      let s := set_current (set_index s (u64 (index s + 1))) t in
      let s := set_slock s (spin_release (slock s)) in
      Done (current_task s, s)
    else
      let s := set_tick s (u64 (current_tick s + 1)) in
      let s := set_slock s (spin_release (slock s)) in
      Done (current_task s, s).

Definition sched_init (s : sched) : sched :=
  set_tick (set_processes s vec_init) (SWITCH_TICK - 1).

(** The result of [vec_push] is ignored. *)
Definition sched_push (realloc_ok : Z → bool) (t : Z) (s : sched) : res sched :=
  l ← spin_lock (slock s);
  let s := set_slock s l in
  '(_, p) ← vec_push 8 realloc_ok (processes s) t;
  let s := set_processes s p in
  Done (set_slock s (spin_release (slock s))).

Definition sched_remove (t : Z) (s : sched) : res sched :=
  l ← spin_lock (slock s);
  let s := set_slock s l in
  p ← vec_remove (processes s) t;
  let s := set_processes s p in
  Done (set_slock s (spin_release (slock s))).

Definition sched_current_task (s : sched) : Z := current_task s.
Definition sched_get_last_pid (s : sched) : Z := i32 (current_pid s).
(** The [int] argument is converted to [size_t]. *)
Definition sched_set_tick (t : Z) (s : sched) : sched := set_tick s (u64 t).
Definition sched_set_index (i : Z) (s : sched) : sched := set_index s (u64 i).

(** ** Invariant *)

(** The queue holds [ts] and the index is at most one past its end. *)
Record sched_ok (s : sched) (ts : list Z) : Prop := SchedOk {
  so_queue : vrep (processes s) ts;
  so_index : 0 ≤ index s ≤ length_z ts;
  so_tick : 0 ≤ current_tick s < SWITCH_TICK;
  so_small : length_z ts < 2 ^ 31;
  so_lock : slock s = false;
}.

(** Where a switch finds its task. *)
Definition next_index (s : sched) (ts : list Z) : Z :=
  if index s =? length_z ts then 0 else index s.

Lemma sched_tick_switch s ts :
  sched_ok s ts → ts ≠ [] → current_tick s = SWITCH_TICK - 1 →
  ∃ t, ts !!z next_index s ts = Some t ∧ 0 ≤ next_index s ts < length_z ts ∧
    sched_tick s = Done (t, Sched (current_pid s) 0 (next_index s ts + 1) t
                              (processes s) (started s) false).
Proof.
  intros [Hq Hi Ht Hs Hl] Hne Htick. unfold sched_tick.
  pose proof (vr_length _ _ Hq) as Hlen.
  assert (0 < length_z ts).
  { unfold length_z. destruct ts; [done|simpl; lia]. }
  destruct (Z.eqb_spec (vlength (processes s)) 0); [lia|].
  rewrite Hl, spin_lock_free. cbn [mbind res_bind].
  unfold set_slock, set_tick, set_index, set_current. cbn [current_tick index processes].
  rewrite Htick. change (SWITCH_TICK <=? u64 (SWITCH_TICK - 1 + 1)) with true. cbv iota.
  rewrite (i32_id (index s)) by (simpl; lia). rewrite Hlen.
  unfold next_index. destruct (Z.eqb_spec (index s) (length_z ts)) as [He|He].
  - destruct (proj2 (lookup_z_is_Some ts 0)) as [t Hx]; [lia|]. exists t.
    split; [done|]. split; [lia|]. cbn [processes index].
    rewrite (vrep_get _ ts) by (done || lia). rewrite Hx. cbn.
    rewrite u64_id by (simpl; lia). done.
  - destruct (proj2 (lookup_z_is_Some ts (index s))) as [t Hx]; [lia|]. exists t.
    split; [done|]. split; [lia|]. cbn [processes index].
    rewrite (vrep_get _ ts) by (done || lia). rewrite Hx. cbn.
    rewrite u64_id by (simpl in *; lia). done.
Qed.

Lemma sched_tick_count s ts :
  sched_ok s ts → ts ≠ [] → current_tick s < SWITCH_TICK - 1 →
  sched_tick s = Done (current_task s, set_tick s (current_tick s + 1)).
Proof.
  intros [Hq Hi Ht Hs Hl] Hne Htick. unfold sched_tick.
  pose proof (vr_length _ _ Hq) as Hlen.
  assert (0 < length_z ts).
  { unfold length_z. destruct ts; [done|simpl; lia]. }
  destruct (Z.eqb_spec (vlength (processes s)) 0); [lia|].
  rewrite Hl, spin_lock_free. cbn [mbind res_bind].
  unfold set_slock, set_tick, SWITCH_TICK in *. cbn [current_tick slock].
  rewrite u64_id by (simpl; lia).
  destruct (Z.leb_spec 10 (current_tick s + 1)); [lia|].
  cbn. destruct s. simpl in *. by subst.
Qed.

(** Any tick on a non-empty queue keeps the invariant. *)
Lemma sched_tick_ok s ts :
  sched_ok s ts → ts ≠ [] →
  ∃ t s', sched_tick s = Done (t, s') ∧ sched_ok s' ts ∧ t = current_task s' ∧
    (current_tick s = SWITCH_TICK - 1 → t ∈ ts).
Proof.
  intros Hok Hne. pose proof (so_tick _ _ Hok) as Ht. unfold SWITCH_TICK in Ht.
  destruct (decide (current_tick s = SWITCH_TICK - 1)) as [Heq|Hn].
  - destruct (sched_tick_switch s ts) as (t & Hx & Hi & Hr); [done..|].
    eexists t, _. split; [exact Hr|]. destruct Hok. split; [|split; [done|intros _]].
    + split; simpl; try done; lia.
    + apply lookup_z_Some in Hx as [_ Hx]. by eapply list_elem_of_lookup_2.
  - rewrite (sched_tick_count s ts) by (done || unfold SWITCH_TICK in *; lia).
    eexists _, _. split; [done|]. split; [|done].
    destruct Hok. unfold SWITCH_TICK in *. split; simpl; try done. unfold SWITCH_TICK. lia.
Qed.

(** [n] ticks in a row: the tasks they return, in order. *)
Fixpoint run_ticks (n : nat) (s : sched) : res (list Z * sched) :=
  match n with
  | O => Done ([], s)
  | S n => '(t, s) ← sched_tick s; '(ts, s) ← run_ticks n s; Done (t :: ts, s)
  end.

Lemma run_ticks_app n m s :
  run_ticks (n + m) s =
    '(ts, s) ← run_ticks n s; '(us, s) ← run_ticks m s; Done (ts ++ us, s).
Proof.
  revert s. induction n as [|n IH]; intros s; cbn [run_ticks Nat.add].
  - cbn [mbind res_bind]. by destruct (run_ticks m s) as [[us s']| | |].
  - destruct (sched_tick s) as [[t s1]| | |]; cbn [mbind res_bind]; [|done..].
    rewrite IH. destruct (run_ticks n s1) as [[ts s2]| | |]; cbn [mbind res_bind]; [|done..].
    by destruct (run_ticks m s2) as [[us s3]| | |].
Qed.

(** Ticks before the next switch return the running task. *)
Lemma run_ticks_count n s ts :
  sched_ok s ts → ts ≠ [] → current_tick s + Z.of_nat n ≤ SWITCH_TICK - 1 →
  run_ticks n s = Done (replicate n (current_task s), set_tick s (current_tick s + Z.of_nat n)).
Proof.
  revert s. induction n as [|n IH]; intros s Hok Hne Hn; cbn [run_ticks].
  - rewrite Z.add_0_r. by destruct s.
  - rewrite (sched_tick_count s ts) by (done || lia). cbn [mbind res_bind].
    rewrite (IH (set_tick s (current_tick s + 1))).
    + cbn. unfold set_tick. cbn. do 3 f_equal. lia.
    + destruct Hok. split; simpl; try done. unfold SWITCH_TICK in *. lia.
    + done.
    + unfold set_tick. cbn. lia.
Qed.

(** A quantum: ten ticks from a due switch on. *)
Lemma run_quantum s ts :
  sched_ok s ts → ts ≠ [] → current_tick s = SWITCH_TICK - 1 →
  ∃ t s', run_ticks 10 s = Done (replicate 10 t, s') ∧
    ts !!z next_index s ts = Some t ∧ sched_ok s' ts ∧
    current_tick s' = SWITCH_TICK - 1 ∧
    next_index s' ts = (next_index s ts + 1) mod length_z ts.
Proof.
  intros Hok Hne Ht. destruct (sched_tick_switch s ts Hok Hne Ht) as (t & Hx & Hi & Hr).
  destruct Hok as [Hq Hidx _ Hs Hl].
  set (s1 := Sched _ _ _ _ _ _ _) in Hr.
  assert (sched_ok s1 ts) as Hok1 by (subst s1; split; simpl; try done; unfold SWITCH_TICK; lia).
  exists t, (set_tick s1 9).
  assert (run_ticks 1 s = Done ([t], s1)) as Hone by (cbn [run_ticks]; by rewrite Hr).
  change 10%nat with (1 + 9)%nat. rewrite run_ticks_app, Hone. cbn [mbind res_bind].
  pose proof (run_ticks_count 9 s1 ts Hok1 Hne) as Hrest.
  change (set_tick s1 (current_tick s1 + Z.of_nat 9)) with (set_tick s1 9) in Hrest.
  rewrite Hrest by (subst s1; unfold SWITCH_TICK; simpl; lia).
  split; [done|]. split; [done|]. split; [|split; [done|]].
  - destruct Hok1. split; try done.
  - unfold next_index at 1. subst s1. simpl.
    destruct (Z.eqb_spec (next_index s ts + 1) (length_z ts)) as [He|He].
    + by rewrite He, Z_mod_same_full.
    + rewrite Z.mod_small; lia.
Qed.

Lemma run_quanta m s ts :
  sched_ok s ts → ts ≠ [] → current_tick s = SWITCH_TICK - 1 →
  ∃ rs s', run_ticks (m * 10) s = Done (rs, s') ∧ sched_ok s' ts ∧
    current_tick s' = SWITCH_TICK - 1 ∧ length rs = (m * 10)%nat ∧
    next_index s' ts = (next_index s ts + Z.of_nat m) mod length_z ts ∧
    ∀ k, 0 ≤ k < Z.of_nat m * 10 →
      rs !!z k = ts !!z ((next_index s ts + k / 10) mod length_z ts).
Proof.
  revert s. induction m as [|m IH]; intros s Hok Hne Ht.
  - exists [], s. split; [done|]. split; [done|]. split; [done|]. split; [done|].
    split; [|intros; lia]. rewrite Z.add_0_r, Z.mod_small; [done|].
    destruct (sched_tick_switch s ts Hok Hne Ht) as (_ & _ & ? & _). done.
  - destruct (run_quantum s ts Hok Hne Ht) as (t & s1 & Hr & Hx & Hok1 & Ht1 & Hn1).
    destruct (IH s1 Hok1 Hne Ht1) as (rs & s2 & Hr2 & Hok2 & Ht2 & Hlen & Hn2 & Hk).
    exists (replicate 10 t ++ rs), s2.
    change (S m * 10)%nat with (10 + m * 10)%nat. rewrite run_ticks_app, Hr.
    cbn [mbind res_bind]. rewrite Hr2. split; [done|]. split; [done|]. split; [done|].
    split; [by rewrite length_app, length_replicate, Hlen|].
    assert (0 < length_z ts) by (unfold length_z; destruct ts; [done|simpl; lia]).
    split; [rewrite Hn2, Hn1, Zplus_mod_idemp_l; f_equal; lia|].
    intros k Hk0. rewrite lookup_z_nat by lia. destruct (decide (k < 10)) as [Hlt|].
    + rewrite lookup_app_l by (rewrite length_replicate; lia).
      rewrite lookup_replicate_2 by lia. rewrite Z.div_small, Z.add_0_r by lia.
      destruct (sched_tick_switch s ts Hok Hne Ht) as (_ & _ & ? & _).
      by rewrite Z.mod_small.
    + rewrite lookup_app_r by (rewrite length_replicate; lia). rewrite length_replicate.
      replace (Z.to_nat k - 10)%nat with (Z.to_nat (k - 10)) by lia.
      rewrite <-lookup_z_nat, Hk, Hn1, Zplus_mod_idemp_l by lia.
      f_equal. f_equal. replace k with (k - 10 + 1 * 10) at 2 by lia.
      rewrite Z.div_add by lia. lia.
Qed.

Lemma length_remove_first (t : Z) (ts : list Z) :
  length (remove_first t ts) = if decide (t ∈ ts) then (length ts - 1)%nat else length ts.
Proof.
  induction ts as [|u ts IH]; simpl.
  { done. }
  case_bool_decide as Hu.
  - rewrite decide_True by (subst; left). lia.
  - simpl. rewrite IH. destruct (decide (t ∈ ts)) as [Hin|].
    + rewrite decide_True by (by right). destruct ts; [by apply elem_of_nil in Hin|simpl; lia].
    + rewrite decide_False; [done|]. by intros [?|?]%elem_of_cons.
Qed.

Lemma sched_push_ok realloc_ok s ts t :
  sched_ok s ts → length_z ts < 2 ^ 26 →
  (∀ b, 0 ≤ b < 2 ^ 31 → realloc_ok b = true) →
  ∃ s', sched_push realloc_ok t s = Done s' ∧ sched_ok s' (ts ++ [t]) ∧
    index s' = index s ∧ current_tick s' = current_tick s ∧
    current_task s' = current_task s ∧ current_pid s' = current_pid s.
Proof.
  intros [Hq Hi Ht Hs Hl] Hsz Hok. unfold sched_push, length_z in *.
  rewrite Hl, spin_lock_free. cbn [mbind res_bind set_slock processes].
  destruct (push_ok 8 (2 ^ 31) realloc_ok ltac:(lia) ltac:(lia) Hok (processes s) ts t)
    as (p & Hr & Hp); [done|apply bool_decide_eq_true; lia|].
  rewrite Hr. cbn. eexists. split; [done|].
  split; [|done]. split; simpl; try done; unfold length_z; rewrite length_app; simpl; lia.
Qed.

Lemma sched_remove_spec s ts t :
  sched_ok s ts →
  ∃ p, sched_remove t s = Done (set_processes s p) ∧ vrep p (remove_first t ts).
Proof.
  intros [Hq Hi Ht Hs Hl]. unfold sched_remove. rewrite Hl, spin_lock_free.
  cbn [mbind res_bind set_slock processes].
  destruct (remove_ok (processes s) ts t Hq) as (p & Hr & Hp).
  rewrite Hr. cbn. exists p. split; [|done]. unfold set_processes. destruct s; simpl in *.
  by subst.
Qed.

(** ** Properties *)

(** C23: the scheduler is a round robin with a quantum of ten ticks.
    From a due switch, [m * 10] ticks return; tick [k] runs the task that is
    [k / 10] places after the next one in the queue, cyclically; and the
    invariant holds at the end. *)
Theorem sched_tick_round_robin (s : sched) (ts : list Z) (m : nat)
    (Hok : sched_ok s ts) (Hne : ts ≠ []) (Hdue : current_tick s = SWITCH_TICK - 1) :
  ∃ rs s', run_ticks (m * 10) s = Done (rs, s') ∧ sched_ok s' ts ∧
    length rs = (m * 10)%nat ∧
    ∀ k, 0 ≤ k < Z.of_nat m * 10 →
      rs !!z k = ts !!z ((next_index s ts + k / 10) mod length_z ts).
Proof.
  destruct (run_quanta m s ts Hok Hne Hdue) as (rs & s' & Hr & Hok' & _ & Hlen & _ & Hk).
  by exists rs, s'.
Qed.

(** The queue after boot and two [sched_push]es, before the first tick. *)
Definition sample_sched : sched := Sched 2 9 0 0 (Vec [Some 10; Some 20] 2 2) true false.

Lemma sample_sched_ok : sched_ok sample_sched [10; 20].
Proof.
  split; try done; simpl; try (unfold length_z; simpl; lia).
  split; [by exists []|done|done].
Qed.

Lemma sched_tick_round_robin_witness :
  ∃ rs s', run_ticks 50 sample_sched = Done (rs, s') ∧
    rs !!z 9 = Some 10 ∧ rs !!z 10 = Some 20 ∧ rs !!z 49 = Some 10.
Proof.
  destruct (sched_tick_round_robin sample_sched [10; 20] 5 sample_sched_ok)
    as (rs & s' & Hr & _ & _ & Hk); [done|done|].
  exists rs, s'. split; [exact Hr|]. split_and!.
  - rewrite Hk by lia. reflexivity.
  - rewrite Hk by lia. reflexivity.
  - rewrite Hk by lia. reflexivity.
Defined.

(** C33: nobody starves. With the index at most the length of the queue and the lock free,
    whatever tick the scheduler is at, every task of a queue of [n] runs within
    [10 * n + 9] ticks.  (A task's exit can leave the index further out:
    what [sched_tick] then does is below.) *)
Theorem sched_no_starvation (s : sched) (ts : list Z) (t : Z)
    (Hok : sched_ok s ts) (Hin : t ∈ ts) :
  ∃ n rs s', (n ≤ length ts * 10 + 9)%nat ∧ run_ticks n s = Done (rs, s') ∧ t ∈ rs.
Proof.
  assert (ts ≠ []) as Hne by (intros ->; by apply elem_of_nil in Hin).
  pose proof (so_tick _ _ Hok) as Htk. unfold SWITCH_TICK in Htk.
  set (d := Z.to_nat (9 - current_tick s)).
  pose proof (run_ticks_count d s ts Hok Hne) as Hc.
  set (s1 := set_tick s (current_tick s + Z.of_nat d)) in *.
  assert (current_tick s1 = 9) as H9 by (subst s1 d; simpl; lia).
  assert (sched_ok s1 ts) as Hok1.
  { destruct Hok. split; try done. unfold SWITCH_TICK. lia. }
  destruct (run_quanta (length ts) s1 ts Hok1 Hne H9) as (rs & s' & Hr & _ & _ & Hlen & _ & Hk).
  exists (d + length ts * 10)%nat, (replicate d (current_task s) ++ rs), s'.
  split; [subst d; lia|]. split.
  { rewrite run_ticks_app, Hc by (unfold SWITCH_TICK; subst d; lia).
    cbn [mbind res_bind]. by rewrite Hr. }
  apply elem_of_app. right. apply list_elem_of_lookup_1 in Hin as [j Hj].
  pose proof (lookup_lt_Some _ _ _ Hj) as Hjl.
  destruct (sched_tick_switch s1 ts Hok1 Hne H9) as (_ & _ & Hi & _).
  unfold length_z in *.
  set (n := Z.of_nat (length ts)) in *.
  specialize (Hk ((Z.of_nat j - next_index s1 ts) mod n * 10)).
  pose proof (Z.mod_pos_bound (Z.of_nat j - next_index s1 ts) n).
  rewrite Z.div_mul, Zplus_mod_idemp_r in Hk by lia.
  replace (next_index s1 ts + (Z.of_nat j - next_index s1 ts)) with (Z.of_nat j) in Hk by lia.
  rewrite (Z.mod_small (Z.of_nat j) n) in Hk by lia. rewrite (lookup_z_nat ts), Nat2Z.id, Hj in Hk by lia.
  specialize (Hk ltac:(nia)). apply lookup_z_Some in Hk as [_ Hk].
  by eapply list_elem_of_lookup_2.
Qed.

Lemma sched_no_starvation_witness :
  ∃ n rs s', (n ≤ 29)%nat ∧ run_ticks n (set_tick sample_sched 4) = Done (rs, s') ∧ 20 ∈ rs.
Proof.
  apply (sched_no_starvation (set_tick sample_sched 4) [10; 20] 20).
  - destruct sample_sched_ok. split; try done.
  - apply elem_of_cons. right. by apply list_elem_of_singleton.
Defined.

(** [sched_remove] takes the first occurrence of the task out of the
    queue but leaves [index] alone: the invariant survives exactly when the
    task was not queued or the index was not at the end. *)
Theorem sched_remove_invariant (s : sched) (ts : list Z) (t : Z) (Hok : sched_ok s ts) :
  ∃ s', sched_remove t s = Done s' ∧ vrep (processes s') (remove_first t ts) ∧
    index s' = index s ∧
    (sched_ok s' (remove_first t ts) ↔ t ∉ ts ∨ index s < length_z ts).
Proof.
  destruct (sched_remove_spec s ts t Hok) as (p & Hr & Hp).
  exists (set_processes s p). split; [done|]. split; [done|]. split; [done|].
  pose proof (length_remove_first t ts) as Hlen. destruct Hok as [Hq Hi Ht Hs Hl].
  unfold length_z in *. split.
  - intros [_ Hi' _ _ _]. unfold length_z in Hi'. simpl in Hi'.
    destruct (decide (t ∈ ts)) as [Hin|]; [right|by left].
    destruct ts; [by apply elem_of_nil in Hin|]. simpl in *. lia.
  - intros Hor. split; simpl; try done; unfold length_z; destruct (decide (t ∈ ts)); try lia.
    destruct Hor; [done|lia].
Qed.

Lemma sched_remove_invariant_witness :
  ∃ s', sched_remove 20 sample_sched = Done s' ∧ vrep (processes s') [10] ∧ sched_ok s' [10].
Proof.
  destruct (sched_remove_invariant sample_sched [10; 20] 20 sample_sched_ok)
    as (s' & Hr & Hp & _ & Hok).
  exists s'. split; [exact Hr|]. split; [exact Hp|]. apply Hok. right. done.
Defined.

(** Removing a queued task while [index] is at the end of a
    full queue (right after the last task got its turn) leaves [index] one past
    the end test of [sched_tick]: the next switch reads outside [processes]. *)
Theorem sched_remove_overruns (s : sched) (ts : list Z) (t : Z)
    (Hok : sched_ok s ts) (Hin : t ∈ ts) (Hlen : 2 ≤ length_z ts)
    (Hend : index s = length_z ts) (Hfull : capacity (processes s) = length_z ts) :
  ∃ s', sched_remove t s = Done s' ∧
    sched_tick (set_tick s' (SWITCH_TICK - 1)) = Fault.
Proof.
  destruct Hok as [Hq Hi Ht Hs Hl]. unfold sched_remove. rewrite Hl, spin_lock_free.
  cbn [mbind res_bind set_slock processes].
  pose proof (length_remove_first t ts) as Hrl. rewrite decide_True in Hrl by done.
  destruct (remove_ok_full (processes s) ts t Hq) as (p & Hr & Hp & Hc).
  rewrite Hr. cbn [mbind res_bind]. eexists. split; [done|].
  pose proof (vr_length _ _ Hp) as Hpl. unfold length_z in *.
  unfold sched_tick. cbn -[i32 u64]. rewrite Hpl, Hrl.
  destruct (Z.eqb_spec (Z.of_nat (length ts - 1)) 0); [lia|].
  cbn -[i32 u64]. change (SWITCH_TICK <=? u64 10) with true. cbv iota.
  rewrite Hend, i32_id by (simpl; lia).
  destruct (Z.eqb_spec (Z.of_nat (length ts)) (Z.of_nat (length ts - 1))); [lia|].
  unfold vec_get. cbn -[i32 u64]. rewrite Hend.
  replace (slots p !!z _) with (None : option (option Z)); [done|].
  symmetry. apply lookup_z_None. pose proof (vr_capacity _ _ Hp) as Hpc.
  unfold length_z in *. lia.
Qed.

(** [init] starts a shell, the shell has run last and exits. *)
Lemma sched_remove_overruns_witness :
  ∃ s', sched_remove 20 (set_index sample_sched 2) = Done s' ∧
    sched_tick (set_tick s' (SWITCH_TICK - 1)) = Fault.
Proof.
  apply (sched_remove_overruns (set_index sample_sched 2) [10; 20] 20); try done.
  - destruct sample_sched_ok. split; try done; simpl; unfold length_z; simpl; lia.
  - apply elem_of_cons. right. by apply list_elem_of_singleton.
Defined.
