(* ===== verification/Heap.v ===== *)
(** * What the kernel asks of its heap

    [malloc], [realloc] and [free] ([src/src/lib/alloc.h]) as the other components use
    them: an interface, so that their theorems do not depend on how
    [src/src/lib/alloc.c] keeps its blocks; [AllocHeap.v] shows that it meets it. *)

From S2P Require Import Prelude CInt Mem.

Class Heap (H : Type) : Type := {
  (** The pointer, 0 when out of memory, and the memory and heap after. *)
  malloc : Z → mem → H → res (Z * (mem * H));
  realloc : Z → Z → mem → H → res (Z * (mem * H));
  free : Z → mem → H → res (mem * H);
  (** The block of [n] bytes at [p] is allocated. *)
  live : H → Z → Z → Prop;
  heap_ok : mem → H → Prop;
  (** [k] more requests of at most [small] bytes will be met. *)
  room : nat → H → Prop;
  (** Memory that is not the heap's to hand out. *)
  outside : Z → Prop;
  (** Bytes stored at an address, whoever's they are. *)
  overrun : Z → list Z → mem → H → res (mem * H);
  (** The heap has no data of its own in the [n] bytes at [a]. *)
  bare : H → Z → Z → Prop;
}.
Definition small : Z := 65488.

(** No block will be made at [a]: it lies in one, or outside of the heap. *)
Definition settled {H} `{Heap H} (h : H) (a : Z) : Prop :=
  outside (H := H) a ∨ ∃ p n, live h p n ∧ p ≤ a < p + n.

Lemma settled_live {H} `{Heap H} (h : H) p n a : live h p n → p ≤ a < p + n → settled h a.
Proof. intros Hp Ha. right. by exists p, n. Qed.

Lemma settled_mono {H} `{Heap H} (h h' : H) a :
  (∀ q k, live h q k → live h' q k) → settled h a → settled h' a.
Proof. intros Hl [?|(q & k & Hq & Ha)]; [by left|right]. exists q, k. auto. Qed.

(** What a call of [malloc] for [n] bytes that succeeds promises. *)
Record new_block {H} `{Heap H} (n : Z) (m : mem) (h : H) (p : Z) (m' : mem) (h' : H) : Prop := {
  nb_pos : 0 < p;
  nb_mapped : mapped m' p n;
  nb_disjoint q k : live h q k → q + k ≤ p ∨ p + n ≤ q;
  nb_outside a : outside (H := H) a → ¬ (p ≤ a < p + n);
  nb_same a : settled h a → m' !! a = m !! a;
  nb_bytes : bytes_ok m → bytes_ok m';
  nb_live q k : live h' q k ↔ live h q k ∨ q = p ∧ k = n;
}.

Lemma nb_apart {H} `{Heap H} n m (h : H) p m' h' a :
  new_block n m h p m' h' → settled h a → ¬ (p ≤ a < p + n).
Proof.
  intros Hb [Ho|(q & k & Hq & Ha)]; [by apply (nb_outside _ _ _ _ _ _ Hb)|].
  pose proof (nb_disjoint _ _ _ _ _ _ Hb q k Hq). lia.
Qed.

Lemma nb_settled {H} `{Heap H} n m (h : H) p m' h' a :
  new_block n m h p m' h' → settled h a → settled h' a.
Proof. intros Hb. apply settled_mono. intros q k Hq. apply (nb_live _ _ _ _ _ _ Hb). by left. Qed.

(** The laws: [malloc] and [free] return, and the heap stays well formed when a
    client writes to its blocks. *)
Class HeapLaws (H : Type) `{Heap H} : Prop := {
  malloc_law n m (h : H) :
    heap_ok m h → 0 ≤ n < 2 ^ 31 →
    ∃ p m' h', malloc n m h = Done (p, (m', h')) ∧ heap_ok m' h' ∧
      (p = 0 ∧ m' = m ∧ (∀ q k, live h' q k ↔ live h q k) ∨ new_block n m h p m' h');
  room_law k n m (h : H) p m' h' :
    heap_ok m h → room (S k) h → 0 ≤ n ≤ small → malloc n m h = Done (p, (m', h')) →
    p ≠ 0 ∧ room k h';
  live_law p n m (h : H) : heap_ok m h → live h p n → 0 < p ∧ 0 ≤ n ∧ p + n < 2 ^ 64 ∧ mapped m p n;
  live_disjoint p n q k m (h : H) :
    heap_ok m h → live h p n → live h q k → p ≠ q → p + n ≤ q ∨ q + k ≤ p;
  realloc_law p n sz m (h : H) :
    heap_ok m h → bytes_ok m → live h p n → 0 < n < 2 ^ 31 → 0 < sz < 2 ^ 31 → m !! 0 = None →
    (∃ h', malloc sz m h = Done (0, (m, h')) ∧ realloc p sz m h = Fault) ∨
    ∃ q m' h', realloc p sz m h = Done (q, (m', h')) ∧ heap_ok m' h' ∧ 0 < q ∧
      mapped m' q sz ∧ (∀ x k, live h x k → q + sz ≤ x ∨ x + k ≤ q) ∧
      (∀ i, 0 ≤ i < Z.min n sz → m' !! (q + i) = m !! (p + i)) ∧
      (∀ x k i, live h x k → x ≤ i < x + k → m' !! i = m !! i) ∧ bytes_ok m' ∧
      (∀ x k, live h' x k ↔ live h x k ∧ x ≠ p ∨ x = q ∧ k = sz) ∧
      ∀ i, outside (H := H) i → m' !! i = m !! i ∧ ¬ (q ≤ i < q + sz);
  free_law p n m (h : H) :
    heap_ok m h → live h p n →
    ∃ h', free p m h = Done (m, h') ∧ heap_ok m h' ∧
      ∀ q k, live h' q k ↔ live h q k ∧ q ≠ p;
  heap_ok_writes m m' (h : H) :
    heap_ok m h → (∀ a, is_Some (m !! a) → is_Some (m' !! a)) →
    (∀ a, ¬ settled h a → m' !! a = m !! a) → heap_ok m' h;
  overrun_law a bs m (h : H) :
    heap_ok m h → mapped m a (length_z bs) → bare h a (length_z bs) →
    ∃ m', overrun a bs m h = Done (m', h) ∧ heap_ok m' h ∧
      overwritten m m' a (length_z bs) (λ i, bs !!z i);
}.

(** The [n] bytes at [a] exist, and are nobody's: nothing is kept there, neither by
    the heap nor by its clients. *)
Record vacant {H} `{Heap H} (m : mem) (h : H) (a n : Z) : Prop := Vacant {
  va_mapped : mapped m a n;
  va_bare : bare h a n;
  va_unsettled x : a ≤ x < a + n → ¬ settled h x;
}.

(** Writing behind a new block does no harm where the memory is vacant. *)
Lemma overrun_block {H} `{HeapLaws H} n m (h : H) p m1 h1 a bs :
  new_block n m h p m1 h1 → heap_ok m1 h1 → vacant m1 h1 a (length_z bs) → Forall is_u8 bs →
  ∃ m2, overrun a bs m1 h1 = Done (m2, h1) ∧ heap_ok m2 h1 ∧ new_block n m h p m2 h1.
Proof.
  intros Hb Hok [Hm Ha Hs] Hbs. destruct (overrun_law a bs m1 h1 Hok Hm Ha) as (m2 & Hr & Hok2 & Ho).
  exists m2. split; [done|]. split; [done|]. pose proof Hb as [Hpos Hmap Hd Hout Hsame Hby Hlive].
  assert (∀ x, settled h1 x → m2 !! x = m1 !! x) as Hkeep.
  { intros x Hx. apply (overwritten_out _ _ _ _ _ _ Ho). intros Hin. by apply (Hs x Hin). }
  split; try done.
  - intros x Hx. rewrite Hkeep; [by apply Hmap|]. apply (settled_live h1 p n); [apply Hlive; by right|done].
  - intros x Hx. rewrite Hkeep by by apply (nb_settled _ _ _ _ _ _ _ Hb). by apply Hsame.
  - intros Hm1 x b. rewrite Ho. case_bool_decide; [|by apply Hby].
    intros Hx%lookup_z_Some. destruct Hx as [_ Hx]. by apply (Forall_lookup_1 _ _ _ _ Hbs Hx).
Qed.

(** A heap that hands out cleared blocks, as long as nothing is freed. *)
Class FreshHeap (H : Type) `{Heap H} : Type := {
  fresh : mem → H → Prop;
  fresh_malloc n m (h : H) p m' h' :
    heap_ok m h → fresh m h → 0 ≤ n < 2 ^ 31 → malloc n m h = Done (p, (m', h')) →
    fresh m' h' ∧ (p ≠ 0 → ∀ i, 0 ≤ i < n → m' !! (p + i) = Some 0);
  fresh_writes m m' (h : H) :
    heap_ok m h → fresh m h → (∀ a, ¬ settled h a → m' !! a = m !! a) → fresh m' h;
}.
