(* ===== verification/Str.v ===== *)
(** * Strings ([src/src/lib/str.c])

    The functions run on byte memory ([Mem]); a [char *] is an address and 0 is
    NULL.  [fuel] bounds the iterations of each loop.  [cstr m p s] says that the
    string [s], a list of non-zero bytes, is at [p]; the theorems state what the
    functions compute on such strings. *)

From S2P Require Import Prelude CInt Mem Heap.

Section str.
Context (fuel : nat).

Definition strlen (m : mem) (str : Z) : res Z :=
  while_loop fuel (λ length,
    b ← load8 m (str + length);
    Done (if b =? 0 then inr length else inl (length + 1))) 0.

Definition str_eq (m : mem) (s1 s2 : Z) : res bool :=
  l1 ← strlen m s1;
  l2 ← strlen m s2;
  if negb (l1 =? l2) then Done false
  else
    while_loop fuel (λ i,
      l ← strlen m s1;
      if i <? l then
        a ← load8 m (s1 + i);
        b ← load8 m (s2 + i);
        Done (if negb (a =? b) then inr false else inl (i + 1))
      else Done (inr true)) 0.

Definition strstr (m : mem) (str substr : Z) : res Z :=
  while_loop fuel (λ '(str, (a, b)),
    cb ← load8 m b;
    if cb =? 0 then Done (inr str)
    else
      ca ← load8 m a;
      if ca =? 0 then Done (inr 0)
      else if negb (ca =? cb) then Done (inl (str + 1, (str + 1, substr)))
      else Done (inl (str, (a + 1, b + 1)))) (str, (str, substr)).

(** [slash] is the address of the literal ["/"]. *)
Definition basename (slash : Z) (m : mem) (path : Z) : res Z :=
  c ← load8 m path;
  if negb (c =? 0x2f) then Done path
  else
    n ← strlen m path;
    if n =? 1 then Done path
    else
      ssc ← strstr m path slash;
      while_loop fuel (λ '(path, ssc),
        n ← strlen m ssc;
        let l := i32 (n + 1) in
        len ← strlen m path;
        let path := path + (len - l + 2) in
        ssc ← strstr m path slash;
        Done (if negb (ssc =? 0) then inl (path, ssc) else inr path)) (path, ssc).

Definition strchr (m : mem) (s c : Z) : res Z :=
  while_loop fuel (λ s,
    b ← load8 m s;
    Done (if b =? c then inr s else if b =? 0 then inr 0 else inl (s + 1))) s.

(** [strtok]: the static [s] is passed in and out. *)
Definition strtok (str delim : Z) (m : mem) (s : Z) : res (Z * (mem * Z)) :=
  let s := if negb (str =? 0) then str else s in
  if s =? 0 then Done (0, (m, s))
  else
    let token := s in
    while_loop fuel (λ s,
      b ← load8 m s;
      if b =? 0 then Done (inr (token, (m, 0)))
      else
        d ← strchr m delim b;
        if negb (d =? 0) then m ← store8 m s 0; Done (inr (token, (m, s + 1)))
        else Done (inl (s + 1))) s.

Definition strcpy (m : mem) (dest src : Z) : res mem :=
  '(i, m) ← while_loop fuel (λ '(i, m),
    b ← load8 m (src + i);
    if b =? 0 then Done (inr (i, m))
    else m ← store8 m (dest + i) b; Done (inl (i + 1, m))) (0, m);
  store8 m (dest + i) 0.

Definition strcat (m : mem) (s s2 : Z) : res (Z * mem) :=
  let p := s in
  s ← while_loop fuel (λ s, b ← load8 m s;
        Done (if b =? 0 then inr s else inl (s + 1))) s;
  '(s, m) ← while_loop fuel (λ '(s, (s2, m)),
    b ← load8 m s2;
    if b =? 0 then Done (inr (s, m))
    else m ← store8 m s b; Done (inl (s + 1, (s2 + 1, m)))) (s, (s2, m));
  m ← store8 m s 0;
  Done (p, m).

Context {H : Type} `{Heap H}.

Definition strdup (s : Z) (m : mem) (h : H) : res (Z * (mem * H)) :=
  len ← while_loop fuel (λ len, b ← load8 m (s + len);
          Done (if b =? 0 then inr len else inl (i32 (len + 1)))) 0;
  '(str, (m, h)) ← malloc (i32 (len + 1)) m h;
  '(p, m) ← while_loop fuel (λ '(s, (p, m)),
    b ← load8 m s;
    if b =? 0 then Done (inr (p, m))
    else m ← store8 m p b; Done (inl (s + 1, (p + 1, m)))) (s, (str, m));
  m ← store8 m p 0;
  Done (str, (m, h)).

Definition dirname (path : Z) (m : mem) (h : H) : res (Z * (mem * H)) :=
  n ← strlen m path;
  '(dir, (m, h)) ← malloc (u64 (n + 1)) m h;
  j ← while_loop fuel (λ '(i, j),
    b ← load8 m (path + i);
    Done (if b =? 0 then inr j
          else inl (i32 (i + 1), if b =? 0x2f then i else j))) (0, 0);
  if j =? 0 then
    m ← store8 m dir 0x2f;
    m ← store8 m (dir + 1) 0;
    Done (dir, (m, h))
  else
    m ← for_loop (Z.to_nat j) 0 (λ k m, copy_byte dir path k m) m;
    m ← store8 m (dir + j) 0;
    Done (dir, (m, h)).
End str.

(** ** Strings in memory *)

(** Character [i] of [s], the terminator at its end. *)
Definition char_at (s : list Z) (i : Z) : Z := default 0 (s !!z i).

Record cstr (m : mem) (p : Z) (s : list Z) : Prop := CStr {
  cs_chars : Forall (λ b, 0 < b < 256) s;
  cs_bytes i : 0 ≤ i ≤ length_z s → m !! (p + i) = Some (char_at s i);
}.

Section specs.
Implicit Types (m : mem) (s t : list Z) (p q : Z).

Lemma char_at_end s : char_at s (length_z s) = 0.
Proof. unfold char_at. replace (s !!z _) with (None : option Z); [done|].
  symmetry. apply lookup_z_None. lia. Qed.

Lemma char_at_in s i b : Forall (λ b, 0 < b < 256) s → s !!z i = Some b →
  char_at s i = b ∧ 0 < b < 256.
Proof.
  intros Hf Hb. unfold char_at. rewrite Hb. split; [done|].
  apply lookup_z_Some in Hb as [_ Hb]. by eapply Forall_lookup_1 in Hf.
Qed.

Lemma char_at_zero m p s i :
  cstr m p s → 0 ≤ i ≤ length_z s → (char_at s i =? 0) = bool_decide (i = length_z s).
Proof.
  intros Hs Hi. case_bool_decide as Hend.
  - subst. by rewrite char_at_end.
  - destruct (proj2 (lookup_z_is_Some s i)) as [b Hb]; [lia|].
    destruct (char_at_in s i b (cs_chars _ _ _ Hs) Hb) as [-> ?].
    apply Z.eqb_neq. lia.
Qed.

Lemma cstr_load m p s i :
  cstr m p s → 0 ≤ i ≤ length_z s → load8 m (p + i) = Done (char_at s i).
Proof. intros Hs Hi. apply load8_Done. by apply Hs. Qed.

Lemma char_at_drop s k i : 0 ≤ i → char_at (drop k s) i = char_at s (Z.of_nat k + i).
Proof.
  intros Hi. unfold char_at. rewrite !lookup_z_nat by lia. rewrite lookup_drop.
  do 2 f_equal. lia.
Qed.

Lemma length_z_drop s k : (k ≤ length s)%nat → length_z (drop k s) = length_z s - Z.of_nat k.
Proof. unfold length_z. rewrite length_drop. lia. Qed.

Lemma cstr_drop m p s k :
  cstr m p s → (k ≤ length s)%nat → cstr m (p + Z.of_nat k) (drop k s).
Proof.
  intros [Hf Hb] Hk. split; [by apply Forall_drop|].
  intros i Hi. rewrite length_z_drop in Hi by done.
  rewrite char_at_drop, <-Hb by lia. f_equal. lia.
Qed.

Lemma cstr_unchanged m m' p s :
  cstr m p s → (∀ i, 0 ≤ i ≤ length_z s → m' !! (p + i) = m !! (p + i)) → cstr m' p s.
Proof. intros [Hf Hb] Hm. split; [done|]. intros i Hi. rewrite Hm by done. by apply Hb. Qed.

Lemma strlen_spec fuel m p s :
  cstr m p s → (length s < fuel)%nat → strlen fuel m p = Done (length_z s).
Proof.
  intros Hs Hf. unfold strlen.
  destruct (while_loop_inv (λ n, 0 ≤ n ≤ length_z s) (λ n, n = length_z s)
    (λ n, Z.to_nat (length_z s - n)) fuel
    (λ n, b ← load8 m (p + n); Done (if b =? 0 then inr n else inl (n + 1))) 0)
    as (n & Hr & ->); [unfold length_z; lia|unfold length_z; lia| |exact Hr].
  intros n Hn. rewrite (cstr_load m p s) by done. cbn [mbind res_bind].
  rewrite (char_at_zero m p s) by done. case_bool_decide.
  - right. by exists n.
  - left. exists (n + 1). split; [done|]. unfold length_z in *. lia.
Qed.

Lemma str_eq_spec fuel m p q s t :
  cstr m p s → cstr m q t → (length s < fuel)%nat → (length t < fuel)%nat →
  str_eq fuel m p q = Done (bool_decide (s = t)).
Proof.
  intros Hs Ht Hfs Hft. unfold str_eq.
  rewrite (strlen_spec fuel m p s), (strlen_spec fuel m q t) by done.
  cbn [mbind res_bind]. destruct (Z.eqb_spec (length_z s) (length_z t)) as [Hlen|Hlen]; cbn [negb].
  2: { rewrite bool_decide_false; [done|]. by intros ->. }
  match goal with |- while_loop _ ?b _ = _ =>
    destruct (while_loop_inv (λ i, 0 ≤ i ≤ length_z s ∧
        ∀ k, 0 ≤ k < i → s !!z k = t !!z k) (λ r, r = bool_decide (s = t))
      (λ n, Z.to_nat (length_z s - n)) fuel b 0) as (n & Hr & ->) end;
    [unfold length_z; split; lia|unfold length_z; lia| |exact Hr].
  intros i [Hi Heq].
  destruct (Z.ltb_spec i (length_z s)) as [Hlt|Hge].
  - rewrite (cstr_load m p s), (cstr_load m q t) by (done || lia). cbn [mbind res_bind].
    destruct (proj2 (lookup_z_is_Some s i)) as [a Ha]; [lia|].
    destruct (proj2 (lookup_z_is_Some t i)) as [b Hb]; [lia|].
    rewrite (proj1 (char_at_in s i a (cs_chars _ _ _ Hs) Ha)).
    rewrite (proj1 (char_at_in t i b (cs_chars _ _ _ Ht) Hb)).
    destruct (Z.eqb_spec a b) as [->|Hne]; cbn [negb].
    + left. exists (i + 1). split; [done|]. split; [|unfold length_z in *; lia].
      split; [lia|]. intros k Hk. destruct (decide (k = i)) as [->|]; [congruence|].
      apply Heq. lia.
    + right. exists false. split; [done|]. rewrite bool_decide_false; [done|].
      intros ->. congruence.
  - right. exists true. split; [done|]. rewrite bool_decide_true; [done|].
    apply list_eq_z. intros k. destruct (decide (0 ≤ k < length_z s)).
    + apply Heq. lia.
    + by rewrite !(proj2 (lookup_z_None _ _)) by lia.
Qed.

(** *** Searching *)

(** The offset of the first occurrence of [t] in [s]. *)
Fixpoint find_sub t s : option nat :=
  if decide (t `prefix_of` s) then Some 0%nat
  else match s with
       | [] => None
       | _ :: s => S <$> find_sub t s
       end.

Lemma find_sub_short t s : (length s < length t)%nat → find_sub t s = None.
Proof.
  induction s as [|c s IH]; intros Hlen; cbn [find_sub].
  - destruct (decide _) as [Hp%prefix_length|]; [simpl in *; lia|done].
  - destruct (decide _) as [Hp%prefix_length|]; [simpl in *; lia|].
    by rewrite IH by (simpl in *; lia).
Qed.

Lemma find_sub_prefix t s : t `prefix_of` s → find_sub t s = Some 0%nat.
Proof. intros Hp. destruct s; cbn [find_sub]; by rewrite decide_True. Qed.

Lemma find_sub_skip t s k c :
  s !! k = Some c → ¬ t `prefix_of` drop k s →
  find_sub t (drop k s) = S <$> find_sub t (drop (S k) s).
Proof. intros Hc Hp. rewrite (drop_S _ _ _ Hc) in *. cbn [find_sub]. by rewrite decide_False. Qed.

(** What is found is an occurrence, and no earlier place holds one. *)
Lemma find_sub_first t s :
  match find_sub t s with
  | Some k => t `prefix_of` drop k s ∧ ∀ j, (j < k)%nat → ¬ t `prefix_of` drop j s
  | None => ∀ j, ¬ t `prefix_of` drop j s
  end.
Proof.
  induction s as [|c s IH]; cbn [find_sub].
  - destruct (decide _) as [Hp|Hp]; [split; [done|lia]|]. intros j. by rewrite drop_nil.
  - destruct (decide _) as [Hp|Hp]; [split; [done|lia]|].
    destruct (find_sub t s) as [k|]; cbn.
    + destruct IH as [Hk Hj]. split; [done|]. intros [|j] Hlt; [done|]. apply Hj. lia.
    + intros [|j]; [done|apply IH].
Qed.

(** [j] characters of [t] match at offset [k] of [s]. *)
Definition matched s t (k j : nat) : Prop := take j t = take j (drop k s).

Lemma matched_step s t k j c :
  matched s t k j → t !! j = Some c → s !! (k + j)%nat = Some c → matched s t k (S j).
Proof.
  unfold matched. intros Hm Ht Hs. rewrite (take_S_r _ _ _ Ht).
  rewrite (take_S_r (drop k s) j c) by by rewrite lookup_drop. by rewrite Hm.
Qed.

Lemma matched_all s t k : matched s t k (length t) → t `prefix_of` drop k s.
Proof. unfold matched. rewrite firstn_all. intros ->. apply prefix_take. Qed.

Lemma matched_mismatch s t k j b :
  t !! j = Some b → s !! (k + j)%nat ≠ Some b → ¬ t `prefix_of` drop k s.
Proof.
  intros Ht Hs [u Hu]. apply Hs. rewrite <-lookup_drop, Hu.
  apply lookup_app_l_Some. done.
Qed.

(** The state of [strstr]: offset [k], [j] characters matched. *)
Definition strstr_inv p q s t (st : Z * (Z * Z)) : Prop :=
  ∃ k j : nat, st = (p + Z.of_nat k, (p + Z.of_nat k + Z.of_nat j, q + Z.of_nat j)) ∧
    (k + j ≤ length s)%nat ∧ (j ≤ length t)%nat ∧ matched s t k j ∧
    find_sub t s = Nat.add k <$> find_sub t (drop k s).

Lemma strstr_step m p q s t st :
  cstr m p s → cstr m q t → strstr_inv p q s t st →
  let μ := λ st : Z * (Z * Z),
    ((length s - Z.to_nat (st.1 - p)) * S (length t) + (length t - Z.to_nat (st.2.2 - q)))%nat in
  let body := λ '(str, (a, b)),
    cb ← load8 m b;
    if cb =? 0 then Done (inr str)
    else
      ca ← load8 m a;
      if ca =? 0 then Done (inr 0)
      else if negb (ca =? cb) then Done (inl (str + 1, (str + 1, q)))
      else Done (inl (str, (a + 1, b + 1))) in
  (∃ st', body st = Done (inl st') ∧ strstr_inv p q s t st' ∧ (μ st' < μ st)%nat) ∨
  body st = Done (inr (match find_sub t s with Some k => p + Z.of_nat k | None => 0 end)).
Proof.
  intros Hs Ht (k & j & -> & Hkj & Hj & Hm & Hfind). cbn zeta beta iota.
  rewrite (cstr_load m q t) by (done || unfold length_z; lia). cbn [mbind res_bind].
  rewrite (char_at_zero m q t) by (done || unfold length_z; lia).
  case_bool_decide as Hend.
  { right. assert (j = length t) as -> by (unfold length_z in Hend; lia).
    rewrite Hfind, (find_sub_prefix _ _ (matched_all _ _ _ Hm)). cbn. by rewrite Nat.add_0_r. }
  replace (p + Z.of_nat k + Z.of_nat j) with (p + Z.of_nat (k + j)) by lia.
  rewrite (cstr_load m p s) by (done || unfold length_z; lia). cbn [mbind res_bind].
  rewrite (char_at_zero m p s) by (done || unfold length_z; lia).
  unfold length_z in Hend. destruct (lookup_lt_is_Some_2 t j) as [b Hb]; [lia|].
  case_bool_decide as Hend'.
  { right. unfold length_z in Hend'. rewrite Hfind, find_sub_short; [done|].
    rewrite length_drop. lia. }
  unfold length_z in Hend'. destruct (lookup_lt_is_Some_2 s (k + j)) as [a Ha]; [lia|].
  rewrite (proj1 (char_at_in s (Z.of_nat (k + j)) a (cs_chars _ _ _ Hs)
    ltac:(by rewrite lookup_z_nat, Nat2Z.id by lia))).
  rewrite (proj1 (char_at_in t (Z.of_nat j) b (cs_chars _ _ _ Ht)
    ltac:(by rewrite lookup_z_nat, Nat2Z.id by lia))).
  left. destruct (Z.eqb_spec a b) as [->|Hne]; cbn [negb].
  - eexists. split; [done|]. split.
    + exists k, (S j). split; [pair_lia|]. split; [lia|]. split; [lia|].
      split; [by eapply matched_step|done].
    + cbn. lia.
  - eexists. split; [done|]. split.
    + exists (S k), 0%nat. split; [pair_lia|]. split; [lia|]. split; [lia|].
      split; [done|]. destruct (lookup_lt_is_Some_2 s k) as [c Hc]; [lia|].
      rewrite Hfind, (find_sub_skip t s k c Hc).
      2: { eapply matched_mismatch; [done|]. congruence. }
      rewrite <-option_fmap_compose. apply option_fmap_ext. intros x. simpl. lia.
    + cbn. replace (Z.to_nat (p + Z.of_nat k + 1 - p)) with (S k) by lia.
      replace (Z.to_nat (p + Z.of_nat k - p)) with k by lia.
      replace (length s - k)%nat with (S (length s - S k))%nat by lia. lia.
Qed.

Lemma strstr_spec fuel m p q s t :
  cstr m p s → cstr m q t → (S (length s) * S (length t) ≤ fuel)%nat →
  strstr fuel m p q = Done (match find_sub t s with Some k => p + Z.of_nat k | None => 0 end).
Proof.
  intros Hs Ht Hf. unfold strstr.
  destruct (while_loop_inv (strstr_inv p q s t)
    (λ r, r = match find_sub t s with Some k => p + Z.of_nat k | None => 0 end)
    (λ st, ((length s - Z.to_nat (st.1 - p)) * S (length t) +
            (length t - Z.to_nat (st.2.2 - q)))%nat) fuel
    (λ '(str, (a, b)),
      cb ← load8 m b;
      if cb =? 0 then Done (inr str)
      else
        ca ← load8 m a;
        if ca =? 0 then Done (inr 0)
        else if negb (ca =? cb) then Done (inl (str + 1, (str + 1, q)))
        else Done (inl (str, (a + 1, b + 1)))) (p, (p, q))) as (r & Hr & ->).
  - exists 0%nat, 0%nat. split; [pair_lia|]. split; [lia|]. split; [lia|].
    split; [done|]. rewrite drop_0. by destruct (find_sub t s).
  - cbn. lia.
  - intros st Hst. destruct (strstr_step m p q s t st Hs Ht Hst) as [Hl|Hr]; [by left|right].
    eauto.
  - exact Hr.
Qed.

Lemma cstr_load_nat m p s (k : nat) c :
  cstr m p s → s !! k = Some c → load8 m (p + Z.of_nat k) = Done c ∧ 0 < c < 256.
Proof.
  intros Hs Hc. pose proof (lookup_lt_Some _ _ _ Hc).
  rewrite (cstr_load m p s) by (done || unfold length_z; lia).
  destruct (char_at_in s (Z.of_nat k) c (cs_chars _ _ _ Hs)) as [-> ?]; [|done].
  by rewrite lookup_z_nat, Nat2Z.id by lia.
Qed.

Lemma cstr_load_end m p s k :
  cstr m p s → k = length s → load8 m (p + Z.of_nat k) = Done 0.
Proof.
  intros Hs ->. rewrite (cstr_load m p s) by (done || unfold length_z; lia).
  f_equal. apply char_at_end.
Qed.

(** A loop that walks along a string from [p] until a character satisfies [P]. *)
Lemma scan_loop {R} (P : Z → Prop) `{∀ c, Decision (P c)} (body : Z → res (Z + R))
    (found : nat → Z → R) (fin : R) fuel m p s :
  cstr m p s → (length s < fuel)%nat →
  (∀ k c, s !! k = Some c → P c → body (p + Z.of_nat k) = Done (inr (found k c))) →
  (∀ k c, s !! k = Some c → ¬ P c →
     body (p + Z.of_nat k) = Done (inl (p + Z.of_nat k + 1))) →
  body (p + Z.of_nat (length s)) = Done (inr fin) →
  while_loop fuel body p =
    Done (match list_find P s with Some (k, c) => found k c | None => fin end).
Proof.
  intros Hs Hf Hyes Hno Hend.
  assert (∀ k fuel, (k ≤ length s)%nat → (length s - k < fuel)%nat →
    while_loop fuel body (p + Z.of_nat k) =
      Done (match list_find P (drop k s) with
            | Some (i, c) => found (k + i)%nat c | None => fin end)) as Hgen.
  { intros k. remember (length s - k)%nat as n eqn:Hn. revert k Hn.
    induction n as [|n IH]; intros k Hn [|fu] Hk Hfu; try lia; cbn [while_loop].
    - replace k with (length s) by lia. rewrite Hend, drop_ge by lia. done.
    - destruct (lookup_lt_is_Some_2 s k) as [c Hc]; [lia|].
      rewrite (drop_S _ _ _ Hc). cbn [list_find].
      destruct (decide (P c)) as [HP|HP].
      + rewrite (Hyes k c Hc HP). by rewrite Nat.add_0_r.
      + rewrite (Hno k c Hc HP). cbn [mbind res_bind].
        replace (p + Z.of_nat k + 1) with (p + Z.of_nat (S k)) by lia.
        rewrite IH by lia. destruct (list_find P (drop (S k) s)) as [[i x]|]; [|done].
        cbn. by rewrite Nat.add_succ_r. }
  specialize (Hgen 0%nat fuel). rewrite Z.add_0_r, drop_0 in Hgen.
  rewrite Hgen by lia. by destruct (list_find P s) as [[i c]|].
Qed.

Lemma strchr_spec fuel m p s c :
  cstr m p s → (length s < fuel)%nat → c ≠ 0 →
  strchr fuel m p c =
    Done (match list_find (λ b, b = c) s with Some (k, _) => p + Z.of_nat k | None => 0 end).
Proof.
  intros Hs Hf Hc. unfold strchr.
  apply (scan_loop (λ b, b = c) _ (λ k _, p + Z.of_nat k) 0 fuel m p s Hs Hf).
  - intros k b Hb ->. destruct (cstr_load_nat m p s k c Hs Hb) as [-> _].
    cbn. by rewrite Z.eqb_refl.
  - intros k b Hb Hne. destruct (cstr_load_nat m p s k b Hs Hb) as [-> ?].
    cbn. destruct (Z.eqb_spec b c); [done|]. destruct (Z.eqb_spec b 0); [lia|done].
  - rewrite (cstr_load_end m p s _ Hs eq_refl). cbn [mbind res_bind].
    by rewrite (proj2 (Z.eqb_neq 0 c)) by lia.
Qed.

Lemma strchr_in fuel m q d c :
  cstr m q d → (length d < fuel)%nat → c ≠ 0 → 0 < q →
  ∃ r, strchr fuel m q c = Done r ∧ (r = 0 ↔ c ∉ d).
Proof.
  intros Hd Hf Hc Hq. rewrite (strchr_spec fuel m q d c Hd Hf Hc). eexists. split; [done|].
  destruct (list_find _ d) as [[k b]|] eqn:Hl.
  - apply list_find_Some in Hl as (Hk & -> & _). apply list_elem_of_lookup_2 in Hk.
    split; [lia|done].
  - apply list_find_None in Hl. split; [|done].
    intros _ [i Hi]%list_elem_of_lookup_1. by apply (Forall_lookup_1 _ _ _ _ Hl Hi).
Qed.

(** *** [strtok] *)

(** One call on the string at [p], given as argument or left by a previous call. *)
Lemma strtok_call fuel m p s q d str st :
  cstr m p s → cstr m q d → 0 < p → 0 < q →
  (length s < fuel)%nat → (length d < fuel)%nat →
  str = p ∨ str = 0 ∧ st = p →
  strtok fuel str q m st =
    Done (match list_find (λ c, c ∈ d) s with
          | Some (k, _) => (p, (<[p + Z.of_nat k := 0]> m, p + Z.of_nat k + 1))
          | None => (p, (m, 0))
          end).
Proof.
  intros Hs Hd Hp Hq Hfs Hfd Hstr. unfold strtok.
  assert ((if negb (str =? 0) then str else st) = p) as ->.
  { destruct Hstr as [->|[-> ->]]; [|done]. by destruct (Z.eqb_spec p 0); [lia|]. }
  destruct (Z.eqb_spec p 0); [lia|].
  apply (scan_loop (λ c, c ∈ d) _ (λ k _, (p, (<[p + Z.of_nat k := 0]> m, p + Z.of_nat k + 1)))
    (p, (m, 0)) fuel m p s Hs Hfs).
  - intros k c Hc Hin. destruct (cstr_load_nat m p s k c Hs Hc) as [Hl Hr]. rewrite Hl.
    cbn [mbind res_bind]. destruct (Z.eqb_spec c 0); [lia|].
    destruct (strchr_in fuel m q d c) as (r & -> & Hiff); [done..|].
    cbn [mbind res_bind]. destruct (Z.eqb_spec r 0) as [Hz|]; [tauto|].
    cbn [negb]. apply load8_Done in Hl. by rewrite store8_Done by eauto.
  - intros k c Hc Hin. destruct (cstr_load_nat m p s k c Hs Hc) as [Hl Hr]. rewrite Hl.
    cbn [mbind res_bind]. destruct (Z.eqb_spec c 0); [lia|].
    destruct (strchr_in fuel m q d c) as (r & -> & Hiff); [done..|].
    cbn [mbind res_bind]. destruct (Z.eqb_spec r 0) as [Hz|]; [done|tauto].
  - by rewrite (cstr_load_end m p s _ Hs eq_refl).
Qed.

(** The tokens of [s]: what lies between delimiters, empty tokens included. *)
Fixpoint split (d s : list Z) : list (list Z) :=
  match s with
  | [] => [[]]
  | c :: s =>
      if decide (c ∈ d) then [] :: split d s
      else match split d s with
           | t :: ts => (c :: t) :: ts
           | [] => [[c]]
           end
  end.

Lemma split_find d s :
  split d s = match list_find (λ c, c ∈ d) s with
              | Some (k, _) => take k s :: split d (drop (S k) s)
              | None => [s]
              end.
Proof.
  induction s as [|c s IH]; cbn [split list_find]; [done|].
  destruct (decide (c ∈ d)) as [|Hc]; [done|]. rewrite IH.
  by destruct (list_find _ s) as [[k x]|].
Qed.

(** All tokens: [strtok(str, delim)], then [strtok(NULL, delim)] until NULL. *)
Fixpoint strtok_all (n fuel : nat) (str delim : Z) m (st : Z) : res (list Z * mem) :=
  match n with
  | O => NoFuel
  | S n =>
      '(tok, (m, st)) ← strtok fuel str delim m st;
      if tok =? 0 then Done ([], m)
      else '(toks, m) ← strtok_all n fuel 0 delim m st; Done (tok :: toks, m)
  end.

(** Cutting a string at offset [k]. *)
Lemma cstr_cut m p s (k : nat) :
  cstr m p s → (k ≤ length s)%nat → cstr (<[p + Z.of_nat k := 0]> m) p (take k s).
Proof.
  intros [Hf Hb] Hk. split; [by apply Forall_take|].
  unfold length_z. rewrite length_take. intros i Hi.
  destruct (decide (i = Z.of_nat k)) as [->|Hne].
  - rewrite lookup_insert_eq. f_equal.
    unfold char_at. rewrite lookup_z_nat, Nat2Z.id, lookup_take_ge by lia. done.
  - rewrite lookup_insert_ne by lia. rewrite Hb by (unfold length_z; lia).
    unfold char_at. rewrite !lookup_z_nat by lia. by rewrite lookup_take_lt by lia.
Qed.

Lemma cstr_insert m p s a b :
  cstr m p s → ¬ (p ≤ a ≤ p + length_z s) → cstr (<[a := b]> m) p s.
Proof.
  intros Hs Ha. apply (cstr_unchanged m); [done|]. intros i Hi.
  apply lookup_insert_ne. lia.
Qed.

Lemma strtok_all_spec n fuel m p s q d str st :
  cstr m p s → cstr m q d → 0 < p → 0 < q →
  (length s < fuel)%nat → (length d < fuel)%nat → length (split d s) = n →
  q + length_z d < p ∨ p + length_z s < q →
  str = p ∨ str = 0 ∧ st = p →
  ∃ ps m', strtok_all (S n) fuel str q m st = Done (ps, m') ∧
    Forall2 (cstr m') ps (split d s) ∧
    ∀ a, ¬ (p ≤ a < p + length_z s) → m' !! a = m !! a.
Proof.
  revert m p s str st. induction n as [|n IH];
    intros m p s str st Hs Hd Hp Hq Hfs Hfd Hn Hdisj Hstr.
  { rewrite split_find in Hn. by destruct (list_find _ s) as [[? ?]|]. }
  pose proof (strtok_call fuel m p s q d str st Hs Hd Hp Hq Hfs Hfd Hstr) as Hcall.
  rewrite split_find in Hn |- *. rewrite <-Hn. cbn [strtok_all]. rewrite Hcall.
  destruct (list_find (λ c, c ∈ d) s) as [[k c]|] eqn:Hfind; cbn [mbind res_bind].
  - apply list_find_Some in Hfind as (Hk & _ & _). apply lookup_lt_Some in Hk as Hlt.
    cbn [length] in Hn |- *. injection Hn as Hn. rewrite Hn.
    destruct (Z.eqb_spec p 0); [lia|]. unfold length_z in *.
    destruct (IH (<[p + Z.of_nat k := 0]> m) (p + Z.of_nat (S k)) (drop (S k) s) 0
      (p + Z.of_nat (S k))) as (ps & m' & Hr & Hps & Hout).
    + apply cstr_insert; [apply cstr_drop; [done|lia]|lia].
    + apply cstr_insert; [done|unfold length_z; lia].
    + lia.
    + done.
    + rewrite length_drop. lia.
    + done.
    + done.
    + rewrite length_drop. lia.
    + by right.
    + exists (p :: ps), m'. replace (p + Z.of_nat k + 1) with (p + Z.of_nat (S k)) by lia.
      rewrite Hr. split; [done|]. rewrite length_drop in Hout. split.
      * constructor; [|done]. apply (cstr_unchanged (<[p + Z.of_nat k := 0]> m)).
        { apply cstr_cut; [done|lia]. }
        intros i Hi. unfold length_z in Hi. rewrite length_take in Hi. apply Hout. lia.
      * intros a Ha. rewrite Hout by lia. apply lookup_insert_ne. lia.
  - injection Hn as <-. destruct (Z.eqb_spec p 0); [lia|].
    cbn [strtok_all strtok]. exists [p], m. split; [done|]. split; [|done].
    by constructor.
Qed.

(** *** Copying *)

Lemma cstr_mapped m p s : cstr m p s → mapped m p (length_z s + 1).
Proof.
  intros Hs i Hi. replace i with (p + (i - p)) by lia.
  rewrite (cs_bytes _ _ _ Hs) by lia. eauto.
Qed.

(** The copying loop of [strcpy], [strcat] and [strdup], in one form: state [k]
    of the body has copied [k] characters. *)
Lemma copy_loop {T R} (body : T → res (T + R)) (st : nat → mem → T) (fin : mem → R)
    fuel m dest src s :
  cstr m src s → (length s < fuel)%nat → mapped m dest (length_z s) →
  dest + length_z s ≤ src ∨ src + length_z s < dest →
  (∀ k m' c, s !! k = Some c → m' !! (src + Z.of_nat k) = Some c →
     body (st k m') = m2 ← store8 m' (dest + Z.of_nat k) c; Done (inl (st (S k) m2))) →
  (∀ m', m' !! (src + length_z s) = Some 0 →
     body (st (length s) m') = Done (inr (fin m'))) →
  ∃ m', while_loop fuel body (st 0%nat m) = Done (fin m') ∧
    overwritten m m' dest (length_z s) (λ i, s !!z i).
Proof.
  intros Hs Hf Hmap Hdisj Hstep Hend. unfold length_z in *.
  set (I := λ k m', (k ≤ length s)%nat ∧
    overwritten m m' dest (Z.of_nat k) (λ i, s !!z i)).
  assert (∀ n k fuel m', (length s - k = n)%nat → I k m' → (n < fuel)%nat →
    ∃ m2, while_loop fuel body (st k m') = Done (fin m2) ∧
      overwritten m m2 dest (Z.of_nat (length s)) (λ i, s !!z i)) as Hgen.
  { induction n as [|n IH]; intros k [|fu] m' Hn [Hk Ho] Hfu; try lia; cbn [while_loop].
    - assert (k = length s) as -> by lia. rewrite Hend; [by exists m'|].
      rewrite (overwritten_out _ _ _ _ _ _ Ho) by lia.
      rewrite (cs_bytes _ _ _ Hs) by (unfold length_z; lia). f_equal. apply char_at_end.
    - destruct (lookup_lt_is_Some_2 s k) as [c Hc]; [lia|].
      rewrite (Hstep k m' c Hc).
      2: { rewrite (overwritten_out _ _ _ _ _ _ Ho) by lia. apply load8_Done.
           by apply (cstr_load_nat m src s). }
      rewrite store8_Done.
      2: { rewrite (overwritten_out _ _ _ _ _ _ Ho) by lia. apply Hmap. lia. }
      cbn [mbind res_bind]. apply (IH (S k)); [lia| |lia]. split; [lia|].
      rewrite Nat2Z.inj_succ, <-Z.add_1_r. apply overwritten_grow_up; [done|lia|].
      by rewrite lookup_z_nat, Nat2Z.id, Hc by lia. }
  apply (Hgen (length s) 0%nat); [lia| |done]. split; [lia|]. apply overwritten_nil.
Qed.

(** The terminator after a copy makes it a string. *)
Lemma overwritten_cstr m m1 dest s :
  Forall (λ b, 0 < b < 256) s → overwritten m m1 dest (length_z s) (λ i, s !!z i) →
  overwritten m (<[dest + length_z s := 0]> m1) dest (length_z s + 1) (λ i, Some (char_at s i)) ∧
  cstr (<[dest + length_z s := 0]> m1) dest s.
Proof.
  intros Hf Ho.
  assert (overwritten m (<[dest + length_z s := 0]> m1) dest (length_z s + 1)
            (λ i, Some (char_at s i))) as Ho'.
  { apply overwritten_grow_up; [|unfold length_z; lia|by rewrite char_at_end].
    intros a. rewrite Ho. case_bool_decide; [|done].
    destruct (proj2 (lookup_z_is_Some s (a - dest))) as [b Hb]; [lia|].
    unfold char_at. by rewrite Hb. }
  split; [done|]. split; [done|]. intros i Hi.
  rewrite (overwritten_in _ _ _ _ _ _ Ho') by lia. do 2 f_equal. lia.
Qed.

Lemma strcpy_spec fuel m dest src s :
  cstr m src s → (length s < fuel)%nat → mapped m dest (length_z s + 1) →
  dest + length_z s < src ∨ src + length_z s < dest →
  ∃ m', strcpy fuel m dest src = Done m' ∧ cstr m' dest s ∧
    overwritten m m' dest (length_z s + 1) (λ i, Some (char_at s i)).
Proof.
  intros Hs Hf Hmap Hdisj. unfold strcpy.
  edestruct (copy_loop (R:=Z * mem) (λ '(i, m),
      b ← load8 m (src + i);
      if b =? 0 then Done (inr (i, m))
      else m ← store8 m (dest + i) b; Done (inl (i + 1, m)))
    (λ k m, (Z.of_nat k, m)) (λ m, (length_z s, m)) fuel m dest src s) as (m1 & Hr & Ho);
    [done|done|by eapply mapped_mono; [done|lia..]|lia| | |].
  - intros k m' c Hc Hm'. apply load8_Done in Hm'. rewrite Hm'. cbn [mbind res_bind].
    destruct (cstr_load_nat m src s k c Hs Hc) as [_ ?].
    destruct (Z.eqb_spec c 0); [lia|].
    destruct (store8 _ _ _); cbn [mbind res_bind]; [|done..]. do 3 f_equal. lia.
  - intros m' Hm'. apply load8_Done in Hm'. fold (length_z s). by rewrite Hm'.
  - change (Z.of_nat 0) with 0 in Hr. rewrite Hr. cbn [mbind res_bind].
    destruct (overwritten_cstr m m1 dest s (cs_chars _ _ _ Hs) Ho) as [Ho' Hc].
    rewrite store8_Done; [by eexists|].
    rewrite (overwritten_out _ _ _ _ _ _ Ho) by lia. apply Hmap. unfold length_z. lia.
Qed.

(** *** [strdup] *)

Lemma strdup_length fuel m p s :
  cstr m p s → (length s < fuel)%nat → length_z s < 2 ^ 31 →
  while_loop fuel (λ len, b ← load8 m (p + len);
    Done (if b =? 0 then inr len else inl (i32 (len + 1)))) 0 = Done (length_z s).
Proof.
  intros Hs Hf Hb.
  destruct (while_loop_inv (λ n, 0 ≤ n ≤ length_z s) (λ n, n = length_z s)
    (λ n, Z.to_nat (length_z s - n)) fuel
    (λ n, b ← load8 m (p + n); Done (if b =? 0 then inr n else inl (i32 (n + 1)))) 0)
    as (n & Hr & ->); [unfold length_z; lia|unfold length_z; lia| |exact Hr].
  intros n Hn. rewrite (cstr_load m p s) by done. cbn [mbind res_bind].
  rewrite (char_at_zero m p s) by done. case_bool_decide.
  - right. by exists n.
  - left. exists (n + 1). rewrite i32_id by (simpl; lia). split; [done|]. unfold length_z in *. lia.
Qed.

Lemma strdup_copy fuel m p q s :
  cstr m p s → (length s < fuel)%nat → mapped m q (length_z s + 1) →
  q + length_z s < p ∨ p + length_z s < q →
  ∃ m1, while_loop fuel (λ '(s, (p, m)),
    b ← load8 m s;
    if b =? 0 then Done (inr (p, m))
    else m ← store8 m p b; Done (inl (s + 1, (p + 1, m)))) (p, (q, m)) =
      Done (q + length_z s, m1) ∧ overwritten m m1 q (length_z s) (λ i, s !!z i).
Proof.
  intros Hs Hf Hmap Hd.
  edestruct (copy_loop (R:=Z * mem) (λ '(s, (p, m)),
      b ← load8 m s;
      if b =? 0 then Done (inr (p, m))
      else m ← store8 m p b; Done (inl (s + 1, (p + 1, m))))
    (λ k m, (p + Z.of_nat k, (q + Z.of_nat k, m))) (λ m, (q + length_z s, m)) fuel m q p s)
    as (m1 & Hr & Ho); [done|done|by eapply mapped_mono; [done|lia..]|lia| | |].
  - intros k m' c Hc Hm'. apply load8_Done in Hm'. rewrite Hm'. cbn [mbind res_bind].
    destruct (cstr_load_nat m p s k c Hs Hc) as [_ ?].
    destruct (Z.eqb_spec c 0); [lia|].
    replace (p + Z.of_nat (S k)) with (p + Z.of_nat k + 1) by lia.
    by replace (q + Z.of_nat (S k)) with (q + Z.of_nat k + 1) by lia.
  - intros m' Hm'. apply load8_Done in Hm'. fold (length_z s). by rewrite Hm'.
  - change (Z.of_nat 0) with 0 in Hr. rewrite !Z.add_0_r in Hr. by exists m1.
Qed.

(** Copying to NULL. *)
Lemma strdup_null {A} (k : mem → res A) fuel m p s :
  cstr m p s → (length s < fuel)%nat → m !! 0 = None →
  ('(p, m) ← while_loop fuel (λ '(s, (p, m)),
     b ← load8 m s;
     if b =? 0 then Done (inr (p, m))
     else m ← store8 m p b; Done (inl (s + 1, (p + 1, m)))) (p, (0, m));
   m ← store8 m p 0;
   k m) = Fault.
Proof.
  intros Hs Hf Hz. destruct fuel as [|fuel]; [lia|]. cbn [while_loop].
  assert (∀ b, store8 m 0 b = Fault) as Hst by (intros b; unfold store8; by rewrite Hz).
  replace p with (p + 0) by lia. rewrite (cstr_load m p s) by (done || unfold length_z; lia).
  cbn [mbind res_bind]. destruct (char_at s 0 =? 0); cbn [mbind res_bind]; by rewrite Hst.
Qed.

(** *** [basename] *)

(** The part after the last slash, the whole of it when there is none. *)
Fixpoint after_slash s : list Z :=
  match s with
  | [] => []
  | c :: t => if decide (0x2f ∈ s) then after_slash t else s
  end.

(** What [basename] computes: only absolute paths are cut. *)
Definition basename_of s : list Z :=
  match s with
  | 0x2f :: _ :: _ => after_slash s
  | _ => s
  end.

Lemma after_slash_cut s :
  ∃ k, (k ≤ length s)%nat ∧ after_slash s = drop k s ∧ 0x2f ∉ drop k s ∧
    (∀ j, k = S j → s !! j = Some 0x2f).
Proof.
  induction s as [|c s (k & Hk & Heq & Hno & Hj)]; cbn [after_slash].
  { exists 0%nat. split; [done|]. split; [done|]. split; [apply not_elem_of_nil|done]. }
  destruct (decide _) as [Hin|Hin].
  - exists (S k). split; [simpl; lia|]. split; [done|]. split; [done|].
    intros j [= <-]. destruct k as [|k]; [|by apply Hj].
    apply elem_of_cons in Hin as [<-|Hin]; [done|]. rewrite drop_0 in Hno. done.
  - exists 0%nat. split; [lia|]. done.
Qed.

Lemma after_slash_none s : 0x2f ∉ s → after_slash s = s.
Proof. destruct s; [done|]. intros Hn. cbn [after_slash]. by rewrite decide_False. Qed.

Lemma after_slash_drop s i :
  s !! i = Some 0x2f → after_slash s = after_slash (drop (S i) s).
Proof.
  revert i. induction s as [|c s IH]; intros i Hi; [done|]. cbn [after_slash].
  rewrite decide_True by by eapply list_elem_of_lookup_2.
  destruct i as [|i]; [done|]. by rewrite (IH i).
Qed.

(** The literal ["/"] is found at its first occurrence. *)
Lemma find_slash s :
  match find_sub [0x2f] s with
  | Some k => s !! k = Some 0x2f
  | None => 0x2f ∉ s
  end.
Proof.
  pose proof (find_sub_first [0x2f] s) as Hf. destruct (find_sub _ s) as [k|].
  - destruct Hf as [[u Hu] _]. pose proof (lookup_drop s k 0) as Hl.
    rewrite Hu, Nat.add_0_r in Hl. by rewrite <-Hl.
  - intros [i Hi]%list_elem_of_lookup_1. apply (Hf i).
    rewrite (drop_S _ _ _ Hi). by exists (drop (S i) s).
Qed.

Definition basename_inv p s (st : Z * Z) : Prop :=
  ∃ k i : nat, st = (p + Z.of_nat k, p + Z.of_nat (k + i)) ∧ (k + i < length s)%nat ∧
    s !! (k + i)%nat = Some 0x2f ∧ after_slash s = after_slash (drop k s).

Lemma basename_loop fuel slash m p s st :
  cstr m p s → cstr m slash [0x2f] → 0 < p → (S (length s) * 2 ≤ fuel)%nat →
  length_z s < 2 ^ 31 - 1 → basename_inv p s st →
  while_loop fuel (λ '(path, ssc),
    n ← strlen fuel m ssc;
    let l := i32 (n + 1) in
    len ← strlen fuel m path;
    let path := path + (len - l + 2) in
    ssc ← strstr fuel m path slash;
    Done (if negb (ssc =? 0) then inl (path, ssc) else inr path)) st =
  Done (p + (length_z s - length_z (after_slash s))).
Proof.
  intros Hs Hsl Hp Hf Hlen Hinv. unfold length_z in *.
  match goal with |- while_loop _ ?b _ = _ =>
    destruct (while_loop_inv (basename_inv p s)
      (λ r, r = p + (Z.of_nat (length s) - Z.of_nat (length (after_slash s))))
      (λ st, (length s - Z.to_nat (st.1 - p))%nat) fuel b st)
      as (r & Hr & ->) end; [done| | |exact Hr].
  { destruct Hinv as (k & i & -> & ? & _). simpl. lia. }
  clear st Hinv. intros st (k & i & -> & Hki & Hc & Heq).
  rewrite (strlen_spec fuel m (p + Z.of_nat (k + i)) (drop (k + i) s)); [|by apply cstr_drop; [|lia]
    |rewrite length_drop; lia].
  rewrite (strlen_spec fuel m (p + Z.of_nat k) (drop k s)); [|by apply cstr_drop; [|lia]
    |rewrite length_drop; lia].
  cbn [mbind res_bind]. rewrite !length_z_drop by lia. unfold length_z.
  rewrite i32_id by (simpl; lia).
  replace (p + Z.of_nat k + _) with (p + Z.of_nat (k + i + 1)) by lia.
  rewrite (strstr_spec fuel m (p + Z.of_nat (k + i + 1)) slash (drop (k + i + 1) s) [0x2f]);
    [|by apply cstr_drop; [|lia]|done|rewrite length_drop; simpl; lia].
  cbn [mbind res_bind].
  assert (after_slash s = after_slash (drop (k + i + 1) s)) as Heq'.
  { rewrite Heq, (after_slash_drop (drop k s) i) by by rewrite lookup_drop.
    rewrite drop_drop. do 2 f_equal. lia. }
  pose proof (find_slash (drop (k + i + 1) s)) as Hfs.
  destruct (find_sub _ _) as [j|].
  - left. rewrite (proj2 (Z.eqb_neq _ 0)) by lia. cbn [negb]. eexists. split; [done|].
    rewrite lookup_drop in Hfs. apply lookup_lt_Some in Hfs as Hlt. split; [|cbn; lia].
    exists (k + i + 1)%nat, j. split; [pair_lia|]. split; [lia|]. by split.
  - right. eexists. split; [done|]. rewrite Heq', after_slash_none by done.
    rewrite length_drop. lia.
Qed.

Lemma basename_of_eq s :
  basename_of s =
    if bool_decide (s !! 0%nat = Some 0x2f ∧ length s ≠ 1%nat) then after_slash s else s.
Proof.
  destruct s as [|c [|c' s]]; simpl; [done| |].
  - rewrite bool_decide_false by naive_solver. by repeat case_match.
  - case_bool_decide as Hc.
    + destruct Hc as [[= ->] _]. done.
    + destruct (decide (c = 0x2f)) as [->|Hne]; [exfalso; apply Hc; done|].
      by repeat case_match.
Qed.

Lemma basename_spec fuel slash m p s :
  cstr m p s → cstr m slash [0x2f] → 0 < p → (S (length s) * 2 ≤ fuel)%nat →
  length_z s < 2 ^ 31 - 1 →
  basename fuel slash m p = Done (p + (length_z s - length_z (basename_of s))).
Proof.
  intros Hs Hsl Hp Hf Hlen. unfold basename. rewrite basename_of_eq.
  pose proof (cstr_load m p s 0 Hs ltac:(unfold length_z; lia)) as H0.
  rewrite Z.add_0_r in H0. rewrite H0. cbn [mbind res_bind].
  destruct s as [|c s].
  { change (char_at [] 0) with 0. cbn [Z.eqb negb]. rewrite bool_decide_false by (by intros [? _]).
    f_equal. lia. }
  assert (char_at (c :: s) 0 = c) as -> by done.
  destruct (Z.eqb_spec c 0x2f) as [->|Hne]; cbn [negb].
  2: { rewrite bool_decide_false by (intros [[= ->] _]; done). f_equal. lia. }
  rewrite (strlen_spec fuel m p (47 :: s)) by (done || lia). cbn [mbind res_bind].
  destruct (Z.eqb_spec (length_z (47 :: s)) 1) as [H1|H1].
  { rewrite bool_decide_false; [f_equal; lia|]. intros [_ Hn]. unfold length_z in H1. lia. }
  rewrite bool_decide_true by (unfold length_z in H1; split; [done|lia]).
  rewrite (strstr_spec fuel m p slash (47 :: s) [0x2f]) by (done || simpl in *; lia).
  rewrite find_sub_prefix by (by exists s). cbn [mbind res_bind].
  apply (basename_loop fuel slash m p (47 :: s)); try done.
  exists 0%nat, 0%nat. split; [pair_lia|]. split; [simpl; lia|]. by rewrite drop_0.
Qed.
End specs.

(** The bytes of the string at [p]. *)
Definition read_str (fuel : nat) (m : mem) (p : Z) : res (list Z) :=
  n ← strlen fuel m p;
  for_loop (Z.to_nat n) 0 (λ i s, b ← load8 m (p + i); Done (s ++ [b])) [].

Lemma read_str_spec fuel m p s :
  cstr m p s → (length s < fuel)%nat → read_str fuel m p = Done s.
Proof.
  intros Hs Hf. unfold read_str. rewrite (strlen_spec fuel m p s) by done.
  cbn [mbind res_bind]. unfold length_z.
  destruct (for_loop_inv (λ i t, t = take (Z.to_nat i) s) (length s) 0
    (λ i t, b ← load8 m (p + i); Done (t ++ [b])) []) as (t & Hr & ->); [done| |].
  - intros k t Hk ->. destruct (lookup_lt_is_Some_2 s (Z.to_nat k)) as [b Hb]; [lia|].
    destruct (cstr_load_nat m p s (Z.to_nat k) b Hs Hb) as [Hl _].
    rewrite Z2Nat.id in Hl by lia. rewrite Hl. cbn [mbind res_bind]. eexists. split; [done|].
    replace (Z.to_nat (k + 1)) with (S (Z.to_nat k)) by lia. by rewrite (take_S_r _ _ _ Hb).
  - rewrite Nat2Z.id, Hr. rewrite take_ge; [done|lia].
Qed.

(** ** Concrete strings *)

(** Bytes laid out from [p] on. *)
Lemma laid_out (l : list Z) : ∀ p a,
  (list_to_map (zip (seqZ p (length_z l)) l) : mem) !! a = if decide (p ≤ a) then l !! Z.to_nat (a - p) else None.
Proof.
  unfold length_z. induction l as [|b l IH]; intros p a.
  { cbn. destruct (decide (p ≤ a)); by rewrite ?lookup_nil. }
  rewrite seqZ_cons by (cbn [length]; lia). cbn [zip zip_with list_to_map foldr fst snd].
  replace (Z.pred (Z.of_nat (length (b :: l)))) with (Z.of_nat (length l)) by (cbn [length]; lia).
  destruct (decide (a = p)) as [->|Hne].
  { rewrite lookup_insert_eq, decide_True, Z.sub_diag by lia. done. }
  rewrite lookup_insert_ne, IH by done. destruct (decide (p ≤ a)).
  - rewrite decide_True by lia. replace (Z.to_nat (a - p)) with (S (Z.to_nat (a - Z.succ p))) by lia. done.
  - by rewrite decide_False by lia.
Qed.

(** A memory with the string [s] at [p] and nothing else. *)
Definition str_mem (p : Z) (s : list Z) : mem :=
  list_to_map (zip (seqZ p (length_z s + 1)) (s ++ [0])).

Definition cstrb (m : mem) (p : Z) (s : list Z) : bool :=
  forallb (λ b, (0 <? b) && (b <? 256)) s &&
  forallb (λ i, bool_decide (m !! (p + i) = Some (char_at s i))) (seqZ 0 (length_z s + 1)).

Lemma cstrb_ok m p s : cstrb m p s = true → cstr m p s.
Proof.
  intros [Hc Hb]%andb_true_iff. split.
  - apply Forall_lookup. intros i b Hi. rewrite forallb_forall in Hc.
    specialize (Hc b). apply list_elem_of_lookup_2, list_elem_of_In in Hi.
    apply Hc in Hi. apply andb_true_iff in Hi as [?%Z.ltb_lt ?%Z.ltb_lt]. done.
  - intros i Hi. rewrite forallb_forall in Hb. specialize (Hb i).
    apply bool_decide_eq_true in Hb; [done|]. apply list_elem_of_In, elem_of_seqZ. lia.
Qed.

(** ** Properties *)

(** [strstr] finds the first occurrence. On two strings it returns,
    NULL when the second is nowhere in the first, else a pointer to the first
    place where it is; and so [str_eq] is equality and [strchr] (of a character
    that is not the terminator) the first place of the character. *)
Theorem strstr_first_occurrence (fuel : nat) (m : mem) (p q c : Z) (s t : list Z)
    (Hs : cstr m p s) (Ht : cstr m q t) (Hp : 0 < p) (Hc : c ≠ 0)
    (Hf : (S (length s) * S (length t) ≤ fuel)%nat) :
  str_eq fuel m p q = Done (bool_decide (s = t)) ∧
  (∃ r, strstr fuel m p q = Done r ∧
    (r = 0 ∧ (∀ j, ¬ t `prefix_of` drop j s) ∨
     ∃ k, r = p + Z.of_nat k ∧ t `prefix_of` drop k s ∧
          ∀ j, (j < k)%nat → ¬ t `prefix_of` drop j s)) ∧
  (∃ r, strchr fuel m p c = Done r ∧
    (r = 0 ∧ c ∉ s ∨
     ∃ k, r = p + Z.of_nat k ∧ s !! k = Some c ∧ c ∉ take k s)).
Proof.
  split; [apply str_eq_spec; (done || lia)|]. split.
  - rewrite (strstr_spec fuel m p q s t Hs Ht Hf). eexists. split; [done|].
    pose proof (find_sub_first t s) as Hff. destruct (find_sub t s) as [k|]; [right|by left].
    exists k. split; [done|]. exact Hff.
  - rewrite (strchr_spec fuel m p s c) by (done || lia). eexists. split; [done|].
    destruct (list_find _ s) as [[k b]|] eqn:Hl.
    + right. apply list_find_Some in Hl as (Hk & -> & Hlt). exists k.
      split; [done|]. split; [done|].
      intros [i Hi]%list_elem_of_lookup_1. apply lookup_take_Some in Hi as [Hi ?].
      by apply (Hlt i c).
    + left. split; [done|]. apply list_find_None in Hl.
      intros [i Hi]%list_elem_of_lookup_1. by apply (Forall_lookup_1 _ _ _ _ Hl Hi).
Qed.

(** "banana" at 100, "nan" at 200. *)
Lemma strstr_first_occurrence_witness :
  ∃ r, strstr 40 (str_mem 100 [98; 97; 110; 97; 110; 97] ∪ str_mem 200 [110; 97; 110])
         100 200 = Done r ∧ (r = 0 ∧ (∀ j, ¬ [110; 97; 110] `prefix_of`
                                          drop j [98; 97; 110; 97; 110; 97]) ∨
     ∃ k, r = 100 + Z.of_nat k ∧ [110; 97; 110] `prefix_of` drop k [98; 97; 110; 97; 110; 97] ∧
          ∀ j, (j < k)%nat → ¬ [110; 97; 110] `prefix_of` drop j [98; 97; 110; 97; 110; 97]).
Proof.
  apply (strstr_first_occurrence 40 _ 100 200 98).
  - apply cstrb_ok. vm_compute. reflexivity.
  - apply cstrb_ok. vm_compute. reflexivity.
  - lia.
  - lia.
  - simpl. lia.
Defined.

(** C32: calling [strtok] until it returns NULL splits the string at every
    delimiter, empty tokens included, and leaves each token as a string in
    place; nothing outside the string is written. *)
Theorem strtok_splits (fuel : nat) (m : mem) (p q st : Z) (s d : list Z)
    (Hs : cstr m p s) (Hd : cstr m q d) (Hp : 0 < p) (Hq : 0 < q)
    (Hfs : (length s < fuel)%nat) (Hfd : (length d < fuel)%nat)
    (Hdisj : q + length_z d < p ∨ p + length_z s < q) :
  ∃ ps m', strtok_all (S (length (split d s))) fuel p q m st = Done (ps, m') ∧
    Forall2 (cstr m') ps (split d s) ∧
    ∀ a, ¬ (p ≤ a < p + length_z s) → m' !! a = m !! a.
Proof. apply (strtok_all_spec _ fuel m p s q d p st); try done. by left. Qed.

(** "/a//b" split at "/". *)
Lemma strtok_splits_witness :
  ∃ ps m', strtok_all 5 20 100 200 (str_mem 100 [47; 97; 47; 47; 98] ∪ str_mem 200 [47]) 0
             = Done (ps, m') ∧ Forall2 (cstr m') ps [[]; [97]; []; [98]].
Proof.
  destruct (strtok_splits 20 (str_mem 100 [47; 97; 47; 47; 98] ∪ str_mem 200 [47]) 100 200 0
    [47; 97; 47; 47; 98] [47]) as (ps & m' & Hr & Hps & _).
  - apply cstrb_ok. vm_compute. reflexivity.
  - apply cstrb_ok. vm_compute. reflexivity.
  - lia.
  - lia.
  - simpl. lia.
  - simpl. lia.
  - right. unfold length_z. simpl. lia.
  - exists ps, m'. by split.
Defined.

(** [basename] of a path that starts with a slash and has more
    characters is the part after its last slash; any other path, a relative one
    with slashes too, is returned whole. *)
Theorem basename_last_part (fuel : nat) (m : mem) (slash p : Z) (s : list Z)
    (Hs : cstr m p s) (Hsl : cstr m slash [0x2f]) (Hp : 0 < p)
    (Hf : (S (length s) * 2 ≤ fuel)%nat) (Hlen : length_z s < 2 ^ 31 - 1) :
  ∃ r k, basename fuel slash m p = Done (p + Z.of_nat k) ∧ (k ≤ length s)%nat ∧
    r = drop k s ∧ cstr m (p + Z.of_nat k) r ∧
    if bool_decide (s !! 0%nat = Some 0x2f ∧ length s ≠ 1%nat)
    then 0x2f ∉ r ∧ (∃ j, k = S j ∧ s !! j = Some 0x2f)
    else k = 0%nat.
Proof.
  rewrite (basename_spec fuel slash m p s) by done. rewrite basename_of_eq.
  destruct (after_slash_cut s) as (k & Hk & Heq & Hno & Hpre).
  case_bool_decide as Hc.
  - exists (drop k s), k. rewrite Heq, length_z_drop by done.
    split; [f_equal; lia|]. split; [done|]. split; [done|].
    split; [by apply cstr_drop|]. split; [done|]. destruct k as [|j].
    + exfalso. destruct Hc as [Hc _]. apply list_elem_of_lookup_2 in Hc. rewrite drop_0 in Hno. done.
    + eauto.
  - exists s, 0%nat. split; [f_equal; lia|]. split; [lia|]. split; [done|].
    split; [by rewrite Z.add_0_r|done].
Qed.

(** "/bin/sh" *)
Lemma basename_last_part_witness :
  ∃ r k, basename 20 200 (str_mem 100 [47; 98; 105; 110; 47; 115; 104] ∪ str_mem 200 [47]) 100 =
      Done (100 + Z.of_nat k) ∧ r = drop k [47; 98; 105; 110; 47; 115; 104] ∧ 47 ∉ r.
Proof.
  destruct (basename_last_part 20 (str_mem 100 [47; 98; 105; 110; 47; 115; 104] ∪ str_mem 200 [47])
    200 100 [47; 98; 105; 110; 47; 115; 104]) as (r & k & Hr & _ & Heq & _ & Hn & _).
  - apply cstrb_ok. vm_compute. reflexivity.
  - apply cstrb_ok. vm_compute. reflexivity.
  - lia.
  - simpl. lia.
  - unfold length_z. simpl. lia.
  - exists r, k. by split.
Defined.

(** [strdup], given the block that [malloc] returns. *)
Lemma strdup_run {H : Type} `{HeapLaws H} (fuel : nat) (m : mem) (h : H) (p : Z) (s : list Z) q m1 h' :
  cstr m p s → (length s < fuel)%nat → length_z s + 1 < 2 ^ 31 →
  (∀ i, 0 ≤ i ≤ length_z s → settled h (p + i)) →
  malloc (length_z s + 1) m h = Done (q, (m1, h')) → new_block (length_z s + 1) m h q m1 h' →
  ∃ m2, strdup fuel p m h = Done (q, (m2, h')) ∧ cstr m2 q s ∧
    overwritten m1 m2 q (length_z s + 1) (λ i, Some (char_at s i)).
Proof.
  intros Hs Hf Hlen Hin Hr Hb. assert (0 ≤ length_z s) as Hl0 by (unfold length_z; lia).
  unfold strdup. rewrite (strdup_length fuel m p s) by (done || lia). cbn [mbind res_bind].
  rewrite i32_id by (simpl; lia). rewrite Hr. cbn [mbind res_bind].
  assert (∀ a, p ≤ a ≤ p + length_z s → a < q ∨ q + (length_z s + 1) ≤ a) as Hout.
  { intros a Ha. pose proof (nb_apart _ _ _ _ _ _ (p + (a - p)) Hb (Hin (a - p) ltac:(lia))). lia. }
  assert (cstr m1 p s) as Hs1.
  { apply (cstr_unchanged m); [done|]. intros i Hi. by apply (nb_same _ _ _ _ _ _ Hb), Hin. }
  assert (q + length_z s < p ∨ p + length_z s < q) as Hd.
  { pose proof (Hout p). pose proof (Hout (p + length_z s)). pose proof (Hout q). lia. }
  pose proof (nb_mapped _ _ _ _ _ _ Hb) as Hmap.
  destruct (strdup_copy fuel m1 p q s Hs1 Hf Hmap Hd) as (m2 & Hr2 & Ho). rewrite Hr2.
  cbn [mbind res_bind].
  destruct (overwritten_cstr m1 m2 q s (cs_chars _ _ _ Hs) Ho) as [Ho' Hcq].
  rewrite store8_Done.
  2: { rewrite (overwritten_out _ _ _ _ _ _ Ho) by lia. apply Hmap. lia. }
  cbn [mbind res_bind]. eexists. split; [done|]. by split.
Qed.

(** On any heap, [strdup] of a string that allocations leave alone returns a
    new block of just its size that holds the string; the string itself and all
    other blocks keep their bytes.  It does not test for NULL: without memory it
    writes there, a fault. *)
Theorem strdup_copies {H : Type} `{HeapLaws H} (fuel : nat) (m : mem) (h : H) (p : Z) (s : list Z)
    (Hok : heap_ok m h) (Hs : cstr m p s) (Hf : (length s < fuel)%nat)
    (Hlen : length_z s + 1 < 2 ^ 31) (Hin : ∀ i, 0 ≤ i ≤ length_z s → settled h (p + i))
    (Hz : m !! 0 = None) :
  (∃ h', malloc (length_z s + 1) m h = Done (0, (m, h')) ∧ strdup fuel p m h = Fault) ∨
  ∃ q m' h', strdup fuel p m h = Done (q, (m', h')) ∧ heap_ok m' h' ∧
    cstr m' q s ∧ cstr m' p s ∧ (∀ a, settled h a → m' !! a = m !! a) ∧
    ∀ x k, live h' x k ↔ live h x k ∨ x = q ∧ k = length_z s + 1.
Proof.
  assert (0 ≤ length_z s) as Hl0 by (unfold length_z; lia).
  destruct (malloc_law (length_z s + 1) m h Hok) as (q & m1 & h' & Hr & Hok' & Hc); [lia|].
  destruct Hc as [(-> & -> & _)|Hb].
  { left. exists h'. split; [done|]. unfold strdup. rewrite (strdup_length fuel m p s) by (done || lia).
    cbn [mbind res_bind]. rewrite i32_id by (simpl; lia). rewrite Hr. cbn [mbind res_bind].
    by apply (strdup_null _ fuel m p s). }
  destruct (strdup_run fuel m h p s q m1 h') as (m2 & Hr2 & Hcq & Ho); [done..|].
  right. exists q, m2, h'. split; [done|].
  assert (∀ a, settled h a → m2 !! a = m1 !! a) as Hsame.
  { intros a Ha. rewrite (overwritten_out _ _ _ _ _ _ Ho); [done|]. by apply (nb_apart _ _ _ _ _ _ a Hb). }
  assert (∀ a, settled h a → m2 !! a = m !! a) as Hsame'
    by (intros a Ha; rewrite Hsame by done; by apply (nb_same _ _ _ _ _ _ Hb)).
  split; [|split; [done|split; [|split; [done|apply Hb]]]].
  - apply (heap_ok_writes m1); [done| |].
    + intros a Ha. rewrite (Ho a). by case_bool_decide.
    + intros a Ha. apply (overwritten_out _ _ _ _ _ _ Ho). intros Hqa. apply Ha.
      apply (settled_live _ q (length_z s + 1)); [apply Hb; by right|lia].
  - apply (cstr_unchanged m); [done|]. intros i Hi. by apply Hsame', Hin.
Qed.
