(* ===== verification/AllocHeap.v ===== *)
(** * [alloc.c] is a heap

    The allocator of [Alloc.v] meets the interface of [Heap.v], on any source of
    pages; on pages that come cleared it is a [FreshHeap]; [strdup] is run on it. *)

From S2P Require Import Prelude CInt Mem Arch Frames Pages Alloc AllocInv AllocSpec BumpPages Heap Str.

Section instance.
Context {P : Type} `{PageSourceLaws P} (junk : Z).

Definition alloc_heap : Heap (heap P) := {|
  Heap.malloc n m h := Alloc.malloc junk n m h;
  Heap.realloc p n m h := Alloc.realloc junk p n m h;
  Heap.free p m h := h ← Alloc.free p h; Done (m, h);
  Heap.live := allocated;
  Heap.heap_ok := AllocSpec.heap_ok;
  Heap.room k h := pages_room k (pages h);
  Heap.outside := reserved (P := P);
  Heap.overrun a bs m h := m ← store_bytes m a bs; Done (m, tags_written a bs h);
  Heap.bare := no_tag_in;
|}.

Lemma alloc_heap_laws : @HeapLaws (heap P) alloc_heap.
Proof.
  split; cbn [Heap.malloc Heap.realloc Heap.free Heap.live Heap.heap_ok Heap.room Heap.outside Heap.overrun
    Heap.bare alloc_heap].
  - intros n m h Hok Hn. destruct (malloc_spec junk n m h Hok Hn) as (p & m' & h' & Hr & Hok' & Hc).
    exists p, m', h'. split; [done|]. split; [done|].
    destruct Hc as [(-> & -> & Htg)|(Hp & [Hm Hby Hnew Hd Hs Hl Hres])]; [left|right].
    + split_and!; [done..|]. intros q k. cbn. unfold allocated, live_but. by rewrite Htg.
    + split; cbn; try done.
      * intros q k Hq. specialize (Hd q k Hq). unfold disjoint_range in Hd. lia.
      * intros a Ha. by apply Hres.
      * intros a [Ha|(q & k & Hq & Ha)]; [by apply Hres|by apply (Hs q k)].
  - intros k n m h p m' h' Hok Hrm Hn Hr. exact (malloc_room junk k n m h p m' h' Hok Hn Hrm Hr).
  - intros p n m h Hok Hp. exact (allocated_mapped m h p n Hok Hp).
  - intros p n q k m h Hok Hp Hq Hne. cbn in *.
    pose proof (allocated_disjoint m h p n q k Hok Hp Hq Hne).
    destruct (allocated_mapped m h p n Hok Hp) as (_ & ? & _).
    unfold disjoint_range, sizeof_tag in *. lia.
  - intros p n sz m h. apply realloc_spec.
  - intros p n m h Hok Hp. cbn in *. destruct (free_ok m h _ n Hok Hp) as (h' & Hr & Hok' & Hl).
    rewrite Z.sub_add in Hr. exists h'. rewrite Hr. split; [done|]. split; [done|].
    intros q k. unfold allocated. rewrite Hl. unfold sizeof_tag.
    split; intros [? ?]; (split; [done|lia]).
  - intros m m' h Hok Hdom _. by eapply heap_ok_dom.
  - intros a bs m h Hok Hm Ha. destruct (store_bytes_overwritten bs m a Hm) as (m' & -> & Ho).
    exists m'. cbn [mbind res_bind]. rewrite tags_written_outside by done. split; [done|]. split; [|done].
    eapply heap_ok_dom; [|done]. intros x Hx. rewrite Ho. case_bool_decide; [|done].
    apply lookup_z_is_Some. lia.
Qed.

(** *** Cleared blocks

    On pages that come cleared, what is not allocated is zero as long as nothing is
    freed. *)

Context `{!ZeroPages P}.

Definition cleared (m : mem) (h : heap P) : Prop :=
  ∀ a q n, region (pages h) q n → q ≤ a < q + n * PAGE_SIZE →
    (∀ p k, allocated h p k → ¬ (p ≤ a < p + k)) → m !! a = Some 0.

(** The pages after a call are those before, unchanged, and a cleared run. *)
Lemma pages_after_region sz m h tag m' (h' : heap P) q n a :
  AllocSpec.heap_ok m h → 0 ≤ sz < 2 ^ 31 → pages_after sz m h tag m' h' → region (pages h') q n →
  q ≤ a < q + n * PAGE_SIZE → (region (pages h) q n ∧ m' !! a = m !! a) ∨ m' !! a = Some 0.
Proof.
  intros Hok Hsz [(-> & _ & ->)|Hr] Hq Ha; [by left|].
  pose proof (heap_ok_pages _ _ Hok) as Hpo. destruct (new_pages_bounds sz Hsz) as [Hn _].
  assert (0 < new_pages sz < 2 ^ 20) as Hn' by (unfold l_pageCount in Hn; lia).
  destruct (alloc_pages_spec (new_pages sz) m (pages h) Hpo Hn') as (p & m1 & s1 & Hr1 & _ & Hc).
  rewrite Hr in Hr1. apply Done_triple_inj in Hr1 as (<- & <- & <-).
  destruct Hc as [(_ & -> & Hreg)|(Hp & _ & _ & _ & Hdj & Hsame & Hreg)].
  - left. split; [by apply Hreg|done].
  - apply Hreg in Hq as [Hq|[-> ->]].
    + left. split; [done|]. apply Hsame. pose proof (Hdj q n Hq). unfold disjoint_range in *. lia.
    + right. eapply alloc_pages_zero; [done|exact Hn'|exact Hr|lia|done].
Qed.

Lemma malloc_cleared n m h p m' h' :
  AllocSpec.heap_ok m h → cleared m h → 0 ≤ n < 2 ^ 31 → Alloc.malloc junk n m h = Done (p, (m', h')) →
  cleared m' h' ∧ (p ≠ 0 → ∀ i, 0 ≤ i < n → m' !! (p + i) = Some 0).
Proof.
  intros Hok Hcl Hn Hr.
  destruct (malloc_ok junk n m h Hok Hn) as (tag & m1 & h1 & Hr1 & Hok' & Hpa & Hlv).
  rewrite Hr in Hr1. apply Done_triple_inj in Hr1 as (-> & <- & <-).
  assert (∀ q k, allocated h q k → allocated h' q k) as Hkeep.
  { unfold allocated. destruct Hlv as [(_ & _ & Htg)|(_ & _ & _ & Hlv)]; intros q k Hq.
    - unfold live_but in *. by rewrite Htg.
    - apply Hlv. by right. }
  assert (∀ a q k, region (pages h') q k → q ≤ a < q + k * PAGE_SIZE →
    (∀ p k, allocated h p k → ¬ (p ≤ a < p + k)) → m' !! a = Some 0) as Hzero.
  { intros a q k Hq Ha Hno. destruct (pages_after_region n m h tag m' h' q k a) as [[Hq' ->]|]; try done.
    by apply (Hcl a q k). }
  split.
  - intros a q k Hq Ha Hno. apply (Hzero a q k Hq Ha). intros x j Hx. by apply Hno, Hkeep.
  - destruct (malloc_spec junk n m h Hok Hn) as (p & m2 & h2 & Hr2 & _ & Hc).
    rewrite Hr in Hr2. apply Done_triple_inj in Hr2 as (<- & <- & <-).
    destruct Hc as [(-> & _)|(_ & Hg)]; [done|]. intros _ i Hi. set (p := if tag =? 0 then _ else _) in *.
    assert (allocated h' p n) as Hp by (apply (mg_allocated _ _ _ _ _ _ Hg); by right).
    pose proof (heap_ok_init m' h' _ n Hok' Hp) as Hinv.
    destruct (live_tag m' h' _ n Hinv Hp) as (t & Ht & _ & _ & _ & _ & Hfit & _).
    destruct (g_region m' h' (hv_geo _ _ _ Hinv) _ t Ht) as (q & k & [Hq _] & Hlo & Hhi & _).
    apply (Hzero (p + i) q k Hq); [unfold sizeof_tag in *; lia|].
    intros x j Hx. pose proof (mg_disjoint _ _ _ _ _ _ Hg x j Hx). unfold disjoint_range in *. lia.
Qed.

Definition alloc_fresh : @FreshHeap (heap P) alloc_heap.
Proof.
  refine (@Build_FreshHeap (heap P) alloc_heap cleared malloc_cleared _).
  intros m m' h Hok Hcl Hsame a q n Hq Ha Hno. rewrite Hsame; [by apply (Hcl a q n)|].
  intros [Hres|(p & k & Hp & Hin)]; [|by apply (Hno p k)].
  by apply (region_reserved q n a _ (heap_ok_pages _ _ Hok) Hq Hres).
Defined.
End instance.

(** ** [strdup] on the allocator *)

#[local] Existing Instance alloc_heap.
#[local] Existing Instance alloc_heap_laws.

(** The block of [one_block] with the string "hi" in it. *)
Definition hi_mem : mem := <[0x100030 := 0x68]> (<[0x100031 := 0x69]> one_block_mem).

Lemma hi_mem_zero a : 0x100032 ≤ a < 0x100032 + 50 → hi_mem !! a = Some 0.
Proof.
  intros Ha. unfold hi_mem, one_block_mem. rewrite !lookup_insert_ne by lia.
  by rewrite zero_run_overwritten, bool_decide_true by lia.
Qed.

Lemma hi_mem_cstr : cstr hi_mem 0x100030 [0x68; 0x69].
Proof.
  split; [repeat constructor; lia|]. intros i Hi. change (length_z _) with 2 in Hi.
  assert (i = 0 ∨ i = 1 ∨ i = 2) as [->|[->| ->]] by lia.
  - apply lookup_insert_eq.
  - unfold hi_mem. rewrite lookup_insert_ne by done. apply lookup_insert_eq.
  - by rewrite hi_mem_zero by lia.
Qed.

Lemma hi_mem_ok : AllocSpec.heap_ok hi_mem one_block.
Proof.
  apply (heap_ok_dom one_block_mem); [|exact one_block_ok]. intros a Ha. unfold hi_mem.
  apply lookup_insert_is_Some'. right. apply lookup_insert_is_Some'. by right.
Qed.

Lemma strdup_copies_witness :
  (∃ h', Alloc.malloc 7 3 hi_mem one_block = Done (0, (hi_mem, h')) ∧
     strdup (H := heap bump) (H0 := alloc_heap 7) 10 0x100030 hi_mem one_block = Fault) ∨
  ∃ q m' h', strdup (H := heap bump) (H0 := alloc_heap 7) 10 0x100030 hi_mem one_block
      = Done (q, (m', h')) ∧ cstr m' q [0x68; 0x69].
Proof.
  destruct (strdup_copies (H := heap bump) (H0 := alloc_heap 7) 10 hi_mem one_block 0x100030 [0x68; 0x69])
    as [Hf|(q & m' & h' & Hr & _ & Hc & _)].
  - exact hi_mem_ok.
  - exact hi_mem_cstr.
  - simpl. lia.
  - change (length_z _) with 2. lia.
  - intros i Hi. change (length_z _) with 2 in Hi. right. exists 0x100030, 100.
    split; [exact one_block_allocated|lia].
  - unfold hi_mem. rewrite !lookup_insert_ne by lia. exact one_block_null.
  - left. exact Hf.
  - right. exists q, m', h'. split; [exact Hr|exact Hc].
Defined.
