(* ===== verification/Fpu.v ===== *)
(** * Saving the floating point state

    The instruction with which [task_init] ([src/src/kernel/sched.c]) takes down the
    floating point state, and what it does to the heap: the field it is given,
    [fpu_storage] of [struct task], is a pointer of 8 bytes at the end of the record,
    and the instruction stores 512. *)

From S2P Require Import Prelude CInt Mem Arch Frames Pages Alloc AllocInv AllocSpec BumpPages Heap AllocHeap.

Definition sizeof_Task : Z := 264.
(** Where the field [fpu_storage] is, the last one. *)
Definition fpu_offset : Z := 256.

Section fxsave.
Context {H : Type} `{Heap H}.

(** [fxsave] on the field [fpu_storage] of the task at [t]: 512 bytes, of which the
    first 8 are the field and the others lie behind the task, whoever's they are.  On
    an address that is not a multiple of 16 the processor raises a general protection
    fault, in which [interrupts_handler] stays for ever. *)
Definition fxsave (t : Z) (image : list Z) (m : mem) (h : H) : res (Z * (mem * H)) :=
  if negb ((t + fpu_offset) mod 16 =? 0) then Hang
  else
    '(m, h) ← overrun (t + sizeof_Task) (drop 8 image) m h;
    Done (of_bytes (take 8 image), (m, h)).
End fxsave.

(** What the processor stores. *)
Definition fpu_image (image : list Z) : Prop := length image = 512%nat ∧ Forall is_u8 image.

(** *** A task with nothing behind it

    The 504 bytes do no harm where they are vacant: the heap is well formed, and the
    block is as [malloc] promised. *)
Lemma fxsave_vacant {H} `{HeapLaws H} (image : list Z) n m0 (h0 : H) p m h :
  fpu_image image → (p + fpu_offset) mod 16 = 0 → vacant m h (p + sizeof_Task) 504 →
  heap_ok m h → new_block n m0 h0 p m h →
  ∃ m', fxsave p image m h = Done (of_bytes (take 8 image), (m', h)) ∧ heap_ok m' h ∧ new_block n m0 h0 p m' h.
Proof.
  intros [Hlen Hby] Hal Hv Hok Hb.
  assert (length_z (drop 8 image) = 504) as Hl by (unfold length_z; by rewrite length_drop, Hlen).
  destruct (overrun_block n _ _ p m h (p + sizeof_Task) (drop 8 image) Hb Hok)
    as (m' & Hw & Hok' & Hb'); [by rewrite Hl|by apply Forall_drop|].
  exists m'. unfold fxsave. rewrite Hal. cbn [Z.eqb negb]. by rewrite Hw.
Qed.

(** *** A task with a block behind it *)

(** A tag that lies within what was stored is read back from it. *)
Lemma tag_written_over a bs t :
  (48 ≤ length bs)%nat → tag_written a bs a t = tag_of_bytes (take 48 bs).
Proof.
  intros Hl. unfold tag_written, sizeof_tag. rewrite bool_decide_true by (unfold length_z; lia). f_equal.
  apply list_eq. intros i. rewrite list_lookup_imap.
  assert (length (tag_bytes t) = 48%nat) as Ht by reflexivity.
  destruct (decide (i < 48)%nat) as [Hi|Hi].
  - rewrite lookup_take_lt by done.
    destruct (lookup_lt_is_Some_2 (tag_bytes t) i ltac:(lia)) as [b ->].
    destruct (lookup_lt_is_Some_2 bs i ltac:(lia)) as [c Hc]. cbn.
    rewrite Z.add_simpl_l, lookup_z_nat, Nat2Z.id, Hc by lia. done.
  - rewrite lookup_take_ge, lookup_ge_None_2 by lia. done.
Qed.

(** On the heap of [alloc.c], when [malloc] has split the block of the task and
    so put the tag of the rest right behind it, [fxsave] replaces that tag: its magic
    number, its sizes and its links are bytes 8 to 55 of the processor's image. *)
Theorem fxsave_overruns {P} `{PageSource P} (junk t : Z) (image : list Z) (m : mem) (h : heap P)
    (tag : boundary_tag) (Hlen : length image = 512%nat) (Hal : (t + fpu_offset) mod 16 = 0)
    (Hm : mapped m (t + sizeof_Task) 504) (Htag : tags h !! (t + sizeof_Task) = Some tag) :
  ∃ m' h', fxsave (H0 := alloc_heap junk) t image m h = Done (of_bytes (take 8 image), (m', h')) ∧
    tags h' !! (t + sizeof_Task) = Some (tag_of_bytes (take 48 (drop 8 image))) ∧
    (∀ i, 0 ≤ i < 504 → m' !! (t + sizeof_Task + i) = image !!z (8 + i)).
Proof.
  assert (length (drop 8 image) = 504%nat) as Hl by (rewrite length_drop; lia).
  destruct (store_bytes_overwritten (drop 8 image) m (t + sizeof_Task)) as (m' & Hw & Ho).
  { unfold length_z. by rewrite Hl. }
  exists m', (tags_written (t + sizeof_Task) (drop 8 image) h). split; [|split].
  - unfold fxsave. rewrite Hal. cbn [Z.eqb negb overrun alloc_heap]. by rewrite Hw.
  - unfold tags_written. cbn [tags set_tags]. rewrite map_lookup_imap, Htag. cbn.
    by rewrite tag_written_over by lia.
  - intros i Hi. unfold length_z in Ho. rewrite Hl in Ho. rewrite Ho, bool_decide_true by lia.
    rewrite Z.add_simpl_l, !lookup_z_nat, lookup_drop by lia. f_equal. lia.
Qed.

(** The first task on a fresh heap: the rest of the page run loses its tag. *)
Definition task_block : heap bump :=
  MkHeap {[ 0x100000 := BTag LIBALLOC_MAGIC 264 312 (-1) 0 0x100138 0 0;
            0x100138 := BTag LIBALLOC_MAGIC 7 65224 15 0x100000 0 0 0 ]}
    (<[15%nat := 0x100138]> (replicate 32 0)) (replicate 32 0) true false
    (Bump 0x110000 {[ 0x100000 := 16 ]}).

Lemma malloc_task_with zero :
  Alloc.malloc (H := bump_pages_with zero) 7 sizeof_Task ∅ (fresh_heap bump_start) =
  Done (0x100030, (zero ∅ 0x100000 65536, task_block)).
Proof. vm_compute. reflexivity. Qed.

Lemma fxsave_overruns_witness :
  ∃ m' h', Alloc.malloc 7 sizeof_Task ∅ (fresh_heap bump_start) =
      Done (0x100030, (zero_run ∅ 0x100000 65536, task_block)) ∧
    fxsave (H0 := alloc_heap 7) 0x100030 (replicate 512 0) (zero_run ∅ 0x100000 65536) task_block =
      Done (0, (m', h')) ∧
    magic <$> tags task_block !! 0x100138 = Some LIBALLOC_MAGIC ∧ magic <$> tags h' !! 0x100138 = Some 0.
Proof.
  destruct (fxsave_overruns 7 0x100030 (replicate 512 0) (zero_run ∅ 0x100000 65536) task_block
    (BTag LIBALLOC_MAGIC 7 65224 15 0x100000 0 0 0)) as (m' & h' & Hr & Htag & _).
  - reflexivity.
  - reflexivity.
  - intros a Ha. unfold sizeof_Task in Ha. rewrite zero_run_overwritten, bool_decide_true by lia. by eexists.
  - reflexivity.
  - exists m', h'. split; [exact (malloc_task_with zero_run)|]. split; [exact Hr|]. split; [reflexivity|].
    change (0x100030 + sizeof_Task) with 0x100138 in Htag. rewrite Htag. reflexivity.
Defined.
