(* ===== verification/Print.v ===== *)
(** * Formatted output ([src/src/lib/print.c])

    [string_convert] works on its static 50-byte buffer, modelled as a list;
    [fmt_str] reads the format from memory and hands strings to a callback, here
    a function on the characters of the string it is given.  An argument of the
    [va_list] is an [int] or a [char *]. *)

From S2P Require Import Prelude CInt Mem Str.

(** ** [string_convert] *)

Definition representation : list Z :=
  [48; 49; 50; 51; 52; 53; 54; 55; 56; 57; 65; 66; 67; 68; 69; 70; 0].

(** The pointer returned, as an index into the buffer, and the buffer.  [base]
    is converted to [unsigned]; the buffer has 50 cells. *)
Definition string_convert (num base : Z) (buffer : list Z) : res (Z * list Z) :=
  _ ← assert_c (negb (u32 base =? 0));
  let buffer := <[49 :=z 0]> buffer in
  while_loop 51 (λ '(ptr, (num, buffer)),
    let ptr := ptr - 1 in
    c ← of_option (representation !!z (num mod u32 base));
    _ ← of_option (buffer !!z ptr);
    let buffer := <[ptr :=z c]> buffer in
    let num := num / u32 base in
    Done (if negb (num =? 0) then inl (ptr, (num, buffer)) else inr (ptr, buffer)))
  (49, (num, buffer)).

(** ** [fmt_str] *)

Inductive varg : Type :=
  | VInt (n : Z)
  | VStr (p : Z).

(** The characters of [(char[]){c, 0}] up to the terminator. *)
Definition char_str (c : Z) : list Z := if u8 c =? 0 then [] else [u8 c].

(** The digits a number is printed with. *)
Definition digits (num base : Z) : res (list Z) :=
  '(ptr, buffer) ← string_convert (u32 num) base (replicate 50 0);
  Done (take (49 - Z.to_nat ptr) (drop (Z.to_nat ptr) buffer)).

Section fmt.
Context {S : Type} (fuel : nat) (callback : list Z → S → res S) (m : mem).

(** The [switch] of [fmt_str] on the character behind a '%': any other
    character prints nothing and takes no argument. *)
Definition conversion (c : Z) (lst : list varg) (s : S) : res (list varg * S) :=
  if c =? 99 (* c *) then
    match lst with
    | VInt n :: lst => s ← callback (char_str n) s; Done (lst, s)
    | _ => Fault
    end
  else if c =? 115 (* s *) then
    match lst with
    | VStr p :: lst => str ← read_str fuel m p; s ← callback str s; Done (lst, s)
    | _ => Fault
    end
  else if c =? 100 (* d *) then
    match lst with
    | VInt n :: lst => str ← digits n 10; s ← callback str s; Done (lst, s)
    | _ => Fault
    end
  else if c =? 120 (* x *) then
    match lst with
    | VInt n :: lst => str ← digits n 16; s ← callback str s; Done (lst, s)
    | _ => Fault
    end
  else Done (lst, s).

(** One round of the loop over the format. *)
Definition fmt_step '((fmt, (lst, s)) : Z * (list varg * S))
    : res (Z * (list varg * S) + S) :=
  c ← load8 m fmt;
  if c =? 0 then Done (inr s)
  else if c =? 37 (* % *) then
    c ← load8 m (fmt + 1);
    '(lst, s) ← conversion c lst s;
    Done (inl (fmt + 1 + 1, (lst, s)))
  else
    s ← callback (char_str c) s;
    Done (inl (fmt + 1, (lst, s))).

Definition fmt_str (fmt : Z) (lst : list varg) (s : S) : res S :=
  while_loop fuel fmt_step (fmt, (lst, s)).
End fmt.

(** ** The number a digit string denotes *)

Definition digit_value (c : Z) : Z := if c <? 58 then c - 48 else c - 55.

Definition number (base : Z) (ds : list Z) : Z :=
  foldl (λ n d, n * base + digit_value d) 0 ds.

Lemma number_snoc base ds d : number base (ds ++ [d]) = number base ds * base + digit_value d.
Proof. unfold number. by rewrite foldl_app. Qed.

Lemma number_cons base d ds :
  number base (d :: ds) = digit_value d * base ^ length_z ds + number base ds.
Proof.
  unfold length_z. induction ds as [|e ds IH] using rev_ind.
  { unfold number. simpl. lia. }
  rewrite app_comm_cons, !number_snoc, IH, length_app. simpl.
  rewrite Nat2Z.inj_add. change (Z.of_nat 1) with 1.
  rewrite Z.pow_add_r, Z.pow_1_r by lia. lia.
Qed.

Lemma representation_digit k :
  0 ≤ k < 16 → ∃ c, representation !!z k = Some c ∧ digit_value c = k ∧ 48 ≤ c < 71.
Proof.
  intros Hk. replace k with (Z.of_nat (Z.to_nat k)) by lia.
  assert (Z.to_nat k < 16)%nat as Hn by lia. revert Hn. generalize (Z.to_nat k). clear. intros n Hn.
  do 16 (destruct n as [|n]; [eexists; split; [reflexivity|split; [reflexivity|lia]]|]). lia.
Qed.

(** ** What [string_convert] leaves in its buffer *)

(** [ds] spells [num] in [base], without leading zeroes. *)
Record spells (base num : Z) (ds : list Z) : Prop := Spells {
  sp_number : number base ds = num;
  sp_digits : Forall (λ c, c ∈ representation ∧ 0 ≤ digit_value c < base) ds;
  sp_length : 1 ≤ length_z ds ≤ 32;
  sp_head : head ds = Some 48 → num = 0;
}.

(** The loop after printing [ds], with [n] still to print. *)
Record conv_inv (base num : Z) (st : Z * (Z * list Z)) (ds : list Z) : Prop := ConvInv {
  ci_ptr : st.1 = 49 - length_z ds;
  ci_buffer : length st.2.2 = 50%nat ∧ drop (Z.to_nat st.1) st.2.2 = ds ++ [0];
  ci_number : st.2.1 * base ^ length_z ds + number base ds = num;
  ci_rest : 0 ≤ st.2.1 ∧ (ds = [] ∨ 0 < st.2.1);
  ci_digits : Forall (λ c, c ∈ representation ∧ 0 ≤ digit_value c < base) ds;
}.

Lemma number_nonneg base ds :
  0 < base → Forall (λ c, c ∈ representation ∧ 0 ≤ digit_value c < base) ds → 0 ≤ number base ds.
Proof.
  intros Hb. induction 1 as [|d ds [_ Hd] _ IH]; [done|]. rewrite number_cons.
  pose proof (Z.pow_nonneg base (length_z ds)). nia.
Qed.

(** A positive number is spelt in one way only. *)
Lemma digit_value_inj c d :
  c ∈ representation → d ∈ representation → 0 ≤ digit_value c → digit_value c = digit_value d → c = d.
Proof.
  assert (∀ c, c ∈ representation → c = 0 ∨ 48 ≤ c < 58 ∨ 65 ≤ c < 71) as Hr.
  { assert (Forall (λ c, c = 0 ∨ 48 ≤ c < 58 ∨ 65 ≤ c < 71) representation) as Hf
      by (apply (bool_decide_unpack _); by vm_compute).
    intros e. by apply (proj1 (list.Forall_forall _ _) Hf). }
  intros Hc%Hr Hd%Hr. unfold digit_value.
  destruct (Z.ltb_spec c 58), (Z.ltb_spec d 58); lia.
Qed.

Lemma number_pos base d ds :
  2 ≤ base → Forall (λ c, c ∈ representation ∧ 0 ≤ digit_value c < base) (d :: ds) → d ≠ 48 → 0 < number base (d :: ds).
Proof.
  intros Hb [[Hd Hv] Hds]%Forall_cons_1 Hne. rewrite number_cons.
  pose proof (number_nonneg base ds ltac:(lia) Hds).
  assert (0 < base ^ length_z ds) by (apply Z.pow_pos_nonneg; unfold length_z; lia).
  assert (digit_value d ≠ 0); [|nia]. intros Hz. apply Hne. symmetry.
  apply digit_value_inj; [apply (bool_decide_unpack _); by vm_compute|done|done|done].
Qed.

Lemma numeral_unique base ds : ∀ ds',
  2 ≤ base → Forall (λ c, c ∈ representation ∧ 0 ≤ digit_value c < base) ds →
  Forall (λ c, c ∈ representation ∧ 0 ≤ digit_value c < base) ds' → head ds ≠ Some 48 → head ds' ≠ Some 48 →
  number base ds = number base ds' → ds = ds'.
Proof.
  induction ds as [|d ds IH] using rev_ind; intros ds' Hb Hds Hds' Hh Hh' Heq.
  - destruct ds' as [|d ds']; [done|]. pose proof (number_pos base d ds' Hb Hds').
    assert (d ≠ 48) by (intros ->; done). change (number base []) with 0 in Heq. lia.
  - destruct ds' as [|d' ds' _] using rev_ind.
    { destruct ds as [|e ds].
      - pose proof (number_pos base d [] Hb Hds). assert (d ≠ 48) by (intros ->; done).
        change (number base []) with 0 in Heq. simpl in Heq. lia.
      - pose proof (number_pos base e (ds ++ [d]) Hb Hds) as Hp. assert (e ≠ 48) by (intros ->; done).
        change (number base []) with 0 in Heq. simpl in Heq, Hp. lia. }
    rewrite !number_snoc in Heq. apply Forall_app in Hds as [Hds [[Hd Hv] _]%Forall_cons_1].
    apply Forall_app in Hds' as [Hds' [[Hd' Hv'] _]%Forall_cons_1].
    assert (number base ds = number base ds' ∧ digit_value d = digit_value d') as [Hn Hdv].
    { assert (∀ a b, (a * base + b) / base = a + b / base) as Hdiv by (intros; rewrite Z.add_comm, Z.div_add by lia; lia).
      pose proof (f_equal (λ x, x / base) Heq) as Hq. cbv beta in Hq. rewrite !Hdiv, !(Z.div_small (digit_value _)) in Hq by lia.
      lia. }
    f_equal; [|f_equal; apply digit_value_inj; done || lia].
    apply IH; try done; [by destruct ds|by destruct ds'].
Qed.

Lemma spells_unique base n ds ds' : 2 ≤ base → 0 < n → spells base n ds → spells base n ds' → ds = ds'.
Proof.
  intros Hb Hn [H1 H2 _ H3] [H1' H2' _ H3']. apply (numeral_unique base); try done; [|..|congruence].
  - intros Hh. specialize (H3 Hh). lia.
  - intros Hh. specialize (H3' Hh). lia.
Qed.

Lemma conv_inv_short base num st ds :
  2 ≤ base → num < 2 ^ 32 → conv_inv base num st ds → length_z ds ≤ 31.
Proof.
  intros Hb Hn [_ _ Hnum [_ [->|Hpos]] Hds]; [done|].
  pose proof (number_nonneg base ds ltac:(lia) Hds).
  destruct (decide (length_z ds ≤ 31)) as [|Hl]; [done|exfalso].
  assert (2 ^ 32 ≤ base ^ length_z ds).
  { trans (base ^ 32); [by apply Z.pow_le_mono_l|apply Z.pow_le_mono_r; lia]. }
  nia.
Qed.

Lemma string_convert_step base num ptr n buffer ds :
  2 ≤ base ≤ 16 → 0 ≤ num < 2 ^ 32 → conv_inv base num (ptr, (n, buffer)) ds →
  ∃ c, representation !!z (n mod base) = Some c ∧ is_Some (buffer !!z (ptr - 1)) ∧
    (n / base ≠ 0 → conv_inv base num (ptr - 1, (n / base, <[ptr - 1 :=z c]> buffer)) (c :: ds)) ∧
    (n / base = 0 → spells base num (c :: ds) ∧
       drop (Z.to_nat (ptr - 1)) (<[ptr - 1 :=z c]> buffer) = (c :: ds) ++ [0]).
Proof.
  intros Hb Hn Hinv.
  pose proof (conv_inv_short base num _ ds ltac:(lia) ltac:(lia) Hinv) as Hl.
  destruct Hinv as [Hptr [Hlen Hdrop] Hnum [Hn0 Hor] Hds]. simpl in *.
  pose proof (Z.mod_pos_bound n base ltac:(lia)) as Hmod.
  destruct (representation_digit (n mod base)) as (c & Hc & Hv & Hcr); [lia|].
  exists c. split; [done|].
  assert (0 ≤ length_z ds) by (unfold length_z; lia).
  split; [apply lookup_z_is_Some; unfold length_z in *; lia|].
  assert (drop (Z.to_nat (ptr - 1)) (<[ptr - 1:=z c]> buffer) = (c :: ds) ++ [0]) as Hdrop'.
  { unfold insert_z. rewrite bool_decide_true by lia.
    rewrite (drop_S _ c) by (apply list_lookup_insert_eq; lia).
    rewrite drop_insert_lt by lia. replace (S (Z.to_nat (ptr - 1))) with (Z.to_nat ptr) by lia.
    by rewrite Hdrop. }
  assert (Forall (λ c, c ∈ representation ∧ 0 ≤ digit_value c < base) (c :: ds)) as Hds'.
  { constructor; [|done]. rewrite Hv. split; [|lia].
    apply lookup_z_Some in Hc as [_ Hc]. by eapply list_elem_of_lookup_2. }
  assert (length_z (c :: ds) = length_z ds + 1) as Hl1 by (unfold length_z; simpl; lia).
  pose proof (Z.div_mod n base ltac:(lia)) as Hdm.
  assert (n / base * base ^ length_z (c :: ds) + number base (c :: ds) = num) as Hnum'.
  { rewrite number_cons, Hl1, Hv, Z.pow_add_r, Z.pow_1_r by lia. rewrite <-Hnum.
    rewrite Hdm at 3. ring. }
  pose proof (Z.div_pos n base Hn0 ltac:(lia)). split.
  - intros Hz. split; simpl; [lia| |done|lia|done].
    unfold insert_z. rewrite bool_decide_true, length_insert by lia.
    split; [done|]. revert Hdrop'. unfold insert_z. by rewrite bool_decide_true by lia.
  - intros Hz. split; [|done]. rewrite Hz, Z.mul_0_l, Z.add_0_l in Hnum'.
    split; [done|done|lia|]. intros [= ->].
    change (digit_value 48) with 0 in Hv. destruct Hor as [->|Hpos]; [|lia].
    rewrite <-Hnum'. done.
Qed.

Lemma string_convert_spells num base buffer :
  2 ≤ base ≤ 16 → 0 ≤ num < 2 ^ 32 → length buffer = 50%nat →
  ∃ ptr buffer' ds, string_convert num base buffer = Done (ptr, buffer') ∧
    ptr = 49 - length_z ds ∧ drop (Z.to_nat ptr) buffer' = ds ++ [0] ∧ spells base num ds.
Proof.
  intros Hb Hn Hlen. unfold string_convert. rewrite (u32_id base) by (simpl; lia).
  rewrite (proj2 (Z.eqb_neq base 0)) by lia. cbn [negb assert_c mbind res_bind].
  match goal with |- context [while_loop _ ?b ?s] =>
    destruct (while_loop_inv (λ st, ∃ ds, conv_inv base num st ds)
      (λ r, ∃ ds, r.1 = 49 - length_z ds ∧ drop (Z.to_nat r.1) r.2 = ds ++ [0] ∧ spells base num ds)
      (λ st, Z.to_nat st.1) 51 b s) as ([ptr buf] & Hr & ds & Hp & Hd & Hs) end.
  - exists []. split; cbn [fst snd];
      [done| |change (num * 1 + 0 = num); lia|split; [lia|by left]|constructor].
    unfold insert_z. rewrite bool_decide_true, length_insert by lia. split; [done|].
    rewrite (drop_S _ 0) by (apply list_lookup_insert_eq; rewrite Hlen; lia).
    rewrite drop_ge; [done|]. rewrite length_insert, Hlen. lia.
  - simpl. lia.
  - intros [ptr [n buf]] [ds Hinv].
    pose proof (conv_inv_short base num _ ds ltac:(lia) ltac:(lia) Hinv) as Hl.
    pose proof (ci_ptr _ _ _ _ Hinv) as Hptr. simpl in Hptr.
    destruct (string_convert_step base num ptr n buf ds Hb Hn Hinv)
      as (c & Hc & [x Hx] & Hgo & Hstop).
    rewrite Hc, Hx. cbn [of_option mbind res_bind].
    assert (0 ≤ length_z ds) by (unfold length_z; lia).
    destruct (Z.eqb_spec (n / base) 0) as [Hz|Hz]; cbn [negb].
    + right. eexists. split; [done|]. exists (c :: ds). cbn [fst snd].
      destruct (Hstop Hz) as [Hsp Hdr]. split; [unfold length_z in *; simpl; lia|]. by split.
    + left. eexists. split; [done|]. split; [by exists (c :: ds); auto|]. simpl. lia.
  - exists ptr, buf, ds. split; [exact Hr|]. by split.
Qed.

Lemma digits_spells n base :
  2 ≤ base ≤ 16 → ∃ ds, digits n base = Done ds ∧ spells base (u32 n) ds.
Proof.
  intros Hb. pose proof (u32_range n).
  destruct (string_convert_spells (u32 n) base (replicate 50 0)) as (ptr & buf & ds & Hr & Hp & Hd & Hs);
    [done|done|done|].
  exists ds. split; [|done]. unfold digits. rewrite Hr. cbn [mbind res_bind]. rewrite Hd.
  f_equal. apply take_app_length'.
  pose proof (sp_length _ _ _ Hs). unfold length_z in *. lia.
Qed.

(** ** What a format means

    [formats m s lst pieces]: with the arguments [lst], the format [s] stands for
    these calls of the callback. *)
Inductive formats (m : mem) : list Z → list varg → list (list Z) → Prop :=
  | fmt_nil lst : formats m [] lst []
  | fmt_plain c s lst ps :
      c ≠ 37 → formats m s lst ps → formats m (c :: s) lst ([c] :: ps)
  | fmt_c n s lst ps :
      formats m s lst ps → formats m (37 :: 99 :: s) (VInt n :: lst) (char_str n :: ps)
  | fmt_s p str s lst ps :
      cstr m p str → formats m s lst ps →
      formats m (37 :: 115 :: s) (VStr p :: lst) (str :: ps)
  | fmt_d n ds s lst ps :
      spells 10 (u32 n) ds → formats m s lst ps →
      formats m (37 :: 100 :: s) (VInt n :: lst) (ds :: ps)
  | fmt_x n ds s lst ps :
      spells 16 (u32 n) ds → formats m s lst ps →
      formats m (37 :: 120 :: s) (VInt n :: lst) (ds :: ps)
  | fmt_other c s lst ps :
      c ∉ [99; 115; 100; 120] → formats m s lst ps → formats m (37 :: c :: s) lst ps.

(** Every conversion has its argument, of the right kind, and no '%' ends the
    format. *)
Fixpoint wf_fmt (s : list Z) (lst : list varg) : bool :=
  match s with
  | [] => true
  | p :: s' =>
      if p =? 37 then
        match s' with
        | [] => false
        | c :: s =>
            if c =? 115 then match lst with VStr _ :: lst => wf_fmt s lst | _ => false end
            else if (c =? 99) || (c =? 100) || (c =? 120)
            then match lst with VInt _ :: lst => wf_fmt s lst | _ => false end
            else wf_fmt s lst
        end
      else wf_fmt s' lst
  end.

(** The callback on each piece in turn. *)
Fixpoint call_pieces {S} (callback : list Z → S → res S) (ps : list (list Z)) (s : S) : res S :=
  match ps with
  | [] => Done s
  | p :: ps => s ← callback p s; call_pieces callback ps s
  end.

Section fmt_spec.
Context (fuel : nat) (m : mem).

(** One conversion: the piece it prints, the arguments it leaves. *)
Lemma conversion_spec c s lst :
  0 < c < 256 → wf_fmt (37 :: c :: s) lst = true →
  (∀ q, VStr q ∈ lst → ∃ str, cstr m q str ∧ (length str < fuel)%nat) →
  ∃ lst' ps, (∀ rest, formats m s lst' rest → formats m (37 :: c :: s) lst (ps ++ rest)) ∧
    wf_fmt s lst' = true ∧ (∀ a, a ∈ lst' → a ∈ lst) ∧
    ∀ (S : Type) (callback : list Z → S → res S) st,
      conversion fuel callback m c lst st =
        st' ← call_pieces callback ps st; Done (lst', st').
Proof.
  intros Hc Hwf Hstr. unfold conversion.
  assert (∀ (S : Type) (x : res S) (f : S → res (list varg * S)),
    (s ← (s ← x; Done s); f s) = s ← x; f s) as Hb by (by intros S []).
  cbn [wf_fmt] in Hwf. change (37 =? 37) with true in Hwf. cbv iota in Hwf.
  destruct (Z.eqb_spec c 99) as [->|H99]; [|destruct (Z.eqb_spec c 115) as [->|H115];
    [|destruct (Z.eqb_spec c 100) as [->|H100]; [|destruct (Z.eqb_spec c 120) as [->|H120]]]];
    cbn [Z.eqb orb] in Hwf.
  - simpl in Hwf. destruct lst as [|[n|q] lst]; try done.
    exists lst, [char_str n]. split_and!; [intros; by constructor|done|by right|].
    intros S callback st. cbn [call_pieces]. by rewrite Hb.
  - simpl in Hwf. destruct lst as [|[n|q] lst]; try done.
    destruct (Hstr q) as (str & Hq & Hl); [by left|].
    exists lst, [str]. split_and!; [intros; by constructor|done|by right|].
    intros S callback st. rewrite (read_str_spec fuel m q str Hq Hl). cbn [call_pieces]. by rewrite Hb.
  - simpl in Hwf. destruct lst as [|[n|q] lst]; try done.
    destruct (digits_spells n 10) as (ds & Hd & Hs); [lia|].
    exists lst, [ds]. split_and!; [intros; by constructor|done|by right|].
    intros S callback st. rewrite Hd. cbn [call_pieces]. by rewrite Hb.
  - simpl in Hwf. destruct lst as [|[n|q] lst]; try done.
    destruct (digits_spells n 16) as (ds & Hd & Hs); [lia|].
    exists lst, [ds]. split_and!; [intros; by constructor|done|by right|].
    intros S callback st. rewrite Hd. cbn [call_pieces]. by rewrite Hb.
  - exists lst, []. split_and!; [|done|done|done].
    intros rest Hrest. apply fmt_other; [|done].
    rewrite !not_elem_of_cons. split_and!; try done. apply not_elem_of_nil.
Qed.

Lemma cstr_tail p c s : cstr m p (c :: s) → load8 m p = Done c ∧ 0 < c < 256 ∧ cstr m (p + 1) s.
Proof.
  intros Hs. destruct (cstr_load_nat m p (c :: s) 0 c Hs) as [Hl Hc]; [done|].
  rewrite Z.add_0_r in Hl. split; [done|]. split; [done|].
  apply (cstr_drop m p (c :: s) 1 Hs). simpl. lia.
Qed.
End fmt_spec.

Lemma call_pieces_app {S} (callback : list Z → S → res S) ps ps' st :
  call_pieces callback (ps ++ ps') st =
    st ← call_pieces callback ps st; call_pieces callback ps' st.
Proof.
  revert st. induction ps as [|q ps IH]; intros st; [done|]. cbn [call_pieces app].
  destruct (callback q st); cbn [mbind res_bind]; [apply IH|done..].
Qed.

Lemma fmt_loop_spec fuel m n s p lst :
  cstr m p s → (length s ≤ n)%nat → wf_fmt s lst = true →
  (∀ q, VStr q ∈ lst → ∃ str, cstr m q str ∧ (length str < fuel)%nat) →
  ∃ ps, formats m s lst ps ∧
    ∀ (S : Type) (callback : list Z → S → res S) fu st, (length s < fu)%nat →
      while_loop fu (fmt_step fuel callback m) (p, (lst, st)) = call_pieces callback ps st.
Proof.
  revert s p lst. induction n as [|n IH]; intros s p lst Hs Hn Hwf Hstr.
  all: destruct s as [|c s]; simpl in Hn; try lia.
  1, 2: exists []; split; [constructor|]; intros S cb [|fu] st Hfu; [lia|];
    cbn [while_loop fmt_step]; pose proof (cstr_load_end m p [] 0 Hs eq_refl) as Hl;
    rewrite Z.add_0_r in Hl; by rewrite Hl.
  destruct (cstr_tail m p c s Hs) as (Hl & Hc & Hs1).
  destruct (Z.eqb_spec c 37) as [->|Hne].
  - destruct s as [|d s]; [done|]. destruct (cstr_tail m (p + 1) d s Hs1) as (Hl1 & Hd & Hs2).
    destruct (conversion_spec fuel m d s lst Hd Hwf Hstr) as (lst' & ps & Hfm & Hwf' & Hsub & Hcv).
    destruct (IH s (p + 1 + 1) lst' Hs2 ltac:(simpl in Hn; lia) Hwf') as (ps' & Hps & Hrun); [auto|].
    exists (ps ++ ps'). split; [by apply Hfm|].
    intros S cb [|fu] st Hfu; [lia|]. cbn [while_loop fmt_step]. rewrite Hl.
    cbn [mbind res_bind]. change (37 =? 0) with false. change (37 =? 37) with true. cbv iota.
    rewrite Hl1. cbn [mbind res_bind]. rewrite Hcv, call_pieces_app.
    destruct (call_pieces cb ps st); cbn [mbind res_bind]; [|done..].
    apply Hrun. simpl in Hfu. lia.
  - destruct (IH s (p + 1) lst Hs1 ltac:(lia)) as (ps & Hps & Hrun); [|done|].
    { cbn [wf_fmt] in Hwf. by rewrite (proj2 (Z.eqb_neq c 37)) in Hwf. }
    exists ([c] :: ps). split; [by constructor|].
    intros S cb [|fu] st Hfu; [lia|]. cbn [while_loop fmt_step]. rewrite Hl.
    cbn [mbind res_bind]. rewrite (proj2 (Z.eqb_neq c 0)), (proj2 (Z.eqb_neq c 37)) by lia.
    unfold char_str. rewrite u8_id, (proj2 (Z.eqb_neq c 0)) by (simpl; lia).
    cbn [call_pieces]. destruct (cb [c] st); cbn [mbind res_bind]; [|done..].
    apply Hrun. simpl in Hfu. lia.
Qed.

(** ** Properties *)

(** C34: [string_convert] spells every [unsigned int] in every base from 2
    to 16: the digits it leaves at the end of the buffer, before the terminator,
    denote the number, are digits of the base and have no leading zero, and they
    fit the buffer. *)
Theorem string_convert_roundtrip (num base : Z) (buffer : list Z)
    (Hb : 2 ≤ base ≤ 16) (Hn : 0 ≤ num < 2 ^ 32) (Hlen : length buffer = 50%nat) :
  ∃ ptr buffer' ds, string_convert num base buffer = Done (ptr, buffer') ∧
    drop (Z.to_nat ptr) buffer' = ds ++ [0] ∧ 17 ≤ ptr ∧
    number base ds = num ∧ Forall (λ c, c ∈ representation ∧ 0 ≤ digit_value c < base) ds ∧
    (head ds = Some 48 → num = 0).
Proof.
  destruct (string_convert_spells num base buffer Hb Hn Hlen)
    as (ptr & buf & ds & Hr & Hp & Hd & [Hnum Hds Hl Hh]).
  exists ptr, buf, ds. split; [done|]. split; [done|]. split; [lia|]. by split.
Qed.

Lemma string_convert_roundtrip_witness :
  ∃ ptr buffer' ds, string_convert 0xc001c0de 16 (replicate 50 0) = Done (ptr, buffer') ∧
    drop (Z.to_nat ptr) buffer' = ds ++ [0] ∧ number 16 ds = 0xc001c0de.
Proof.
  destruct (string_convert_roundtrip 0xc001c0de 16 (replicate 50 0))
    as (ptr & buf & ds & Hr & Hd & _ & Hn & _); [lia|lia|reflexivity|].
  exists ptr, buf, ds. split; [exact Hr|]. by split.
Defined.

(** On a format whose conversions have their arguments and that does not
    end in '%', [fmt_str] reads the format to its terminator and no further, and
    hands the callback exactly the pieces the format stands for, in order; so a
    failing callback stops it there. *)
Theorem fmt_str_pieces (fuel : nat) (m : mem) (s : list Z) (p : Z) (lst : list varg)
    (Hs : cstr m p s) (Hf : (length s < fuel)%nat) (Hwf : wf_fmt s lst = true)
    (Hstr : ∀ q, VStr q ∈ lst → ∃ str, cstr m q str ∧ (length str < fuel)%nat) :
  ∃ ps, formats m s lst ps ∧
    ∀ (S : Type) (callback : list Z → S → res S) st,
      fmt_str fuel callback m p lst st = call_pieces callback ps st.
Proof.
  destruct (fmt_loop_spec fuel m (length s) s p lst Hs ltac:(lia) Hwf Hstr) as (ps & Hps & Hrun).
  exists ps. split; [done|]. intros S cb st. by apply Hrun.
Qed.

(** "a%d%%" with the argument -1. *)
Lemma fmt_str_pieces_witness :
  ∃ ps, formats (str_mem 100 [97; 37; 100; 37; 37]) [97; 37; 100; 37; 37] [VInt (-1)] ps ∧
    ∀ (S : Type) (callback : list Z → S → res S) st,
      fmt_str 10 callback (str_mem 100 [97; 37; 100; 37; 37]) 100 [VInt (-1)] st =
        call_pieces callback ps st.
Proof.
  apply fmt_str_pieces.
  - apply cstrb_ok. vm_compute. reflexivity.
  - simpl. lia.
  - reflexivity.
  - intros q Hq. exfalso. apply list_elem_of_singleton in Hq. discriminate.
Defined.

(** ** Two corners of [fmt_str] *)

(** "%d" prints its [int] as an [unsigned int]: -1 comes out as 4294967295. *)
Lemma percent_d_negative : digits (-1) 10 = Done [52; 50; 57; 52; 57; 54; 55; 50; 57; 53].
Proof. reflexivity. Qed.

(** A '%' at the end: the terminator is taken for a conversion and the loop goes
    on behind it, here at an address that does not exist. *)
Lemma percent_at_end_overruns :
  fmt_str 10 (λ _ s, Done s) (str_mem 100 [97; 37]) 100 [] tt = Fault.
Proof. reflexivity. Qed.
