(* ===== verification/Devices.v ===== *)
(** * Port devices ([src/src/kernel/arch/devices])

    The serial port ([com.c]) and the interrupt controller ([pic.c]) as traces
    of port accesses.  What an [in] instruction reads is up to the device, a
    function of the accesses so far. *)

From S2P Require Import Prelude CInt Mem Str.

Inductive port_event : Type :=
  | In8 (port value : Z)
  | Out8 (port value : Z).

(** The bytes written to a port, in order. *)
Definition written (port : Z) (t : list port_event) : list Z :=
  omap (λ e, match e with
             | Out8 p v => if p =? port then Some v else None
             | In8 _ _ => None
             end) t.

(** The bytes read from a port, in order. *)
Definition received (port : Z) (t : list port_event) : list Z :=
  omap (λ e, match e with
             | In8 p v => if p =? port then Some v else None
             | Out8 _ _ => None
             end) t.

Definition last_event (t : list port_event) : option port_event := t !! (length t - 1)%nat.

Lemma last_event_snoc t e : last_event (t ++ [e]) = Some e.
Proof.
  unfold last_event. rewrite length_app. simpl.
  replace (length t + 1 - 1)%nat with (length t) by lia. by rewrite list_lookup_middle.
Qed.

Section devices.
Context (device : list port_event → Z → Z).
Implicit Types (t : list port_event).

Definition asm_in8 (port : Z) t : Z * list port_event :=
  let v := u8 (device t port) in (v, t ++ [In8 port v]).
Definition asm_out8 (port data : Z) t : list port_event :=
  t ++ [Out8 port (u8 data)].

(** ** [com.c] *)

Definition PORT : Z := 0x3F8.

Definition is_transmit_empty t : Z * list port_event :=
  let '(v, t) := asm_in8 (PORT + 5) t in (Z.land v 0x20, t).
Definition serial_received t : Z * list port_event :=
  let '(v, t) := asm_in8 (PORT + 5) t in (Z.land v 1, t).

Definition com_initialize t : list port_event :=
  let t := asm_out8 (PORT + 1) 0x00 t in
  let t := asm_out8 (PORT + 3) 0x80 t in
  let t := asm_out8 (PORT + 0) 0x03 t in
  let t := asm_out8 (PORT + 1) 0x00 t in
  let t := asm_out8 (PORT + 3) 0x03 t in
  let t := asm_out8 (PORT + 2) 0xC7 t in
  asm_out8 (PORT + 4) 0x0B t.

Definition com_putc (fuel : nat) (c : Z) t : res (list port_event) :=
  t ← while_loop fuel (λ t,
        let '(e, t) := is_transmit_empty t in
        Done (if e =? 0 then inl t else inr t)) t;
  Done (asm_out8 PORT c t).

Definition com_write_string (fuel : nat) (m : mem) (str : Z) t : res (list port_event) :=
  while_loop fuel (λ '(str, t),
    c ← load8 m str;
    if c =? 0 then Done (inr t)
    else t ← com_putc fuel c t; Done (inl (str + 1, t))) (str, t).

Definition com_getc (fuel : nat) t : res (Z * list port_event) :=
  t ← while_loop fuel (λ t,
        let '(e, t) := serial_received t in
        Done (if e =? 0 then inl t else inr t)) t;
  Done (asm_in8 PORT t).

Definition host_print (fuel : nat) (m : mem) (str s : Z) t : res (list port_event) :=
  com_write_string fuel m str t.
Definition host_getc (fuel : nat) t : res (Z * list port_event) := com_getc fuel t.

(** [print] of [lib/print.c]. *)
Definition print (fuel : nat) (m : mem) (str : Z) t : res (list port_event) :=
  n ← strlen fuel m str; host_print fuel m str n t.

(** ** [pic.c] *)

Definition pic_remap t : list port_event :=
  let t := asm_out8 0x20 0x11 t in
  let t := asm_out8 0xA0 0x11 t in
  let t := asm_out8 0x21 0x20 t in
  let t := asm_out8 0xA1 0x28 t in
  let t := asm_out8 0x21 0x04 t in
  let t := asm_out8 0xA1 0x02 t in
  let t := asm_out8 0x21 0x01 t in
  let t := asm_out8 0xA1 0x01 t in
  let t := asm_out8 0x21 0x0 t in
  asm_out8 0xA1 0x0 t.

Definition pic_initialize t : list port_event :=
  let t := pic_remap t in
  let divisor := 1193180 / 1000 in
  let t := asm_out8 0x43 0x36 t in
  let t := asm_out8 0x40 (Z.land divisor 0xff) t in
  asm_out8 0x40 (Z.land (Z.shiftr divisor 8) 0xFF) t.

Definition pic_eoi (intno : Z) t : list port_event :=
  let t := if 40 <=? intno then asm_out8 0xA0 0x20 t else t in
  asm_out8 0x20 0x20 t.

(** ** The serial line *)

Definition status_read (e : port_event) : Prop := ∃ v, e = In8 (PORT + 5) v.

(** The line status shows the bit [mask] within [n] reads, whatever was done
    before: the documented behaviour of the UART. *)
Definition line_ready (mask : Z) (n : nat) : Prop :=
  ∀ t, ∃ k, (k < n)%nat ∧
    ∀ t', length t' = k → Forall status_read t' →
      Z.land (u8 (device (t ++ t') (PORT + 5))) mask ≠ 0.
(** "Transmitter empty", "data ready". *)
Definition uart_ready (n : nat) : Prop := line_ready 0x20 n.
Definition uart_typed (n : nat) : Prop := line_ready 1 n.

Lemma written_app port t t' : written port (t ++ t') = written port t ++ written port t'.
Proof. apply omap_app. Qed.

Lemma written_status port t : Forall status_read t → written port t = [].
Proof. induction 1 as [|e t [v ->] _ IH]; [done|exact IH]. Qed.

Lemma received_app port t t' : received port (t ++ t') = received port t ++ received port t'.
Proof. apply omap_app. Qed.

Lemma received_status t : Forall status_read t → received PORT t = [].
Proof. induction 1 as [|e t [v ->] _ IH]; [done|exact IH]. Qed.

(** The polling loop, [k] reads before the line is ready at the latest. *)
Lemma poll_wait mask k fuel t0 t' :
  (∀ t'', length t'' = (length t' + k)%nat → Forall status_read t'' →
     Z.land (u8 (device (t0 ++ t'') (PORT + 5))) mask ≠ 0) →
  Forall status_read t' → (k < fuel)%nat →
  ∃ t'', while_loop fuel (λ t,
      let '(e, t) := (let '(v, t) := asm_in8 (PORT + 5) t in (Z.land v mask, t)) in
      Done (if e =? 0 then inl t else inr t)) (t0 ++ t') = Done (t0 ++ t'') ∧
    Forall status_read t''.
Proof.
  revert t' fuel. induction k as [|k IH]; intros t' [|fu] Hr Hin Hfu; try lia; cbn [while_loop];
    unfold asm_in8; cbv beta iota.
  all: assert (∀ v, Forall status_read (t' ++ [In8 (PORT + 5) v])) as Hin'
    by (intros v; apply Forall_app; split; [done|]; constructor; [by eexists|constructor]).
  - rewrite (proj2 (Z.eqb_neq _ 0)) by (apply Hr; [lia|done]). cbn [mbind res_bind].
    rewrite <-app_assoc. eexists. split; [done|]. apply Hin'.
  - destruct (Z.eqb_spec (Z.land (u8 (device (t0 ++ t') (PORT + 5))) mask) 0); cbn [mbind res_bind];
      rewrite <-app_assoc; [|eexists; split; [done|apply Hin']].
    apply IH; [|apply Hin'|lia]. intros t'' Hl. apply Hr. rewrite Hl, length_app. simpl. lia.
Qed.

Lemma com_putc_spec n fuel c t :
  uart_ready n → (n ≤ fuel)%nat →
  ∃ t', com_putc fuel c t = Done (t ++ t' ++ [Out8 PORT (u8 c)]) ∧ Forall status_read t'.
Proof.
  intros Hu Hf. destruct (Hu t) as (k & Hk & Hr).
  destruct (poll_wait 0x20 k fuel t []) as (t' & Hw & Ht'); [done|constructor|lia|].
  rewrite app_nil_r in Hw. unfold com_putc. unfold is_transmit_empty. rewrite Hw. cbn [mbind res_bind].
  exists t'. split; [|done]. unfold asm_out8. by rewrite <-app_assoc.
Qed.

Lemma com_getc_spec n fuel t :
  uart_typed n → (n ≤ fuel)%nat →
  ∃ t', com_getc fuel t = Done (u8 (device (t ++ t') PORT), t ++ t' ++ [In8 PORT (u8 (device (t ++ t') PORT))]) ∧
    Forall status_read t'.
Proof.
  intros Hu Hf. destruct (Hu t) as (k & Hk & Hr).
  destruct (poll_wait 1 k fuel t []) as (t' & Hw & Ht'); [done|constructor|lia|].
  rewrite app_nil_r in Hw. unfold com_getc. unfold serial_received. rewrite Hw. cbn [mbind res_bind].
  exists t'. split; [|done]. unfold asm_in8. by rewrite <-app_assoc.
Qed.

Lemma com_write_string_spec n fuel fu m p s t :
  uart_ready n → (n ≤ fuel)%nat → cstr m p s → (length s < fu)%nat →
  ∃ t', while_loop fu (λ '(str, t),
      c ← load8 m str;
      if c =? 0 then Done (inr t)
      else t ← com_putc fuel c t; Done (inl (str + 1, t))) (p, t) = Done t' ∧
    ∀ port, written port t' = written port t ++ (if port =? PORT then s else []).
Proof.
  intros Hu Hf. revert p t fu. induction s as [|c s IH]; intros p t [|fu] Hs Hfu;
    simpl in Hfu; try lia; cbn [while_loop].
  - pose proof (cstr_load_end m p [] 0 Hs eq_refl) as Hl. rewrite Z.add_0_r in Hl. rewrite Hl.
    exists t. split; [done|]. intros port. destruct (port =? PORT); by rewrite app_nil_r.
  - destruct (cstr_load_nat m p (c :: s) 0 c Hs) as [Hl Hc]; [done|].
    rewrite Z.add_0_r in Hl. rewrite Hl. cbn [mbind res_bind].
    rewrite (proj2 (Z.eqb_neq c 0)) by lia.
    destruct (com_putc_spec n fuel c t Hu Hf) as (t1 & -> & Hst). cbn [mbind res_bind].
    destruct (IH (p + 1) (t ++ t1 ++ [Out8 PORT (u8 c)]) fu) as (t' & Hr & Hw).
    { apply (cstr_drop m p (c :: s) 1 Hs). simpl. lia. }
    { lia. }
    exists t'. split; [exact Hr|]. intros port. rewrite Hw, !written_app, (written_status _ t1 Hst).
    rewrite app_nil_l, <-app_assoc. f_equal. unfold written at 1.
    cbn [omap list_omap]. rewrite (Z.eqb_sym PORT port), u8_id by (simpl; lia).
    by destruct (port =? PORT).
Qed.
End devices.

(** ** Properties *)

(** On a UART whose transmitter always becomes ready, [print] returns
    and sends exactly the characters of the string, in order, to the data port;
    no other port is written. *)
Theorem print_sends_string (device : list port_event → Z → Z) (n fuel : nat) (m : mem)
    (p : Z) (s : list Z) (t : list port_event)
    (Hu : uart_ready device n) (Hs : cstr m p s) (Hf : (length s < fuel)%nat)
    (Hn : (n ≤ fuel)%nat) :
  ∃ t', print device fuel m p t = Done t' ∧
    ∀ port, written port t' = written port t ++ (if port =? PORT then s else []).
Proof.
  unfold print. rewrite (strlen_spec fuel m p s Hs Hf). cbn [mbind res_bind].
  by apply (com_write_string_spec device n fuel fuel m p s t).
Qed.

(** A line that is busy for one read after every character. *)
Definition slow_uart (t : list port_event) (port : Z) : Z :=
  match last_event t with Some (In8 _ _) => 0x60 | _ => 0 end.

Lemma slow_uart_ready : uart_ready slow_uart 2.
Proof.
  intros t. exists 1%nat. split; [lia|]. intros [|e [|]] Hl Hst; try done.
  apply Forall_inv in Hst as [v ->]. unfold slow_uart. by rewrite last_event_snoc.
Qed.

Lemma print_sends_string_witness :
  ∃ t', print slow_uart 10 (str_mem 100 [104; 105]) 100 [] = Done t' ∧ written PORT t' = [104; 105].
Proof.
  destruct (print_sends_string slow_uart 2 10 (str_mem 100 [104; 105]) 100 [104; 105] [])
    as (t' & Hr & Hw).
  - exact slow_uart_ready.
  - apply cstrb_ok. vm_compute. reflexivity.
  - simpl. lia.
  - lia.
  - exists t'. split; [exact Hr|]. exact (Hw PORT).
Defined.

(** The legacy PIT runs at 1193180 Hz: the divisor [pic_initialize] sends, low
    byte first, makes it tick every millisecond; the two controllers deliver
    their lines from vectors 0x20 and 0x28 on with nothing masked. *)
Lemma pic_initialize_writes t :
  written 0x40 (pic_initialize t) = written 0x40 t ++ [1193 mod 256; 1193 / 256] ∧
  written 0x21 (pic_initialize t) = written 0x21 t ++ [0x20; 0x04; 0x01; 0x00] ∧
  written 0xA1 (pic_initialize t) = written 0xA1 t ++ [0x28; 0x02; 0x01; 0x00].
Proof.
  unfold pic_initialize, pic_remap, asm_out8. rewrite <-!app_assoc.
  rewrite !written_app. by split_and!.
Qed.
