(* ===== verification/Log.v ===== *)
(** * The kernel's log ([src/src/lib/print.c])

    [printf] and [_log]: formatted output ([Print.v]) to the serial line
    ([Devices.v]).  The variable arguments of a call are the list [args]. *)

From stdpp Require Import strings.
From S2P Require Import Prelude CInt Mem Str Print Devices.

(** The bytes of a string literal. *)
Definition bytes (s : string) : list Z := (λ c, Z.of_N (Ascii.N_of_ascii c)) <$> String.list_ascii_of_string s.

Section log.
Context (device : list port_event → Z → Z) (fuel : nat).
Implicit Types (t : list port_event).

(** [print] on a string that [fmt_str] hands to it, in an array of its own. *)
Definition print_chars (str : list Z) t : res (list port_event) := print device fuel (str_mem 1 str) 1 t.

Definition printf (m : mem) (fmt : Z) (args : list varg) t : res (list port_event) :=
  fmt_str fuel print_chars m fmt args t.

(** [header] and [newline] are the addresses of the function's two literals, [file]
    and [function] those the macro [log] passes, all in [lit]; the format and its
    arguments are in [m]. *)
Definition _log (lit m : mem) (header newline line file function fmt : Z) (args : list varg) t
    : res (list port_event) :=
  t ← printf lit header [VStr file; VInt line; VStr function] t;
  t ← fmt_str fuel print_chars m fmt args t;
  print device fuel lit newline t.
End log.

(** The literal ["\033[1m%s:%d \033[1;35m%s \033[0m"]. *)
Definition escape : list Z := [0x1b].
Definition log_header : list Z :=
  escape ++ bytes "[1m%s:%d " ++ escape ++ bytes "[1;35m%s " ++ escape ++ bytes "[0m".

(** Strings laid out one behind the other from [p] on, and their addresses. *)
Fixpoint lay (p : Z) (ss : list (list Z)) : mem * list Z :=
  match ss with
  | [] => (∅, [])
  | s :: ss => let '(m, ps) := lay (p + length_z s + 1) ss in (str_mem p s ∪ m, p :: ps)
  end.

(** [log(FMT, ...)] at [line] of [file], in [function]. *)
Definition log (device : list port_event → Z → Z) (fuel : nat) (file : list Z) (line : Z) (function : list Z)
    (m : mem) (fmt : Z) (args : list varg) (t : list port_event) : res (list port_event) :=
  match lay 0x1000 [log_header; [0x0a]; file; function] with
  | (lit, [header; newline; file; function]) =>
      _log device fuel lit m header newline line file function fmt args t
  | _ => Fault
  end.

(** ** What is sent *)

Definition chars_ok (s : list Z) : Prop := Forall (λ c, 0 < c < 256) s.

Lemma str_mem_lookup p s a :
  (str_mem p s) !! a = if decide (p ≤ a) then (s ++ [0]) !! Z.to_nat (a - p) else None.
Proof.
  unfold str_mem.
  assert (length_z s + 1 = length_z (s ++ [0])) as -> by (unfold length_z; rewrite length_app; cbn [length]; lia).
  apply laid_out.
Qed.

Lemma str_mem_cstr p s : chars_ok s → cstr (str_mem p s) p s.
Proof.
  intros Hs. split; [done|]. intros i Hi.
  rewrite str_mem_lookup, decide_True by lia. replace (p + i - p) with i by lia.
  unfold char_at. rewrite lookup_z_nat by lia. unfold length_z in Hi.
  destruct (decide (i = length_z s)) as [->|Hne]; unfold length_z in *.
  - rewrite Nat2Z.id, lookup_app_r, Nat.sub_diag by lia. by rewrite (lookup_ge_None_2 s) by lia.
  - rewrite lookup_app_l by lia. destruct (lookup_lt_is_Some_2 s (Z.to_nat i)) as [b ->]; [lia|done].
Qed.

Lemma lay_strings ss : ∀ p, Forall chars_ok ss →
  Forall2 (cstr (lay p ss).1) (lay p ss).2 ss ∧ ∀ a, a < p → (lay p ss).1 !! a = None.
Proof.
  induction ss as [|s ss IH]; intros p Hss; cbn [lay].
  { split; [constructor|]. intros a _. apply lookup_empty. }
  apply Forall_cons_1 in Hss as [Hs Hss]. assert (0 ≤ length_z s) as Hl by (unfold length_z; lia).
  destruct (IH (p + length_z s + 1) Hss) as [Hps Hlow].
  destruct (lay (p + length_z s + 1) ss) as [m ps] eqn:Heq. cbn [fst snd] in *. split; [constructor|].
  - apply (cstr_unchanged (str_mem p s)); [by apply str_mem_cstr|]. intros i Hi.
    apply lookup_union_l, Hlow. lia.
  - eapply list.Forall2_impl; [exact Hps|]. intros q s' Hq. apply (cstr_unchanged m); [done|].
    intros i Hi. apply lookup_union_r. rewrite str_mem_lookup. case_decide; [|done].
    destruct (decide (p + length_z s < q + i)); [apply lookup_ge_None_2; rewrite length_app; cbn [length]; unfold length_z in *; lia|].
    pose proof (cs_bytes _ _ _ Hq i Hi) as Hb. rewrite Hlow in Hb by lia. done.
  - intros a Ha. apply lookup_union_None. split; [by rewrite str_mem_lookup, decide_False by lia|apply Hlow; lia].
Qed.

Lemma cstr_unique m p s s' : cstr m p s → cstr m p s' → s = s'.
Proof.
  intros Hs Hs'. set (n := S (length s + length s')).
  pose proof (read_str_spec n m p s Hs ltac:(lia)) as H1. pose proof (read_str_spec n m p s' Hs' ltac:(lia)) as H2.
  congruence.
Qed.

Lemma representation_chars c : c ∈ representation → c = 0 ∨ 48 ≤ c < 71.
Proof.
  assert (Forall (λ c, c = 0 ∨ 48 ≤ c < 71) representation) as Hf by (apply (bool_decide_unpack _); by vm_compute).
  by apply (proj1 (list.Forall_forall _ _) Hf).
Qed.

Lemma spells_chars base n ds : spells base n ds → chars_ok ds ∧ (length ds ≤ 32)%nat.
Proof.
  intros [_ Hds Hl _]. split; [|unfold length_z in Hl; lia].
  eapply Forall_impl; [|exact Hds]. intros c [Hc%representation_chars Hv]. cbn in *.
  destruct Hc as [->|]; [cbn in Hv; lia|lia].
Qed.

(** Every piece a format stands for is a string, short enough for the loops. *)
Lemma formats_chars fuel m s lst ps :
  formats m s lst ps → chars_ok s → (32 < fuel)%nat →
  (∀ q, VStr q ∈ lst → ∃ str, cstr m q str ∧ (length str < fuel)%nat) →
  Forall (λ p, chars_ok p ∧ (length p < fuel)%nat) ps.
Proof.
  intros Hps Hs Hf. induction Hps as [|c s lst ps Hc _ IH|n s lst ps _ IH|p str s lst ps Hp _ IH
    |n ds s lst ps Hd _ IH|n ds s lst ps Hd _ IH|c s lst ps Hc _ IH]; intros Hstr.
  - constructor.
  - apply Forall_cons_1 in Hs as [? Hs]. constructor; [|by apply IH].
    split; [by apply Forall_singleton|cbn; lia].
  - do 2 apply Forall_cons_1 in Hs as [_ Hs]. constructor.
    + pose proof (u8_range n) as Hu. unfold char_str. destruct (Z.eqb_spec (u8 n) 0).
      * split; [constructor|cbn; lia].
      * split; [apply Forall_singleton; change (2 ^ 8) with 256 in Hu; lia|cbn; lia].
    + apply IH; [done|]. intros q Hq. apply Hstr. by right.
  - do 2 apply Forall_cons_1 in Hs as [_ Hs]. constructor.
    + destruct (Hstr p) as (str' & Hp' & Hl); [by left|].
      rewrite (cstr_unique _ _ _ _ Hp Hp'). split; [apply Hp'|done].
    + apply IH; [done|]. intros q Hq. apply Hstr. by right.
  - do 2 apply Forall_cons_1 in Hs as [_ Hs]. constructor.
    + destruct (spells_chars _ _ _ Hd). split; [done|lia].
    + apply IH; [done|]. intros q Hq. apply Hstr. by right.
  - do 2 apply Forall_cons_1 in Hs as [_ Hs]. constructor.
    + destruct (spells_chars _ _ _ Hd). split; [done|lia].
    + apply IH; [done|]. intros q Hq. apply Hstr. by right.
  - do 2 apply Forall_cons_1 in Hs as [_ Hs]. by apply IH.
Qed.

(** The characters of a literal. *)
Tactic Notation "literal" constr(s) "in" hyp(Hs) := let x := eval vm_compute in s in change s with x in Hs.

(** The pieces a format stands for, read off its characters. *)
Ltac formats_inv :=
  repeat match goal with
  | Hf : formats _ (_ :: _) _ _ |- _ => inversion Hf; clear Hf; subst; try done
  | Hf : formats _ [] _ _ |- _ => inversion Hf; clear Hf; subst
  | Hc : _ ∉ [99; 115; 100; 120] |- _ => exfalso; apply Hc; apply (bool_decide_unpack _); by vm_compute
  end.

(** The header of a line: its pieces. *)
Lemma header_pieces m file function line ps :
  formats m log_header [VStr file; VInt line; VStr function] ps →
  ∃ f ds g, cstr m file f ∧ spells 10 (u32 line) ds ∧ cstr m function g ∧
    concat ps = (escape ++ bytes "[1m") ++ f ++ bytes ":" ++ ds ++ (bytes " " ++ escape ++ bytes "[1;35m") ++
      g ++ bytes " " ++ escape ++ bytes "[0m".
Proof.
  intros Hps. literal log_header in Hps. formats_inv.
  eexists _, _, _. split; [done|]. split; [done|]. split; [done|]. cbn. by rewrite <-?app_assoc.
Qed.

(** A text without '%' stands for itself. *)
Lemma plain_wf s : 37 ∉ s → wf_fmt s [] = true.
Proof.
  induction s as [|c s IH]; [done|]. rewrite not_elem_of_cons. intros [Hc Hs]. cbn [wf_fmt].
  rewrite (proj2 (Z.eqb_neq _ _)) by done. by apply IH.
Qed.

Lemma plain_formats m s ps : 37 ∉ s → formats m s [] ps → concat ps = s.
Proof.
  intros Hs Hps. remember [] as lst eqn:Hl. induction Hps; try done; rewrite not_elem_of_cons in Hs;
    [|by destruct Hs].
  cbn [concat app]. f_equal. apply IHHps; [|done]. by destruct Hs.
Qed.

(** A conversion without an argument: after the text before it, [va_arg] reads what is
    not there. *)
Lemma fmt_str_missing {S} (callback : list Z → S → res S) fuel m pre c rest : ∀ p st fu,
  37 ∉ pre → c ∈ [99; 115; 100; 120] → cstr m p (pre ++ 37 :: c :: rest) → (length pre < fu)%nat →
  (∀ d st, 0 < d < 256 → ∃ st', callback [d] st = Done st') →
  while_loop fu (fmt_step fuel callback m) (p, ([], st)) = Fault.
Proof.
  induction pre as [|d pre IH]; intros p st [|fu] Hpre Hc Hs Hfu Hcb; cbn [length] in Hfu; try lia;
    cbn [app] in Hs; cbn [while_loop fmt_step]; destruct (cstr_tail m p _ _ Hs) as (Hl & Hd & Hs1); rewrite Hl;
    cbn [mbind res_bind].
  - change (37 =? 0) with false. change (37 =? 37) with true. cbv iota.
    destruct (cstr_tail m (p + 1) _ _ Hs1) as (Hl1 & _ & _). rewrite Hl1. cbn [mbind res_bind].
    unfold conversion. rewrite !elem_of_cons in Hc.
    destruct Hc as [->|[->|[->|[->|[]%not_elem_of_nil]]]]; done.
  - rewrite not_elem_of_cons in Hpre. destruct Hpre as [Hne Hpre].
    rewrite !(proj2 (Z.eqb_neq d _)) by (lia || done).
    unfold char_str. rewrite u8_id, (proj2 (Z.eqb_neq d 0)) by (simpl; lia).
    destruct (Hcb d st Hd) as [st' ->]. cbn [mbind res_bind]. apply IH; try done. lia.
Qed.

Section sends.
Context (device : list port_event → Z → Z) (n fuel : nat).
Context (Hu : uart_ready device n) (Hn : (n ≤ fuel)%nat).
Implicit Types (t : list port_event).

(** From [t] to [t'] exactly [s] went out on the serial line. *)
Definition sent t t' (s : list Z) : Prop :=
  ∀ port, written port t' = written port t ++ (if port =? PORT then s else []).

Lemma sent_nil t : sent t t [].
Proof. intros port. destruct (port =? PORT); by rewrite app_nil_r. Qed.

Lemma sent_app t1 t2 t3 s s' : sent t1 t2 s → sent t2 t3 s' → sent t1 t3 (s ++ s').
Proof.
  intros H1 H2 port. rewrite H2, H1, <-app_assoc. by destruct (port =? PORT).
Qed.

Lemma print_run m p s t :
  cstr m p s → (length s < fuel)%nat → ∃ t', print device fuel m p t = Done t' ∧ sent t t' s.
Proof.
  intros Hs Hf. unfold print. rewrite (strlen_spec fuel m p s Hs Hf). cbn [mbind res_bind].
  by apply (com_write_string_spec device n fuel fuel m p s t).
Qed.

Lemma print_pieces_run ps : ∀ t,
  Forall (λ p, chars_ok p ∧ (length p < fuel)%nat) ps →
  ∃ t', call_pieces (print_chars device fuel) ps t = Done t' ∧ sent t t' (concat ps).
Proof.
  induction ps as [|p ps IH]; intros t Hps; cbn [call_pieces concat].
  { exists t. split; [done|apply sent_nil]. }
  apply Forall_cons_1 in Hps as [[Hp Hl] Hps].
  destruct (print_run (str_mem 1 p) 1 p t) as (t1 & Hr1 & Hs1); [by apply str_mem_cstr|done|].
  destruct (IH t1 Hps) as (t' & Hr & Hs). exists t'. change (print_chars device fuel p t) with (print device fuel (str_mem 1 p) 1 t). rewrite Hr1. cbn [mbind res_bind].
  split; [done|]. by eapply sent_app.
Qed.

Lemma printf_run m fmt s args t :
  cstr m fmt s → (length s < fuel)%nat → (32 < fuel)%nat → wf_fmt s args = true →
  (∀ q, VStr q ∈ args → ∃ str, cstr m q str ∧ (length str < fuel)%nat) →
  ∃ ps t', formats m s args ps ∧ fmt_str fuel (print_chars device fuel) m fmt args t = Done t' ∧
    sent t t' (concat ps).
Proof.
  intros Hs Hf H32 Hwf Hstr.
  destruct (fmt_loop_spec fuel m (length s) s fmt args Hs ltac:(lia) Hwf Hstr) as (ps & Hps & Hrun).
  destruct (print_pieces_run ps t) as (t' & Hr & Hsent); [eapply formats_chars; try done; apply Hs|].
  exists ps, t'. split; [done|]. split; [|done]. unfold fmt_str. by rewrite Hrun.
Qed.
End sends.

(** ** The lines of the log *)

(** A line of the log: the file and the decimal number of the line, the function,
    between the sequences that switch the colours, the text and a line feed. *)
Definition log_line (file ds function text : list Z) : list Z :=
  (escape ++ bytes "[1m") ++ file ++ bytes ":" ++ ds ++ (bytes " " ++ escape ++ bytes "[1;35m") ++
  function ++ (bytes " " ++ escape ++ bytes "[0m") ++ text ++ [0x0a].

Section line.
Context (device : list port_event → Z → Z) (n fuel : nat).
Context (Hu : uart_ready device n) (Hn : (n ≤ fuel)%nat) (H32 : (32 < fuel)%nat).
Implicit Types (t : list port_event).

Lemma _log_run lit m header newline line file function fmt args f g s t :
  cstr lit header log_header → cstr lit newline [0x0a] →
  cstr lit file f ∧ (length f < fuel)%nat → cstr lit function g ∧ (length g < fuel)%nat →
  cstr m fmt s ∧ (length s < fuel)%nat → wf_fmt s args = true →
  (∀ q, VStr q ∈ args → ∃ str, cstr m q str ∧ (length str < fuel)%nat) →
  ∃ t' ds ps, _log device fuel lit m header newline line file function fmt args t = Done t' ∧
    spells 10 (u32 line) ds ∧ formats m s args ps ∧ sent t t' (log_line f ds g (concat ps)).
Proof.
  intros Hheader Hnewline [Hfile Hlf] [Hfunction Hlg] [Hfmt Hls] Hwf Hargs.
  destruct (printf_run device n fuel Hu Hn lit header log_header [VStr file; VInt line; VStr function] t)
    as (hs & t1 & Hhs & Hr1 & Hs1); [done|cbn; lia|done|done| |].
  { intros q [[= ->]|[[=]|[[= ->]|[]%not_elem_of_nil]%elem_of_cons]%elem_of_cons]%elem_of_cons; eauto. }
  destruct (header_pieces lit file function line hs Hhs) as (f' & ds & g' & Hf' & Hds & Hg' & Hcat).
  rewrite (cstr_unique _ _ _ _ Hf' Hfile), (cstr_unique _ _ _ _ Hg' Hfunction) in Hcat.
  destruct (printf_run device n fuel Hu Hn m fmt s args t1) as (ps & t2 & Hps & Hr2 & Hs2); [done..|].
  destruct (print_run device n fuel Hu Hn lit newline [0x0a] t2) as (t3 & Hr3 & Hs3); [done|cbn; lia|].
  exists t3, ds, ps. unfold _log, printf. rewrite Hr1. cbn [mbind res_bind]. rewrite Hr2. cbn [mbind res_bind].
  split; [done|]. split; [done|]. split; [done|].
  pose proof (sent_app _ _ _ _ _ (sent_app _ _ _ _ _ Hs1 Hs2) Hs3) as Hsent. rewrite Hcat in Hsent.
  unfold log_line. rewrite <-!app_assoc in Hsent. exact Hsent.
Qed.

Lemma literals_run file function :
  chars_ok file → chars_ok function →
  ∃ lit header newline f g, lay 0x1000 [log_header; [0x0a]; file; function] = (lit, [header; newline; f; g]) ∧
    cstr lit header log_header ∧ cstr lit newline [0x0a] ∧ cstr lit f file ∧ cstr lit g function.
Proof.
  intros Hfile Hfunction.
  destruct (lay_strings [log_header; [0x0a]; file; function] 0x1000) as [Hps _].
  { repeat constructor; try done; apply (bool_decide_unpack _); by vm_compute. }
  destruct (lay 0x1000 [log_header; [0x0a]; file; function]) as [lit ps]. cbn [fst snd] in Hps.
  inversion Hps as [|? ? ? ? H1 Hps1]; subst. inversion Hps1 as [|? ? ? ? H2 Hps2]; subst.
  inversion Hps2 as [|? ? ? ? H3 Hps3]; subst. inversion Hps3 as [|? ? ? ? H4 Hps4]; subst.
  inversion Hps4; subst. by eexists _, _, _, _, _.
Qed.

Lemma log_run file line function m fmt args s t :
  chars_ok file ∧ (length file < fuel)%nat → chars_ok function ∧ (length function < fuel)%nat →
  cstr m fmt s ∧ (length s < fuel)%nat → wf_fmt s args = true →
  (∀ q, VStr q ∈ args → ∃ str, cstr m q str ∧ (length str < fuel)%nat) →
  ∃ t' ds ps, log device fuel file line function m fmt args t = Done t' ∧
    spells 10 (u32 line) ds ∧ formats m s args ps ∧ sent t t' (log_line file ds function (concat ps)).
Proof.
  intros [Hfile Hlf] [Hfunction Hlg] Hfmt Hwf Hargs. unfold log.
  destruct (literals_run file function Hfile Hfunction) as (lit & h & nl & f & g & -> & H1 & H2 & H3 & H4).
  by apply (_log_run lit m _ _ line _ _ fmt args file function s t).
Qed.

(** The format's conversion without an argument. *)
Lemma log_missing file line function m fmt pre c rest t :
  chars_ok file ∧ (length file < fuel)%nat → chars_ok function ∧ (length function < fuel)%nat →
  cstr m fmt (pre ++ 37 :: c :: rest) → (length pre < fuel)%nat → 37 ∉ pre → c ∈ [99; 115; 100; 120] →
  log device fuel file line function m fmt [] t = Fault.
Proof.
  intros [Hfile Hlf] [Hfunction Hlg] Hfmt Hl Hpre Hc. unfold log.
  destruct (literals_run file function Hfile Hfunction) as (lit & h & nl & f & g & -> & H1 & H2 & H3 & H4).
  destruct (printf_run device n fuel Hu Hn lit h log_header [VStr f; VInt line; VStr g] t)
    as (hs & t1 & _ & Hr1 & _); [done|cbn; lia|done|done| |].
  { intros q [[= ->]|[[=]|[[= ->]|[]%not_elem_of_nil]%elem_of_cons]%elem_of_cons]%elem_of_cons; eauto. }
  unfold _log, printf. rewrite Hr1. cbn [mbind res_bind]. unfold fmt_str.
  rewrite (fmt_str_missing _ fuel m pre c rest); [done..|].
  intros d t' Hd. destruct (print_run device n fuel Hu Hn (str_mem 1 [d]) 1 [d] t') as (t2 & Hr2 & _).
  - by apply str_mem_cstr, Forall_singleton.
  - cbn. lia.
  - by exists t2.
Qed.
End line.

(** What the number of a line is printed as. *)
Lemma line_number n ds ds' :
  0 < n < 2 ^ 32 → bool_decide (number 10 ds' = n ∧ head ds' ≠ Some 48 ∧ 1 ≤ length_z ds' ≤ 32 ∧
    Forall (λ c, c ∈ representation ∧ 0 ≤ digit_value c < 10) ds') = true →
  spells 10 (u32 n) ds → ds = ds'.
Proof.
  intros Hn (H1 & H2 & H3 & H4)%bool_decide_eq_true Hds. rewrite u32_id in Hds by (unfold is_u32; lia).
  apply (spells_unique 10 n); [lia|lia|done|]. split; [done|done|done|]. intros Hh. done.
Qed.

(** The line [kernel_main] logs its licence key with, on a slow serial line. *)
Lemma log_line_example :
  written PORT <$> (match log slow_uart 64 (bytes "main.c") 62 (bytes "kernel_main") (str_mem 500 (bytes "0x%x")) 500
                            [VInt 0xc001c0de] [] with Done t => Some t | _ => None end) =
  Some (log_line (bytes "main.c") (bytes "62") (bytes "kernel_main") (bytes "0xC001C0DE")).
Proof. vm_compute. reflexivity. Qed.
