(* ===== verification/Tables.v ===== *)
(** * Descriptor tables ([src/src/kernel/arch/gdt.c], [idt.c])

    The entries as the C structs, their layout in memory (packed, little-endian)
    and what the processor reads back from it. *)

From S2P Require Import Prelude CInt Mem.

(** ** The global descriptor table *)

Record GdtDescriptor : Type := GdtDesc {
  limit0 : Z; gbase0 : Z; gbase1 : Z; access : Z; granularity : Z; gbase2 : Z;
}.

Record TssEntry : Type := TssE {
  tlength : Z; tbase0 : Z; tbase1 : Z; flags1 : Z; flags2 : Z; tbase2 : Z; tbase3 : Z;
  treserved : Z;
}.

Definition sizeof_GdtDescriptor : Z := 8.
Definition sizeof_TssEntry : Z := 16.
Definition sizeof_Tss : Z := 104.

Record Gdt : Type := MkGdt { entries : list GdtDescriptor; gtss : TssEntry }.

Definition gdt_init : Gdt := MkGdt
  [GdtDesc 0x0000 0 0 0x00 0x00 0;
   GdtDesc 0xFFFF 0 0 0x9A 0x00 0;
   GdtDesc 0xFFFF 0 0 0x92 0x00 0;
   GdtDesc 0xFFFF 0 0 0x9A 0xCF 0;
   GdtDesc 0xFFFF 0 0 0x92 0xCF 0;
   GdtDesc 0x0000 0 0 0x9A 0x20 0;
   GdtDesc 0x0000 0 0 0x92 0x00 0;
   GdtDesc 0x0000 0 0 0xF2 0x00 0;
   GdtDesc 0x0000 0 0 0xFA 0x20 0]
  (TssE 0x0000 0 0 0x89 0x00 0 0 0).

Definition make_tss_entry (tss : Z) : TssEntry :=
  TssE sizeof_TssEntry (Z.land tss 0xffff) (Z.land (Z.shiftr tss 16) 0xff) 0x89 0
       (Z.land (Z.shiftr tss 24) 0xff) (u32 (Z.shiftr tss 32)) 0.

(** The task state segment: the fields [gdt_initialize] does not clear to 0. *)
Record Tss : Type := MkTss { rsp : list Z; iopb_offset : Z }.

Record gdt_state : Type := GdtState {
  gdt : Gdt;
  gdtr_base : Z;
  gdtr_limit : Z;
  tss : Tss;
}.

(** [gdt_at] and [tss_at] are the addresses of the statics. *)
Definition gdt_initialize (gdt_at tss_at stack size : Z) (st : gdt_state) : gdt_state :=
  GdtState (MkGdt (entries (gdt st)) (make_tss_entry tss_at)) gdt_at
    (u16 (length_z (entries (gdt st)) * sizeof_GdtDescriptor + sizeof_TssEntry - 1))
    (MkTss [u64 (stack + size); 0; 0] sizeof_Tss).

(** *** Layout *)

Definition gdt_desc_bytes (d : GdtDescriptor) : list Z :=
  le_bytes 2 (limit0 d) ++ le_bytes 2 (gbase0 d) ++ le_bytes 1 (gbase1 d) ++
  le_bytes 1 (access d) ++ le_bytes 1 (granularity d) ++ le_bytes 1 (gbase2 d).

Definition tss_entry_bytes (d : TssEntry) : list Z :=
  le_bytes 2 (tlength d) ++ le_bytes 2 (tbase0 d) ++ le_bytes 1 (tbase1 d) ++
  le_bytes 1 (flags1 d) ++ le_bytes 1 (flags2 d) ++ le_bytes 1 (tbase2 d) ++
  le_bytes 4 (tbase3 d) ++ le_bytes 4 (treserved d).

Definition gdt_bytes (g : Gdt) : list Z :=
  (entries g ≫= gdt_desc_bytes) ++ tss_entry_bytes (gtss g).

(** What the processor takes from a 16-byte system descriptor: the base, the
    limit (granularity byte included) and the type byte. *)
Definition system_base (b : list Z) : Z :=
  of_bytes (take 2 (drop 2 b)) + 2 ^ 16 * of_bytes (take 1 (drop 4 b)) +
  2 ^ 24 * of_bytes (take 1 (drop 7 b)) + 2 ^ 32 * of_bytes (take 4 (drop 8 b)).
Definition system_limit (b : list Z) : Z :=
  of_bytes (take 2 b) + 2 ^ 16 * (of_bytes (take 1 (drop 6 b)) mod 16).
Definition system_type (b : list Z) : Z := of_bytes (take 1 (drop 5 b)).

(** ** The interrupt descriptor table *)

Definition INTGATE : Z := 0x8e.
Definition TRAPGATE : Z := 0xef.

Record IdtDescriptor : Type := IdtDesc {
  offset_lo : Z; selector : Z; ist : Z; type_attr : Z; offset_mid : Z; offset_hi : Z; izero : Z;
}.

Definition sizeof_IdtDescriptor : Z := 16.

Definition idt_make_entry (offset type : Z) : IdtDescriptor :=
  IdtDesc (Z.land offset 0xFFFF) 0x28 0 type (Z.land (Z.shiftr offset 16) 0xFFFF)
          (Z.land (Z.shiftr offset 32) 0xFFFFFFFF) 0.

(** [__interrupt_vector] is the table [vector] of 256 addresses ([idt.asm]). *)
Definition install_isr (vector : list Z) (idt : list IdtDescriptor) : res (list IdtDescriptor) :=
  idt ← for_loop 256 0 (λ i idt,
    v ← of_option (vector !!z i);
    _ ← of_option (idt !!z i);
    Done (<[i :=z idt_make_entry v INTGATE]> idt)) idt;
  v ← of_option (vector !!z 66);
  _ ← of_option (idt !!z 66);
  Done (<[66 :=z idt_make_entry v TRAPGATE]> idt).

Record idt_state : Type := IdtState {
  idt : list IdtDescriptor;
  idtr_size : Z;
  idtr_addr : Z;
  interrupts_on : bool;
}.

Definition idt_initialize (idt_at : Z) (vector : list Z) (st : idt_state) : res idt_state :=
  idt ← install_isr vector (idt st);
  Done (IdtState idt (u16 (256 * sizeof_IdtDescriptor - 1)) idt_at true).

Definition idt_desc_bytes (d : IdtDescriptor) : list Z :=
  le_bytes 2 (offset_lo d) ++ le_bytes 2 (selector d) ++ le_bytes 1 (ist d) ++
  le_bytes 1 (type_attr d) ++ le_bytes 2 (offset_mid d) ++ le_bytes 4 (offset_hi d) ++
  le_bytes 4 (izero d).

(** What the processor takes from a 64-bit gate. *)
Definition gate_offset (b : list Z) : Z :=
  of_bytes (take 2 b) + 2 ^ 16 * of_bytes (take 2 (drop 6 b)) +
  2 ^ 32 * of_bytes (take 4 (drop 8 b)).
Definition gate_selector (b : list Z) : Z := of_bytes (take 2 (drop 2 b)).
Definition gate_type (b : list Z) : Z := of_bytes (take 1 (drop 5 b)).
(** The privilege level that may enter the gate with an [int] instruction. *)
Definition gate_dpl (b : list Z) : Z := gate_type b / 32 mod 4.
Definition gate_present (b : list Z) : bool := Z.testbit (gate_type b) 7.

(** ** Round trips *)

Lemma land_ones_div v k w : 0 ≤ k → 0 ≤ w → Z.land (Z.shiftr v k) (Z.ones w) = v / 2 ^ k mod 2 ^ w.
Proof. intros. by rewrite Z.land_ones, Z.shiftr_div_pow2. Qed.

(** A 64-bit word from its parts. *)
Lemma word_16_16_32 v :
  is_u64 v → v mod 2 ^ 16 + 2 ^ 16 * (v / 2 ^ 16 mod 2 ^ 16) + 2 ^ 32 * (v / 2 ^ 32 mod 2 ^ 32) = v.
Proof. simpl. intros Hv. change (2 ^ 16) with 65536. change (2 ^ 32) with 4294967296. zlia. Qed.

Lemma word_16_8_8_32 v :
  is_u64 v →
  v mod 2 ^ 16 + 2 ^ 16 * (v / 2 ^ 16 mod 2 ^ 8) + 2 ^ 24 * (v / 2 ^ 24 mod 2 ^ 8) +
    2 ^ 32 * (v / 2 ^ 32 mod 2 ^ 32) = v.
Proof.
  simpl. intros Hv. change (2 ^ 16) with 65536. change (2 ^ 8) with 256.
  change (2 ^ 24) with 16777216. change (2 ^ 32) with 4294967296. zlia.
Qed.

Lemma tss_entry_base v :
  is_u64 v → system_base (tss_entry_bytes (make_tss_entry v)) = v.
Proof.
  intros Hv. rewrite <-(word_16_8_8_32 v Hv) at 2.
  unfold system_base, tss_entry_bytes, make_tss_entry.
  cbn [tlength tbase0 tbase1 flags1 flags2 tbase2 tbase3 treserved le_bytes app take drop of_bytes].
  change 0xffff with (Z.ones 16). change 0xff with (Z.ones 8).
  rewrite Z.land_ones, !land_ones_div by lia. unfold u32. rewrite Z.shiftr_div_pow2 by lia.
  generalize (v / 2 ^ 24) (v / 2 ^ 32) (v / 2 ^ 16). intros a b c.
  change (2 ^ 16) with 65536. change (2 ^ 8) with 256.
  change (2 ^ 24) with 16777216. change (2 ^ 32) with 4294967296. zlia.
Qed.

Lemma gate_offset_entry v ty :
  is_u64 v → gate_offset (idt_desc_bytes (idt_make_entry v ty)) = v.
Proof.
  intros Hv. rewrite <-(word_16_16_32 v Hv) at 2.
  unfold gate_offset, idt_desc_bytes, idt_make_entry.
  cbn [offset_lo selector ist type_attr offset_mid offset_hi izero le_bytes app take drop of_bytes].
  change 0xffff with (Z.ones 16). change 0xFFFFFFFF with (Z.ones 32).
  rewrite Z.land_ones, !land_ones_div by lia.
  generalize (v / 2 ^ 32) (v / 2 ^ 16). intros a b.
  change (2 ^ 16) with 65536. change (2 ^ 32) with 4294967296. zlia.
Qed.

(** ** The tables after initialisation *)

Lemma install_isr_spec vector idt :
  length_z vector = 256 → length_z idt = 256 →
  ∃ idt', install_isr vector idt = Done idt' ∧ length_z idt' = 256 ∧
    ∀ i v, vector !!z i = Some v →
      idt' !!z i = Some (idt_make_entry v (if i =? 66 then TRAPGATE else INTGATE)).
Proof.
  intros Hv Hi. unfold install_isr.
  destruct (for_loop_inv (λ k idt', length_z idt' = 256 ∧
      ∀ i v, 0 ≤ i < k → vector !!z i = Some v → idt' !!z i = Some (idt_make_entry v INTGATE)) 256 0
    (λ i idt, v ← of_option (vector !!z i); _ ← of_option (idt !!z i);
              Done (<[i :=z idt_make_entry v INTGATE]> idt)) idt)
    as (idt1 & Hr & Hl1 & H1).
  - split; [done|]. intros. lia.
  - intros k idt1 Hk [Hl1 H1].
    destruct (proj2 (lookup_z_is_Some vector k)) as [v Hvk]; [lia|].
    destruct (proj2 (lookup_z_is_Some idt1 k)) as [d Hd]; [lia|].
    rewrite Hvk, Hd. eexists. split; [done|]. split; [by rewrite length_insert_z|].
    intros i v' Hi' Hvi. destruct (decide (i = k)) as [->|].
    + rewrite lookup_insert_z_eq by lia. congruence.
    + rewrite lookup_insert_z_ne by done. apply H1; [lia|done].
  - rewrite Hr. cbn [mbind res_bind].
    destruct (proj2 (lookup_z_is_Some vector 66)) as [v Hv66]; [lia|].
    destruct (proj2 (lookup_z_is_Some idt1 66)) as [d Hd]; [lia|].
    rewrite Hv66, Hd. eexists. split; [done|]. split; [by rewrite length_insert_z|].
    intros i w Hw. apply lookup_z_Some in Hw as Hwr. destruct (Z.eqb_spec i 66) as [->|].
    + rewrite lookup_insert_z_eq by lia. congruence.
    + rewrite lookup_insert_z_ne by done. apply H1; [lia|done].
Qed.

(** ** Properties *)

(** C35: after [idt_initialize] every gate is present and leads, in the kernel
    code segment, to the address of its stub in [__interrupt_vector]; gate 66 is
    a trap gate that user code may call, all others are interrupt gates it may
    not, and [idtr] covers exactly the 256 gates. *)
Theorem idt_initialize_gates (idt_at : Z) (vector : list Z) (st : idt_state)
    (Hv : length_z vector = 256) (Hu : Forall is_u64 vector) (Hi : length_z (idt st) = 256) :
  ∃ st', idt_initialize idt_at vector st = Done st' ∧
    idtr_addr st' = idt_at ∧ idtr_size st' + 1 = 256 * sizeof_IdtDescriptor ∧
    interrupts_on st' = true ∧
    ∀ i v, vector !!z i = Some v → ∃ d, idt st' !!z i = Some d ∧
      let b := idt_desc_bytes d in
      length b = 16%nat ∧ gate_offset b = v ∧ gate_selector b = 0x28 ∧ gate_present b = true ∧
      gate_dpl b = (if i =? 66 then 3 else 0) ∧
      gate_type b mod 16 = (if i =? 66 then 15 else 14).
Proof.
  unfold idt_initialize. destruct (install_isr_spec vector (idt st) Hv Hi) as (idt' & -> & _ & Hd).
  eexists. split; [done|]. split; [done|]. split; [done|]. split; [done|].
  intros i v Hvi. eexists. split; [by apply Hd|]. cbn zeta.
  apply lookup_z_Some in Hvi as [_ Hvi].
  split; [done|]. split; [apply gate_offset_entry; by eapply Forall_lookup_1|].
  by destruct (i =? 66).
Qed.

Definition sample_vector : list Z := (λ i, 0xffffffff80001000 + 16 * i) <$> seqZ 0 256.

Lemma idt_initialize_gates_witness :
  ∃ st', idt_initialize 0xffffffff80100000 sample_vector
      (IdtState (replicate 256 (idt_make_entry 0 0)) 0 0 false) = Done st' ∧
    ∃ d, idt st' !!z 66 = Some d ∧ gate_offset (idt_desc_bytes d) = 0xffffffff80001420 ∧
      gate_dpl (idt_desc_bytes d) = 3.
Proof.
  destruct (idt_initialize_gates 0xffffffff80100000 sample_vector
    (IdtState (replicate 256 (idt_make_entry 0 0)) 0 0 false)) as (st' & Hr & _ & _ & _ & Hd).
  - reflexivity.
  - apply (bool_decide_eq_true _). vm_compute. reflexivity.
  - reflexivity.
  - exists st'. split; [exact Hr|].
    destruct (Hd 66 0xffffffff80001420) as (d & Hl & _ & Ho & _ & _ & Hdpl & _); [reflexivity|].
    exists d. split; [exact Hl|]. split; [exact Ho|exact Hdpl].
Defined.

(** The access byte and the flags of the 8-byte descriptor a selector names, its
    privilege level and whether it is 64-bit code. *)
Definition selector_access (g : list Z) (sel : Z) : Z :=
  default 0 (g !!z (sel / 8 * 8 + 5)).
Definition selector_dpl (g : list Z) (sel : Z) : Z := selector_access g sel / 32 mod 4.
Definition selector_long (g : list Z) (sel : Z) : bool :=
  Z.testbit (default 0 (g !!z (sel / 8 * 8 + 6))) 5.
Definition selector_code (g : list Z) (sel : Z) : bool := Z.testbit (selector_access g sel) 3.

(** After [gdt_initialize] the selectors the kernel uses mean what it uses
    them for: 0x28 is 64-bit kernel code, 0x30 kernel data, 0x43 and 0x3b (of a
    new task) 64-bit user code and user data; the descriptor at 0x48 is a
    present 64-bit TSS with the address of [tss], whose ring-0 stack is the top
    of the boot stack. Its limit however is the size of the descriptor itself,
    16, not that of the 104-byte TSS. *)
Theorem gdt_initialize_selectors (gdt_at tss_at stack size : Z) (st : gdt_state)
    (Hinit : entries (gdt st) = entries gdt_init) (Htss : is_u64 tss_at)
    (Hst : 0 ≤ stack) (Hsz : 0 ≤ size) (Hss : stack + size < 2 ^ 64) :
  let st' := gdt_initialize gdt_at tss_at stack size st in
  let g := gdt_bytes (gdt st') in
  gdtr_base st' = gdt_at ∧ gdtr_limit st' + 1 = length_z g ∧
  (selector_code g 0x28 = true ∧ selector_long g 0x28 = true ∧ selector_dpl g 0x28 = 0) ∧
  (selector_code g 0x30 = false ∧ selector_dpl g 0x30 = 0) ∧
  (selector_code g 0x43 = true ∧ selector_long g 0x43 = true ∧ selector_dpl g 0x43 = 3) ∧
  (selector_code g 0x3b = false ∧ selector_dpl g 0x3b = 3) ∧
  system_base (drop 0x48 g) = tss_at ∧ system_type (drop 0x48 g) = 0x89 ∧
  head (rsp (tss st')) = Some (stack + size) ∧
  system_limit (drop 0x48 g) = sizeof_TssEntry ∧ sizeof_TssEntry < sizeof_Tss - 1.
Proof.
  intros st' g. subst st' g. unfold gdt_initialize, gdt_bytes.
  cbn [gdt gtss entries gdtr_base gdtr_limit tss rsp]. rewrite Hinit.
  set (pre := entries gdt_init ≫= gdt_desc_bytes).
  assert (drop 0x48 (pre ++ tss_entry_bytes (make_tss_entry tss_at)) =
    tss_entry_bytes (make_tss_entry tss_at)) as -> by done.
  split; [done|]. split; [done|].
  split; [done|]. split; [done|]. split; [done|]. split; [done|].
  split; [by apply tss_entry_base|]. split; [done|].
  split; [simpl; by rewrite u64_id by (simpl; lia)|]. by split.
Qed.

Lemma gdt_initialize_selectors_witness :
  let st' := gdt_initialize 0xffffffff80010000 0xffffffff80020000 0x1000 0x2000
               (GdtState gdt_init 0 0 (MkTss [] 0)) in
  system_base (drop 0x48 (gdt_bytes (gdt st'))) = 0xffffffff80020000 ∧
  head (rsp (tss st')) = Some 0x3000.
Proof.
  destruct (gdt_initialize_selectors 0xffffffff80010000 0xffffffff80020000 0x1000 0x2000
    (GdtState gdt_init 0 0 (MkTss [] 0))) as (_ & _ & _ & _ & _ & _ & Hb & _ & Hs & _);
    [reflexivity|simpl; lia..|]. split; [exact Hb|exact Hs].
Defined.
