(* ===== verification/Stivale.v ===== *)
(** * What the boot loader hands over

    The structures of [src/src/kernel/stivale2.h] that the kernel reads, as they lie
    in memory: the list of tags and its search ([src/src/kernel/bootstrap.c]), the
    memory map, which [pmm_initialize] reads, shortens in place and reads again, and
    [vmm_initialize] reads after it, and the table of boot modules.

    [Pmm.v], [Vmm.v] and [Start.v] have the two managers on a memory map that is a
    list; here is the code on the bytes, and the proof that it does the same. *)

From S2P Require Import Prelude CInt Mem Arch Boot Pmm Frames Vmm PmmFrames Start Heap Str Tables.

(** ** Layout: the addresses of the fields *)

Module stivale2_struct.
Definition tags (p : Z) : Z := p + 128.
End stivale2_struct.

Module stivale2_tag.
Definition identifier (p : Z) : Z := p.
Definition next (p : Z) : Z := p + 8.
Definition size : Z := 16.
End stivale2_tag.

Module stivale2_struct_tag_cmdline.
Definition cmdline (p : Z) : Z := p + 16.
End stivale2_struct_tag_cmdline.

Module stivale2_mmap_entry.
Definition base (p : Z) : Z := p.
Definition length (p : Z) : Z := p + 8.
Definition type (p : Z) : Z := p + 16.
Definition size : Z := 24.
End stivale2_mmap_entry.

Module stivale2_struct_tag_memmap.
Definition entries (p : Z) : Z := p + 16.
Definition memmap (p i : Z) : Z := p + 24 + stivale2_mmap_entry.size * i.
End stivale2_struct_tag_memmap.

Module stivale2_module.
Definition begin (p : Z) : Z := p.
Definition size : Z := 144.
End stivale2_module.

Module stivale2_struct_tag_modules.
Definition module_count (p : Z) : Z := p + 16.
Definition modules (p i : Z) : Z := p + 24 + stivale2_module.size * i.
End stivale2_struct_tag_modules.

Definition STIVALE2_STRUCT_TAG_CMDLINE_ID : Z := 0xe5e76a1b4597a781.
Definition STIVALE2_STRUCT_TAG_MEMMAP_ID : Z := 0x2187f79e8612de07.
Definition STIVALE2_STRUCT_TAG_MODULES_ID : Z := 0x4b6fe466aade04ce.

(** [stivale_hdr], which the boot loader finds in the kernel's file; [start] and
    [stack] are the addresses of [_start] and of the boot stack. *)
Record stivale2_header : Type := MkHeader { h_entry_point : Z; h_stack : Z; h_flags : Z; h_tags : Z }.
Definition stivale_hdr (start stack : Z) : stivale2_header :=
  MkHeader start (u64 (stack + 8192)) (Z.shiftl 1 1) 0.

(** ** The tag search *)

(** [stivale2_get_tag]; [fuel] bounds the number of tags looked at. *)
Definition stivale2_get_tag (fuel : nat) (m : mem) (info id : Z) : res Z :=
  first ← load64 m (stivale2_struct.tags info);
  while_loop fuel (λ current_tag,
    if current_tag =? 0 then Done (inr 0)
    else
      i ← load64 m (stivale2_tag.identifier current_tag);
      if i =? id then Done (inr current_tag)
      else
        next ← load64 m (stivale2_tag.next current_tag);
        Done (inl next)) first.

(** ** The memory map *)

(** A copy of the entry at [p], as [vmm_initialize] makes it. *)
Definition load_entry (m : mem) (p : Z) : res mmap_entry :=
  base ← load64 m (stivale2_mmap_entry.base p);
  length ← load64 m (stivale2_mmap_entry.length p);
  type ← load32 m (stivale2_mmap_entry.type p);
  Done (MmapEntry base length type).

Fixpoint load_entries (n : nat) (m : mem) (p : Z) : res (list mmap_entry) :=
  match n with
  | O => Done []
  | S n =>
      e ← load_entry m p;
      es ← load_entries n m (p + stivale2_mmap_entry.size);
      Done (e :: es)
  end.

(** What the loops over [memory_map->entries] see. *)
Definition load_memmap (m : mem) (memory_map : Z) : res (list mmap_entry) :=
  n ← load64 m (stivale2_struct_tag_memmap.entries memory_map);
  load_entries (Z.to_nat n) m (stivale2_struct_tag_memmap.memmap memory_map 0).

(** The second loop of [pmm_initialize], over the [n] entries from [p] on: the bit
    map is cut out of the first that is long enough, in the table itself. *)
Fixpoint carve_entries (n : nat) (m : mem) (p size : Z) : res (option Z * mem) :=
  match n with
  | O => Done (None, m)
  | S n =>
      e ← load_entry m p;
      if usable e && (size <=? e_length e) then
        m ← store64 m (stivale2_mmap_entry.base p) (u64 (e_base e + size));
        m ← store64 m (stivale2_mmap_entry.length p) (u64 (e_length e - size));
        Done (Some (u64 (e_base e + MMAP_IO_BASE)), m)
      else carve_entries n m (p + stivale2_mmap_entry.size) size
  end.

Section boot.
Context (fuel : nat).

(** [pmm_initialize]: the manager, and the memory with the shortened map. *)
Definition boot_pmm (info : Z) (m : mem) : res (pmm * mem) :=
  memory_map ← stivale2_get_tag fuel m info STIVALE2_STRUCT_TAG_MEMMAP_ID;
  entries ← load_memmap m memory_map;
  let highest := find_highest entries 0 in
  let bitmap_size := ALIGN_UP (ALIGN_DOWN highest PAGE_SIZE / PAGE_SIZE / 8) PAGE_SIZE in
  if bitmap_size =? 0 then Hang
  else
    n ← load64 m (stivale2_struct_tag_memmap.entries memory_map);
    '(data, m) ← carve_entries (Z.to_nat n) m (stivale2_struct_tag_memmap.memmap memory_map 0) bitmap_size;
    data ← of_option data;
    let st := Pmm highest 0 data (replicate (Z.to_nat bitmap_size) 0xff) bitmap_size in
    entries ← load_memmap m memory_map;
    st ← free_usable entries st;
    Done (st, m).

(** [vmm_initialize]; nothing it does before its last loop writes to the map. *)
Definition boot_vmm (info : Z) (m : mem) (st : vmm pmm) : res (Z * vmm pmm) :=
  memory_map ← stivale2_get_tag fuel m info STIVALE2_STRUCT_TAG_MEMMAP_ID;
  entries ← load_memmap m memory_map;
  vmm_initialize entries st.

(** Their two calls in [kernel_main]: the kernel's page map, the state of the page
    frames and the memory the boot loader's structures are in. *)
Definition boot_memory (info : Z) (m : mem) (st : vmm pmm) : res (Z * vmm pmm * mem) :=
  '(f, m) ← boot_pmm info m;
  '(root, st) ← boot_vmm info m (Vmm.set_mem st (ram st) f);
  Done (root, st, m).
End boot.

(** ** Tag lists *)

(** The tags on the list that starts at [a], in order, with their identifiers. *)
Inductive tag_list (m : mem) : Z → list (Z * Z) → Prop :=
  | tag_nil : tag_list m 0 []
  | tag_cons a i n l :
      a ≠ 0 → load64 m (stivale2_tag.identifier a) = Done i → load64 m (stivale2_tag.next a) = Done n →
      tag_list m n l → tag_list m a ((a, i) :: l).

Definition tags_at (m : mem) (info : Z) (l : list (Z * Z)) : Prop :=
  ∃ a, load64 m (stivale2_struct.tags info) = Done a ∧ tag_list m a l.

(** The address of the first tag with an identifier, 0 for none. *)
Definition first_tag (l : list (Z * Z)) (id : Z) : Z :=
  default 0 (fst <$> head (filter (λ p, p.2 = id) l)).

Lemma first_tag_cons a i l id :
  first_tag ((a, i) :: l) id = if decide (i = id) then a else first_tag l id.
Proof. unfold first_tag. rewrite filter_cons. cbn [snd]. by case_decide. Qed.

Lemma get_tag_run fuel m info id l :
  tags_at m info l → (length l < fuel)%nat → stivale2_get_tag fuel m info id = Done (first_tag l id).
Proof.
  intros (a & Ha & Hl) Hf. unfold stivale2_get_tag. rewrite Ha. cbn [mbind res_bind]. clear Ha.
  revert fuel Hf. induction Hl as [|a i n l Ha Hi Hn Hl IH]; intros [|fuel] Hf; cbn [length] in Hf; try lia.
  { done. }
  cbn [while_loop]. rewrite (proj2 (Z.eqb_neq a 0)) by done. rewrite Hi, first_tag_cons. cbn [mbind res_bind].
  destruct (Z.eqb_spec i id) as [->|Hne]; [by rewrite decide_True|].
  rewrite Hn, decide_False by done. cbn [mbind res_bind]. apply IH. lia.
Qed.

(** A table of memory: nothing of the list of tags is in it. *)
Definition outside_tags (info : Z) (l : list (Z * Z)) (p n : Z) : Prop :=
  (info + 136 ≤ p ∨ p + n ≤ info + 128) ∧ Forall (λ t, t.1 + 16 ≤ p ∨ p + n ≤ t.1) l.

(** [m'] is [m] but for the [n] bytes from [p] on, which are still there. *)
Record rewritten (m m' : mem) (p n : Z) : Prop := Rewritten {
  rw_same a : ¬ (p ≤ a < p + n) → m' !! a = m !! a;
  rw_dom a : is_Some (m !! a) → is_Some (m' !! a);
}.

Lemma rewritten_load64 m m' p n a :
  rewritten m m' p n → a + 8 ≤ p ∨ p + n ≤ a → load64 m' a = load64 m a.
Proof. intros Hw Ha. apply load_le_lookup. intros i Hi. apply (rw_same _ _ _ _ Hw). lia. Qed.

Lemma tags_rewritten m m' info l p n :
  rewritten m m' p n → outside_tags info l p n → tags_at m info l → tags_at m' info l.
Proof.
  unfold tags_at, stivale2_struct.tags. intros Hw [Hi Hl] (a & Ha & Ht). exists a. split.
  { rewrite <-Ha. apply (rewritten_load64 _ _ _ _ _ Hw). lia. }
  clear Ha. induction Ht as [|a i k l Ha Hai Hak Hl' IH]; [constructor|].
  apply Forall_cons_1 in Hl as [Hal Hl]. cbn [fst] in Hal.
  unfold stivale2_tag.identifier, stivale2_tag.next in *.
  apply (tag_cons m' a i k); unfold stivale2_tag.identifier, stivale2_tag.next; [done|..|by apply IH].
  - rewrite <-Hai. apply (rewritten_load64 _ _ _ _ _ Hw). lia.
  - rewrite <-Hak. apply (rewritten_load64 _ _ _ _ _ Hw). lia.
Qed.

(** ** The table of the memory map *)

Fixpoint entries_at (m : mem) (p : Z) (es : list mmap_entry) : Prop :=
  match es with
  | [] => True
  | e :: es => load_entry m p = Done e ∧ entries_at m (p + stivale2_mmap_entry.size) es
  end.

Definition table_size (es : list mmap_entry) : Z := stivale2_mmap_entry.size * length_z es.

Lemma table_size_cons e es : table_size (e :: es) = stivale2_mmap_entry.size + table_size es.
Proof. unfold table_size, length_z, stivale2_mmap_entry.size. cbn [length]. lia. Qed.

Lemma table_size_nonneg es : 0 ≤ table_size es.
Proof. unfold table_size, length_z, stivale2_mmap_entry.size. lia. Qed.

Lemma load_entries_at m es : ∀ p, entries_at m p es → load_entries (length es) m p = Done es.
Proof.
  induction es as [|e es IH]; intros p; [done|]. intros [He Hes]. cbn [length load_entries].
  rewrite He. cbn [mbind res_bind]. by rewrite (IH _ Hes).
Qed.

Lemma load_entry_same m m' p :
  (∀ a, p ≤ a < p + stivale2_mmap_entry.size → m' !! a = m !! a) → load_entry m' p = load_entry m p.
Proof.
  unfold stivale2_mmap_entry.size. intros Heq.
  unfold load_entry, stivale2_mmap_entry.base, stivale2_mmap_entry.length, stivale2_mmap_entry.type.
  assert (∀ n i, (0 ≤ i) → i + Z.of_nat n ≤ 24 → load_le n m' (p + i) = load_le n m (p + i)) as Hl.
  { intros n i Hi Hn. apply load_le_lookup. intros a Ha. apply Heq. lia. }
  pose proof (Hl 8%nat 0) as H0. rewrite Z.add_0_r in H0. unfold load64, load32. by rewrite H0, !Hl by lia.
Qed.

Lemma entries_at_same m m' es : ∀ p,
  (∀ a, p ≤ a < p + table_size es → m' !! a = m !! a) → entries_at m p es → entries_at m' p es.
Proof.
  induction es as [|e es IH]; intros p Heq; [done|]. intros [He Hes].
  rewrite table_size_cons in Heq. pose proof (table_size_nonneg es).
  split.
  - rewrite <-He. apply load_entry_same. intros a Ha. apply Heq. lia.
  - apply IH; [|done]. intros a Ha. apply Heq. unfold stivale2_mmap_entry.size in *. lia.
Qed.

Lemma load_le_mapped n m : ∀ a v, load_le n m a = Done v → mapped m a (Z.of_nat n).
Proof.
  induction n as [|n IH]; intros a v; [intros _ i Hi; lia|].
  cbn [load_le]. intros (b & Hb%load8_Done & (r & Hr & _)%bind_Done_inv)%bind_Done_inv i Hi.
  destruct (decide (i = a)) as [->|]; [by eexists|]. apply (IH _ _ Hr). lia.
Qed.

(** Writing the two fields of an entry that are shortened. *)
Lemma shorten_entry m p e b n :
  load_entry m p = Done e →
  ∃ m', (m ← store64 m (stivale2_mmap_entry.base p) (u64 b);
         store64 m (stivale2_mmap_entry.length p) (u64 n)) = Done m' ∧
    rewritten m m' p stivale2_mmap_entry.size ∧ load_entry m' p = Done (MmapEntry (u64 b) (u64 n) (e_type e)).
Proof.
  unfold load_entry, stivale2_mmap_entry.base, stivale2_mmap_entry.length, stivale2_mmap_entry.type,
    stivale2_mmap_entry.size.
  intros (x & Hx & (y & Hy & (t & Ht & [= <-])%bind_Done_inv)%bind_Done_inv)%bind_Done_inv.
  assert (∀ a v, load64 m a = Done v → mapped m a 8) as Hmap.
  { intros a v. apply (load_le_mapped 8). }
  destruct (store64_total m p (u64 b)) as [m1 H1]; [by apply (Hmap p x)|].
  destruct (store64_total m1 (p + 8) (u64 n)) as [m2 H2];
    [apply (store_le_mapped 8 _ _ _ _ _ _ H1); by apply (Hmap (p + 8) y)|].
  exists m2. rewrite H1. split; [exact H2|]. split; [split|].
  - intros a Ha. rewrite (store_le_other 8 _ _ _ _ a H2), (store_le_other 8 _ _ _ _ a H1) by lia. done.
  - intros a Ha. assert (mapped m a 1) as Hm1 by (intros i Hi; by replace i with a by lia).
    apply (store_le_mapped 8 _ _ _ _ _ _ H2 (store_le_mapped 8 _ _ _ _ _ _ H1 Hm1)). lia.
  - rewrite (load_store_64_ne _ _ _ _ p H2), (load_store_64 _ _ _ _ (u64_range b) H1) by lia.
    rewrite (load_store_64 _ _ _ _ (u64_range n) H2). cbn [mbind res_bind].
    unfold load32 in *. rewrite (load_le_lookup 4 m m2), Ht; [done|].
    intros a Ha. rewrite (store_le_other 8 _ _ _ _ a H2), (store_le_other 8 _ _ _ _ a H1) by lia. done.
Qed.

Lemma rewritten_weaken m m' p n q k :
  rewritten m m' p n → q ≤ p → p + n ≤ q + k → rewritten m m' q k.
Proof. intros [Hs Hd] Hq Hk. split; [|done]. intros a Ha. apply Hs. lia. Qed.

Lemma rewritten_refl m p n : rewritten m m p n.
Proof. by split. Qed.

(** Cutting the bit map out of the table is [place_bitmap] on the list. *)
Lemma carve_entries_run m size es : ∀ p, entries_at m p es →
  ∃ m', carve_entries (length es) m p size = Done ((place_bitmap es size).1, m') ∧
    rewritten m m' p (table_size es) ∧ entries_at m' p (place_bitmap es size).2 ∧
    length (place_bitmap es size).2 = length es.
Proof.
  induction es as [|e es IH]; intros p; [intros _; exists m; by split_and!; [|apply rewritten_refl|..]|].
  intros [He Hes]. cbn [length carve_entries place_bitmap]. rewrite He, table_size_cons. cbn [mbind res_bind].
  pose proof (table_size_nonneg es). destruct (usable e && (size <=? e_length e)).
  - destruct (shorten_entry m p e (e_base e + size) (e_length e - size) He) as (m' & Hm' & Hw & He').
    exists m'. destruct (store64 m _ (u64 (e_base e + size))) as [m1| | |]; cbn [mbind res_bind] in *; [|done..].
    rewrite Hm'. cbn [mbind res_bind fst snd length]. split; [done|].
    split; [apply (rewritten_weaken _ _ _ _ _ _ Hw); lia|]. split; [|done]. split; [exact He'|].
    apply (entries_at_same m); [|done]. intros a Ha. apply (rw_same _ _ _ _ Hw). lia.
  - destruct (IH _ Hes) as (m' & Hr & Hw & Hes' & Hlen). exists m'. rewrite Hr.
    destruct (place_bitmap es size) as [d es']. cbn [fst snd length] in *. split; [done|].
    split; [apply (rewritten_weaken _ _ _ _ _ _ Hw); unfold stivale2_mmap_entry.size; lia|].
    split; [|by rewrite Hlen]. split; [|done]. rewrite <-He. apply load_entry_same.
    intros a Ha. apply (rw_same _ _ _ _ Hw). lia.
Qed.

(** ** The two managers on the bytes *)

(** The boot loader's tags [l] and memory map [es]: the table is that of the first
    tag with the identifier, and no tag is in it. *)
Record memmap_at (m : mem) (info : Z) (l : list (Z * Z)) (es : list mmap_entry) : Prop := MemmapAt {
  ma_tags : tags_at m info l;
  ma_count : load64 m (stivale2_struct_tag_memmap.entries (first_tag l STIVALE2_STRUCT_TAG_MEMMAP_ID)) =
    Done (length_z es);
  ma_entries : entries_at m (stivale2_struct_tag_memmap.memmap (first_tag l STIVALE2_STRUCT_TAG_MEMMAP_ID) 0) es;
  ma_apart : outside_tags info l
    (stivale2_struct_tag_memmap.memmap (first_tag l STIVALE2_STRUCT_TAG_MEMMAP_ID) 0) (table_size es);
}.

(** The table of the memory map: its address, from the list of tags. *)
Definition memmap_table (l : list (Z * Z)) : Z :=
  stivale2_struct_tag_memmap.memmap (first_tag l STIVALE2_STRUCT_TAG_MEMMAP_ID) 0.

Lemma load_memmap_at m info l es :
  memmap_at m info l es → load_memmap m (first_tag l STIVALE2_STRUCT_TAG_MEMMAP_ID) = Done es.
Proof.
  intros [_ Hn Hes _]. unfold load_memmap. rewrite Hn. cbn [mbind res_bind]. unfold length_z. rewrite Nat2Z.id.
  by apply load_entries_at.
Qed.

Lemma memmap_rewritten m m' info l es es' :
  memmap_at m info l es → rewritten m m' (memmap_table l) (table_size es) → length es' = length es →
  entries_at m' (memmap_table l) es' → memmap_at m' info l es'.
Proof.
  intros [Ht Hn Hes Hap] Hw Hlen Hes'.
  assert (length_z es' = length_z es) as Hlz by (unfold length_z; by rewrite Hlen).
  split; [by eapply tags_rewritten| |done|unfold table_size; by rewrite Hlz].
  rewrite Hlz, <-Hn. apply (rewritten_load64 _ _ _ _ _ Hw).
  unfold memmap_table, stivale2_struct_tag_memmap.entries, stivale2_struct_tag_memmap.memmap, stivale2_mmap_entry.size. lia.
Qed.

Lemma boot_pmm_run fuel m info l es :
  memmap_at m info l es → (length l < fuel)%nat →
  ∃ m', rewritten m m' (memmap_table l) (table_size es) ∧
    boot_pmm fuel info m = ('(f, _) ← pmm_initialize es; Done (f, m')) ∧
    ∀ f es', pmm_initialize es = Done (f, es') → memmap_at m' info l es'.
Proof.
  intros Hm Hf. pose proof (load_memmap_at _ _ _ _ Hm) as Hld. unfold boot_pmm.
  rewrite (get_tag_run fuel m info _ l (ma_tags _ _ _ _ Hm) Hf). cbn [mbind res_bind]. rewrite Hld.
  cbn [mbind res_bind]. unfold pmm_initialize.
  set (size := ALIGN_UP _ _). destruct (size =? 0).
  { exists m. split; [apply rewritten_refl|]. by split. }
  rewrite (ma_count _ _ _ _ Hm). cbn [mbind res_bind]. unfold length_z. rewrite Nat2Z.id.
  destruct (carve_entries_run m size es _ (ma_entries _ _ _ _ Hm)) as (m' & -> & Hw & Hes' & Hlen).
  assert (memmap_at m' info l (place_bitmap es size).2) as Hm' by by eapply memmap_rewritten.
  exists m'. split; [exact Hw|]. cbn [mbind res_bind].
  destruct (place_bitmap es size) as [[d|] es']; cbn [fst snd of_option mbind res_bind] in *; [|by split].
  rewrite (load_memmap_at _ _ _ _ Hm'). cbn [mbind res_bind].
  destruct (free_usable es' _) as [f| | |]; cbn [mbind res_bind]; split; try done.
  by intros f' es'' [= <- <-].
Qed.

Lemma boot_memory_run fuel m info l es :
  memmap_at m info l es → (length l < fuel)%nat →
  ∃ m', rewritten m m' (memmap_table l) (table_size es) ∧
    (∀ st, boot_memory fuel info m st = '(root, st) ← start_memory es st; Done (root, st, m')) ∧
    ∀ f es', pmm_initialize es = Done (f, es') → memmap_at m' info l es'.
Proof.
  intros Hm Hf. destruct (boot_pmm_run fuel m info l es Hm Hf) as (m' & Hw & Hr & Hm').
  exists m'. split; [exact Hw|]. split; [|exact Hm']. intros st. unfold boot_memory, start_memory. rewrite Hr.
  destruct (pmm_initialize es) as [[f es']| | |]; cbn [mbind res_bind]; [|done..].
  pose proof (Hm' f es' eq_refl) as Hm1. unfold boot_vmm.
  rewrite (get_tag_run fuel m' info _ l (ma_tags _ _ _ _ Hm1) Hf). cbn [mbind res_bind].
  by rewrite (load_memmap_at _ _ _ _ Hm1).
Qed.

(** ** Properties *)

(** C40: on every list of tags in memory, given fuel for its length,
    [stivale2_get_tag] returns the first tag with the identifier asked for, and
    NULL when there is none. *)
Theorem stivale2_get_tag_first (m : mem) (info id : Z) (l : list (Z * Z)) (fuel : nat)
    (Hl : tags_at m info l) (Hf : (length l < fuel)%nat) :
  stivale2_get_tag fuel m info id = Done (first_tag l id).
Proof. by apply get_tag_run. Qed.

(** C11: starting the memory managers. On the boot loader's structures in memory,
    with a memory map whose usable memory is one range below 128 MiB,
    [pmm_initialize] followed by [vmm_initialize] returns when the range holds the
    bit map, 6529 frames for page tables (some 26 MiB) and [k] more; the two windows
    are mapped in the page map that is loaded, every invariant of the memory
    managers holds, and [k] frames are left, in one run. The memory map is left with
    the range shortened by the bit map, and no other byte of it is touched. *)
Theorem boot_memory_boots (fuel : nat) (m : mem) (info : Z) (l : list (Z * Z))
    (entries pre post : list mmap_entry) (e : mmap_entry) (st0 : vmm pmm) (k : nat)
    (Hinfo : memmap_at m info l entries) (Hfuel : (length l < fuel)%nat)
    (Hob : one_bank entries pre post e) (Hlock : vlock st0 = false)
    (Hm : mapped (ram st0) 0 (find_highest entries 0)) (Hby : bytes_ok (ram st0))
    (Hfr : (6529 + Z.of_nat k) * PAGE_SIZE ≤ e_length e - map_bytes entries) :
  ∃ root st m', boot_memory fuel info m st0 = Done (root, st, m') ∧ memory_up k root st ∧
    memmap_at m' info l (pre ++ carve e (map_bytes entries) :: post) ∧
    ∀ a, ¬ (memmap_table l ≤ a < memmap_table l + table_size entries) → m' !! a = m !! a.
Proof.
  destruct (start_memory_run entries pre post e st0 k) as (root & st & Hr & Hup); [done..|].
  destruct (one_bank_pmm _ _ _ _ Hob) as (s & Hs & _).
  destruct (boot_memory_run fuel m info l entries Hinfo Hfuel) as (m' & Hw & Heq & Hm').
  exists root, st, m'. rewrite Heq, Hr. split; [done|]. split; [done|].
  split; [by apply (Hm' s)|apply Hw].
Qed.

(** ** A boot loader's structures

    Tags with the command line "log", the memory map of [pc_map] and one module at
    2^40. *)

Definition info_at : Z := 2 ^ 41.
Definition cmdline_tag : Z := info_at + 136.
Definition memmap_tag : Z := info_at + 160.
Definition modules_tag : Z := info_at + 232.
Definition mmap_bytes (e : mmap_entry) : list Z := le_bytes 8 (e_base e) ++ le_bytes 8 (e_length e) ++ le_bytes 4 (e_type e) ++ le_bytes 4 0.
Definition info_bytes : list Z :=
  replicate 128 0 ++ le_bytes 8 cmdline_tag ++
  le_bytes 8 STIVALE2_STRUCT_TAG_CMDLINE_ID ++ le_bytes 8 memmap_tag ++ le_bytes 8 (info_at + 400) ++
  le_bytes 8 STIVALE2_STRUCT_TAG_MEMMAP_ID ++ le_bytes 8 modules_tag ++ le_bytes 8 2 ++ (pc_map ≫= mmap_bytes) ++
  le_bytes 8 STIVALE2_STRUCT_TAG_MODULES_ID ++ le_bytes 8 0 ++ le_bytes 8 1 ++
  (le_bytes 8 (2 ^ 40) ++ le_bytes 8 (2 ^ 40 + 1537) ++ replicate 128 0) ++ [0x6c; 0x6f; 0x67; 0].
Definition info_mem : mem := list_to_map (zip (seqZ info_at 404) info_bytes).
Definition info_tags : list (Z * Z) :=
  [(cmdline_tag, STIVALE2_STRUCT_TAG_CMDLINE_ID); (memmap_tag, STIVALE2_STRUCT_TAG_MEMMAP_ID);
   (modules_tag, STIVALE2_STRUCT_TAG_MODULES_ID)].

(** The same bytes in a memory that has others. *)
Lemma info_tags_at m : (∀ a, info_at ≤ a < info_at + 404 → m !! a = info_mem !! a) → tags_at m info_at info_tags.
Proof.
  intros Hm.
  assert (∀ a v, info_at ≤ a ≤ info_at + 396 → load64 info_mem a = Done v → load64 m a = Done v) as Hl.
  { intros a v Ha <-. apply load_le_lookup. intros i Hi. apply Hm. lia. }
  exists cmdline_tag. split; [apply Hl; [by vm_compute|by vm_compute]|].
  do 3 (eapply tag_cons; [done|apply Hl; by vm_compute|apply Hl; by vm_compute|]). constructor.
Qed.

Lemma info_memmap_at m :
  (∀ a, info_at ≤ a < info_at + 404 → m !! a = info_mem !! a) → memmap_at m info_at info_tags pc_map.
Proof.
  intros Hm. split; [by apply info_tags_at|..].
  - unfold load64. rewrite (load_le_lookup 8 info_mem m); [by vm_compute|].
    change (first_tag info_tags STIVALE2_STRUCT_TAG_MEMMAP_ID) with memmap_tag.
    unfold stivale2_struct_tag_memmap.entries, memmap_tag. intros i Hi. apply Hm. lia.
  - apply (entries_at_same info_mem); [|by vm_compute].
    change (stivale2_struct_tag_memmap.memmap (first_tag info_tags STIVALE2_STRUCT_TAG_MEMMAP_ID) 0)
      with (info_at + 184). change (table_size pc_map) with 48. intros a Ha. apply Hm. lia.
  - split; [by left; vm_compute|]. apply (bool_decide_unpack _). by vm_compute.
Qed.

Lemma stivale2_get_tag_first_witness :
  stivale2_get_tag 4 info_mem info_at STIVALE2_STRUCT_TAG_MODULES_ID = Done modules_tag ∧
  stivale2_get_tag 4 info_mem info_at 7 = Done 0.
Proof.
  split.
  - rewrite (stivale2_get_tag_first info_mem info_at _ info_tags 4); [reflexivity| |cbn; lia].
    apply info_tags_at. done.
  - rewrite (stivale2_get_tag_first info_mem info_at _ info_tags 4); [reflexivity| |cbn; lia].
    apply info_tags_at. done.
Defined.

(** The first page of the kernel window, with a thousand frames left; the memory map
    has lost the page of the bit map. *)
Lemma boot_memory_boots_witness :
  ∃ root st m', boot_memory 4 info_at info_mem (Vmm (cleared 0x4000000) (Pmm 0 0 0 [] 0) false [] 0) =
      Done (root, st, m') ∧
    translate (ram st) root (MMAP_KERNEL_BASE + 0 * PAGE_SIZE) = Some (0 * PAGE_SIZE + 3) ∧
    available 1000 (ram st) (frames st) ∧
    load_memmap m' memmap_tag = Done [MmapEntry 0 0x100000 2; MmapEntry 0x101000 0x3eff000 1].
Proof.
  assert (find_highest pc_map 0 = 0x4000000) as Hh by reflexivity.
  assert (map_bytes pc_map = 4096) as Hb by (vm_compute; reflexivity).
  destruct (boot_memory_boots 4 info_mem info_at info_tags pc_map [MmapEntry 0 0x100000 2] []
    (MmapEntry 0x100000 0x3f00000 1) (Vmm (cleared 0x4000000) (Pmm 0 0 0 [] 0) false [] 0) 1000)
    as (root & st & m' & Hr & Hup & Hm & _).
  - apply info_memmap_at. done.
  - cbn. lia.
  - exact pc_one_bank.
  - reflexivity.
  - rewrite Hh. apply pc_mapped.
  - apply pc_bytes.
  - rewrite Hb. unfold PAGE_SIZE. cbn [e_length]. lia.
  - exists root, st, m'. split; [exact Hr|]. split.
    + apply (km_kernel _ _ _ (mu_map _ _ _ Hup)). split; [lia|reflexivity].
    + split; [apply (mu_spare _ _ _ Hup)|].
      rewrite Hb in Hm. exact (load_memmap_at _ _ _ _ Hm).
Defined.
