(* ===== verification/Vfs.v ===== *)
(** * The virtual file system: the code ([src/src/kernel/fs/vfs.c])

    A [VfsNode *] is the address its [malloc] returned; the fields are records
    in a store of their own, indexed by that address, and 0 is in no store, so
    going through NULL is a [Fault].  What [malloc] leaves in a node is [junk],
    by address: the code sets some fields and reads others before anything sets
    them.  Path and name strings are their bytes: [str.c] is used by what
    [Str.v] proves of it ([split] is [strtok] in a loop, [basename_of] is
    [basename], [=] is [str_eq]), and the copies [strdup] makes, which are never
    freed or written, are not in the memory. *)

From S2P Require Import Prelude CInt Mem Boot Abi Vec Heap Str Devices.

Inductive node_type : Type := VFS_FILE | VFS_DIRECTORY.
#[global] Instance node_type_eq_dec : EqDecision node_type.
Proof. solve_decision. Defined.

(** The [Filesystem] values the kernel builds. *)
Inductive filesystem : Type := TMPFS | DEVFS | USTAR.

(** Of [stat] only the size is used. *)
Record vnode : Type := VNode {
  n_type : node_type; name : list Z; parent : Z; points_to : Z; children : vec Z;
  mountpoint : Z; st_size : Z; cursor : Z; o_mode : Z; address : Z; internal_address : Z;
  init : bool;
}.
Definition sizeof_VfsNode : Z := 208.

(** [None]: not set yet; the [root] of a later mount never is. *)
Record mount : Type := Mount { fs : option filesystem; mount_root : option Z }.
Definition sizeof_Mountpoint : Z := 40.

Definition set_type x n := VNode x (name n) (parent n) (points_to n) (children n) (mountpoint n) (st_size n) (cursor n) (o_mode n) (address n) (internal_address n) (init n).
Definition set_name x n := VNode (n_type n) x (parent n) (points_to n) (children n) (mountpoint n) (st_size n) (cursor n) (o_mode n) (address n) (internal_address n) (init n).
Definition set_parent x n := VNode (n_type n) (name n) x (points_to n) (children n) (mountpoint n) (st_size n) (cursor n) (o_mode n) (address n) (internal_address n) (init n).
Definition set_points_to x n := VNode (n_type n) (name n) (parent n) x (children n) (mountpoint n) (st_size n) (cursor n) (o_mode n) (address n) (internal_address n) (init n).
Definition set_children x n := VNode (n_type n) (name n) (parent n) (points_to n) x (mountpoint n) (st_size n) (cursor n) (o_mode n) (address n) (internal_address n) (init n).
Definition set_mountpoint x n := VNode (n_type n) (name n) (parent n) (points_to n) (children n) x (st_size n) (cursor n) (o_mode n) (address n) (internal_address n) (init n).
Definition set_st_size x n := VNode (n_type n) (name n) (parent n) (points_to n) (children n) (mountpoint n) x (cursor n) (o_mode n) (address n) (internal_address n) (init n).
Definition set_cursor x n := VNode (n_type n) (name n) (parent n) (points_to n) (children n) (mountpoint n) (st_size n) x (o_mode n) (address n) (internal_address n) (init n).
Definition set_o_mode x n := VNode (n_type n) (name n) (parent n) (points_to n) (children n) (mountpoint n) (st_size n) (cursor n) x (address n) (internal_address n) (init n).
Definition set_address x n := VNode (n_type n) (name n) (parent n) (points_to n) (children n) (mountpoint n) (st_size n) (cursor n) (o_mode n) x (internal_address n) (init n).
Definition set_internal x n := VNode (n_type n) (name n) (parent n) (points_to n) (children n) (mountpoint n) (st_size n) (cursor n) (o_mode n) (address n) x (init n).
Definition set_init x n := VNode (n_type n) (name n) (parent n) (points_to n) (children n) (mountpoint n) (st_size n) (cursor n) (o_mode n) (address n) (internal_address n) x.

(** The file system's state, with the devices it drives. *)
Record vfs (H : Type) : Type := Vfs {
  vmem : mem;
  vheap : H;
  nodes : gmap Z vnode;
  mounts : gmap Z mount;
  mountpoints : list mount;
  root : Z;
  vglob : globals;
  vport : list port_event;
  write_lock : bool;
}.
Arguments Vfs {_} _ _ _ _ _ _ _ _ _.
Arguments vmem {_} _.
Arguments vheap {_} _.
Arguments nodes {_} _.
Arguments mounts {_} _.
Arguments mountpoints {_} _.
Arguments root {_} _.
Arguments vglob {_} _.
Arguments vport {_} _.
Arguments write_lock {_} _.

Section vfs.
Context {H : Type} `{Heap H} (junk : Z → vnode) (vec_ok : Z → bool).
Implicit Types (s : vfs H).

Definition set_mem s (m : mem) (h : H) : vfs H :=
  Vfs m h (nodes s) (mounts s) (mountpoints s) (root s) (vglob s) (vport s) (write_lock s).
Definition set_nodes s (ns : gmap Z vnode) : vfs H :=
  Vfs (vmem s) (vheap s) ns (mounts s) (mountpoints s) (root s) (vglob s) (vport s) (write_lock s).
Definition set_mounts s (ms : gmap Z mount) : vfs H :=
  Vfs (vmem s) (vheap s) (nodes s) ms (mountpoints s) (root s) (vglob s) (vport s) (write_lock s).
Definition set_table s (l : list mount) : vfs H :=
  Vfs (vmem s) (vheap s) (nodes s) (mounts s) l (root s) (vglob s) (vport s) (write_lock s).
Definition set_root s (r : Z) : vfs H :=
  Vfs (vmem s) (vheap s) (nodes s) (mounts s) (mountpoints s) r (vglob s) (vport s) (write_lock s).
Definition set_err s (e : Z) : vfs H :=
  Vfs (vmem s) (vheap s) (nodes s) (mounts s) (mountpoints s) (root s) (set_errno e (vglob s)) (vport s) (write_lock s).
(** The serial line, and the lock [devfs_write] takes. *)
Definition set_port s (t : list port_event) (l : bool) : vfs H :=
  Vfs (vmem s) (vheap s) (nodes s) (mounts s) (mountpoints s) (root s) (vglob s) t l.

(** [node->field], and [node->field = ...]. *)
Definition node_at s (a : Z) : res vnode := of_option (nodes s !! a).
Definition upd_node (a : Z) (f : vnode → vnode) s : res (vfs H) :=
  n ← node_at s a; Done (set_nodes s (<[a := f n]> (nodes s))).

(** [malloc(sizeof(VfsNode))] and the write to [type] that follows it at once,
    which faults when the result is NULL; likewise for a [Mountpoint]. *)
Definition new_node (t : node_type) s : res (Z * vfs H) :=
  '(p, (m, h)) ← malloc sizeof_VfsNode (vmem s) (vheap s);
  if p =? 0 then Fault
  else Done (p, set_nodes (set_mem s m h) (<[p := set_type t (junk p)]> (nodes s))).
Definition new_mount s : res (Z * vfs H) :=
  '(p, (m, h)) ← malloc sizeof_Mountpoint (vmem s) (vheap s);
  Done (p, set_mounts (set_mem s m h)
             (if p =? 0 then mounts s else <[p := Mount None None]> (mounts s))).
Definition upd_mount (a : Z) (f : mount → mount) s : res (vfs H) :=
  m ← of_option (mounts s !! a); Done (set_mounts s (<[a := f m]> (mounts s))).

(** [vec_push(&node->children, c)], its result ignored. *)
Definition push_child (a c : Z) s : res (vfs H) :=
  n ← node_at s a;
  '(_, v) ← vec_push 8 vec_ok (children n) c;
  upd_node a (set_children v) s.

Definition vfs_parse_path (path : list Z) : list (list Z) := split [0x2f] path.

(** One loop of [vfs_find_node]: the first child of that name, or NULL. *)
Fixpoint find_child (n : nat) (i : Z) (v : vec Z) (nm : list Z) s : res Z :=
  match n with
  | O => Done 0
  | S n =>
      c ← vec_get v i;
      nd ← node_at s c;
      if bool_decide (nm = name nd) then Done c else find_child n (i + 1) v nm s
  end.

Definition vfs_find_node (start : Z) (nm : list Z) s : res Z :=
  st ← node_at s start;
  c ← (if negb (points_to st =? 0) then
         t ← node_at s (points_to st);
         find_child (Z.to_nat (vlength (children t))) 0 (children t) nm s
       else Done 0);
  if negb (c =? 0) then Done c
  else find_child (Z.to_nat (vlength (children st))) 0 (children st) nm s.

(** The loop of [vfs_get_parent] from segment [i] on: [inl] when it runs to its
    end with the node it is at, [inr] when it returns. *)
Fixpoint parent_loop (n : nat) (i : nat) (segments : list (list Z)) (start node : Z) s
    : res (Z + Z) :=
  match n with
  | O => Done (inl node)
  | S n =>
      seg ← of_option (segments !! i);
      if negb (bool_decide (seg = [])) then
        if bool_decide (i + 2 = length segments)%nat then Done (inr node)
        else
          nxt ← of_option (segments !! S i);
          node ← vfs_find_node node nxt s;
          parent_loop n (S i) segments start node s
      else
        if bool_decide (length segments = 2)%nat then Done (inr start)
        else
          nxt ← of_option (segments !! S i);
          node ← vfs_find_node start nxt s;
          parent_loop n (S i) segments start node s
  end.

Definition vfs_get_parent (start : Z) (path : list Z) s : res (Z * vfs H) :=
  let segments := vfs_parse_path path in
  r ← parent_loop (length segments - 1) 0 segments start start s;
  match r with
  | inr node => Done (node, s)
  | inl node => Done (node, if node =? 0 then set_err s ENOENT else s)
  end.

Definition vfs_get_root s : Z := root s.

(** [str_eq(path, "/")]. *)
Definition is_root (path : list Z) : bool := bool_decide (path = [0x2f]).

Definition vfs_mkdir (path : list Z) s : res (Z * vfs H) :=
  '(node, s) ← new_node VFS_DIRECTORY s;
  s ← upd_node node (set_children vec_init) s;
  if negb (is_root path) then
    '(par, s) ← vfs_get_parent (root s) path s;
    s ← upd_node node (set_parent par) s;
    s ← upd_node node (set_name (basename_of path)) s;
    if par =? 0 then Done (0, set_err s ENOENT)
    else
      r ← node_at s (root s);
      s ← upd_node node (set_mountpoint (mountpoint r)) s;
      '(prev_dir, s) ← new_node VFS_DIRECTORY s;
      s ← upd_node prev_dir (set_name [0x2e; 0x2e]) s;
      s ← upd_node prev_dir (set_points_to par) s;
      '(curr_dir, s) ← new_node VFS_DIRECTORY s;
      s ← upd_node curr_dir (set_name [0x2e]) s;
      s ← upd_node curr_dir (set_points_to node) s;
      s ← push_child node prev_dir s;
      s ← push_child node curr_dir s;
      s ← push_child par node s;
      Done (node, s)
  else
    s ← upd_node node (set_parent node) s;
    '(mp, s) ← new_mount s;
    s ← upd_node node (set_mountpoint mp) s;
    s ← upd_node node (set_name [0x2f]) s;
    Done (node, s).

(** [mountpoints[mountpoints_n++] = *node->mountpoint], an array of 64. *)
Definition add_mountpoint (node : Z) s : res (vfs H) :=
  n ← node_at s node;
  mp ← of_option (mounts s !! mountpoint n);
  if bool_decide (length (mountpoints s) < 64)%nat
  then Done (set_table s (mountpoints s ++ [mp])) else Fault.

Definition vfs_mount (where_ : list Z) (f : filesystem) s : res (Z * vfs H) :=
  if root s =? 0 then
    '(tmp, s) ← vfs_mkdir where_ s;
    let s := set_root s tmp in
    n ← node_at s (root s);
    s ← upd_mount (mountpoint n) (λ mp, Mount (Some f) (mount_root mp)) s;
    s ← upd_mount (mountpoint n) (λ mp, Mount (fs mp) (Some (root s))) s;
    s ← add_mountpoint (root s) s;
    Done (0, s)
  else
    '(node, s) ← vfs_mkdir where_ s;
    '(mp, s) ← new_mount s;
    s ← upd_node node (set_mountpoint mp) s;
    s ← upd_mount mp (λ mp, Mount (Some f) (mount_root mp)) s;
    s ← add_mountpoint node s;
    Done (0, s).

(** [start] is not used. *)
Definition vfs_open (start : Z) (path : list Z) (flags : Z) s : res (Z * vfs H) :=
  '(par, s) ← vfs_get_parent (root s) path s;
  if par =? 0 then Done (0, set_err s ENOENT)
  else
    node ← vfs_find_node par (basename_of path) s;
    is_dir ← (if (Z.land flags O_DIRECTORY =? 0) && negb (node =? 0)
              then n ← node_at s node; Done (bool_decide (n_type n = VFS_DIRECTORY))
              else Done false);
    if is_dir : bool then Done (0, set_err s EISDIR)
    else if negb (Z.land flags O_CREAT =? 0) then
      if negb (node =? 0) then
        s ← upd_node node (set_o_mode flags) s; Done (node, s)
      else
        '(ret, s) ← new_node VFS_FILE s;
        s ← upd_node ret (set_name (basename_of path)) s;
        s ← upd_node ret (set_parent par) s;
        s ← upd_node ret (set_o_mode flags) s;
        p ← node_at s par;
        s ← upd_node ret (set_mountpoint (mountpoint p)) s;
        '(a, (m, h)) ← malloc 2 (vmem s) (vheap s);
        s ← upd_node ret (set_address a) (set_mem s m h);
        s ← push_child par ret s;
        Done (ret, s)
    else if node =? 0 then Done (0, set_err s ENOENT)
    else
      s ← upd_node node (set_o_mode flags) s;
      n ← node_at s node;
      Done (if negb (points_to n =? 0) then points_to n else node, s).

(** Reading and writing go through the mount point's functions. *)
Context (fs_read : filesystem → Z → Z → Z → Z → vfs H → res (Z * vfs H)).
Context (fs_write : filesystem → Z → Z → Z → vfs H → res (Z * vfs H)).

Definition fs_of (node : Z) s : res filesystem :=
  n ← node_at s node;
  mp ← of_option (mounts s !! mountpoint n);
  of_option (fs mp).

Definition vfs_read (node offset count buf : Z) s : res (Z * vfs H) :=
  f ← fs_of node s; fs_read f node offset count buf s.

Definition vfs_write (node count buf : Z) s : res (Z * vfs H) :=
  f ← fs_of node s;
  '(r, s) ← fs_write f node count buf s;
  Done (if negb (r =? -1) then i32 count else -1, s).
End vfs.
