(* ===== verification/VfsSpec.v ===== *)
(** * The virtual file system: proofs about [Vfs.v]

    The tree of nodes as a directory: [lookup_name] is the entry a directory has
    under a name, [walk] follows a list of names, [path_of] writes such a list as
    an absolute path.  [vfs_wf] is the invariant: the heap is well formed, each
    node and each mount point is a block of it, and no pointer in the tree
    dangles. *)

From S2P Require Import Prelude CInt Mem Boot Abi Vec Heap Str Vfs.

(** ** Names and paths *)

(** The first of the nodes [cs] whose name is [nm], 0 when there is none. *)
Fixpoint find_name (ns : gmap Z vnode) (cs : list Z) (nm : list Z) : Z :=
  match cs with
  | [] => 0
  | c :: cs => if bool_decide (name <$> ns !! c = Some nm) then c else find_name ns cs nm
  end.

(** The pointers the vector holds. *)
Definition kids (n : vnode) : list Z :=
  omap id (take (Z.to_nat (vlength (children n))) (slots (children n))).

(** What directory [a] has under the name [nm]: for an alias ([.] and [..])
    first what its target has. *)
Definition lookup_name (ns : gmap Z vnode) (a : Z) (nm : list Z) : Z :=
  match ns !! a with
  | None => 0
  | Some n =>
      let c := match ns !! points_to n with
               | Some t => find_name ns (kids t) nm
               | None => 0
               end in
      if c =? 0 then find_name ns (kids n) nm else c
  end.

Definition walk (ns : gmap Z vnode) (a : Z) (names : list (list Z)) : Z :=
  foldl (lookup_name ns) a names.

(** [walk] as the code does it: it goes through the pointer it has before it
    looks at the next name, so that only the last one may be 0. *)
Fixpoint descend (ns : gmap Z vnode) (a : Z) (names : list (list Z)) : res Z :=
  match names with
  | [] => Done a
  | c :: cs => if a =? 0 then Fault else descend ns (lookup_name ns a c) cs
  end.

(** "/c1/c2/..." *)
Fixpoint path_of (names : list (list Z)) : list Z :=
  match names with
  | [] => []
  | c :: cs => 0x2f :: c ++ path_of cs
  end.

Definition is_name (c : list Z) : Prop := c ≠ [] ∧ 0x2f ∉ c.
#[global] Instance is_name_dec c : Decision (is_name c).
Proof. unfold is_name. apply _. Defined.

Lemma split_app d c s :
  (∀ x, x ∈ c → x ∉ d) →
  split d (c ++ s) = match split d s with t :: ts => (c ++ t) :: ts | [] => [c] end.
Proof.
  intros Hc. induction c as [|x c IH]; cbn [app split].
  - assert (split d s ≠ []) by (destruct s; cbn [split]; [done|]; repeat case_match; done).
    by destruct (split d s).
  - rewrite decide_False by (apply Hc; by left). rewrite IH by (intros y Hy; apply Hc; by right).
    assert (split d s ≠ []) by (destruct s; cbn [split]; [done|]; repeat case_match; done).
    by destruct (split d s).
Qed.

Lemma split_path_of cs :
  Forall is_name cs → split [0x2f] (path_of cs) = [] :: cs.
Proof.
  induction 1 as [|c cs [_ Hc] _ IH]; [done|]. cbn [path_of split].
  rewrite decide_True by by left. f_equal.
  rewrite split_app, IH, app_nil_r; [done|]. intros x Hx Hin%list_elem_of_singleton. by subst.
Qed.

Lemma walk_app ns a cs ds : walk ns a (cs ++ ds) = walk ns (walk ns a cs) ds.
Proof. apply foldl_app. Qed.

Lemma same_name (c nm : list Z) : bool_decide (Some c = Some nm) = bool_decide (nm = c).
Proof. apply bool_decide_ext. naive_solver. Qed.

(** ** The invariant *)

Section spec.
Context {H : Type} `{HeapLaws H}.
Implicit Types (s : vfs H) (ns : gmap Z vnode) (n : vnode).

Record vfs_wf s : Prop := VfsWf {
  wf_heap : heap_ok (vmem s) (vheap s);
  wf_node a n : nodes s !! a = Some n → live (vheap s) a sizeof_VfsNode;
  wf_mount a mp : mounts s !! a = Some mp → live (vheap s) a sizeof_Mountpoint;
  wf_children a n : nodes s !! a = Some n →
    capacity (children n) < 2 ^ 31 ∧
    ∃ cs, vrep (children n) cs ∧ ∀ c, c ∈ cs → is_Some (nodes s !! c);
  wf_points a n : nodes s !! a = Some n → points_to n ≠ 0 → is_Some (nodes s !! points_to n);
}.

(** The fields the code reads in a node before it sets them, as they are in
    cleared memory. *)
Definition clean (junk : Z → vnode) : Prop := ∀ a, points_to (junk a) = 0 ∧ children (junk a) = vec_init.

Lemma vrep_kids n cs : vrep (children n) cs → kids n = cs.
Proof.
  intros [[j Hs] Hl _]. unfold kids. rewrite Hs, Hl. unfold length_z.
  rewrite Nat2Z.id, take_app_le, take_ge by (rewrite length_fmap; lia).
  clear. induction cs as [|c cs IH]; [done|]. cbn. by rewrite IH.
Qed.

Lemma wf_kids s a n : vfs_wf s → nodes s !! a = Some n →
  vrep (children n) (kids n) ∧ ∀ c, c ∈ kids n → is_Some (nodes s !! c).
Proof.
  intros Hwf Ha. destruct (wf_children s Hwf a n Ha) as (_ & cs & Hv & Hc).
  by rewrite (vrep_kids n cs Hv).
Qed.

Lemma wf_pos s a n : vfs_wf s → nodes s !! a = Some n → 0 < a.
Proof.
  intros Hwf Ha.
  by destruct (live_law _ _ _ _ (wf_heap s Hwf) (wf_node s Hwf a n Ha)) as (? & _).
Qed.

Lemma wf_null s : vfs_wf s → nodes s !! 0 = None.
Proof. intros Hwf. destruct (nodes s !! 0) eqn:Hz; [|done]. apply wf_pos in Hz; [lia|done]. Qed.

Lemma find_name_in ns cs nm c : find_name ns cs nm = c → c ≠ 0 →
  c ∈ cs ∧ name <$> ns !! c = Some nm.
Proof.
  induction cs as [|d cs IH]; cbn [find_name]; [by intros <-|]. case_bool_decide as Hd.
  - intros <- _. split; [by left|done].
  - intros Hc Hz. destruct (IH Hc Hz). split; [by right|done].
Qed.

Lemma find_name_some ns cs nm c :
  ns !! 0 = None → c ∈ cs → name <$> ns !! c = Some nm → find_name ns cs nm ≠ 0.
Proof.
  intros Hz Hc Hnm. induction Hc as [c cs|c d cs Hc IH]; cbn [find_name].
  - rewrite bool_decide_true by done. intros ->. by rewrite Hz in Hnm.
  - case_bool_decide as Hd; [|by apply IH]. intros ->. by rewrite Hz in Hd.
Qed.

Lemma lookup_name_in s a nm : vfs_wf s → lookup_name (nodes s) a nm ≠ 0 →
  ∃ n, nodes s !! lookup_name (nodes s) a nm = Some n ∧ name n = nm.
Proof.
  intros Hwf Hz.
  assert (name <$> nodes s !! lookup_name (nodes s) a nm = Some nm) as (n & Hn & Hnm)%fmap_Some;
    [|by exists n].
  unfold lookup_name in *. destruct (nodes s !! a) as [n|] eqn:Ha; [|done].
  destruct (Z.eqb_spec (match nodes s !! points_to n with
    Some t => find_name (nodes s) (kids t) nm | None => 0 end) 0) as [Hc|Hc];
    rewrite ?Hc in Hz; cbn in Hz |- *.
  - by eapply find_name_in.
  - destruct (nodes s !! points_to n) as [t|]; [|done]. by eapply find_name_in.
Qed.

Lemma walk_in s a cs n : vfs_wf s → nodes s !! a = Some n → walk (nodes s) a cs ≠ 0 →
  is_Some (nodes s !! walk (nodes s) a cs).
Proof.
  intros Hwf Ha. destruct cs as [|c cs _] using rev_ind; [by exists n|].
  rewrite walk_app. cbn. intros Hz. destruct (lookup_name_in s _ c Hwf Hz) as (t & Ht & _). by exists t.
Qed.

Lemma walk_zero s cs : vfs_wf s → walk (nodes s) 0 cs = 0.
Proof.
  intros Hwf. induction cs as [|c cs IH]; [done|]. cbn. unfold lookup_name at 2.
  by rewrite wf_null.
Qed.

(** ** Looking up *)

Lemma find_child_spec k i v cs nm s :
  vrep v cs → (∀ c, c ∈ cs → is_Some (nodes s !! c)) → (i + k = length cs)%nat →
  find_child k (Z.of_nat i) v nm s = Done (find_name (nodes s) (drop i cs) nm).
Proof.
  intros Hv Hin. revert i. induction k as [|k IH]; intros i Hk; cbn [find_child].
  { rewrite drop_ge by lia. done. }
  destruct (lookup_lt_is_Some_2 cs i) as [c Hc]; [lia|]. rewrite (drop_S _ _ _ Hc).
  rewrite (vrep_get v cs) by (done || unfold length_z; lia).
  rewrite lookup_z_nat, Nat2Z.id, Hc by lia. cbn [of_option mbind res_bind find_name].
  destruct (Hin c) as [nd Hnd]; [by eapply list_elem_of_lookup_2|].
  unfold node_at. rewrite Hnd. cbn [of_option mbind res_bind fmap option_fmap option_map].
  rewrite <-same_name.
  case_bool_decide; [done|]. replace (Z.of_nat i + 1) with (Z.of_nat (S i)) by lia.
  apply IH. lia.
Qed.

Lemma find_child_kids s a n nm : vfs_wf s → nodes s !! a = Some n →
  find_child (Z.to_nat (vlength (children n))) 0 (children n) nm s =
    Done (find_name (nodes s) (kids n) nm).
Proof.
  intros Hwf Ha. destruct (wf_kids s a n Hwf Ha) as [Hv Hin].
  apply (find_child_spec _ 0 _ (kids n)); [done|done|].
  rewrite (vr_length _ _ Hv). unfold length_z. lia.
Qed.

Lemma vfs_find_node_spec s a n nm : vfs_wf s → nodes s !! a = Some n →
  vfs_find_node a nm s = Done (lookup_name (nodes s) a nm).
Proof.
  intros Hwf Ha. unfold vfs_find_node, lookup_name, node_at. rewrite Ha.
  cbn [of_option mbind res_bind].
  destruct (Z.eqb_spec (points_to n) 0) as [Hp|Hp]; cbn [negb].
  - rewrite Hp, wf_null by done. cbn. by eapply find_child_kids.
  - destruct (wf_points s Hwf a n Ha Hp) as [t Ht]. rewrite Ht. cbn [of_option mbind res_bind].
    rewrite (find_child_kids s _ t nm Hwf Ht). cbn [mbind res_bind].
    destruct (Z.eqb_spec (find_name (nodes s) (kids t) nm) 0); cbn [negb]; [|done].
    by eapply find_child_kids.
Qed.

Lemma vfs_find_node_null s nm : vfs_wf s → vfs_find_node 0 nm s = Fault.
Proof. intros Hwf. unfold vfs_find_node, node_at. by rewrite wf_null. Qed.

(** *** [vfs_get_parent] *)

Lemma lookup_mid {A} (l l' : list A) x : (l ++ x :: l') !! length l = Some x.
Proof. by apply list_lookup_middle. Qed.

Lemma parent_loop_walk s start pre e cs d node :
  vfs_wf s → e ≠ [] → Forall (λ c, c ≠ []) cs → is_Some (nodes s !! node) ∨ node = 0 →
  parent_loop (S (length cs)) (length pre) (pre ++ e :: cs ++ [d]) start node s =
    a ← descend (nodes s) node cs; Done (inr a).
Proof.
  intros Hwf He Hcs. revert pre e node He.
  induction Hcs as [|c cs Hc Hcs IH]; intros pre e node He Hnode.
  - cbn [length parent_loop descend].
    rewrite lookup_mid. cbn [of_option mbind res_bind].
    rewrite bool_decide_false by done. cbn [negb].
    rewrite bool_decide_true by (rewrite length_app; simpl; lia). done.
  - change (length (c :: cs)) with (S (length cs)). remember (S (length cs)) as k eqn:Hk.
    cbn [parent_loop descend app].
    rewrite lookup_mid. cbn [of_option mbind res_bind].
    rewrite bool_decide_false by done. cbn [negb].
    rewrite bool_decide_false by (rewrite length_app; simpl; rewrite length_app; simpl; lia).
    rewrite (cons_middle e), (assoc_L (++)).
    replace (S (length pre)) with (length (pre ++ [e])) by (rewrite length_app; simpl; lia).
    rewrite lookup_mid. cbn [of_option mbind res_bind].
    destruct Hnode as [[nd Hnd]| ->].
    + rewrite (vfs_find_node_spec s node nd c Hwf Hnd). cbn [mbind res_bind].
      rewrite (proj2 (Z.eqb_neq node 0)) by (pose proof (wf_pos s _ _ Hwf Hnd); lia).
      subst k. apply IH; [done|]. destruct (decide (lookup_name (nodes s) node c = 0)); [by right|left].
      destruct (lookup_name_in s node c) as (t & ? & _); [done..|by exists t].
    + by rewrite vfs_find_node_null.
Qed.

Lemma vfs_get_parent_spec s start cs d :
  vfs_wf s → is_Some (nodes s !! start) → Forall is_name (cs ++ [d]) →
  vfs_get_parent start (path_of (cs ++ [d])) s =
    a ← descend (nodes s) start cs; Done (a, s).
Proof.
  intros Hwf [st Hst] Hn. unfold vfs_get_parent, vfs_parse_path.
  rewrite split_path_of by done. cbn [length]. rewrite length_app, Nat.add_1_r.
  cbn [Nat.sub parent_loop lookup list_lookup]. cbn [of_option mbind res_bind].
  rewrite bool_decide_true by done. cbn [negb].
  apply Forall_app in Hn as [Hcs _].
  destruct cs as [|c cs]; [done|]. cbn [length app descend].
  rewrite bool_decide_false by (rewrite length_app; simpl; lia).
  cbn [lookup list_lookup of_option mbind res_bind].
  rewrite (vfs_find_node_spec s start st c Hwf Hst). cbn [mbind res_bind].
  rewrite (proj2 (Z.eqb_neq start 0)) by (pose proof (wf_pos s _ _ Hwf Hst); lia).
  apply Forall_cons_1 in Hcs as [[Hc _] Hcs].
  rewrite (parent_loop_walk s start [[]] c cs d); [|done|done| |].
  - by destruct (descend _ _ _).
  - eapply Forall_impl; [|exact Hcs]. by intros x [? _].
  - destruct (decide (lookup_name (nodes s) start c = 0)); [by right|left].
    destruct (lookup_name_in s start c) as (t & ? & _); [done..|by exists t].
Qed.

Lemma descend_walk s start cs : vfs_wf s → walk (nodes s) start cs ≠ 0 →
  descend (nodes s) start cs = Done (walk (nodes s) start cs).
Proof.
  intros Hwf. revert start. induction cs as [|c cs IH]; intros start Hz; [done|]. cbn in *.
  destruct (Z.eqb_spec start 0) as [->|_]; [|by apply IH].
  exfalso. apply Hz. unfold lookup_name at 2. rewrite wf_null by done. by apply walk_zero.
Qed.

Lemma descend_cases ns a cs : descend ns a cs = Fault ∨ descend ns a cs = Done (walk ns a cs).
Proof.
  revert a. induction cs as [|c cs IH]; intros a; cbn; [by right|].
  destruct (a =? 0); [by left|apply IH].
Qed.

(** On any path the answer is a node of the tree, or 0. *)
Lemma parent_loop_in s k i segs start node r :
  vfs_wf s → (is_Some (nodes s !! start) ∨ start = 0) → (is_Some (nodes s !! node) ∨ node = 0) →
  parent_loop k i segs start node s = Done r →
  let a := match r with inl a => a | inr a => a end in is_Some (nodes s !! a) ∨ a = 0.
Proof.
  intros Hwf Hst. revert i node. induction k as [|k IH]; intros i node Hnode; cbn [parent_loop].
  { by intros [= <-]. }
  assert (∀ a nm x, vfs_find_node a nm s = Done x → is_Some (nodes s !! x) ∨ x = 0) as Hfind.
  { intros a nm x Hf. destruct (nodes s !! a) as [n|] eqn:Ha.
    - rewrite (vfs_find_node_spec s a n) in Hf by done. injection Hf as <-.
      destruct (decide (lookup_name (nodes s) a nm = 0)); [by right|left].
      destruct (lookup_name_in s a nm) as (t & ? & _); [done..|by exists t].
    - unfold vfs_find_node, node_at in Hf. by rewrite Ha in Hf. }
  intros (seg & _ & Hr)%bind_Done_inv. destruct (negb (bool_decide (seg = []))).
  - destruct (bool_decide _); [by injection Hr as <-|].
    apply bind_Done_inv in Hr as (nm & _ & Hr). apply bind_Done_inv in Hr as (x & Hx & Hr).
    by apply IH in Hr; [|by eapply Hfind].
  - destruct (bool_decide _); [by injection Hr as <-|].
    apply bind_Done_inv in Hr as (nm & _ & Hr). apply bind_Done_inv in Hr as (x & Hx & Hr).
    by apply IH in Hr; [|by eapply Hfind].
Qed.

Lemma vfs_get_parent_in s start path a s' :
  vfs_wf s → (is_Some (nodes s !! start) ∨ start = 0) →
  vfs_get_parent start path s = Done (a, s') →
  (is_Some (nodes s !! a) ∨ a = 0) ∧ (s' = s ∨ a = 0 ∧ s' = set_err s ENOENT).
Proof.
  intros Hwf Hst (r & Hr & Heq)%bind_Done_inv. apply parent_loop_in in Hr; [|done..].
  destruct r as [b|b]; injection Heq as <- <-; (split; [exact Hr|]); [|by left].
  destruct (Z.eqb_spec b 0); [by right|by left].
Qed.

(** ** The writes *)

Lemma upd_node_eq s a n f : nodes s !! a = Some n →
  upd_node a f s = Done (set_nodes s (<[a := f n]> (nodes s))).
Proof. intros Ha. unfold upd_node, node_at. by rewrite Ha. Qed.

Lemma upd_node_inv s a f s' : upd_node a f s = Done s' →
  ∃ n, nodes s !! a = Some n ∧ s' = set_nodes s (<[a := f n]> (nodes s)).
Proof. intros (n & Hn%of_option_Done & [= <-])%bind_Done_inv. by exists n. Qed.

(** Replacing a node of the tree. *)
Lemma wf_set_node s a n n' :
  vfs_wf s → nodes s !! a = Some n →
  capacity (children n') < 2 ^ 31 ∧
    (∃ cs, vrep (children n') cs ∧ ∀ c, c ∈ cs → is_Some (nodes s !! c)) →
  (points_to n' ≠ 0 → is_Some (nodes s !! points_to n')) →
  vfs_wf (set_nodes s (<[a := n']> (nodes s))).
Proof.
  intros Hwf Ha Hc Hp.
  assert (∀ b, is_Some (nodes s !! b) → is_Some (<[a := n']> (nodes s) !! b)) as Hdom
    by (intros b Hb; apply lookup_insert_is_Some'; by right).
  destruct Hwf as [Hh Hn Hm Hch Hpt]. split; cbn; [done| |done| |].
  - intros b m [[<- _]|[_ Hb]]%lookup_insert_Some; [by eapply Hn|by eapply Hn].
  - intros b m Hb. assert (capacity (children m) < 2 ^ 31 ∧
      ∃ cs, vrep (children m) cs ∧ ∀ c, c ∈ cs → is_Some (nodes s !! c)) as (? & cs & ? & Hcs).
    { apply lookup_insert_Some in Hb as [[_ <-]|[_ Hb]]; [done|by eapply Hch]. }
    split; [done|]. exists cs. split; [done|]. intros c Hin. by apply Hdom, Hcs.
  - intros b m [[_ <-]|[_ Hb]]%lookup_insert_Some Hz; apply Hdom; [by apply Hp|by eapply Hpt].
Qed.

(** Setting a field that is not part of the tree. *)
Lemma wf_upd s a f s' :
  (∀ n, points_to (f n) = points_to n ∧ children (f n) = children n) →
  vfs_wf s → upd_node a f s = Done s' → vfs_wf s'.
Proof.
  intros Hf Hwf (n & Ha & ->)%upd_node_inv. destruct (Hf n) as [Hp Hc].
  eapply wf_set_node; [done..| |]; rewrite ?Hp, ?Hc; intros; by eauto using wf_children, wf_points.
Qed.

Lemma wf_set_points s a t s' :
  vfs_wf s → is_Some (nodes s !! t) → upd_node a (set_points_to t) s = Done s' → vfs_wf s'.
Proof.
  intros Hwf Ht (n & Ha & ->)%upd_node_inv.
  eapply wf_set_node; [done..| |]; cbn; [by eapply wf_children|done].
Qed.

Lemma wf_err s e : vfs_wf s → vfs_wf (set_err s e).
Proof. by intros [? ? ? ? ?]. Qed.
Lemma wf_root s r : vfs_wf s → vfs_wf (set_root s r).
Proof. by intros [? ? ? ? ?]. Qed.
Lemma wf_table s l : vfs_wf s → vfs_wf (set_table s l).
Proof. by intros [? ? ? ? ?]. Qed.

Lemma wf_upd_mount s a f s' : vfs_wf s → upd_mount a f s = Done s' → vfs_wf s'.
Proof.
  intros [Hh Hn Hm Hc Hp] (mp & Ha%of_option_Done & [= <-])%bind_Done_inv. split; cbn; try done.
  intros b mp' [[<- _]|[_ Hb]]%lookup_insert_Some; by eapply Hm.
Qed.

Lemma push_child_inv (vec_ok : Z → bool) s a c s' :
  vfs_wf s → is_Some (nodes s !! c) → push_child vec_ok a c s = Done s' →
  vfs_wf s' ∧ ∃ n v, nodes s !! a = Some n ∧ s' = set_nodes s (<[a := set_children v n]> (nodes s)) ∧
    (vrep v (kids n) ∨ vrep v (kids n ++ [c])).
Proof.
  intros Hwf Hc (n & Ha%of_option_Done & Hp)%bind_Done_inv.
  apply bind_Done_inv in Hp as ([e v] & Hv & Hu). apply upd_node_inv in Hu as (n' & Ha' & ->).
  rewrite Ha in Ha'. injection Ha' as <-. destruct (wf_kids s a n Hwf Ha) as [Hk Hin].
  destruct (wf_children s Hwf a n Ha) as [Hcap _].
  destruct (vec_push_keeps 8 vec_ok _ _ _ _ _ Hk Hcap ltac:(lia) Hv) as [Hcap' Hr].
  split; [|by exists n, v]. eapply wf_set_node; [done..| |].
  - cbn. split; [done|]. destruct Hr as [Hr|Hr]; eexists; (split; [exact Hr|]); [done|].
    intros d [Hd|Hd%list_elem_of_singleton]%elem_of_app; [by apply Hin|by subst].
  - cbn. by eapply wf_points.
Qed.

Lemma new_node_inv (junk : Z → vnode) t s p s' :
  clean junk → vfs_wf s → new_node junk t s = Done (p, s') →
  vfs_wf s' ∧ nodes s !! p = None ∧ ∃ m h,
    s' = set_nodes (set_mem s m h) (<[p := set_type t (junk p)]> (nodes s)).
Proof.
  intros Hcl Hwf Hnew. unfold new_node in Hnew.
  destruct (malloc_law sizeof_VfsNode (vmem s) (vheap s) (wf_heap s Hwf)) as (q & m & h & Hr & Hok & Hc).
  { unfold sizeof_VfsNode. lia. }
  rewrite Hr in Hnew. cbn [mbind res_bind] in Hnew.
  destruct Hc as [(-> & _)|Hb]; [done|]. pose proof (nb_pos _ _ _ _ _ _ Hb) as Hq.
  destruct (Z.eqb_spec q 0); [lia|]. injection Hnew as <- <-.
  pose proof (nb_live _ _ _ _ _ _ Hb) as Hl.
  assert (nodes s !! q = None) as Hfr.
  { destruct (nodes s !! q) eqn:Hn; [|done]. apply (wf_node s Hwf), (nb_disjoint _ _ _ _ _ _ Hb) in Hn.
    unfold sizeof_VfsNode in Hn. lia. }
  split; [|split; [done|by exists m, h]].
  assert (∀ a, is_Some (nodes s !! a) → is_Some (<[q := set_type t (junk q)]> (nodes s) !! a)) as Hdom
    by (intros a Ha; apply lookup_insert_is_Some'; by right).
  destruct Hwf as [Hh Hn Hm Hch Hp]. destruct (Hcl q) as [Hj1 Hj2]. split; cbn; [done| | | |].
  - intros b nd [[<- _]|[_ Ha]]%lookup_insert_Some; apply Hl; [by right|left; by eapply Hn].
  - intros a mp Ha. apply Hl. left. by eapply Hm.
  - intros a nd [[_ <-]|[_ Ha]]%lookup_insert_Some; cbn.
    + rewrite Hj2. split; [cbn; lia|]. exists []. split; [apply vrep_init|]. by intros c ?%elem_of_nil.
    + destruct (Hch a nd Ha) as (? & cs & ? & Hcs). split; [done|]. exists cs. split; [done|].
      intros c Hin. by apply Hdom, Hcs.
  - intros a nd [[_ <-]|[_ Ha]]%lookup_insert_Some; cbn; [by rewrite Hj1|].
    intros Hz. apply Hdom. by eapply Hp.
Qed.

(** While the heap has room, it succeeds. *)
Lemma new_node_room (junk : Z → vnode) t s k :
  vfs_wf s → room (S k) (vheap s) → ∃ p s', new_node junk t s = Done (p, s') ∧ room k (vheap s').
Proof.
  intros Hwf Hroom.
  destruct (malloc_law sizeof_VfsNode (vmem s) (vheap s) (wf_heap s Hwf)) as (q & m & h & Hr & _).
  { unfold sizeof_VfsNode. lia. }
  destruct (room_law k sizeof_VfsNode _ _ _ _ _ (wf_heap s Hwf) Hroom ltac:(unfold sizeof_VfsNode, small; lia) Hr)
    as [Hq Hk].
  unfold new_node. rewrite Hr. cbn [mbind res_bind]. rewrite (proj2 (Z.eqb_neq q 0)) by done.
  eexists _, _. split; [done|]. done.
Qed.

Lemma new_mount_inv s p s' :
  vfs_wf s → new_mount s = Done (p, s') →
  vfs_wf s' ∧ ∃ m h ms, s' = set_mounts (set_mem s m h) ms.
Proof.
  intros Hwf Hnew. unfold new_mount in Hnew.
  destruct (malloc_law sizeof_Mountpoint (vmem s) (vheap s) (wf_heap s Hwf)) as (q & m & h & Hr & Hok & Hc).
  { unfold sizeof_Mountpoint. lia. }
  rewrite Hr in Hnew. cbn [mbind res_bind] in Hnew. injection Hnew as <- <-.
  split; [|by eexists _, _, _]. destruct Hwf as [Hh Hn Hm Hch Hp].
  destruct Hc as [(-> & -> & Hl)|Hb].
  - cbn. split; cbn; try done; intros; apply Hl; by eauto.
  - pose proof (nb_pos _ _ _ _ _ _ Hb). rewrite (proj2 (Z.eqb_neq q 0)) by lia.
    pose proof (nb_live _ _ _ _ _ _ Hb) as Hl. split; cbn; [done| | |done|done].
    + intros a n Ha. apply Hl. left. by eapply Hn.
    + intros a mp [[<- _]|[_ Ha]]%lookup_insert_Some; apply Hl; [by right|left; by eapply Hm].
Qed.

(** ** Every operation keeps the invariant *)

(** [s'] is a good state in which everything that was in [s] is still there. *)
Record grows s s' : Prop := Grows {
  gr_wf : vfs_wf s';
  gr_dom a : is_Some (nodes s !! a) → is_Some (nodes s' !! a);
  gr_root : root s' = root s;
}.

Definition vfs_inv s : Prop := vfs_wf s ∧ (is_Some (nodes s !! root s) ∨ root s = 0).

Lemma grows_refl s : vfs_wf s → grows s s.
Proof. by split. Qed.

Lemma grows_inv s s' : vfs_inv s → grows s s' → vfs_inv s'.
Proof.
  intros [Hwf Hr] [Hwf' Hd Hroot]. split; [done|]. rewrite Hroot.
  destruct Hr; [left; by apply Hd|by right].
Qed.

Lemma grows_insert s a n n' : nodes s !! a = Some n →
  vfs_wf (set_nodes s (<[a := n']> (nodes s))) → grows s (set_nodes s (<[a := n']> (nodes s))).
Proof. intros Ha Hwf. split; [done| |done]. intros b Hb. apply lookup_insert_is_Some'. by right. Qed.

Lemma upd_grows s a f s' :
  vfs_wf s → upd_node a f s = Done s' → (vfs_wf s → upd_node a f s = Done s' → vfs_wf s') →
  grows s s'.
Proof.
  intros Hwf Hu Hw. specialize (Hw Hwf Hu). apply upd_node_inv in Hu as (n & Ha & ->).
  by eapply grows_insert.
Qed.

Lemma field_grows s a f s' :
  vfs_wf s → upd_node a f s = Done s' →
  (∀ n, points_to (f n) = points_to n ∧ children (f n) = children n) → grows s s'.
Proof. intros Hwf Hu Hf. eapply upd_grows; [done..|]. intros. by eapply wf_upd. Qed.

Lemma points_grows s a t s' :
  vfs_wf s → upd_node a (set_points_to t) s = Done s' → is_Some (nodes s !! t) → grows s s'.
Proof. intros Hwf Hu Ht. eapply upd_grows; [done..|]. intros. by eapply wf_set_points. Qed.

Lemma init_grows s a s' :
  vfs_wf s → upd_node a (set_children vec_init) s = Done s' → grows s s'.
Proof.
  intros Hwf Hu. eapply upd_grows; [done..|]. intros _ (n & Ha & ->)%upd_node_inv.
  eapply wf_set_node; [done..| |]; cbn; [|by eapply wf_points].
  split; [lia|]. exists []. split; [apply vrep_init|]. by intros c ?%elem_of_nil.
Qed.

Lemma new_node_grows (junk : Z → vnode) t s p s' :
  vfs_wf s → new_node junk t s = Done (p, s') → clean junk → grows s s' ∧ is_Some (nodes s' !! p).
Proof.
  intros Hwf Hr Hcl. destruct (new_node_inv junk t s p s') as (Hwf' & _ & m & h & ->); [done..|].
  split; [split; [done| |done]|]; cbn.
  - intros a Ha. apply lookup_insert_is_Some'. by right.
  - rewrite lookup_insert_eq. by eexists.
Qed.

Lemma new_mount_grows s p s' : vfs_wf s → new_mount s = Done (p, s') → grows s s'.
Proof.
  intros Hwf Hr. destruct (new_mount_inv s p s') as (Hwf' & m & h & ms & ->); [done..|]. by split.
Qed.

Lemma upd_mount_grows s a f s' : vfs_wf s → upd_mount a f s = Done s' → grows s s'.
Proof.
  intros Hwf Hr. split; [by eapply wf_upd_mount| |]; by apply bind_Done_inv in Hr as (mp & _ & [= <-]).
Qed.

Lemma malloc_grows (n : Z) s p m h :
  vfs_wf s → malloc n (vmem s) (vheap s) = Done (p, (m, h)) → 0 ≤ n < 2 ^ 31 →
  grows s (set_mem s m h).
Proof.
  intros Hwf Hr Hn.
  destruct (malloc_law n (vmem s) (vheap s) (wf_heap s Hwf) Hn) as (q & m' & h' & Hr' & Hok & Hc).
  rewrite Hr in Hr'. apply Done_triple_inj in Hr' as (<- & <- & <-). split; [|done|done].
  assert (∀ a k, live (vheap s) a k → live h a k) as Hl.
  { destruct Hc as [(_ & _ & Hl)|Hb]; intros a k Ha; [by apply Hl|].
    apply (nb_live _ _ _ _ _ _ Hb). by left. }
  destruct Hwf as [_ Hnd Hm Hch Hp]. split; cbn; [done| | |done|done]; intros; apply Hl; by eauto.
Qed.

Lemma push_grows (vec_ok : Z → bool) s a c s' :
  vfs_wf s → push_child vec_ok a c s = Done s' → is_Some (nodes s !! c) → grows s s'.
Proof.
  intros Hwf Hr Hc. destruct (push_child_inv vec_ok s a c s') as (Hwf' & n & v & Ha & -> & _); [done..|].
  by eapply grows_insert.
Qed.

Lemma add_mountpoint_grows s a s' : vfs_wf s → add_mountpoint a s = Done s' → grows s s'.
Proof.
  intros Hwf Hr. apply bind_Done_inv in Hr as (n & _ & Hr). apply bind_Done_inv in Hr as (mp & _ & Hr).
  case_bool_decide; [|done]. injection Hr as <-. split; [by apply wf_table|done|done].
Qed.

Lemma get_parent_grows s path a s' :
  vfs_wf s → vfs_get_parent (root s) path s = Done (a, s') → (is_Some (nodes s !! root s) ∨ root s = 0) →
  grows s s' ∧ (is_Some (nodes s' !! a) ∨ a = 0).
Proof.
  intros Hwf Hr Hroot. destruct (vfs_get_parent_in s (root s) path a s') as [Ha Hs]; [done..|].
  destruct Hs as [->|(-> & ->)]; (split; [|done]); [by apply grows_refl|].
  split; [by apply wf_err|done|done].
Qed.

Lemma find_node_in s a nm x :
  vfs_wf s → vfs_find_node a nm s = Done x → is_Some (nodes s !! x) ∨ x = 0.
Proof.
  intros Hwf Hf. destruct (nodes s !! a) as [n|] eqn:Ha.
  - rewrite (vfs_find_node_spec s a n) in Hf by done. injection Hf as <-.
    destruct (decide (lookup_name (nodes s) a nm = 0)); [by right|left].
    destruct (lookup_name_in s a nm) as (t & ? & _); [done..|by exists t].
  - unfold vfs_find_node, node_at in Hf. by rewrite Ha in Hf.
Qed.
End spec.

(** [run_vfs]: goes through the binds of a run that returned, with what each step
    keeps. *)
Ltac vfs_fact Hs :=
  first
    [ apply new_node_grows in Hs as [[? ? ?] ?]; [|assumption..]
    | apply new_mount_grows in Hs as [? ? ?]; [|assumption..]
    | apply init_grows in Hs as [? ? ?]; [|assumption..]
    | apply points_grows in Hs as [? ? ?]; [|by eauto 20 ..]
    | apply field_grows in Hs as [? ? ?]; [|assumption|by intros]
    | apply upd_mount_grows in Hs as [? ? ?]; [|assumption..]
    | apply push_grows in Hs as [? ? ?]; [|by eauto 20 ..]
    | apply add_mountpoint_grows in Hs as [? ? ?]; [|assumption..]
    | idtac ].
Ltac run_vfs H :=
  repeat (let x := fresh "x" in let Hs := fresh "Hs" in
    apply bind_Done_inv in H as (x & Hs & H);
    try match type of x with (_ * _)%type => destruct x end;
    vfs_fact Hs).

(** What is in the tree stays in it, the root stays the root. *)
Ltac grow_tac := cbn [nodes root set_err set_nodes set_mem]; first [assumption | by (intros; eauto 30) | congruence |
  repeat match goal with G : root _ = root _ |- _ => rewrite G; clear G end;
  match goal with Hr : _ ∨ root _ = 0 |- _ => destruct Hr; [left; by eauto 30|by right] end].

Section steps.
Context {H : Type} `{HeapLaws H} (junk : Z → vnode) (vec_ok : Z → bool) (Hclean : clean junk).
Implicit Types (s : vfs H).

Lemma mkdir_grows s path r s' :
  vfs_inv s → vfs_mkdir junk vec_ok path s = Done (r, s') →
  grows s s' ∧ (is_Some (nodes s' !! r) ∨ r = 0).
Proof.
  intros [Hwf Hroot] Hr. unfold vfs_mkdir in Hr. run_vfs Hr. destruct (negb (is_root path)).
  - apply bind_Done_inv in Hr as ([par sp] & Hs & Hr). apply get_parent_grows in Hs; [|grow_tac..].
    destruct Hs as [[? ? ?] Hpar]. run_vfs Hr. destruct (Z.eqb_spec par 0).
    + injection Hr as <- <-. split; [|by right]. split; [by apply wf_err|grow_tac|grow_tac].
    + destruct Hpar as [Hpar|?]; [|done]. run_vfs Hr. injection Hr as <- <-.
      split; [split; grow_tac|left; grow_tac].
  - run_vfs Hr. injection Hr as <- <-. split; [split; grow_tac|left; grow_tac].
Qed.

Lemma open_grows s start path flags r s' :
  vfs_inv s → vfs_open junk vec_ok start path flags s = Done (r, s') →
  grows s s' ∧ (is_Some (nodes s' !! r) ∨ r = 0).
Proof.
  intros [Hwf Hroot] Hr. unfold vfs_open in Hr.
  apply bind_Done_inv in Hr as ([par sp] & Hs & Hr). apply get_parent_grows in Hs; [|grow_tac..].
  destruct Hs as [[? ? ?] Hpar]. destruct (Z.eqb_spec par 0).
  { injection Hr as <- <-. split; [|by right]. split; [by apply wf_err|grow_tac|grow_tac]. }
  destruct Hpar as [Hpar|?]; [|done].
  apply bind_Done_inv in Hr as (node & Hs & Hr). apply find_node_in in Hs; [|grow_tac..].
  apply bind_Done_inv in Hr as ([] & _ & Hr).
  { injection Hr as <- <-. split; [|by right]. split; [by apply wf_err|grow_tac|grow_tac]. }
  destruct (negb (Z.land flags O_CREAT =? 0)); destruct (Z.eqb_spec node 0); cbn [negb] in Hr.
  - run_vfs Hr. match goal with p : (_ * _)%type |- _ => destruct p end.
    match goal with M : malloc _ _ _ = _ |- _ => apply malloc_grows in M as [? ? ?]; [|grow_tac|lia] end.
    run_vfs Hr. injection Hr as <- <-. split; [split; grow_tac|left; grow_tac].
  - destruct Hs as [Hs|?]; [|done]. run_vfs Hr. injection Hr as <- <-.
    split; [split; grow_tac|left; grow_tac].
  - injection Hr as <- <-. split; [|by right]. split; [by apply wf_err|grow_tac|grow_tac].
  - run_vfs Hr. injection Hr as <- <-. destruct Hs as [Hs|?]; [|done].
    split; [split; grow_tac|left]. destruct (negb (points_to _ =? 0)) eqn:Hp; [|grow_tac].
    apply negb_true_iff, Z.eqb_neq in Hp. eapply wf_points; [done| |done].
    by apply of_option_Done.
Qed.

Lemma mount_inv s where_ f r s' :
  vfs_inv s → vfs_mount junk vec_ok where_ f s = Done (r, s') → vfs_inv s'.
Proof.
  intros Hinv Hr. pose proof Hinv as [Hwf Hroot]. unfold vfs_mount in Hr.
  destruct (Z.eqb_spec (root s) 0); apply bind_Done_inv in Hr as ([node s1] & Hs & Hr);
    apply mkdir_grows in Hs; try done; destruct Hs as [Hg Hnode].
  - destruct Hg as [Hwf1 Hd1 Hr1]. cbv zeta in Hr.
    assert (vfs_wf (set_root s1 node)) by by apply wf_root.
    run_vfs Hr. injection Hr as _ <-. split; [done|].
    match goal with |- _ ∨ root ?y = 0 => assert (root y = node) as -> by (cbn in *; congruence) end.
    destruct Hnode as [Hnode|?]; [left|by right].
    assert (is_Some (nodes (set_root s1 node) !! node)) by done. eauto 20.
  - pose proof (grows_inv _ _ Hinv Hg) as [Hwf1 Hroot1]. run_vfs Hr. injection Hr as _ <-.
    split; [done|]. grow_tac.
Qed.
End steps.

(** ** Adding an entry *)

Lemma path_of_app cs ds : path_of (cs ++ ds) = path_of cs ++ path_of ds.
Proof. induction cs as [|c cs IH]; cbn; [done|]. by rewrite IH, (assoc_L (++)). Qed.

Lemma after_slash_last s c : 0x2f ∉ c → after_slash (s ++ 0x2f :: c) = c.
Proof.
  intros Hc. rewrite (after_slash_drop _ (length s)) by by apply list_lookup_middle.
  rewrite drop_app_ge by lia. replace (S (length s) - length s)%nat with 1%nat by lia.
  by apply after_slash_none.
Qed.

Lemma basename_path_of cs c : is_name c → basename_of (path_of (cs ++ [c])) = c.
Proof.
  intros [Hne Hc]. rewrite basename_of_eq, path_of_app. cbn [path_of]. rewrite app_nil_r.
  rewrite bool_decide_true; [by apply after_slash_last|]. split.
  - destruct cs; [done|]. by cbn.
  - rewrite length_app. destruct c; [done|]. simpl. lia.
Qed.

Lemma path_of_root cs c : is_name c → is_root (path_of (cs ++ [c])) = false.
Proof.
  intros [Hne Hc]. apply bool_decide_eq_false. intros Heq. apply (f_equal length) in Heq.
  rewrite path_of_app, length_app in Heq. destruct c; [done|]. simpl in Heq. lia.
Qed.

(** From [ns] to [ns'] the node [x] of name [nm] became the last child of [par]. *)
Record linked (ns ns' : gmap Z vnode) (par x : Z) (nm : list Z) : Prop := Linked {
  lk_par : ∃ p p', ns !! par = Some p ∧ ns' !! par = Some p' ∧ name p' = name p ∧
    points_to p' = points_to p ∧ kids p' = kids p ++ [x];
  lk_fresh : ns !! x = None;
  lk_new : ∃ n, ns' !! x = Some n ∧ name n = nm;
  lk_old a : is_Some (ns !! a) → a ≠ par → ns' !! a = ns !! a;
  lk_null : ns' !! 0 = None;
  lk_kind p p' : ns !! par = Some p → ns' !! par = Some p' →
    n_type p' = n_type p ∧ mountpoint p' = mountpoint p;
}.

(** Aliases have no entries of their own. *)
Definition aliases (ns : gmap Z vnode) : Prop := ∀ a n, ns !! a = Some n → points_to n ≠ 0 → kids n = [].

Lemma find_name_ext ns ns' cs nm :
  (∀ c, c ∈ cs → name <$> ns' !! c = name <$> ns !! c) → find_name ns' cs nm = find_name ns cs nm.
Proof.
  induction cs as [|c cs IH]; intros Hc; cbn [find_name]; [done|].
  rewrite IH by (intros; apply Hc; by right). by rewrite Hc by by left.
Qed.

(** What looking a name up depends on. *)
Definition shape (n : vnode) : Z * vec Z * list Z := (points_to n, children n, name n).

Lemma lookup_name_shape (ns ns' : gmap Z vnode) a nm :
  (∀ b, shape <$> ns' !! b = shape <$> ns !! b) → lookup_name ns' a nm = lookup_name ns a nm.
Proof.
  intros Hs.
  assert (∀ cs, find_name ns' cs nm = find_name ns cs nm) as Hf.
  { intros cs. apply find_name_ext. intros c _. specialize (Hs c).
    destruct (ns' !! c), (ns !! c); try done. cbn in *. by injection Hs as _ _ ->. }
  assert (∀ b n n', ns !! b = Some n → ns' !! b = Some n' → points_to n' = points_to n ∧ kids n' = kids n) as Hk.
  { intros b n n' Hb Hb'. specialize (Hs b). rewrite Hb, Hb' in Hs. injection Hs as Hp Hc _.
    unfold kids. by rewrite Hp, Hc. }
  unfold lookup_name. pose proof (Hs a) as Ha.
  destruct (ns !! a) as [n|] eqn:Hn, (ns' !! a) as [n'|] eqn:Hn'; try done.
  destruct (Hk a n n' Hn Hn') as [-> ->]. rewrite Hf. pose proof (Hs (points_to n)) as Ht.
  destruct (ns !! points_to n) as [t|] eqn:Hnt, (ns' !! points_to n) as [t'|] eqn:Hnt'; try done.
  destruct (Hk _ t t' Hnt Hnt') as [_ ->]. by rewrite Hf.
Qed.

Lemma walk_shape (ns ns' : gmap Z vnode) a cs :
  (∀ b, shape <$> ns' !! b = shape <$> ns !! b) → walk ns' a cs = walk ns a cs.
Proof.
  intros Hs. revert a. induction cs as [|c cs IH]; intros a; [done|]. cbn [walk foldl].
  rewrite (lookup_name_shape ns ns') by done. apply IH.
Qed.

Lemma find_name_app ns cs x nm :
  ns !! 0 = None →
  find_name ns (cs ++ [x]) nm =
    (if find_name ns cs nm =? 0 then if bool_decide (name <$> ns !! x = Some nm) then x else 0
     else find_name ns cs nm).
Proof.
  intros Hz. induction cs as [|c cs IH]; [done|]. cbn [find_name app].
  destruct (bool_decide_reflect (name <$> ns !! c = Some nm)) as [Hc|]; [|exact IH].
  destruct (Z.eqb_spec c 0) as [->|]; [by rewrite Hz in Hc|done].
Qed.

Section link.
Context {H : Type} `{HeapLaws H}.
Context (s : vfs H) (ns' : gmap Z vnode) (par x : Z) (nm : list Z).
Context (Hwf : vfs_wf s) (Hlk : linked (nodes s) ns' par x nm).

Lemma linked_name a : is_Some (nodes s !! a) → name <$> ns' !! a = name <$> nodes s !! a.
Proof.
  intros Ha. destruct (decide (a = par)) as [->|Hne].
  - destruct (lk_par _ _ _ _ _ Hlk) as (p & p' & -> & -> & Hn & _). cbn. by rewrite Hn.
  - by rewrite (lk_old _ _ _ _ _ Hlk).
Qed.

Lemma linked_find a n c : nodes s !! a = Some n →
  find_name ns' (kids n) c = find_name (nodes s) (kids n) c.
Proof. intros Ha. apply find_name_ext. intros k Hk. by eapply linked_name, wf_kids. Qed.

Lemma linked_find_par p c : nodes s !! par = Some p →
  find_name ns' (kids p ++ [x]) c =
    (if find_name (nodes s) (kids p) c =? 0 then if bool_decide (c = nm) then x else 0
     else find_name (nodes s) (kids p) c).
Proof.
  intros Hp. rewrite find_name_app by by eapply lk_null. rewrite (linked_find par p) by done.
  destruct (lk_new _ _ _ _ _ Hlk) as (n & -> & Hn). cbn.
  by rewrite same_name, Hn.
Qed.

(** What the directory itself now has. *)
Lemma linked_lookup c :
  lookup_name ns' par c =
    (if lookup_name (nodes s) par c =? 0 then if bool_decide (c = nm) then x else 0
     else lookup_name (nodes s) par c).
Proof.
  destruct (lk_par _ _ _ _ _ Hlk) as (p & p' & Hp & Hp' & _ & Hpt & Hk).
  unfold lookup_name. rewrite Hp, Hp', Hpt, Hk, (linked_find_par p c Hp).
  destruct (decide (points_to p = 0)) as [Hz|Hz].
  { rewrite Hz, (lk_null _ _ _ _ _ Hlk), wf_null by done. done. }
  destruct (wf_points s Hwf par p Hp Hz) as [t Ht]. rewrite Ht.
  destruct (decide (points_to p = par)) as [Hpp|Hne].
  - rewrite Hpp in *. rewrite Hp'. assert (t = p) as -> by congruence.
    rewrite Hk, (linked_find_par p c Hp).
    destruct (Z.eqb_spec (find_name (nodes s) (kids p) c) 0) as [Hf|Hf].
    + rewrite Hf. cbn. case_bool_decide; [|done]. by destruct (Z.eqb_spec x 0).
    + cbn. by rewrite ?(proj2 (Z.eqb_neq _ _) Hf).
  - rewrite (lk_old _ _ _ _ _ Hlk) by (rewrite ?Ht; done). rewrite Ht, (linked_find _ t c Ht).
    destruct (Z.eqb_spec (find_name (nodes s) (kids t) c) 0) as [Hf|Hf]; [done|].
    cbn. by rewrite ?(proj2 (Z.eqb_neq _ _) Hf).
Qed.

(** Other directories have what they had. *)
Lemma linked_other a n c : nodes s !! a = Some n → a ≠ par → points_to n ≠ par →
  lookup_name ns' a c = lookup_name (nodes s) a c.
Proof.
  intros Ha Hne Hpt. unfold lookup_name. rewrite (lk_old _ _ _ _ _ Hlk), Ha by (rewrite ?Ha; done).
  rewrite (linked_find a n c Ha). destruct (decide (points_to n = 0)) as [Hz|Hz].
  { by rewrite Hz, (lk_null _ _ _ _ _ Hlk), wf_null. }
  destruct (wf_points s Hwf a n Ha Hz) as [t Ht].
  rewrite (lk_old _ _ _ _ _ Hlk), Ht by (rewrite ?Ht; done). by rewrite (linked_find _ t c Ht).
Qed.

(** No entry was made under an alias of [par]. *)
Definition plain : Prop :=
  ∀ a n, nodes s !! a = Some n → points_to n = par → a ≠ par → kids n = [].

(** A name that was found still leads to the same node. *)
Lemma linked_mono a c : plain → is_Some (nodes s !! a) → lookup_name (nodes s) a c ≠ 0 →
  lookup_name ns' a c = lookup_name (nodes s) a c.
Proof.
  intros Hpl [n Ha] Hz. destruct (decide (a = par)) as [->|Hne].
  { by rewrite linked_lookup, (proj2 (Z.eqb_neq _ _) Hz). }
  destruct (decide (points_to n = par)) as [Hpt|]; [|by eapply linked_other].
  destruct (lk_par _ _ _ _ _ Hlk) as (p & p' & Hp & Hp' & _ & _ & Hk).
  unfold lookup_name in *. rewrite (lk_old _ _ _ _ _ Hlk), Ha in * by (rewrite ?Ha; done).
  rewrite (Hpl a n Ha Hpt Hne), Hpt, Hp, Hp', Hk, (linked_find_par p c Hp) in *. cbn in *.
  destruct (Z.eqb_spec (find_name (nodes s) (kids p) c) 0) as [Hf|Hf]; [done|].
  cbn. by rewrite ?(proj2 (Z.eqb_neq _ _) Hf).
Qed.

Lemma linked_walk a cs : plain → is_Some (nodes s !! a) → walk (nodes s) a cs ≠ 0 →
  walk ns' a cs = walk (nodes s) a cs.
Proof.
  intros Hpl. revert a. induction cs as [|c cs IH]; intros a Ha Hz; [done|]. cbn in *.
  destruct (decide (lookup_name (nodes s) a c = 0)) as [H0c|H0c].
  { rewrite H0c in Hz. exfalso. by apply Hz, walk_zero. }
  rewrite linked_mono by done. apply IH; [|done].
  destruct (lookup_name_in s a c) as (t & ? & _); [done..|]. by exists t.
Qed.
End link.

(** ** What the operations do *)

Section run.
Context {H : Type} `{HeapLaws H} (junk : Z → vnode) (vec_ok : Z → bool) (limit : Z).
Context (Hclean : clean junk) (Hlimit : limit ≤ 2 ^ 31).
Context (Hrealloc : ∀ b, 0 ≤ b < limit → vec_ok b = true).
Implicit Types (s : vfs H).

(** Nodes that are in no directory yet do not count. *)
Definition agrees (ns ns' : gmap Z vnode) : Prop :=
  ns' !! 0 = None ∧ ∀ a, is_Some (ns !! a) → ns' !! a = ns !! a.

Lemma agrees_lookup s ns' a c : vfs_wf s → agrees (nodes s) ns' → is_Some (nodes s !! a) →
  lookup_name ns' a c = lookup_name (nodes s) a c.
Proof.
  intros Hwf [Hz Hag] [n Ha]. unfold lookup_name. rewrite Hag, Ha by (by rewrite Ha).
  assert (∀ t m, nodes s !! t = Some m →
    find_name ns' (kids m) c = find_name (nodes s) (kids m) c) as Hf.
  { intros t m Ht. apply find_name_ext. intros k Hk. rewrite Hag; [done|]. destruct (wf_kids s t m) as [_ Hin]; [done..|]. by apply Hin. }
  rewrite (Hf a n Ha). destruct (decide (points_to n = 0)) as [Hp|Hp].
  { by rewrite Hp, Hz, wf_null. }
  destruct (wf_points s Hwf a n Ha Hp) as [t Ht]. rewrite Hag, Ht by (by rewrite Ht).
  by rewrite (Hf _ t Ht).
Qed.

Lemma agrees_walk s ns' a cs : vfs_wf s → agrees (nodes s) ns' → is_Some (nodes s !! a) →
  walk (nodes s) a cs ≠ 0 → walk ns' a cs = walk (nodes s) a cs.
Proof.
  intros Hwf Hag. revert a. induction cs as [|c cs IH]; intros a Ha Hz; [done|]. cbn in *.
  destruct (decide (lookup_name (nodes s) a c = 0)) as [H0c|H0c].
  { rewrite H0c in Hz. exfalso. by apply Hz, walk_zero. }
  rewrite (agrees_lookup s) by done. apply IH; [|done].
  destruct (lookup_name_in s a c) as (t & ? & _); [done..|]. by exists t.
Qed.

(** One write: the state after it. *)
Record wrote s (ns : gmap Z vnode) s' : Prop := Wrote {
  wr_wf : vfs_wf s';
  wr_nodes : nodes s' = ns;
  wr_heap : vheap s' = vheap s;
  wr_root : root s' = root s;
  wr_glob : vglob s' = vglob s;
  wr_mounts : mounts s' = mounts s;
}.

(** One more child, when the vector can grow. *)
Lemma push_child_ok s a n c :
  vfs_wf s → nodes s !! a = Some n → is_Some (nodes s !! c) →
  fits 8 limit (length (kids n) + 1) = true →
  ∃ v s', push_child vec_ok a c s = Done s' ∧ kids (set_children v n) = kids n ++ [c] ∧
    wrote s (<[a := set_children v n]> (nodes s)) s'.
Proof.
  intros Hwf Ha Hc Hf. destruct (wf_kids s a n Hwf Ha) as [Hk _].
  destruct (push_ok 8 limit vec_ok ltac:(lia) Hlimit Hrealloc _ _ c Hk Hf) as (v & Hv & Hv').
  assert (push_child vec_ok a c s = Done (set_nodes s (<[a := set_children v n]> (nodes s)))) as Hr.
  { unfold push_child, node_at. rewrite Ha. cbn [of_option mbind res_bind]. rewrite Hv.
    cbn [mbind res_bind]. by apply upd_node_eq. }
  exists v, (set_nodes s (<[a := set_children v n]> (nodes s))).
  split; [done|]. split; [by eapply vrep_kids|]. split; [|done..]. by eapply push_grows.
Qed.

(** The path of [c] in the directory that [cs] leads to. *)
Record in_dir s (cs : list (list Z)) (c : list Z) (par : Z) (p : vnode) : Prop := InDir {
  id_names : Forall is_name (cs ++ [c]);
  id_root : is_Some (nodes s !! root s);
  id_walk : walk (nodes s) (root s) cs = par;
  id_par : nodes s !! par = Some p;
}.

Lemma in_dir_parent s s1 cs c par p :
  vfs_wf s → vfs_wf s1 → in_dir s cs c par p → agrees (nodes s) (nodes s1) → root s1 = root s →
  vfs_get_parent (root s1) (path_of (cs ++ [c])) s1 = Done (par, s1).
Proof.
  intros Hwf Hwf1 [Hn Hr Hw Hp] Hag Hr1. pose proof (wf_pos s par p Hwf Hp).
  rewrite (vfs_get_parent_spec s1); [|done| |done].
  2: { rewrite Hr1. destruct Hag as [_ Hag]. by rewrite Hag. }
  assert (walk (nodes s1) (root s1) cs = par) as Hw1.
  { rewrite Hr1, (agrees_walk s) by (rewrite ?Hw; done || lia). done. }
  rewrite (descend_walk s1) by (rewrite ?Hw1; done || lia). by rewrite Hw1.
Qed.
Lemma upd_ok s a n ns f :
  vfs_wf s → nodes s = <[a := n]> ns →
  (∀ n, points_to (f n) = points_to n ∧ children (f n) = children n) →
  ∃ s', upd_node a f s = Done s' ∧ wrote s (<[a := f n]> ns) s'.
Proof.
  intros Hwf Hns Hf. assert (nodes s !! a = Some n) as Ha by (rewrite Hns; apply lookup_insert_eq).
  pose proof (upd_node_eq s a n f Ha) as Hu. eexists. split; [exact Hu|].
  split; [by eapply wf_upd| |done..]. cbn. by rewrite Hns, insert_insert_eq.
Qed.

Lemma new_node_live t s p s' q k :
  vfs_wf s → new_node junk t s = Done (p, s') → live (vheap s) q k → live (vheap s') q k.
Proof.
  intros Hwf ([x [m h]] & Hr & Hd)%bind_Done_inv Hq.
  destruct (malloc_law sizeof_VfsNode (vmem s) (vheap s) (wf_heap s Hwf)) as (y & m1 & h1 & Hr1 & _ & Hc).
  { unfold sizeof_VfsNode. lia. }
  rewrite Hr in Hr1. apply Done_triple_inj in Hr1 as (<- & <- & <-).
  destruct (x =? 0); [done|]. injection Hd as _ <-. cbn.
  destruct Hc as [(_ & _ & Hl)|Hb]; [by apply Hl|apply (nb_live _ _ _ _ _ _ Hb); by left].
Qed.

Lemma new_node_ok t s k :
  vfs_wf s → room (S k) (vheap s) →
  ∃ p s', new_node junk t s = Done (p, s') ∧ vfs_wf s' ∧ nodes s !! p = None ∧
    nodes s' = <[p := set_type t (junk p)]> (nodes s) ∧ room k (vheap s') ∧
    root s' = root s ∧ vglob s' = vglob s.
Proof.
  intros Hwf Hk. destruct (new_node_room junk t s k Hwf Hk) as (p & s' & Hr & Hk').
  exists p, s'. destruct (new_node_inv junk t s p s') as (? & ? & m & h & ->); done.
Qed.

(** [..] and [.]: a node that points to another. *)
Lemma new_alias_ok t nm s k :
  vfs_wf s → is_Some (nodes s !! t) → room (S k) (vheap s) →
  ∃ p s',
    (∀ A (K : Z → vfs H → res A),
      ('(p, s) ← new_node junk VFS_DIRECTORY s;
       s ← upd_node p (set_name nm) s; s ← upd_node p (set_points_to t) s; K p s) = K p s') ∧
    vfs_wf s' ∧ nodes s !! p = None ∧
    nodes s' = <[p := set_points_to t (set_name nm (set_type VFS_DIRECTORY (junk p)))]> (nodes s) ∧
    room k (vheap s') ∧ root s' = root s ∧ vglob s' = vglob s.
Proof.
  intros Hwf Ht Hk.
  destruct (new_node_ok VFS_DIRECTORY s k Hwf Hk) as (p & s1 & Hr & Hwf1 & Hfr & Hn1 & Hk1 & Hr1 & Hg1).
  destruct (upd_ok s1 p _ _ (set_name nm) Hwf1 Hn1) as (s2 & Hs2 & [Hwf2 Hn2 Hh2 Hr2 Hg2]); [by intros|].
  assert (nodes s2 !! p = Some (set_name nm (set_type VFS_DIRECTORY (junk p)))) as Hp2
    by (rewrite Hn2; apply lookup_insert_eq).
  pose proof (upd_node_eq s2 p _ (set_points_to t) Hp2) as Hs3.
  eexists p, _. split.
  { intros A K. rewrite Hr. cbn [mbind res_bind]. rewrite Hs2. cbn [mbind res_bind]. by rewrite Hs3. }
  cbn [nodes vheap root vglob set_nodes]. split; [|split; [done|split; [|split]]].
  - eapply wf_set_points; [exact Hwf2| |exact Hs3]. destruct (decide (t = p)) as [->|Hne]; [by eexists|].
    by rewrite Hn2, lookup_insert_ne.
  - by rewrite Hn2, insert_insert_eq.
  - by rewrite Hh2.
  - by rewrite Hr2, Hg2.
Qed.

(** A fresh node linked into [par]. *)
Lemma linked_push ns par p x n nm v :
  ns !! 0 = None → x ≠ 0 → ns !! x = None → ns !! par = Some p →
  name n = nm → kids (set_children v p) = kids p ++ [x] →
  ∀ ns', ns' !! x = Some n → (∀ a, is_Some (ns !! a) → ns' !! a = ns !! a) → ns' !! 0 = None →
  linked ns (<[par := set_children v p]> ns') par x nm.
Proof.
  intros Hz Hx Hfr Hp Hnm Hk ns' Hn Hold Hz'.
  assert (x ≠ par) by congruence. assert (par ≠ 0) by congruence. split.
  - exists p, (set_children v p). rewrite lookup_insert_eq. done.
  - done.
  - exists n. by rewrite lookup_insert_ne.
  - intros a Ha Hne. rewrite lookup_insert_ne by done. by apply Hold.
  - by rewrite lookup_insert_ne.
  - intros q q' Hq Hq'. rewrite lookup_insert_eq in Hq'. by simplify_eq.
Qed.

Lemma aliases_insert ns a n : aliases ns → (points_to n ≠ 0 → kids n = []) → aliases (<[a := n]> ns).
Proof. intros Ha Hn b k Hb. apply lookup_insert_Some in Hb as [[_ <-]|[_ Hb]]; [done|by eapply Ha]. Qed.

(** The directory node before its entries are made. *)
Lemma new_dir_ok s cs c par p k rn :
  vfs_wf s → in_dir s cs c par p → nodes s !! root s = Some rn → room (S k) (vheap s) →
  ∃ N n s', vfs_wf s' ∧ nodes s !! N = None ∧ nodes s' = <[N := n]> (nodes s) ∧
    n_type n = VFS_DIRECTORY ∧ name n = c ∧ parent n = par ∧ mountpoint n = mountpoint rn ∧
    kids n = [] ∧ children n = vec_init ∧ points_to n = 0 ∧
    room k (vheap s') ∧ root s' = root s ∧ vglob s' = vglob s ∧
    vfs_mkdir junk vec_ok (path_of (cs ++ [c])) s =
      ('(P, s) ← new_node junk VFS_DIRECTORY s';
       s ← upd_node P (set_name [0x2e; 0x2e]) s; s ← upd_node P (set_points_to par) s;
       '(C, s) ← new_node junk VFS_DIRECTORY s;
       s ← upd_node C (set_name [0x2e]) s; s ← upd_node C (set_points_to N) s;
       s ← push_child vec_ok N P s; s ← push_child vec_ok N C s;
       s ← push_child vec_ok par N s; Done (N, s)).
Proof.
  intros Hwf Hd Hrn Hk. pose proof Hd as [Hnames _ _ Hp].
  apply Forall_app in Hnames as [_ Hc%Forall_cons_1]. destruct Hc as [Hc _].
  destruct (new_node_ok VFS_DIRECTORY s k Hwf Hk) as (N & s1 & Hr & Hwf1 & Hfr & Hn1 & Hk1 & Hr1 & Hg1).
  assert (nodes s1 !! N = Some (set_type VFS_DIRECTORY (junk N))) as H1' by (rewrite Hn1; apply lookup_insert_eq).
  pose proof (upd_node_eq s1 N _ (set_children vec_init) H1') as Hs2.
  set (n2 := set_children vec_init (set_type VFS_DIRECTORY (junk N))) in Hs2.
  set (s2 := set_nodes s1 (<[N := n2]> (nodes s1))) in Hs2.
  assert (vfs_wf s2) as Hwf2 by by eapply (init_grows s1 N s2).
  assert (nodes s2 = <[N := n2]> (nodes s)) as Hn2 by (unfold s2; cbn; by rewrite Hn1, insert_insert_eq).
  assert (agrees (nodes s) (nodes s2)) as Hag2.
  { pose proof (wf_pos s2 N n2 Hwf2 ltac:(rewrite Hn2; apply lookup_insert_eq)). split.
    - by apply wf_null.
    - intros a Ha. rewrite Hn2, lookup_insert_ne; [done|]. intros <-. rewrite Hfr in Ha. by destruct Ha. }
  pose proof (in_dir_parent s s2 cs c par p Hwf Hwf2 Hd Hag2 Hr1) as Hpar.
  pose proof (wf_pos s par p Hwf Hp).
  assert (N ≠ root s) by congruence.
  unfold vfs_mkdir. rewrite Hr. cbn [mbind res_bind]. rewrite Hs2. cbn [mbind res_bind].
  rewrite path_of_root by done. cbn [negb]. rewrite Hpar. cbn [mbind res_bind].
  destruct (upd_ok s2 N _ _ (set_parent par) Hwf2 Hn2) as (s3 & -> & [Hwf3 Hn3 Hh3 Hr3 Hg3]); [by intros|].
  cbn [mbind res_bind].
  destruct (upd_ok s3 N _ _ (set_name (basename_of (path_of (cs ++ [c])))) Hwf3 Hn3)
    as (s4 & -> & [Hwf4 Hn4 Hh4 Hr4 Hg4]); [by intros|].
  cbn [mbind res_bind]. rewrite basename_path_of in Hn4 by done.
  rewrite (proj2 (Z.eqb_neq par 0)) by lia.
  assert (root s4 = root s) as Hr4' by by rewrite Hr4, Hr3.
  unfold node_at at 1. rewrite Hr4', Hn4, lookup_insert_ne, Hrn by done.
  cbn [of_option mbind res_bind].
  destruct (upd_ok s4 N _ _ (set_mountpoint (mountpoint rn)) Hwf4 Hn4)
    as (s5 & -> & [Hwf5 Hn5 Hh5 Hr5 Hg5]); [by intros|].
  cbn [mbind res_bind].
  eexists N, _, s5. split; [done|]. split; [done|]. split; [exact Hn5|].
  destruct (Hclean N) as [Hc1 Hc2]. cbn. split_and!; try done.
  - by rewrite Hh5, Hh4, Hh3.
  - by rewrite Hr5, Hr4'.
  - by rewrite Hg5, Hg4, Hg3.
Qed.

(** What a directory has right after it was made. *)
Record dir_made s s' (N par : Z) : Prop := DirMade {
  dm_type : n_type <$> nodes s' !! N = Some VFS_DIRECTORY;
  dm_parent : parent <$> nodes s' !! N = Some par;
  dm_mount : mountpoint <$> nodes s' !! N = mountpoint <$> nodes s !! root s;
  dm_up : points_to <$> nodes s' !! lookup_name (nodes s') N [0x2e; 0x2e] = Some par;
  dm_self : points_to <$> nodes s' !! lookup_name (nodes s') N [0x2e] = Some N;
  dm_empty nm : nm ≠ [0x2e; 0x2e] → nm ≠ [0x2e] → lookup_name (nodes s') N nm = 0;
  dm_kids : (λ n, length (kids n)) <$> nodes s' !! N = Some 2%nat;
  dm_plain : plain s' N;
  dm_points : points_to <$> nodes s' !! N = Some 0;
  dm_aliases : aliases (nodes s) → points_to <$> nodes s !! par = Some 0 → aliases (nodes s');
}.

Lemma fits_le (i j : nat) : (i ≤ j)%nat → fits 8 limit j = true → fits 8 limit i = true.
Proof. intros Hij Hf%bool_decide_eq_true. apply bool_decide_eq_true. lia. Qed.

(** The nodes that making [N] in [par] leaves: the directory [n] itself, and [P] and
    [C], its entries for its parent and for itself. *)
Definition dot_node (t : Z) (nm : list Z) (a : Z) : vnode :=
  set_points_to t (set_name nm (set_type VFS_DIRECTORY (junk a))).
Record dir_nodes (ns : gmap Z vnode) (par : Z) (p : vnode) (N : Z) (n : vnode) (P C : Z) (v : vec Z)
    (ns' : gmap Z vnode) : Prop := DirNodes {
  dn_fresh : ns !! N = None ∧ ns !! P = None ∧ ns !! C = None;
  dn_ne : N ≠ P ∧ N ≠ C ∧ P ≠ C;
  dn_nodes : ns' = <[par := set_children v p]> (<[N := n]>
    (<[C := dot_node N [0x2e] C]> (<[P := dot_node par [0x2e; 0x2e] P]> ns)));
  dn_kids : kids n = [P; C];
  dn_type : n_type n = VFS_DIRECTORY ∧ parent n = par ∧ points_to n = 0;
  dn_par : kids (set_children v p) = kids p ++ [N];
}.

Lemma dot_node_kids t nm a : kids (dot_node t nm a) = [].
Proof. apply vrep_kids. cbn. destruct (Hclean a) as [_ ->]. apply vrep_init. Qed.

Lemma mkdir_nodes s cs c par p k rn :
  vfs_wf s → in_dir s cs c par p → nodes s !! root s = Some rn → room (3 + k) (vheap s) →
  fits 8 limit (length (kids p) + 2) = true →
  ∃ N n P C v s', vfs_mkdir junk vec_ok (path_of (cs ++ [c])) s = Done (N, s') ∧ vfs_wf s' ∧
    dir_nodes (nodes s) par p N n P C v (nodes s') ∧ name n = c ∧ mountpoint n = mountpoint rn ∧
    room k (vheap s') ∧ vglob s' = vglob s.
Proof.
  intros Hwf Hd Hrn Hk Hfit. pose proof Hd as [_ _ _ Hp].
  destruct (new_dir_ok s cs c par p (2 + k) rn Hwf Hd Hrn Hk)
    as (N & n & s1 & Hwf1 & HN & Hn1 & Htype & Hname & Hparent & Hmp & Hkids & Hch & Hpt & Hk1 & Hr1 & Hg1 & ->).
  assert (N ≠ par) by congruence.
  destruct (new_alias_ok par [0x2e; 0x2e] s1 (1 + k) Hwf1) as (P & s2 & -> & Hwf2 & HP & Hn2 & Hk2 & Hr2 & Hg2);
    [by rewrite Hn1, lookup_insert_ne|done|].
  rewrite Hn1 in HP. apply lookup_insert_None in HP as [HP HNP].
  destruct (new_alias_ok N [0x2e] s2 k Hwf2) as (C & s3 & -> & Hwf3 & HC & Hn3 & Hk3 & Hr3 & Hg3);
    [by rewrite Hn2, lookup_insert_ne, Hn1, lookup_insert_eq|done|].
  rewrite Hn2, Hn1 in HC. apply lookup_insert_None in HC as [[HC HNC]%lookup_insert_None HPC].
  fold (dot_node par [0x2e; 0x2e] P) in Hn2. fold (dot_node N [0x2e] C) in Hn3.
  assert (nodes s3 !! N = Some n) as HN3
    by (rewrite Hn3, lookup_insert_ne, Hn2, lookup_insert_ne, Hn1, lookup_insert_eq; done).
  destruct (push_child_ok s3 N n P Hwf3 HN3) as (v1 & s4 & -> & Hkv1 & [Hwf4 Hn4 Hh4 Hr4 Hg4]);
    [by rewrite Hn3, lookup_insert_ne, Hn2, lookup_insert_eq|by rewrite Hkids; eapply fits_le; [|exact Hfit]; simpl; lia|].
  cbn [mbind res_bind]. rewrite Hkids in Hkv1.
  assert (nodes s4 !! N = Some (set_children v1 n)) as HN4 by (rewrite Hn4; apply lookup_insert_eq).
  destruct (push_child_ok s4 N _ C Hwf4 HN4) as (v2 & s5 & -> & Hkv2 & [Hwf5 Hn5 Hh5 Hr5 Hg5]);
    [by rewrite Hn4, lookup_insert_ne, Hn3, lookup_insert_eq|by rewrite Hkv1; eapply fits_le; [|exact Hfit]; simpl; lia|].
  cbn [mbind res_bind]. rewrite Hkv1 in Hkv2. rewrite Hn4, insert_insert_eq in Hn5.
  assert (nodes s5 !! par = Some p) as Hp5
    by (rewrite Hn5, lookup_insert_ne, Hn3, !lookup_insert_ne, Hn2, !lookup_insert_ne, Hn1, lookup_insert_ne; congruence).
  destruct (push_child_ok s5 par p N Hwf5 Hp5) as (v3 & s6 & -> & Hkv3 & [Hwf6 Hn6 Hh6 Hr6 Hg6]);
    [by rewrite Hn5, lookup_insert_eq|by eapply fits_le; [|exact Hfit]; simpl; lia|].
  cbn [mbind res_bind].
  exists N, (set_children v2 (set_children v1 n)), P, C, v3, s6. split; [done|]. split; [done|]. split.
  { split; try done. rewrite Hn6, Hn5, Hn3, Hn2, Hn1, (insert_insert_ne _ P N) by done.
    by rewrite (insert_insert_ne _ C N), insert_insert_eq by done. }
  split_and!; [done|done|by rewrite Hh6, Hh5, Hh4|by rewrite Hg6, Hg5, Hg4, Hg3, Hg2, Hg1].
Qed.

Section made.
Context (s s' : vfs H) (par : Z) (p : vnode) (N : Z) (n : vnode) (P C : Z) (v : vec Z).
Hypothesis Hwf : vfs_wf s.
Hypothesis Hwf' : vfs_wf s'.
Hypothesis Hp : nodes s !! par = Some p.
Hypothesis Hdn : dir_nodes (nodes s) par p N n P C v (nodes s').

Lemma dir_new a : is_Some (nodes s !! a) → a ≠ N ∧ a ≠ P ∧ a ≠ C.
Proof. intros [m Ha]. destruct (dn_fresh _ _ _ _ _ _ _ _ _ Hdn) as (? & ? & ?). split_and!; congruence. Qed.

Lemma dir_lookups :
  nodes s' !! N = Some n ∧ nodes s' !! P = Some (dot_node par [0x2e; 0x2e] P) ∧
  nodes s' !! C = Some (dot_node N [0x2e] C) ∧
  ∀ a m, nodes s' !! a = Some m → a ≠ par → nodes s !! a = Some m ∨
    a = N ∧ m = n ∨ kids m = [].
Proof.
  destruct (dir_new par) as (? & ? & ?); [by eexists|].
  destruct (dn_ne _ _ _ _ _ _ _ _ _ Hdn) as (? & ? & ?). rewrite (dn_nodes _ _ _ _ _ _ _ _ _ Hdn). split_and!.
  - by rewrite lookup_insert_ne, lookup_insert_eq.
  - by rewrite !(lookup_insert_ne _ _ P), lookup_insert_eq by done.
  - by rewrite lookup_insert_ne, lookup_insert_ne, lookup_insert_eq.
  - intros a m Ha Hne. rewrite lookup_insert_ne in Ha by done.
    apply lookup_insert_Some in Ha as [[<- <-]|[_ Ha]]; [by right; left|].
    apply lookup_insert_Some in Ha as [[<- <-]|[_ Ha]]; [right; right; apply dot_node_kids|].
    apply lookup_insert_Some in Ha as [[<- <-]|[_ Ha]]; [right; right; apply dot_node_kids|by left].
Qed.

Lemma dir_linked : linked (nodes s) (nodes s') par N (name n).
Proof.
  destruct dir_lookups as (HN & _). pose proof (dn_nodes _ _ _ _ _ _ _ _ _ Hdn) as Hns.
  destruct (dir_new par) as (? & _ & _); [by eexists|].
  rewrite Hns. apply (linked_push (nodes s) par p N n); [by apply wf_null| |apply Hdn|done|done|apply Hdn|..].
  - pose proof (wf_pos s' N _ Hwf' HN). lia.
  - by rewrite lookup_insert_eq.
  - intros a Ha. destruct (dir_new a Ha) as (? & ? & ?). by rewrite !lookup_insert_ne.
  - pose proof (wf_null s' Hwf') as Hz. rewrite Hns in Hz. by apply lookup_insert_None in Hz as [? _].
Qed.

Lemma dir_lookup_name nm : lookup_name (nodes s') N nm =
  if bool_decide (nm = [0x2e; 0x2e]) then P else if bool_decide (nm = [0x2e]) then C else 0.
Proof.
  destruct dir_lookups as (HN & HP & HC & _). destruct (dn_type _ _ _ _ _ _ _ _ _ Hdn) as (_ & _ & Hpt).
  unfold lookup_name. rewrite HN, Hpt, (wf_null s' Hwf'). cbn [Z.eqb].
  rewrite (dn_kids _ _ _ _ _ _ _ _ _ Hdn). cbn [find_name]. rewrite HP, HC. cbn. by rewrite !same_name.
Qed.

(** No node pointed to [N] before. *)
Lemma dir_unpointed a m : nodes s !! a = Some m → points_to m ≠ N.
Proof.
  intros Ha Hm. destruct dir_lookups as (HN & _). pose proof (wf_pos s' N _ Hwf' HN).
  destruct (wf_points s Hwf a m Ha) as [t Ht]; [lia|].
  destruct (dir_new (points_to m)) as [? _]; [by eexists|done].
Qed.

Lemma dir_made_of rn : nodes s !! root s = Some rn → mountpoint n = mountpoint rn → dir_made s s' N par.
Proof.
  intros Hrn Hmp. destruct dir_lookups as (HN & HP & HC & Hold).
  destruct (dn_type _ _ _ _ _ _ _ _ _ Hdn) as (Htype & Hparent & Hpt).
  split; rewrite ?dir_lookup_name, ?HN; cbn.
  - by rewrite Htype.
  - by rewrite Hparent.
  - by rewrite Hmp, Hrn.
  - by rewrite bool_decide_true, HP.
  - by rewrite bool_decide_false, bool_decide_true, HC.
  - intros nm Hd1 Hd2. by rewrite dir_lookup_name, !bool_decide_false.
  - by rewrite (dn_kids _ _ _ _ _ _ _ _ _ Hdn).
  - intros a m Ha Hm Hne. destruct (decide (a = par)) as [->|Hap].
    + rewrite (dn_nodes _ _ _ _ _ _ _ _ _ Hdn), lookup_insert_eq in Ha. injection Ha as <-.
      by destruct (dir_unpointed par p Hp).
    + destruct (Hold a m Ha Hap) as [Hs|[[-> _]|Hkids]]; [by destruct (dir_unpointed a m Hs)|done|done].
  - by rewrite Hpt.
  - rewrite Hp. intros Hal [= Hp0]. rewrite (dn_nodes _ _ _ _ _ _ _ _ _ Hdn).
    repeat apply aliases_insert; try done; intros _; apply dot_node_kids.
Qed.
End made.

Lemma mkdir_run s cs c par p k :
  vfs_wf s → in_dir s cs c par p → room (3 + k) (vheap s) →
  fits 8 limit (length (kids p) + 2) = true →
  ∃ N s', vfs_mkdir junk vec_ok (path_of (cs ++ [c])) s = Done (N, s') ∧
    linked (nodes s) (nodes s') par N c ∧ dir_made s s' N par ∧
    room k (vheap s') ∧ vglob s' = vglob s.
Proof.
  intros Hwf Hd Hk Hfit. pose proof Hd as [_ [rn Hrn] _ Hp].
  destruct (mkdir_nodes s cs c par p k rn Hwf Hd Hrn Hk Hfit)
    as (N & n & P & C & v & s' & Hr & Hwf' & Hdn & <- & Hmp & Hk' & Hg).
  exists N, s'. split; [done|]. split; [by eapply dir_linked|]. split; [by eapply dir_made_of|done].
Qed.

(** Memory and heap may change as long as no block is lost. *)
Lemma wf_more s m h :
  vfs_wf s → heap_ok m h → (∀ q n, live (vheap s) q n → live h q n) → vfs_wf (set_mem s m h).
Proof. intros [_ Hn Hmt Hc Hp] Hok Hl. split; cbn; try done; intros; apply Hl; by eauto. Qed.

(** A block for something else, or a buffer for a file. *)
Lemma wf_new_block (n : Z) s p m h :
  vfs_wf s → heap_ok m h → new_block n (vmem s) (vheap s) p m h → vfs_wf (set_mem s m h).
Proof. intros Hwf Hok Hb. apply wf_more; [done..|]. intros q k Hq. apply (nb_live _ _ _ _ _ _ Hb). by left. Qed.

Lemma new_block_own (n : Z) s p m h a :
  vfs_wf s → 0 < n → new_block n (vmem s) (vheap s) p m h →
  is_Some (nodes s !! a) ∨ is_Some (mounts s !! a) → a ≠ p.
Proof.
  intros Hwf Hn Hb [[nd Ha]|[mp Ha]] ->.
  - apply (wf_node s Hwf), (nb_disjoint _ _ _ _ _ _ Hb) in Ha. unfold sizeof_VfsNode in Ha. lia.
  - apply (wf_mount s Hwf), (nb_disjoint _ _ _ _ _ _ Hb) in Ha. unfold sizeof_Mountpoint in Ha. lia.
Qed.

Lemma malloc_new (n : Z) s k :
  vfs_wf s → 0 < n ≤ small → room (S k) (vheap s) →
  ∃ p m h, malloc n (vmem s) (vheap s) = Done (p, (m, h)) ∧ vfs_wf (set_mem s m h) ∧
    new_block n (vmem s) (vheap s) p m h ∧ room k h.
Proof.
  intros Hwf Hn Hk.
  destruct (malloc_law n (vmem s) (vheap s) (wf_heap s Hwf)) as (p & m & h & Hr & Hok & Hc);
    [unfold small in Hn; lia|].
  destruct (room_law k n _ _ _ _ _ (wf_heap s Hwf) Hk ltac:(lia) Hr) as [Hp Hk'].
  destruct Hc as [[? _]|Hb]; [done|].
  exists p, m, h. split; [done|]. split; [by eapply wf_new_block|done].
Qed.

Lemma malloc_wf (n : Z) s k :
  vfs_wf s → 0 < n ≤ small → room (S k) (vheap s) →
  ∃ p m h, malloc n (vmem s) (vheap s) = Done (p, (m, h)) ∧ vfs_wf (set_mem s m h) ∧
    live h p n ∧ room k h ∧ ∀ a, is_Some (nodes s !! a) ∨ is_Some (mounts s !! a) → a ≠ p.
Proof.
  intros Hwf Hn Hk. destruct (malloc_new n s k) as (p & m & h & Hr & Hwf' & Hb & Hk'); [done..|].
  exists p, m, h. split_and!; [done|done|apply (nb_live _ _ _ _ _ _ Hb); by right|done|].
  intros a Ha. by eapply new_block_own; [|apply Hn|exact Hb|].
Qed.

(** [vfs_open] of an existing entry [c] of [par], or of a missing one that is not
    to be created. *)
Definition open_spec s (par : Z) (c : list Z) (flags : Z) : option (Z * vfs H) :=
  let node := lookup_name (nodes s) par c in
  match nodes s !! node with
  | None => if Z.land flags O_CREAT =? 0 then Some (0, set_err s ENOENT) else None
  | Some n =>
      if (Z.land flags O_DIRECTORY =? 0) && bool_decide (n_type n = VFS_DIRECTORY)
      then Some (0, set_err s EISDIR)
      else Some (if (Z.land flags O_CREAT =? 0) && negb (points_to n =? 0)
                 then points_to n else node,
                 set_nodes s (<[node := set_o_mode flags n]> (nodes s)))
  end.

Lemma open_run start s cs c par p flags r :
  vfs_wf s → in_dir s cs c par p → open_spec s par c flags = Some r →
  vfs_open junk vec_ok start (path_of (cs ++ [c])) flags s = Done r.
Proof.
  intros Hwf Hd Hr. pose proof Hd as [Hnames _ _ Hp].
  apply Forall_app in Hnames as [_ Hc%Forall_cons_1]. destruct Hc as [Hc _].
  unfold vfs_open. rewrite (in_dir_parent s s cs c par p) by (done || by split; [apply wf_null|]). cbn [mbind res_bind].
  pose proof (wf_pos s par p Hwf Hp). rewrite (proj2 (Z.eqb_neq par 0)) by lia.
  rewrite basename_path_of, (vfs_find_node_spec s par p) by done. cbn [mbind res_bind].
  unfold open_spec in Hr. set (node := lookup_name (nodes s) par c) in *.
  destruct (nodes s !! node) as [n|] eqn:Hn.
  - pose proof (wf_pos s node n Hwf Hn). rewrite (proj2 (Z.eqb_neq node 0)) by lia.
    pose proof (upd_node_eq s node n (set_o_mode flags) Hn) as Hu.
    assert (node_at s node = Done n) as Hat by (unfold node_at; by rewrite Hn).
    rewrite Hat. cbn [negb mbind res_bind]. rewrite andb_true_r.
    destruct (Z.land flags O_DIRECTORY =? 0), (bool_decide (n_type n = VFS_DIRECTORY));
      cbn [andb mbind res_bind] in Hr |- *; [by injection Hr as <-|..];
      destruct (Z.land flags O_CREAT =? 0); cbn [negb andb] in Hr |- *; rewrite Hu;
      cbn [mbind res_bind]; injection Hr as <-; try done;
      unfold node_at; cbn [nodes set_nodes]; by rewrite lookup_insert_eq.
  - destruct (Z.eqb_spec node 0) as [Hz|Hz].
    2: { destruct (lookup_name_in s par c Hwf Hz) as (m & Hm & _). unfold node in Hn. congruence. }
    cbn [negb]. rewrite andb_false_r. cbn [mbind res_bind].
    destruct (Z.land flags O_CREAT =? 0); [by injection Hr as <-|done].
Qed.

(** A file that was just created. *)
Record file_made s s' (f par : Z) (flags : Z) (n : vnode) : Prop := FileMade {
  fm_node : nodes s' !! f = Some n;
  fm_type : n_type n = VFS_FILE;
  fm_parent : parent n = par;
  fm_mode : o_mode n = flags;
  fm_mount : Some (mountpoint n) = mountpoint <$> nodes s !! par;
  fm_points : points_to n = 0;
  fm_buffer : live (vheap s') (address n) 2;
  fm_aliases : aliases (nodes s) → points_to <$> nodes s !! par = Some 0 → aliases (nodes s');
}.

Lemma create_run start s cs c par p flags k :
  vfs_wf s → in_dir s cs c par p → lookup_name (nodes s) par c = 0 →
  Z.land flags O_CREAT ≠ 0 → room (2 + k) (vheap s) → fits 8 limit (length (kids p) + 1) = true →
  ∃ f s' n, vfs_open junk vec_ok start (path_of (cs ++ [c])) flags s = Done (f, s') ∧
    linked (nodes s) (nodes s') par f c ∧ file_made s s' f par flags n ∧
    room k (vheap s') ∧ vglob s' = vglob s ∧ root s' = root s ∧ vfs_wf s'.
Proof.
  intros Hwf Hd Hno Hcr Hk Hfit. pose proof Hd as [Hnames _ _ Hp].
  apply Forall_app in Hnames as [_ Hc%Forall_cons_1]. destruct Hc as [Hc _].
  unfold vfs_open. rewrite (in_dir_parent s s cs c par p) by (done || by split; [apply wf_null|]).
  cbn [mbind res_bind].
  pose proof (wf_pos s par p Hwf Hp). rewrite (proj2 (Z.eqb_neq par 0)) by lia.
  rewrite basename_path_of, (vfs_find_node_spec s par p) by done. cbn [mbind res_bind].
  rewrite Hno. cbn [Z.eqb negb]. rewrite andb_false_r. cbn [mbind res_bind].
  rewrite (proj2 (Z.eqb_neq _ _) Hcr). cbn [negb].
  destruct (new_node_ok VFS_FILE s (1 + k) Hwf Hk)
    as (f & s1 & -> & Hwf1 & Hfr & Hn1 & Hk1 & Hr1 & Hg1). cbn [mbind res_bind].
  assert (f ≠ par) by congruence.
  destruct (upd_ok s1 f _ _ (set_name c) Hwf1 Hn1) as (s2 & -> & [Hwf2 Hn2 Hh2 Hr2 Hg2]); [by intros|].
  cbn [mbind res_bind].
  destruct (upd_ok s2 f _ _ (set_parent par) Hwf2 Hn2) as (s3 & -> & [Hwf3 Hn3 Hh3 Hr3 Hg3]); [by intros|].
  cbn [mbind res_bind].
  destruct (upd_ok s3 f _ _ (set_o_mode flags) Hwf3 Hn3) as (s4 & -> & [Hwf4 Hn4 Hh4 Hr4 Hg4]); [by intros|].
  cbn [mbind res_bind]. unfold node_at. rewrite Hn4, lookup_insert_ne, Hp by done.
  cbn [of_option mbind res_bind].
  destruct (upd_ok s4 f _ _ (set_mountpoint (mountpoint p)) Hwf4 Hn4)
    as (s5 & -> & [Hwf5 Hn5 Hh5 Hr5 Hg5]); [by intros|].
  cbn [mbind res_bind].
  destruct (malloc_wf 2 s5 k Hwf5) as (a & m & h & -> & Hwf6 & Hlive & Hk6 & _);
    [unfold small; lia|by rewrite Hh5, Hh4, Hh3, Hh2|]. cbn [mbind res_bind].
  destruct (upd_ok (set_mem s5 m h) f _ _ (set_address a) Hwf6 Hn5)
    as (s7 & -> & [Hwf7 Hn7 Hh7 Hr7 Hg7]); [by intros|]. cbn [mbind res_bind].
  set (n := set_address a _) in Hn7.
  assert (nodes s7 !! f = Some n) as Hf7 by (rewrite Hn7; apply lookup_insert_eq).
  assert (nodes s7 !! par = Some p) as Hp7 by (by rewrite Hn7, lookup_insert_ne).
  destruct (push_child_ok s7 par p f Hwf7 Hp7) as (v & s8 & -> & Hkv & [Hwf8 Hn8 Hh8 Hr8 Hg8]);
    [by rewrite Hf7|done|]. cbn [mbind res_bind].
  exists f, s8, n. split; [done|]. destruct (Hclean f) as [Hpt _].
  split; [|split; [|split; [|split; [|split; [|done]]]]].
  - rewrite Hn8. apply (linked_push (nodes s) par p f n); try done.
    + by apply wf_null.
    + pose proof (wf_pos s7 f _ Hwf7 Hf7). lia.
    + intros b Hb. rewrite Hn7, lookup_insert_ne; [done|]. intros <-. rewrite Hfr in Hb. by destruct Hb.
    + by apply wf_null.
  - split; try done.
    + by rewrite Hn8, lookup_insert_ne.
    + by rewrite Hp.
    + by rewrite Hh8, Hh7.
    + rewrite Hp. intros Hal [= Hp0]. rewrite Hn8, Hn7. by repeat apply aliases_insert.
  - by rewrite Hh8, Hh7.
  - by rewrite Hg8, Hg7; cbn; rewrite Hg5, Hg4, Hg3, Hg2.
  - by rewrite Hr8, Hr7; cbn; rewrite Hr5, Hr4, Hr3, Hr2.
Qed.

(** The file that was made is found again. *)
Lemma create_reopen start s cs c par p flags k :
  vfs_wf s → in_dir s cs c par p → plain s par → lookup_name (nodes s) par c = 0 →
  Z.land flags O_CREAT ≠ 0 → room (2 + k) (vheap s) → fits 8 limit (length (kids p) + 1) = true →
  ∃ f s' n, vfs_open junk vec_ok start (path_of (cs ++ [c])) flags s = Done (f, s') ∧
    linked (nodes s) (nodes s') par f c ∧ file_made s s' f par flags n ∧
    room k (vheap s') ∧ vfs_wf s' ∧
    ∀ start' flags', Z.land flags' O_CREAT = 0 →
      vfs_open junk vec_ok start' (path_of (cs ++ [c])) flags' s' =
        Done (f, set_nodes s' (<[f := set_o_mode flags' n]> (nodes s'))).
Proof.
  intros Hwf Hd Hplain Hno Hcreat Hk Hfit.
  destruct (create_run start s cs c par p flags k)
    as (f & s' & n & Hr & Hlk & Hfm & Hk' & _ & Hroot & Hwf'); [done..|].
  exists f, s', n. do 5 (split; [done|]). intros start' flags' Hfl.
  pose proof Hd as [Hn Hrs Hw Hp]. pose proof (wf_pos s par p Hwf Hp).
  destruct (lk_par _ _ _ _ _ Hlk) as (p0 & p' & _ & Hp' & _).
  apply (open_run start' s' cs c par p').
  - done.
  - split; [done| | |done].
    + rewrite Hroot. destruct (decide (root s = par)) as [->|Hne]; [by rewrite Hp'|].
      by rewrite (lk_old _ _ _ _ _ Hlk).
    + rewrite Hroot. rewrite (linked_walk s (nodes s') par f c) by (rewrite ?Hw; done || lia). done.
  - unfold open_spec. rewrite (linked_lookup s (nodes s') par f c Hwf Hlk), Hno. cbn [Z.eqb].
    rewrite bool_decide_true by done. destruct Hfm as [-> -> _ _ _ Hpt _ _].
    rewrite (bool_decide_false (VFS_FILE = _)), andb_false_r, Hfl, Hpt by done. done.
Qed.

Lemma new_mount_ok s k :
  vfs_wf s → room (S k) (vheap s) →
  ∃ p m h, new_mount s = Done (p, set_mounts (set_mem s m h) (<[p := Mount None None]> (mounts s))) ∧
    vfs_wf (set_mounts (set_mem s m h) (<[p := Mount None None]> (mounts s))) ∧ room k h ∧
    malloc sizeof_Mountpoint (vmem s) (vheap s) = Done (p, (m, h)) ∧ p ≠ 0.
Proof.
  intros Hwf Hk.
  destruct (malloc_law sizeof_Mountpoint (vmem s) (vheap s)) as (p & m & h & Hr & _);
    [by apply wf_heap|unfold sizeof_Mountpoint; lia|].
  assert (0 ≤ sizeof_Mountpoint ≤ small) as Hsz by (unfold sizeof_Mountpoint, small; lia).
  destruct (room_law k _ _ _ _ _ _ (wf_heap s Hwf) Hk Hsz Hr) as [Hp Hk'].
  assert (new_mount s = Done (p, set_mounts (set_mem s m h) (<[p := Mount None None]> (mounts s)))) as Hn.
  { unfold new_mount. rewrite Hr. cbn [mbind res_bind]. by rewrite (proj2 (Z.eqb_neq p 0)). }
  exists p, m, h. split; [done|]. split; [by eapply new_mount_inv|done].
Qed.

Lemma new_node_malloc t s p s' : new_node junk t s = Done (p, s') →
  malloc sizeof_VfsNode (vmem s) (vheap s) = Done (p, (vmem s', vheap s')).
Proof.
  intros ([q [m h]] & Hr & Hd)%bind_Done_inv. destruct (q =? 0); [done|]. by injection Hd as <- <-.
Qed.

(** The first [vfs_mount]. *)
Lemma mount_root_run s f k :
  vfs_wf s → root s = 0 → (length (mountpoints s) < 64)%nat → room (2 + k) (vheap s) →
  ∃ r n s', vfs_mount junk vec_ok [0x2f] f s = Done (0, s') ∧ vfs_wf s' ∧ nodes s !! r = None ∧
    nodes s' = <[r := n]> (nodes s) ∧ root s' = r ∧ kids n = [] ∧ n_type n = VFS_DIRECTORY ∧
    name n = [0x2f] ∧ points_to n = 0 ∧ mounts s' !! mountpoint n = Some (Mount (Some f) (Some r)) ∧
    mountpoints s' = mountpoints s ++ [Mount (Some f) (Some r)] ∧ room k (vheap s') ∧
    ∃ m1 h1 mp, malloc sizeof_VfsNode (vmem s) (vheap s) = Done (r, (m1, h1)) ∧
      malloc sizeof_Mountpoint m1 h1 = Done (mp, (vmem s', vheap s')) ∧ mp ≠ 0 ∧
      mounts s' = <[mp := Mount (Some f) (Some r)]> (mounts s).
Proof.
  intros Hwf Hroot Htab Hk.
  assert (vfs_inv s) as Hinv by (split; [done|by right]).
  destruct (new_node_room junk VFS_DIRECTORY s (1 + k) Hwf Hk) as (r & s1 & Hr & Hk1).
  destruct (new_node_inv junk VFS_DIRECTORY s r s1) as (Hwf1 & Hfr & m1 & h1 & Hs1); [done..|].
  set (n1 := set_type VFS_DIRECTORY (junk r)) in Hs1.
  set (n3 := set_parent r (set_children vec_init n1)).
  set (s3 := set_nodes (set_mem s m1 h1) (<[r := n3]> (nodes s))).
  assert (upd_node r (set_children vec_init) s1 ≫= upd_node r (set_parent r) = Done s3) as Hs3.
  { rewrite Hs1, (upd_node_eq _ r n1) by apply lookup_insert_eq. cbn [mbind res_bind].
    rewrite (upd_node_eq _ r (set_children vec_init n1)) by (cbn; by rewrite insert_insert_eq, lookup_insert_eq).
    unfold s3. cbn. by rewrite !insert_insert_eq. }
  apply bind_Done_inv in Hs3 as (s2 & Hs2 & Hs3).
  pose proof (gr_wf _ _ (init_grows s1 r s2 Hwf1 Hs2)) as Hwf2.
  assert (vfs_wf s3) as Hwf3 by (by apply (wf_upd s2 r (set_parent r))).
  destruct (new_mount_ok s3 k Hwf3) as (mp & m & h & Hmp & Hwf4 & Hk4 & Hmal & Hmp0); [by subst|].
  set (s4 := set_mounts _ _) in Hmp, Hwf4. set (n6 := set_name [0x2f] (set_mountpoint mp n3)).
  set (s6 := set_root (set_nodes s4 (<[r := n6]> (nodes s))) r).
  assert (vfs_mount junk vec_ok [0x2f] f s =
    Done (0, set_table (set_mounts s6 (<[mp := Mount (Some f) (Some r)]> (mounts s)))
               (mountpoints s ++ [Mount (Some f) (Some r)]))) as Hrun.
  { unfold vfs_mount, vfs_mkdir. rewrite Hroot. cbn [Z.eqb]. rewrite Hr. cbn [mbind res_bind].
    rewrite Hs2. cbn [mbind res_bind]. change (is_root [0x2f]) with true. cbn [negb].
    rewrite Hs3. cbn [mbind res_bind]. rewrite Hmp. cbn [mbind res_bind].
    rewrite (upd_node_eq _ r n3) by apply lookup_insert_eq. cbn [mbind res_bind].
    rewrite (upd_node_eq _ r (set_mountpoint mp n3)) by apply lookup_insert_eq. cbn [mbind res_bind].
    cbv zeta. unfold node_at at 1. cbn. rewrite lookup_insert_eq. unfold s4. cbn.
    unfold upd_mount, add_mountpoint, node_at. cbn. do 4 (rewrite lookup_insert_eq; cbn).
    rewrite bool_decide_true by done. cbn. by rewrite !insert_insert_eq. }
  eexists r, n6, _. split; [exact Hrun|]. destruct (Hclean r) as [Hpt _].
  split; [by apply (mount_inv junk vec_ok Hclean s [0x2f] f 0)|]. split; [done|].
  split; [done|]. cbn. rewrite lookup_insert_eq. split_and!; try done.
  exists m1, h1, mp. split; [|done]. rewrite (new_node_malloc VFS_DIRECTORY s r s1 Hr). by subst s1.
Qed.
End run.

(** The calls that change the tree. *)
Inductive vfs_step {H} `{Heap H} (junk : Z → vnode) (vec_ok : Z → bool) : relation (vfs H) :=
  | StepMkdir path r s s' :
      vfs_mkdir junk vec_ok path s = Done (r, s') → vfs_step junk vec_ok s s'
  | StepMount where_ f r s s' :
      vfs_mount junk vec_ok where_ f s = Done (r, s') → vfs_step junk vec_ok s s'
  | StepOpen start path flags r s s' :
      vfs_open junk vec_ok start path flags s = Done (r, s') → vfs_step junk vec_ok s s'.

(** C15: children, aliases and the root never dangle. After any sequence of [vfs_mkdir],
    [vfs_mount] and [vfs_open] on any paths, from before the first mount on, every
    node and mount point is still a block of the heap, the heap is well formed,
    every child and every alias target is a node, and so is the root once there is
    one - provided that fresh memory is cleared in the two fields the code reads before
    it sets them.  The pointers to parents and mount points are not part of it. *)
Theorem vfs_no_dangling {H} `{HeapLaws H} (junk : Z → vnode) (vec_ok : Z → bool) (s s' : vfs H)
    (Hclean : clean junk) (Hs : vfs_inv s) (Hsteps : rtc (vfs_step junk vec_ok) s s') :
  vfs_inv s'.
Proof.
  induction Hsteps as [s|s s1 s2 Hstep _ IH]; [done|]. apply IH. clear IH s2.
  destruct Hstep as [path r s s1 Hr|where_ f r s s1 Hr|start path flags r s s1 Hr].
  - eapply grows_inv; [done|]. by eapply mkdir_grows.
  - by eapply mount_inv.
  - eapply grows_inv; [done|]. by eapply open_grows.
Qed.

(** ** Properties *)

(** C17: [vfs_get_parent] finds the directory an absolute path is in.  For
    "/c1/.../cn/d" it answers the node that following c1, ..., cn from the start
    leads to, 0 when only cn is missing; when an earlier one is missing it goes
    through the NULL it got.  A relative path of two names is not followed: the
    answer is the start itself, whatever the first name is. *)
Theorem vfs_get_parent_paths {H} `{HeapLaws H} (s : vfs H) (start : Z) (cs : list (list Z))
    (a d : list Z) (Hwf : vfs_wf s) (Hstart : is_Some (nodes s !! start))
    (Hnames : Forall is_name (a :: cs ++ [d])) :
  vfs_get_parent start (path_of (cs ++ [d])) s =
    (p ← descend (nodes s) start cs; Done (p, s)) ∧
  (walk (nodes s) start cs ≠ 0 →
     descend (nodes s) start cs = Done (walk (nodes s) start cs)) ∧
  vfs_get_parent start (a ++ path_of [d]) s = Done (start, s).
Proof.
  apply Forall_cons_1 in Hnames as [[Ha Has] Hcs]. split; [by apply vfs_get_parent_spec|].
  split; [by apply descend_walk|].
  assert (vfs_parse_path (a ++ path_of [d]) = [a; d]) as Hsplit.
  { unfold vfs_parse_path. rewrite split_app, split_path_of, app_nil_r; [done| |].
    - by apply Forall_app in Hcs as [_ ?].
    - intros x Hx Hin%list_elem_of_singleton. by subst. }
  unfold vfs_get_parent. rewrite Hsplit. cbn. by rewrite bool_decide_false.
Qed.

(** C16: [vfs_mkdir] makes a directory. In a well-formed tree with heap to
    spare it returns a new directory node that is the last child of the directory
    its path names, has that directory for its parent and [..], itself for [.],
    and the mount point of the root; in the directory the new name is found unless
    an older entry has it, and nothing else changes in the nodes there were. *)
Theorem vfs_mkdir_makes {H} `{HeapLaws H} (junk : Z → vnode) (vec_ok : Z → bool) (limit : Z)
    (s : vfs H) (cs : list (list Z)) (c : list Z) (par : Z) (p : vnode) (k : nat)
    (Hclean : clean junk) (Hlimit : limit ≤ 2 ^ 31)
    (Hrealloc : ∀ b, 0 ≤ b < limit → vec_ok b = true)
    (Hwf : vfs_wf s) (Hd : in_dir s cs c par p) (Hk : room (3 + k) (vheap s))
    (Hfit : fits 8 limit (length (kids p) + 2) = true) :
  ∃ N s', vfs_mkdir junk vec_ok (path_of (cs ++ [c])) s = Done (N, s') ∧ vfs_wf s' ∧
    linked (nodes s) (nodes s') par N c ∧ dir_made s s' N par ∧
    (∀ x, lookup_name (nodes s') par x =
       if lookup_name (nodes s) par x =? 0 then if bool_decide (x = c) then N else 0
       else lookup_name (nodes s) par x) ∧
    room k (vheap s') ∧ vglob s' = vglob s.
Proof.
  destruct (mkdir_run junk vec_ok limit Hclean Hlimit Hrealloc s cs c par p k)
    as (N & s' & Hr & Hlk & Hdm & Hk' & Hg); [done..|].
  exists N, s'. split; [done|].
  split; [|split; [done|]; split; [done|]; split; [intros x; by apply linked_lookup|done]].
  eapply gr_wf. eapply (mkdir_grows junk vec_ok Hclean); [|exact Hr]. split; [done|]. left. apply Hd.
Qed.

(** C14: what is created can be opened. [vfs_open] with [O_CREAT] of a name
    its directory does not have returns a new file there, with the flags as its
    mode, the directory's mount point and a buffer of two bytes; opening the same
    path again without [O_CREAT], from any start, returns that file and only sets
    its mode. *)
Theorem vfs_open_creates {H} `{HeapLaws H} (junk : Z → vnode) (vec_ok : Z → bool) (limit : Z)
    (start : Z) (s : vfs H) (cs : list (list Z)) (c : list Z) (par : Z) (p : vnode) (flags : Z) (k : nat)
    (Hclean : clean junk) (Hlimit : limit ≤ 2 ^ 31)
    (Hrealloc : ∀ b, 0 ≤ b < limit → vec_ok b = true)
    (Hwf : vfs_wf s) (Hd : in_dir s cs c par p) (Hplain : plain s par)
    (Hno : lookup_name (nodes s) par c = 0) (Hcreat : Z.land flags O_CREAT ≠ 0)
    (Hk : room (2 + k) (vheap s)) (Hfit : fits 8 limit (length (kids p) + 1) = true) :
  ∃ f s' n, vfs_open junk vec_ok start (path_of (cs ++ [c])) flags s = Done (f, s') ∧
    vfs_wf s' ∧ linked (nodes s) (nodes s') par f c ∧ file_made s s' f par flags n ∧
    ∀ start' flags', Z.land flags' O_CREAT = 0 →
      vfs_open junk vec_ok start' (path_of (cs ++ [c])) flags' s' =
        Done (f, set_nodes s' (<[f := set_o_mode flags' n]> (nodes s'))).
Proof.
  destruct (create_reopen junk vec_ok limit Hclean Hlimit Hrealloc start s cs c par p flags k)
    as (f & s' & n & Hr & Hlk & Hfm & _ & Hwf' & Ho); [done..|].
  by exists f, s', n.
Qed.

(** C31: the other outcomes of [vfs_open]: [ENOENT] when the directory is
    missing, or the name in it without [O_CREAT]; [EISDIR] for a directory without
    [O_DIRECTORY]; else the entry there is, with the flags as its mode - what an
    alias points to, unless [O_CREAT] is given.  A path through a missing
    directory is a fault. *)
Theorem vfs_open_outcomes {H} `{HeapLaws H} (junk : Z → vnode) (vec_ok : Z → bool) (start : Z)
    (s : vfs H) (cs : list (list Z)) (c : list Z) (flags : Z) (Hwf : vfs_wf s)
    (Hroot : is_Some (nodes s !! root s)) (Hnames : Forall is_name (cs ++ [c])) :
  match descend (nodes s) (root s) cs with
  | Done par =>
      if par =? 0
      then vfs_open junk vec_ok start (path_of (cs ++ [c])) flags s = Done (0, set_err s ENOENT)
      else ∀ r, open_spec s par c flags = Some r →
           vfs_open junk vec_ok start (path_of (cs ++ [c])) flags s = Done r
  | Fault => vfs_open junk vec_ok start (path_of (cs ++ [c])) flags s = Fault
  | _ => False
  end.
Proof.
  pose proof (vfs_get_parent_spec s (root s) cs c Hwf Hroot Hnames) as Hpar.
  destruct (descend_cases (nodes s) (root s) cs) as [Hd|Hd]; rewrite Hd in *.
  { unfold vfs_open. by rewrite Hpar. }
  destruct (Z.eqb_spec (walk (nodes s) (root s) cs) 0) as [Hz|Hne].
  { unfold vfs_open. rewrite Hpar. cbn. by rewrite Hz. }
  intros r Hr. pose proof Hroot as [rn Hrn].
  destruct (walk_in s (root s) cs rn Hwf Hrn Hne) as [p Hp].
  by apply (open_run junk vec_ok start s cs c (walk (nodes s) (root s) cs) p).
Qed.
