(* ===== verification/VfsRun.v ===== *)
(** * The virtual file system on the kernel's heap

    [Vfs.v] run on the allocator of [Alloc.v], from before the first mount: the
    theorems of [VfsSpec.v] at concrete paths. *)

From S2P Require Import Prelude CInt Mem Boot Abi Pages Alloc AllocInv AllocSpec BumpPages Vec Heap.
From S2P Require Import AllocHeap Str Vfs VfsSpec.

#[local] Instance heap_ops : Heap (heap bump) := alloc_heap 7.
#[local] Instance heap_laws : HeapLaws (heap bump) := alloc_heap_laws 7.

(** Fresh nodes are cleared; the vectors always grow. *)
Definition clear (a : Z) : vnode := VNode VFS_FILE [] 0 0 vec_init 0 0 0 0 0 0 false.
Definition yes (b : Z) : bool := true.

Lemma clear_clean : clean clear.
Proof. by intros a. Qed.

Definition vfs_start : vfs (heap bump) :=
  Vfs ∅ (fresh_heap bump_start) ∅ ∅ [] 0 (Globals false 0) [] false.

Lemma vfs_start_wf : vfs_wf vfs_start.
Proof.
  split; cbn; [apply fresh_heap_ok, bump_start_ok|..]; intros a n; by rewrite lookup_empty.
Qed.

Lemma vfs_start_room k : (k ≤ 100)%nat → room k (vheap vfs_start).
Proof. intros Hk. cbn. unfold bump_limit, Arch.PAGE_SIZE. lia. Qed.

(** After the first mount there is the root and nothing else. *)
Lemma root_mounted :
  ∃ r n s, vfs_mount clear yes [0x2f] TMPFS vfs_start = Done (0, s) ∧ vfs_wf s ∧
    nodes s = {[ r := n ]} ∧ root s = r ∧ kids n = [] ∧ points_to n = 0 ∧
    mounts s !! mountpoint n = Some (Mount (Some TMPFS) (Some r)) ∧ room 20 (vheap s).
Proof.
  destruct (mount_root_run clear yes clear_clean vfs_start TMPFS 20)
    as (r & n & s & Hr & Hwf & _ & Hn & Hroot & Hk & _ & _ & Hp & Hm & _ & Hroom & _);
    [apply vfs_start_wf|done|cbn; lia|apply vfs_start_room; lia|].
  change (nodes vfs_start) with (∅ : gmap Z vnode) in Hn.
  exists r, n, s. split; [exact Hr|]. split; [exact Hwf|]. split; [exact Hn|].
  split; [exact Hroot|]. split; [exact Hk|]. split; [exact Hp|]. split; [exact Hm|exact Hroom].
Qed.

Lemma root_in_dir (s : vfs (heap bump)) r n c : nodes s = {[ r := n ]} → root s = r → is_name c →
  in_dir s [] c r n.
Proof.
  intros Hn Hr Hc. split; cbn; [by apply Forall_singleton| |done|]; rewrite Hn.
  - rewrite Hr, lookup_singleton_eq. by eexists.
  - by rewrite lookup_singleton_eq.
Qed.

Lemma vfs_no_dangling_witness :
  ∃ s, rtc (vfs_step clear yes) vfs_start s ∧ root s ≠ 0 ∧ vfs_inv s.
Proof.
  destruct root_mounted as (r & n & s & Hm & Hwf & Hn & Hr & _).
  assert (nodes s !! r = Some n) as Hrn by (rewrite Hn; apply lookup_singleton_eq).
  pose proof (wf_pos s r n Hwf Hrn).
  assert (rtc (vfs_step clear yes) vfs_start s) as Hs by (eapply rtc_once, StepMount; exact Hm).
  exists s. split; [exact Hs|]. split; [lia|].
  apply (vfs_no_dangling clear yes vfs_start s).
  - exact clear_clean.
  - split; [exact vfs_start_wf|right; reflexivity].
  - exact Hs.
Defined.

Definition dev : list Z := [100; 101; 118].

Lemma is_name_dev : is_name dev.
Proof. by apply (bool_decide_unpack _). Qed.

(** "/dev" *)
Lemma vfs_mkdir_makes_witness :
  ∃ s N s', vfs_mount clear yes [0x2f] TMPFS vfs_start = Done (0, s) ∧
    vfs_mkdir clear yes [47; 100; 101; 118] s = Done (N, s') ∧
    lookup_name (nodes s') (root s) dev = N.
Proof.
  destruct root_mounted as (r & n & s & Hm & Hwf & Hn & Hr & Hk & Hp & _ & Hroom).
  destruct (vfs_mkdir_makes clear yes (2 ^ 31) s [] dev r n 17)
    as (N & s' & Hmk & _ & _ & _ & Hl & _).
  - exact clear_clean.
  - lia.
  - intros b _. reflexivity.
  - exact Hwf.
  - exact (root_in_dir s r n dev Hn Hr is_name_dev).
  - exact Hroom.
  - rewrite Hk. reflexivity.
  - exists s, N, s'. split; [exact Hm|]. split; [exact Hmk|]. rewrite Hr, Hl.
    unfold lookup_name. rewrite Hn, lookup_singleton_eq, Hp, Hk.
    rewrite lookup_singleton_ne; [reflexivity|].
    intros ->. apply (Z.lt_irrefl 0), (wf_pos s 0 n Hwf). rewrite Hn. apply lookup_singleton_eq.
Defined.

(** "/dev" again, as a file. *)
Lemma vfs_open_creates_witness :
  ∃ s f s', vfs_mount clear yes [0x2f] TMPFS vfs_start = Done (0, s) ∧
    vfs_open clear yes 0 [47; 100; 101; 118] O_CREAT s = Done (f, s') ∧
    ∃ s'', vfs_open clear yes 5 [47; 100; 101; 118] O_APPEND s' = Done (f, s'').
Proof.
  destruct root_mounted as (r & n & s & Hm & Hwf & Hn & Hr & Hk & Hp & _ & Hroom).
  assert (nodes s !! r = Some n) as Hrn by (rewrite Hn; apply lookup_singleton_eq).
  pose proof (wf_pos s r n Hwf Hrn).
  destruct (vfs_open_creates clear yes (2 ^ 31) 0 s [] dev r n O_CREAT 18)
    as (f & s' & n' & Ho & _ & _ & _ & Hagain).
  - exact clear_clean.
  - lia.
  - intros b _. reflexivity.
  - exact Hwf.
  - exact (root_in_dir s r n dev Hn Hr is_name_dev).
  - intros a m Ha Hpt Hne. rewrite Hn in Ha. apply lookup_singleton_Some in Ha as [<- _]. destruct (Hne eq_refl).
  - unfold lookup_name. rewrite Hrn, Hp, Hk, wf_null by exact Hwf. reflexivity.
  - vm_compute. discriminate.
  - exact Hroom.
  - rewrite Hk. reflexivity.
  - exists s, f, s'. split; [exact Hm|]. split; [exact Ho|]. 
    pose proof (Hagain 5 O_APPEND eq_refl) as Ha. eexists. exact Ha.
Defined.

(** "/dev/dev" on the empty root. *)
Lemma vfs_open_outcomes_witness :
  ∃ s, vfs_mount clear yes [0x2f] TMPFS vfs_start = Done (0, s) ∧
    vfs_open clear yes 0 [47; 100; 101; 118; 47; 100; 101; 118] O_CREAT s =
      Done (0, set_err s ENOENT).
Proof.
  destruct root_mounted as (r & n & s & Hm & Hwf & Hn & Hr & Hk & Hp & _).
  assert (nodes s !! r = Some n) as Hrn by (rewrite Hn; apply lookup_singleton_eq).
  pose proof (wf_pos s r n Hwf Hrn).
  assert (descend (nodes s) (root s) [dev] = Done 0) as Hd.
  { cbn [descend]. rewrite Hr, (proj2 (Z.eqb_neq r 0)) by lia.
    unfold lookup_name. rewrite Hrn, Hp, Hk, wf_null by exact Hwf. reflexivity. }
  exists s. split; [exact Hm|].
  pose proof (vfs_open_outcomes clear yes 0 s [dev] dev O_CREAT Hwf) as Ho.
  rewrite Hd in Ho. apply Ho.
  - rewrite Hr, Hrn. by eexists.
  - repeat constructor; apply is_name_dev.
Defined.

(** "dev/dev" from the root. *)
Lemma vfs_get_parent_paths_witness :
  ∃ s, vfs_mount clear yes [0x2f] TMPFS vfs_start = Done (0, s) ∧
    vfs_get_parent (root s) [100; 101; 118; 47; 100; 101; 118] s = Done (root s, s).
Proof.
  destruct root_mounted as (r & n & s & Hm & Hwf & Hn & Hr & _).
  exists s. split; [exact Hm|].
  apply (vfs_get_parent_paths s (root s) [] dev dev).
  - exact Hwf.
  - rewrite Hr, Hn, lookup_singleton_eq. by eexists.
  - repeat constructor; apply is_name_dev.
Defined.
