(* ===== verification/Tmpfs.v ===== *)
(** * The in-memory file system ([src/src/kernel/fs/tmpfs.c])

    A file's bytes are in the block [address] of the kernel's heap; a file of the
    boot image is copied there from [internal_address] at its first read.  Sizes
    and cursors are kept at their C widths ([size_t] 64 bits unsigned, [off_t] 64
    bits signed). *)

From S2P Require Import Prelude CInt Mem Boot Abi Vec Heap Str Vfs VfsSpec.

Section tmpfs.
Context {H : Type} `{Heap H} (junk : Z → vnode) (vec_ok : Z → bool).
Implicit Types (s : vfs H).

Definition tmpfs_create_file (nm : list Z) (addr size : Z) s : res (vfs H) :=
  '(ret, s) ← new_node junk VFS_FILE s;
  s ← upd_node ret (set_name (basename_of nm)) s;
  '(par, s) ← vfs_get_parent (vfs_get_root s) nm s;
  s ← upd_node ret (set_parent par) s;
  p ← node_at s par;
  s ← upd_node ret (set_mountpoint (mountpoint p)) s;
  s ← upd_node ret (set_st_size (i64 size)) s;
  '(new_addr, (m, h)) ← malloc (u64 (size + 1)) (vmem s) (vheap s);
  s ← upd_node ret (set_address new_addr) (set_mem s m h);
  s ← upd_node ret (set_internal addr) s;
  push_child vec_ok par ret s.

(** [memcpy] in the memory of the state. *)
Definition copy (to from n : Z) s : res (vfs H) :=
  m ← memcpy (vmem s) to from n; Done (set_mem s m (vheap s)).

(** The first part of [tmpfs_read]. *)
Definition load_image (node : Z) s : res (vfs H) :=
  n ← node_at s node;
  if negb (init n) then
    s ← copy (address n) (internal_address n) (u64 (st_size n)) s;
    m ← store8 (vmem s) (address n + (st_size n - 1)) 0xff;
    upd_node node (set_init true) (set_mem s m (vheap s))
  else Done s.

Definition tmpfs_read (node offset count buffer : Z) s : res (Z * vfs H) :=
  s ← load_image node s;
  if buffer =? 0 then Done (-1, s)
  else
    n ← node_at s node;
    s ← copy buffer (u64 (address n + offset)) count s;
    s ← upd_node node (λ n, set_cursor (u64 (cursor n + count)) n) s;
    Done (i32 count, s).

(** [node->address = realloc(node->address, node->stat.st_size + count + 1)] *)
Definition grow_buffer (node count : Z) s : res (vfs H) :=
  n ← node_at s node;
  '(a, (m, h)) ← realloc (address n) (u64 (st_size n + count + 1)) (vmem s) (vheap s);
  upd_node node (set_address a) (set_mem s m h).

Definition add_size (count : Z) (n : vnode) : vnode := set_st_size (i64 (st_size n + count)) n.

Definition tmpfs_write (node count buffer : Z) s : res (Z * vfs H) :=
  n ← node_at s node;
  if negb (Z.land (o_mode n) O_APPEND =? 0) then
    s ← upd_node node (λ n, set_cursor (u64 (st_size n)) n) s;
    s ← grow_buffer node count s;
    n ← node_at s node;
    s ← copy (address n + cursor n) buffer count s;
    s ← upd_node node (add_size count) s;
    Done (0, s)
  else
    s ← (if st_size n <=? i32 (cursor n) then grow_buffer node count s else Done s);
    n ← node_at s node;
    s ← copy (address n + cursor n) buffer count s;
    s ← upd_node node (add_size count) s;
    s ← upd_node node (λ n, set_cursor (u64 (cursor n + count)) n) s;
    Done (i32 count, s).
End tmpfs.

(** ** Proofs *)

Section spec.
Context {H : Type} `{HeapLaws H}.
Implicit Types (s : vfs H).

(** [f] is a file whose buffer has [k] bytes and is its own; the numbers are ones
    the code does not wrap. *)
Record file s (f : Z) (n : vnode) (k : Z) : Prop := File {
  fl_node : nodes s !! f = Some n;
  fl_buffer : live (vheap s) (address n) k;
  fl_size : 0 ≤ st_size n < k;
  fl_small : k < 2 ^ 31;
  fl_own a : is_Some (nodes s !! a) ∨ is_Some (mounts s !! a) → a ≠ address n;
}.

(** The bytes the file has. *)
Definition contents s (n : vnode) (i : Z) : option Z :=
  if bool_decide (0 ≤ i < st_size n) then vmem s !! (address n + i) else None.

(** [count] bytes at [p], in settled memory. *)
Definition source s (p count : Z) : Prop :=
  ∀ i, 0 ≤ i < count → settled (vheap s) (p + i) ∧ is_Some (vmem s !! (p + i)).

Lemma node_at_eq s a n : nodes s !! a = Some n → node_at s a = Done n.
Proof. intros Ha. unfold node_at. by rewrite Ha. Qed.

Lemma copy_spec s to from n :
  0 ≤ n → mapped (vmem s) to n → mapped (vmem s) from n → to ≤ from ∨ from + n ≤ to →
  ∃ m, copy to from n s = Done (set_mem s m (vheap s)) ∧
    overwritten (vmem s) m to n (λ i, vmem s !! (from + i)).
Proof.
  intros Hn Ht Hf Hd. destruct (memcpy_spec (vmem s) to from n Hn Ht Hf Hd) as (m & Hm & Ho).
  exists m. unfold copy. by rewrite Hm.
Qed.

(** What [grow_buffer] leaves: a block with room for [count] more bytes that holds
    what the file had. *)
Record grown s (f : Z) (n : vnode) (count : Z) s' (a : Z) : Prop := Grown {
  gw_wf : vfs_wf s';
  gw_nodes : nodes s' = <[f := set_address a n]> (nodes s);
  gw_live : live (vheap s') a (st_size n + count + 1);
  gw_keep x k : live (vheap s) x k → x ≠ address n → live (vheap s') x k;
  gw_apart x k : live (vheap s) x k → a + (st_size n + count + 1) ≤ x ∨ x + k ≤ a;
  gw_settled i : settled (vheap s) i → ¬ (a ≤ i < a + (st_size n + count + 1));
  gw_contents i : 0 ≤ i < st_size n → vmem s' !! (a + i) = vmem s !! (address n + i);
  gw_same i : settled (vheap s) i → vmem s' !! i = vmem s !! i;
  gw_mounts : mounts s' = mounts s;
}.

Lemma grow_buffer_spec s f n k count :
  vfs_wf s → file s f n k → bytes_ok (vmem s) → vmem s !! 0 = None → 0 ≤ count →
  st_size n + count + 1 < 2 ^ 31 →
  (∃ h, malloc (st_size n + count + 1) (vmem s) (vheap s) = Done (0, (vmem s, h)) ∧
     grow_buffer f count s = Fault) ∨
  ∃ s' a, grow_buffer f count s = Done s' ∧ grown s f n count s' a.
Proof.
  intros Hwf [Hf Hb Hsz Hk Hown] Hby Hz Hc Hlim. set (sz := st_size n + count + 1) in *.
  unfold grow_buffer. rewrite (node_at_eq _ _ _ Hf). cbn [mbind res_bind].
  rewrite u64_id by (unfold is_u64; simpl; lia). fold sz.
  destruct (realloc_law (address n) k sz (vmem s) (vheap s) (wf_heap s Hwf) Hby Hb)
    as [(h & Hm & Hr)|(a & m & h & Hr & Hok & Ha & Hmap & Hd & Hcp & Hsame & _ & Hl & Hout)]; [lia|lia|done| |].
  { left. exists h. by rewrite Hr. }
  right. rewrite Hr. cbn [mbind res_bind].
  rewrite (upd_node_eq _ f n) by done.
  assert (∀ x j, live (vheap s) x j → x ≠ address n → live h x j) as Hkeep by (intros; apply Hl; by left).
  exists (set_nodes (set_mem s m h) (<[f := set_address a n]> (nodes s))), a. split; [done|].
  split; cbn; try done.
  - destruct Hwf as [_ Hn Hm Hch Hp].
    apply (wf_set_node (set_mem s m h) f n); cbn; [|done|by eapply Hch|by eapply Hp].
    split; cbn; [done| | |done|done].
    + intros x nd Hx. apply Hkeep; [by eapply Hn|]. apply Hown. left. by rewrite Hx.
    + intros x mp Hx. apply Hkeep; [by eapply Hm|]. apply Hown. right. by rewrite Hx.
  - apply Hl. by right.
  - intros i [Hi|(x & j & Hx & Hi)]; [by apply Hout|]. pose proof (Hd x j Hx). lia.
  - intros i Hi. apply Hcp. lia.
  - intros i [Hi|(x & j & Hx & Hi)]; [by apply Hout|by apply (Hsame x j)].
Qed.

(** Writing to blocks of the heap. *)
Lemma wf_set_mem s m :
  vfs_wf s → (∀ a, is_Some (vmem s !! a) → is_Some (m !! a)) →
  (∀ a, ¬ settled (vheap s) a → m !! a = vmem s !! a) → vfs_wf (set_mem s m (vheap s)).
Proof. intros [Hh Hn Hm Hc Hp] Hd Ho. split; cbn; try done. by eapply heap_ok_writes. Qed.

Lemma copy_wf s to from n m :
  vfs_wf s → overwritten (vmem s) m to n (λ i, vmem s !! (from + i)) →
  mapped (vmem s) from n → (∀ i, to ≤ i < to + n → settled (vheap s) i) →
  vfs_wf (set_mem s m (vheap s)).
Proof.
  intros Hwf Ho Hf Hb. apply wf_set_mem; [done|..]; intros a Ha; rewrite (Ho a); case_bool_decide; try done.
  - apply Hf. lia.
  - exfalso. by apply Ha, Hb.
Qed.

Lemma file_live_mapped s f n k : vfs_wf s → file s f n k →
  0 < address n ∧ address n + k < 2 ^ 64 ∧ mapped (vmem s) (address n) k.
Proof. intros Hwf Hf. by destruct (live_law _ _ _ _ (wf_heap s Hwf) (fl_buffer _ _ _ _ Hf)) as (? & _ & ?). Qed.

Lemma file_grown s f n k count s' a n' :
  vfs_wf s → file s f n k → grown s f n count s' a → 0 ≤ count → st_size n + count + 1 < 2 ^ 31 →
  address n' = a → st_size n' = st_size n + count →
  ∀ m ns, (∀ x, is_Some (ns !! x) ↔ is_Some (nodes s !! x)) → ns !! f = Some n' →
  file (set_nodes (set_mem s' m (vheap s')) ns) f n' (st_size n + count + 1).
Proof.
  intros Hwf Hfl Hg Hc Hlim Ha Hsz m ns Hdom Hns. pose proof (fl_size _ _ _ _ Hfl). split; cbn.
  - done.
  - rewrite Ha. apply Hg.
  - lia.
  - lia.
  - intros x Hx ->. rewrite Ha, (gw_mounts _ _ _ _ _ _ Hg), Hdom in Hx.
    destruct Hx as [[nd Hnd]|[mp Hmp]].
    + apply (wf_node s Hwf), (gw_apart _ _ _ _ _ _ Hg) in Hnd. unfold sizeof_VfsNode in Hnd. lia.
    + apply (wf_mount s Hwf), (gw_apart _ _ _ _ _ _ Hg) in Hmp. unfold sizeof_Mountpoint in Hmp. lia.
Qed.

(** Storing [count] bytes behind the contents of a buffer that was just grown. *)
Lemma grown_copy s f n k count s' a p :
  vfs_wf s → file s f n k → grown s f n count s' a → 0 ≤ count → source s p count →
  ∃ m, copy (a + st_size n) p count s' = Done (set_mem s' m (vheap s')) ∧
    vfs_wf (set_mem s' m (vheap s')) ∧
    (∀ i, 0 ≤ i < st_size n → m !! (a + i) = vmem s !! (address n + i)) ∧
    (∀ i, 0 ≤ i < count → m !! (a + (st_size n + i)) = vmem s !! (p + i)) ∧
    ∀ x j i, live (vheap s) x j → x ≤ i < x + j → m !! i = vmem s !! i.
Proof.
  intros Hwf Hfl Hg Hc Hsrc. pose proof (fl_size _ _ _ _ Hfl).
  destruct (live_law _ _ _ _ (wf_heap s' (gw_wf _ _ _ _ _ _ Hg)) (gw_live _ _ _ _ _ _ Hg))
    as (Ha & _ & _ & Hmap).
  assert (∀ i, 0 ≤ i < count → a + (st_size n + count + 1) ≤ p + i ∨ p + i < a) as Hapart.
  { intros i Hi. destruct (Hsrc i Hi) as [Hset _]. pose proof (gw_settled _ _ _ _ _ _ Hg _ Hset). lia. }
  assert (mapped (vmem s') p count) as Hmp.
  { intros i Hi. destruct (Hsrc (i - p)) as [Hin His]; [lia|].
    replace (p + (i - p)) with i in * by lia. by rewrite (gw_same _ _ _ _ _ _ Hg i Hin). }
  assert (count = 0 ∨ a + (st_size n + count + 1) ≤ p ∨ p + count ≤ a) as Hd.
  { destruct (decide (count = 0)) as [|Hne]; [by left|right].
    destruct (decide (p < a)); [right|left].
    - destruct (decide (p + count ≤ a)); [done|]. specialize (Hapart (a - p)). lia.
    - specialize (Hapart 0). lia. }
  destruct (copy_spec s' (a + st_size n) p count) as (m & Hm & Ho);
    [done|eapply mapped_mono; [exact Hmap|lia..]|done|lia|].
  exists m. split; [done|]. split; [|split; [|split]].
  - eapply copy_wf; [apply Hg|done|done|]. intros i Hi. apply (settled_live _ a (st_size n + count + 1)); [apply Hg|lia].
  - intros i Hi. rewrite Ho, bool_decide_false by lia. by apply Hg.
  - intros i Hi. rewrite Ho, bool_decide_true by lia.
    replace (a + (st_size n + i) - (a + st_size n)) with i by lia.
    apply (gw_same _ _ _ _ _ _ Hg). by apply Hsrc.
  - intros x j i Hx Hi. destruct (gw_apart _ _ _ _ _ _ Hg x j Hx); rewrite Ho, bool_decide_false by lia;
      by apply (gw_same _ _ _ _ _ _ Hg), (settled_live _ x j).
Qed.

Lemma wf_set_plain s a n n' :
  vfs_wf s → nodes s !! a = Some n → points_to n' = points_to n → children n' = children n →
  vfs_wf (set_nodes s (<[a := n']> (nodes s))).
Proof.
  intros Hwf Ha Hp Hc. eapply wf_set_node; [done..| |]; rewrite ?Hp, ?Hc; by eauto using wf_children, wf_points.
Qed.

Lemma file_set_plain s f n n' k :
  file s f n k → address n' = address n → 0 ≤ st_size n' < k →
  file (set_nodes s (<[f := n']> (nodes s))) f n' k.
Proof.
  intros [Hf Hb Hsz Hk Hown] Ha Hs. split; cbn; [by rewrite lookup_insert_eq|by rewrite Ha|done|done|].
  intros a Hin. rewrite Ha. apply Hown. destruct Hin as [[m Hm]|Hin]; [left|by right].
  apply lookup_insert_Some in Hm as [[<- _]|[_ Hm]]; [by rewrite Hf|by rewrite Hm].
Qed.

Lemma node_eta n : VNode (n_type n) (name n) (parent n) (points_to n) (children n) (mountpoint n)
  (st_size n) (cursor n) (o_mode n) (address n) (internal_address n) (init n) = n.
Proof. by destruct n. Qed.

(** The buffer before anything is read from it. *)
Lemma load_image_spec s f n k :
  vfs_wf s → file s f n k →
  (init n = false → 0 < st_size n ∧ mapped (vmem s) (internal_address n) (st_size n) ∧
     (internal_address n + st_size n ≤ address n ∨ address n + k ≤ internal_address n)) →
  ∃ s1, load_image f s = Done s1 ∧ nodes s1 = <[f := set_init true n]> (nodes s) ∧
    (∀ i, 0 ≤ i < st_size n → vmem s1 !! (address n + i) =
       if init n then vmem s !! (address n + i)
       else if bool_decide (i = st_size n - 1) then Some 0xff
       else vmem s !! (internal_address n + i)) ∧
    (∀ a, ¬ (address n ≤ a < address n + k) → vmem s1 !! a = vmem s !! a) ∧
    (∀ a, is_Some (vmem s !! a) → is_Some (vmem s1 !! a)) ∧
    ∃ m, s1 = set_nodes (set_mem s m (vheap s)) (<[f := set_init true n]> (nodes s)).
Proof.
  intros Hwf Hfile Himage.
  pose proof (fl_node _ _ _ _ Hfile) as Hf. pose proof (fl_size _ _ _ _ Hfile) as Hsz.
  pose proof (fl_small _ _ _ _ Hfile) as Hk.
  destruct (file_live_mapped s f n k Hwf Hfile) as (Ha & Hhi & Hmap).
  unfold load_image. rewrite (node_at_eq s f n Hf). cbn [mbind res_bind].
  destruct (init n) eqn:Hi; cbn [negb].
  { assert (<[f := set_init true n]> (nodes s) = nodes s) as Hns.
    { unfold set_init. by rewrite <-Hi, node_eta, insert_id. }
    exists s. rewrite Hns. split_and!; [done..|]. exists (vmem s). by destruct s. }
  destruct (Himage eq_refl) as (Hpos & Him & Hd). rewrite u64_id by (unfold is_u64; simpl; lia).
  destruct (copy_spec s (address n) (internal_address n) (st_size n)) as (m & Hm & Ho);
    [lia|eapply mapped_mono; [exact Hmap|lia..]|done|lia|].
  assert (∀ a, is_Some (vmem s !! a) → is_Some (m !! a)) as Hdom.
  { intros a Hia. rewrite Ho. case_bool_decide; [apply Him; lia|done]. }
  rewrite Hm. cbn [mbind res_bind vmem set_mem].
  rewrite store8_Done by (apply Hdom, Hmap; lia). cbn [mbind res_bind].
  rewrite (upd_node_eq _ f n) by done. eexists. split; [done|]. cbn. split; [done|].
  split; [|split; [|split; [|by eexists]]].
  - intros i Hrange. case_bool_decide as Hlast.
    + subst i. by rewrite lookup_insert_eq.
    + rewrite lookup_insert_ne, Ho, bool_decide_true by lia. by rewrite Z.add_simpl_l.
  - intros a Hia. by rewrite lookup_insert_ne, Ho, bool_decide_false by lia.
  - intros a Hia. apply lookup_insert_is_Some'. right. by apply Hdom.
Qed.
End spec.

(** A file of the image, in the directory its path names. *)
Lemma create_file_run {H} `{HeapLaws H} (junk : Z → vnode) (vec_ok : Z → bool) (limit : Z)
    (s : vfs H) cs c par p addr size k :
  clean junk → limit ≤ 2 ^ 31 → (∀ b, 0 ≤ b < limit → vec_ok b = true) →
  vfs_wf s → in_dir s cs c par p → 0 ≤ size < small → room (2 + k) (vheap s) →
  fits 8 limit (length (kids p) + 1) = true →
  ∃ f n s', tmpfs_create_file junk vec_ok (path_of (cs ++ [c])) addr size s = Done s' ∧
    vfs_wf s' ∧ linked (nodes s) (nodes s') par f c ∧ file s' f n (size + 1) ∧
    n_type n = VFS_FILE ∧ parent n = par ∧ mountpoint n = mountpoint p ∧
    st_size n = size ∧ internal_address n = addr ∧ init n = init (junk f) ∧ room k (vheap s') ∧
    points_to n = 0 ∧ (aliases (nodes s) → points_to p = 0 → aliases (nodes s')) ∧
    ∀ x, settled (vheap s) x → ¬ (address n ≤ x < address n + (size + 1)).
Proof.
  intros Hclean Hlimit Hrealloc Hwf Hd Hsize Hk Hfit. pose proof Hd as [Hnames _ _ Hp].
  apply Forall_app in Hnames as [_ Hc%Forall_cons_1]. destruct Hc as [Hc _].
  pose proof (wf_pos s par p Hwf Hp). unfold small in Hsize.
  destruct (new_node_ok junk Hclean VFS_FILE s (1 + k) Hwf Hk)
    as (f & s1 & Hr & Hwf1 & Hfr & Hn1 & Hk1 & Hr1 & Hg1).
  assert (f ≠ par) by congruence.
  unfold tmpfs_create_file, vfs_get_root. rewrite Hr. cbn [mbind res_bind].
  destruct (upd_ok s1 f _ _ (set_name c) Hwf1 Hn1) as (s2 & Hs2 & [Hwf2 Hn2 Hh2 Hr2 Hg2]); [by intros|].
  rewrite basename_path_of by done. rewrite Hs2. cbn [mbind res_bind].
  assert (agrees (nodes s) (nodes s2)) as Hag.
  { split; [by apply wf_null|]. intros a Ha. rewrite Hn2, lookup_insert_ne; [done|].
    intros <-. rewrite Hfr in Ha. by destruct Ha. }
  rewrite (in_dir_parent s s2 cs c par p) by (done || by rewrite Hr2). cbn [mbind res_bind].
  destruct (upd_ok s2 f _ _ (set_parent par) Hwf2 Hn2) as (s3 & -> & [Hwf3 Hn3 Hh3 Hr3 Hg3]); [by intros|].
  cbn [mbind res_bind]. rewrite (node_at_eq s3 par p) by (by rewrite Hn3, lookup_insert_ne).
  cbn [mbind res_bind].
  destruct (upd_ok s3 f _ _ (set_mountpoint (mountpoint p)) Hwf3 Hn3)
    as (s4 & -> & [Hwf4 Hn4 Hh4 Hr4 Hg4]); [by intros|]. cbn [mbind res_bind].
  rewrite i64_id, u64_id by (unfold is_u64; simpl; lia).
  destruct (upd_ok s4 f _ _ (set_st_size size) Hwf4 Hn4)
    as (s5 & -> & [Hwf5 Hn5 Hh5 Hr5 Hg5]); [by intros|]. cbn [mbind res_bind].
  destruct (malloc_new (size + 1) s5 k Hwf5) as (a & m & h & -> & Hwf6 & Hblk & Hk6);
    [unfold small; lia|by rewrite Hh5, Hh4, Hh3, Hh2|]. cbn [mbind res_bind].
  assert (live h a (size + 1)) as Hlive by (apply (nb_live _ _ _ _ _ _ Hblk); by right).
  destruct (upd_ok (set_mem s5 m h) f _ _ (set_address a) Hwf6 Hn5)
    as (s7 & -> & [Hwf7 Hn7 Hh7 Hr7 Hg7 Hm7]); [by intros|]. cbn [mbind res_bind].
  destruct (upd_ok s7 f _ _ (set_internal addr) Hwf7 Hn7)
    as (s8 & -> & [Hwf8 Hn8 Hh8 Hr8 Hg8 Hm8]); [by intros|]. cbn [mbind res_bind].
  set (n := set_internal addr _) in Hn8.
  assert (nodes s8 !! f = Some n) as Hf8 by (rewrite Hn8; apply lookup_insert_eq).
  assert (nodes s8 !! par = Some p) as Hp8 by (by rewrite Hn8, lookup_insert_ne).
  destruct (push_child_ok vec_ok limit Hlimit Hrealloc s8 par p f Hwf8 Hp8)
    as (v & s9 & -> & Hkv & [Hwf9 Hn9 Hh9 Hr9 Hg9 Hm9]); [by rewrite Hf8|done|].
  exists f, n, s9. split; [done|]. split; [done|].
  assert (nodes s9 !! f = Some n) as Hf9 by (by rewrite Hn9, lookup_insert_ne).
  split; [|split; [|do 6 (split; [done|])]].
  - rewrite Hn9. apply (linked_push (nodes s) par p f n); try done.
    + by apply wf_null.
    + pose proof (wf_pos s8 f _ Hwf8 Hf8). lia.
    + intros b Hb. rewrite Hn8, lookup_insert_ne; [done|]. intros <-. rewrite Hfr in Hb. by destruct Hb.
    + by apply wf_null.
  - split; [done|by rewrite Hh9, Hh8, Hh7|cbn; lia|lia|].
    intros b Hx. apply (new_block_own (size + 1) s5 a m h); [done|lia|done|].
    destruct Hx as [Hx|Hx]; [left|right; by rewrite Hm9, Hm8, Hm7 in Hx].
    rewrite Hn9, Hn8 in Hx. rewrite Hn5. rewrite !lookup_insert_is_Some' in *.
    destruct Hx as [<-|Hx]; [|naive_solver]. right. by rewrite Hp.
  - split; [by rewrite Hh9, Hh8, Hh7|]. split; [by apply Hclean|]. split.
    + intros Hal Hp0. destruct (Hclean f) as [Hpt _]. rewrite Hn9, Hn8. by repeat apply aliases_insert.
    + intros x Hx. apply (nb_apart _ _ _ _ _ _ x Hblk). rewrite Hh5, Hh4, Hh3, Hh2.
      eapply settled_mono; [|exact Hx]. intros q j. by eapply new_node_live.
Qed.

(** [tmpfs_read], inside the file. *)
Lemma tmpfs_read_parts {H} `{HeapLaws H} (s : vfs H) (f : Z) (n : vnode) (k offset count buf : Z)
    (Hwf : vfs_wf s) (Hfile : file s f n k) (Hrange : 0 ≤ offset ∧ 0 ≤ count ∧ offset + count ≤ st_size n)
    (Hbuf : 0 < buf ∧ mapped (vmem s) buf count)
    (Hapart : buf + count ≤ address n ∨ address n + k ≤ buf)
    (Himage : init n = false → 0 < st_size n ∧ mapped (vmem s) (internal_address n) (st_size n) ∧
       (internal_address n + st_size n ≤ address n ∨ address n + k ≤ internal_address n)) :
  ∃ s' n', tmpfs_read f offset count buf s = Done (count, s') ∧
    nodes s' = <[f := n']> (nodes s) ∧ n' = set_cursor (u64 (cursor n + count)) (set_init true n) ∧
    (∀ i, 0 ≤ i < count → vmem s' !! (buf + i) =
       if init n then contents s n (offset + i)
       else if bool_decide (offset + i = st_size n - 1) then Some 0xff
       else vmem s !! (internal_address n + (offset + i))) ∧
    (∀ a, ¬ (buf ≤ a < buf + count) → ¬ (address n ≤ a < address n + k) → vmem s' !! a = vmem s !! a) ∧
    (∀ a, is_Some (vmem s !! a) → is_Some (vmem s' !! a)) ∧
    ∃ m, s' = set_nodes (set_mem s m (vheap s)) (<[f := n']> (nodes s)).
Proof.
  pose proof (fl_node _ _ _ _ Hfile) as Hf. pose proof (fl_size _ _ _ _ Hfile) as Hsz.
  pose proof (fl_small _ _ _ _ Hfile) as Hk.
  destruct (file_live_mapped s f n k Hwf Hfile) as (Ha & Hhi & Hmap).
  destruct (load_image_spec s f n k Hwf Hfile Himage) as (s1 & Hl & Hn1 & Hin & Hout & Hdom & m1 & Hs1).
  unfold tmpfs_read. rewrite Hl. cbn [mbind res_bind]. rewrite (proj2 (Z.eqb_neq buf 0)) by lia.
  assert (nodes s1 !! f = Some (set_init true n)) as Hf1 by (rewrite Hn1; apply lookup_insert_eq).
  rewrite (node_at_eq s1 f _ Hf1). cbn [mbind res_bind]. change (address (set_init true n)) with (address n).
  rewrite u64_id by (unfold is_u64; simpl; lia).
  destruct (copy_spec s1 buf (address n + offset) count) as (m & Hm & Ho);
    [lia|intros i Hi; by apply Hdom, Hbuf|intros i Hi; apply Hdom, Hmap; lia|lia|].
  rewrite Hm. cbn [mbind res_bind].
  rewrite (upd_node_eq _ f (set_init true n)) by done. cbn [mbind res_bind].
  rewrite i32_id by (unfold is_i32; simpl; lia).
  eexists _, (set_cursor (u64 (cursor n + count)) (set_init true n)). split; [done|].
  split; [cbn; by rewrite Hn1, insert_insert_eq|]. split; [done|]. cbn. split; [|split; [|split]].
  - intros i Hi. rewrite Ho, bool_decide_true, Z.add_simpl_l by lia.
    rewrite <-Z.add_assoc, Hin by lia. unfold contents. by rewrite (bool_decide_true (0 ≤ _ < _)) by lia.
  - intros a Hab Haf. rewrite Ho, bool_decide_false by done. by apply Hout.
  - intros a Ha'. rewrite Ho. case_bool_decide; [|by apply Hdom].
    apply Hdom, Hmap. lia.
  - exists m. rewrite Hs1. cbn. by rewrite insert_insert_eq.
Qed.

(** ** Properties *)

(** C18: appending to a file that was read before, so that its image is loaded. With
    [O_APPEND] [tmpfs_write] puts the bytes behind the contents, wherever the cursor was:
    the file then has its old contents followed by the bytes, in a block of its own, and
    the answer is 0; no other node changes, no other file with a buffer of its own changes
    its contents, and all other blocks keep theirs.  Without memory for the larger block
    it faults. *)
Theorem tmpfs_append {H} `{HeapLaws H} (s : vfs H) (f : Z) (n : vnode) (k count p : Z)
    (Hwf : vfs_wf s) (Hfile : file s f n k) (Hinit : init n = true) (Hmode : Z.land (o_mode n) O_APPEND ≠ 0)
    (Hby : bytes_ok (vmem s)) (Hz : vmem s !! 0 = None) (Hc : 0 ≤ count)
    (Hlim : st_size n + count + 1 < 2 ^ 31) (Hsrc : source s p count) :
  (∃ h, malloc (st_size n + count + 1) (vmem s) (vheap s) = Done (0, (vmem s, h)) ∧
     tmpfs_write f count p s = Fault) ∨
  ∃ s' n', tmpfs_write f count p s = Done (0, s') ∧ vfs_wf s' ∧
    file s' f n' (st_size n + count + 1) ∧
    n' = set_address (address n') (set_st_size (st_size n + count) (set_cursor (st_size n) n)) ∧
    nodes s' = <[f := n']> (nodes s) ∧ mounts s' = mounts s ∧
    (∀ i, contents s' n' i =
       if bool_decide (i < st_size n) then contents s n i
       else if bool_decide (i < st_size n + count) then vmem s !! (p + (i - st_size n)) else None) ∧
    (∀ g m j, g ≠ f → file s g m j → address m ≠ address n →
       file s' g m j ∧ ∀ i, contents s' m i = contents s m i) ∧
    ∀ x j i, live (vheap s) x j → x ≠ address n → x ≤ i < x + j → vmem s' !! i = vmem s !! i.
Proof.
  pose proof (fl_node _ _ _ _ Hfile) as Hf. pose proof (fl_size _ _ _ _ Hfile) as Hsz.
  pose proof (fl_small _ _ _ _ Hfile) as Hk.
  unfold tmpfs_write. rewrite (node_at_eq s f n Hf). cbn [mbind res_bind].
  rewrite (proj2 (Z.eqb_neq _ _) Hmode). cbn [negb].
  rewrite (upd_node_eq s f n) by done. cbn [mbind res_bind]. rewrite u64_id by (unfold is_u64; simpl; lia).
  set (n1 := set_cursor (st_size n) n). set (s1 := set_nodes s _).
  assert (vfs_wf s1) as Hwf1 by by eapply wf_set_plain.
  assert (file s1 f n1 k) as Hf1 by by eapply file_set_plain.
  destruct (grow_buffer_spec s1 f n1 k count Hwf1 Hf1 Hby Hz Hc Hlim)
    as [(h & Hm & Hr)|(s2 & a & Hr & Hg)]; rewrite Hr; cbn [mbind res_bind].
  { left. by exists h. }
  right. rewrite (node_at_eq s2 f (set_address a n1)) by (rewrite (gw_nodes _ _ _ _ _ _ Hg); apply lookup_insert_eq).
  cbn [mbind res_bind].
  destruct (grown_copy s1 f n1 k count s2 a p Hwf1 Hf1 Hg Hc Hsrc) as (m & Hm & Hwf3 & Hold & Hnew & Hrest).
  change (address (set_address a n1)) with a. change (cursor (set_address a n1)) with (st_size n).
  change (st_size n1) with (st_size n) in Hm. rewrite Hm. cbn [mbind res_bind].
  set (s3 := set_mem s2 m _) in *. set (n' := add_size count (set_address a n1)).
  assert (nodes s3 !! f = Some (set_address a n1)) as Hf3
    by (cbn; rewrite (gw_nodes _ _ _ _ _ _ Hg); apply lookup_insert_eq).
  rewrite (upd_node_eq s3 f _ (add_size count) Hf3). cbn [mbind res_bind].
  assert (st_size n' = st_size n + count) as Hsn by (cbn; apply i64_id; simpl; lia).
  assert (<[f := n']> (nodes s3) = <[f := n']> (nodes s)) as Hns.
  { change (nodes s3) with (nodes s2). rewrite (gw_nodes _ _ _ _ _ _ Hg), insert_insert_eq. apply insert_insert_eq. }
  exists (set_nodes s3 (<[f := n']> (nodes s3))), n'. split; [done|].
  split; [by eapply wf_set_plain|].
  split; [|split; [rewrite <-Hsn; by destruct n|
    split; [exact Hns|split; [apply (gw_mounts _ _ _ _ _ _ Hg)|split; [|split]]]]].
  - apply (file_grown s1 f n1 k count s2 a n'); try done.
    + intros x. cbn. rewrite (gw_nodes _ _ _ _ _ _ Hg), insert_insert_eq. cbn.
      rewrite !lookup_insert_is_Some'. naive_solver.
    + cbn. by rewrite lookup_insert_eq.
  - intros i. unfold contents. rewrite Hsn. cbn [vmem set_nodes s3 set_mem]. change (address n') with a.
    destruct (decide (0 ≤ i)) as [Hi|Hi].
    2: { rewrite !(bool_decide_false (0 ≤ i < _)) by lia. rewrite bool_decide_true by lia. done. }
    destruct (decide (i < st_size n)) as [Hlt|Hge].
    { rewrite !(bool_decide_true (0 ≤ i < _)), bool_decide_true by lia. by apply Hold. }
    rewrite (bool_decide_false (i < st_size n)) by lia.
    rewrite (bool_decide_ext (0 ≤ i < st_size n + count) (i < st_size n + count)) by lia.
    case_bool_decide; [|done]. replace i with (st_size n + (i - st_size n)) at 1 by lia.
    apply Hnew. lia.
  - intros g m' j Hne [Hgn Hgb Hgs Hgk Hgo] Hap. split.
    + split; [|by apply (gw_keep _ _ _ _ _ _ Hg)|done|done|].
      * cbn [nodes set_nodes]. by rewrite Hns, lookup_insert_ne.
      * intros x Hx. apply Hgo. cbn [nodes mounts set_nodes] in Hx. rewrite Hns, lookup_insert_is_Some' in Hx.
        change (mounts s3) with (mounts s2) in Hx. rewrite (gw_mounts _ _ _ _ _ _ Hg) in Hx.
        destruct Hx as [[<-|Hx]|Hx]; [left; by eexists|by left|by right].
    + intros i. unfold contents. case_bool_decide as Hi; [|done]. by apply (Hrest (address m') j); [|lia].
  - intros x j i Hx _ Hi. by apply (Hrest x j).
Qed.

(** C19: reading. [tmpfs_read] of [count] bytes from [offset], all inside the
    file, answers [count], puts the file's bytes at [buf] and moves the cursor;
    only the buffers change.  The first read of a file of the boot image takes them
    from the image - except for the last byte of the file, which becomes 0xff. *)
Theorem tmpfs_read_file {H} `{HeapLaws H} (s : vfs H) (f : Z) (n : vnode) (k offset count buf : Z)
    (Hwf : vfs_wf s) (Hfile : file s f n k) (Hrange : 0 ≤ offset ∧ 0 ≤ count ∧ offset + count ≤ st_size n)
    (Hbuf : 0 < buf ∧ mapped (vmem s) buf count)
    (Hapart : buf + count ≤ address n ∨ address n + k ≤ buf)
    (Himage : init n = false → 0 < st_size n ∧ mapped (vmem s) (internal_address n) (st_size n) ∧
       (internal_address n + st_size n ≤ address n ∨ address n + k ≤ internal_address n)) :
  ∃ s' n', tmpfs_read f offset count buf s = Done (count, s') ∧
    nodes s' = <[f := n']> (nodes s) ∧ init n' = true ∧ cursor n' = u64 (cursor n + count) ∧
    (∀ i, 0 ≤ i < count → vmem s' !! (buf + i) =
       if init n then contents s n (offset + i)
       else if bool_decide (offset + i = st_size n - 1) then Some 0xff
       else vmem s !! (internal_address n + (offset + i))) ∧
    ∀ a, ¬ (buf ≤ a < buf + count) → ¬ (address n ≤ a < address n + k) → vmem s' !! a = vmem s !! a.
Proof.
  destruct (tmpfs_read_parts s f n k offset count buf) as (s' & n' & Hr & Hn & -> & Hb & Ho & _); [done..|].
  by exists s', (set_cursor (u64 (cursor n + count)) (set_init true n)).
Qed.

(** A file made by [vfs_open] cannot be read back. Its [init] is
    unset and its [internal_address] NULL: once something was written to it,
    [tmpfs_read] copies "the image" from NULL, a fault; while it is empty, it stores
    0xff into the byte before its buffer. *)
Theorem tmpfs_read_created {H} `{Heap H} (s : vfs H) (f : Z) (n : vnode) (offset count buf : Z)
    (Hf : nodes s !! f = Some n) (Hinit : init n = false) (Himage : internal_address n = 0)
    (Hz : vmem s !! 0 = None) (Hsz : 0 ≤ st_size n < 2 ^ 63) :
  (0 < st_size n → tmpfs_read f offset count buf s = Fault) ∧
  (st_size n = 0 → is_Some (vmem s !! (address n - 1)) →
     ∃ s', load_image f s = Done s' ∧ vmem s' = <[address n - 1 := 0xff]> (vmem s)).
Proof.
  assert (node_at s f = Done n) as Hat by (unfold node_at; by rewrite Hf).
  split; intros Hs.
  - unfold tmpfs_read, load_image. rewrite Hat. cbn [mbind res_bind]. rewrite Hinit, Himage. cbn [negb].
    rewrite u64_id by (unfold is_u64; simpl in *; lia). unfold copy, memcpy.
    replace (Z.to_nat (st_size n)) with (S (Z.to_nat (st_size n - 1))) by lia. cbn [for_loop].
    unfold copy_byte, load8. change (0 + 0) with 0. by rewrite Hz.
  - intros Hb. unfold load_image. rewrite Hat. cbn [mbind res_bind]. rewrite Hinit, Hs. cbn [negb].
    unfold copy, memcpy.
    change (Z.to_nat (u64 0)) with 0%nat. cbn [for_loop mbind res_bind vmem set_mem].
    replace (address n + (0 - 1)) with (address n - 1) by lia.
    rewrite store8_Done by done. cbn [mbind res_bind].
    rewrite (upd_node_eq _ f n) by done. by eexists.
Qed.

(** Writing at the cursor. Without [O_APPEND], inside the file,
    [tmpfs_write] replaces the bytes at the cursor in place, keeps the others, moves
    the cursor and answers [count]; yet it adds [count] to the size, although the
    file has no more bytes and no larger block than before. *)
Theorem tmpfs_overwrite {H} `{HeapLaws H} (s : vfs H) (f : Z) (n : vnode) (k count p : Z)
    (Hwf : vfs_wf s) (Hfile : file s f n k) (Hmode : Z.land (o_mode n) O_APPEND = 0)
    (Hc : 0 ≤ count) (Hcur : 0 ≤ cursor n < st_size n) (Hin : cursor n + count ≤ st_size n)
    (Hsrc : mapped (vmem s) p count) (Hd : p + count ≤ address n ∨ address n + k ≤ p) :
  ∃ s' n', tmpfs_write f count p s = Done (count, s') ∧ vfs_wf s' ∧
    nodes s' = <[f := n']> (nodes s) ∧ vheap s' = vheap s ∧ address n' = address n ∧
    cursor n' = cursor n + count ∧ st_size n' = st_size n + count ∧
    (∀ i, 0 ≤ i < k → vmem s' !! (address n + i) =
       if bool_decide (cursor n ≤ i < cursor n + count) then vmem s !! (p + (i - cursor n))
       else vmem s !! (address n + i)) ∧
    ∀ a, ¬ (address n ≤ a < address n + k) → vmem s' !! a = vmem s !! a.
Proof.
  pose proof (fl_node _ _ _ _ Hfile) as Hf. pose proof (fl_size _ _ _ _ Hfile) as Hsz.
  pose proof (fl_small _ _ _ _ Hfile) as Hk.
  destruct (file_live_mapped s f n k Hwf Hfile) as (Ha & Hhi & Hmap).
  unfold tmpfs_write. rewrite !(node_at_eq s f n Hf). cbn [mbind res_bind].
  rewrite Hmode. cbn [Z.eqb negb]. rewrite (i32_id (cursor n)) by (unfold is_i32; simpl; lia).
  destruct (Z.leb_spec (st_size n) (cursor n)) as [|_]; [lia|]. cbn [mbind res_bind].
  rewrite (node_at_eq s f n Hf). cbn [mbind res_bind].
  destruct (copy_spec s (address n + cursor n) p count) as (m & Hm & Ho);
    [done|eapply mapped_mono; [exact Hmap|lia..]|done|lia|].
  rewrite Hm. cbn [mbind res_bind].
  assert (vfs_wf (set_mem s m (vheap s))) as Hwf1.
  { eapply copy_wf; [done|done|done|]. intros i Hi. apply (settled_live _ (address n) k); [apply Hfile|lia]. }
  rewrite (upd_node_eq _ f n) by done. cbn [mbind res_bind].
  rewrite (upd_node_eq _ f (add_size count n)) by apply lookup_insert_eq. cbn [mbind res_bind].
  cbn [nodes set_nodes set_mem]. rewrite insert_insert_eq.
  change (cursor (add_size count n)) with (cursor n).
  rewrite i32_id, u64_id by (unfold is_i32, is_u64; simpl; lia).
  set (n' := set_cursor (cursor n + count) (add_size count n)).
  eexists _, n'. split; [done|]. split.
  { by apply (wf_set_plain (set_mem s m (vheap s)) f n n'). }
  split; [done|]. split; [done|]. split; [done|]. split; [done|].
  split; [cbn; apply i64_id; simpl; lia|]. cbn. split.
  - intros i Hi. rewrite Ho.
    rewrite (bool_decide_ext (address n + cursor n ≤ address n + i < address n + cursor n + count)
      (cursor n ≤ i < cursor n + count)) by lia.
    case_bool_decide; [|done]. f_equal. lia.
  - intros a Hout. by rewrite Ho, bool_decide_false by lia.
Qed.

