(* ===== verification/Devfs.v ===== *)
(** * The device file system ([src/src/kernel/fs/devfs.c])

    Its one file is the terminal, [/dev/tty], on the serial line of [Devices.v]:
    reading takes a line and echoes it, writing sends bytes. *)

From S2P Require Import Prelude CInt Mem Lock Boot Abi Vec Heap Str Devices Vfs VfsSpec Tmpfs.

(** "tty", "/dev", "/dev/tty" *)
Definition tty : list Z := [0x74; 0x74; 0x79].
Definition dev_path : list Z := [0x2f; 0x64; 0x65; 0x76].
Definition tty_path : list Z := dev_path ++ 0x2f :: tty.

Section devfs.
Context {H : Type} `{Heap H} (device : list port_event → Z → Z) (fuel : nat).
Implicit Types (s : vfs H).

Definition getc s : res (Z * vfs H) :=
  '(c, t) ← com_getc device fuel (vport s); Done (c, set_port s t (write_lock s)).
Definition putc (c : Z) s : res (vfs H) :=
  t ← com_putc device fuel c (vport s); Done (set_port s t (write_lock s)).

(** [while (curr_char != '\r') ...] into the block [buf]. *)
Definition line_loop (buf : Z) (st : Z * Z * vfs H) : res (Z * Z * vfs H + Z * vfs H) :=
  let '(i, curr_char, s) := st in
  if curr_char =? 0x0d then Done (inr (i, s))
  else
    '(curr_char, s) ← getc s;
    m ← store8 (vmem s) (buf + i) curr_char;
    s ← putc curr_char (set_mem s m (vheap s));
    Done (inl (i + 1, curr_char, s)).

Definition devfs_read (node offset count buffer : Z) s : res (Z * vfs H) :=
  n ← node_at s node;
  if bool_decide (name n = tty) then
    '(buf, (m, h)) ← malloc count (vmem s) (vheap s);
    '(i, s) ← while_loop fuel (line_loop buf) (0, 0, set_mem s m h);
    m ← store8 (vmem s) (buf + i) 0xff;
    s ← putc 0x0a (set_mem s m (vheap s));
    s ← copy buffer buf i s;
    '(m, h) ← free buf (vmem s) (vheap s);
    Done (i32 i, set_mem s m h)
  else Done (-1, s).

Definition devfs_write (node count buffer : Z) s : res (Z * vfs H) :=
  n ← node_at s node;
  if bool_decide (name n = tty) then
    l ← spin_lock (write_lock s);
    s ← for_loop (Z.to_nat count) 0 (λ i s, c ← load8 (vmem s) (buffer + i); putc c s)
          (set_port s (vport s) l);
    let s := set_port s (vport s) (spin_release (write_lock s)) in
    s ← upd_node node (λ n, set_cursor (u64 (cursor n + count)) n) s;
    s ← upd_node node (add_size count) s;
    Done (i32 count, s)
  else Done (-1, s).

Context (junk : Z → vnode) (vec_ok : Z → bool).

Definition devfs_init s : res (vfs H) :=
  '(_, s) ← vfs_mount junk vec_ok dev_path DEVFS s;
  '(_, s) ← vfs_open junk vec_ok (vfs_get_root s) tty_path O_CREAT s;
  Done s.
End devfs.

(** ** Proofs *)

Section spec.
Context {H : Type} `{HeapLaws H} (device : list port_event → Z → Z) (n fuel : nat).
Context (Hready : uart_ready device n) (Htyped : uart_typed device n) (Hfuel : (n ≤ fuel)%nat).
Implicit Types (s : vfs H).

(** After the bytes [R] were read from the line, the next are [keys]. *)
Definition types (R keys : list Z) : Prop :=
  ∀ t j c, received PORT t = R ++ take j keys → keys !! j = Some c → device t PORT = c.

Lemma putc_spec c s :
  ∃ t, putc device fuel c s = Done (set_port s t (write_lock s)) ∧
    received PORT t = received PORT (vport s) ∧
    ∀ port, written port t = written port (vport s) ++ (if port =? PORT then [u8 c] else []).
Proof.
  destruct (com_putc_spec device n fuel c (vport s) Hready Hfuel) as (t' & Hr & Hst).
  unfold putc. rewrite Hr. cbn [mbind res_bind]. eexists. split; [done|]. split.
  - rewrite !received_app, (received_status t') by done. cbn. by rewrite app_nil_r.
  - intros port. rewrite !written_app, (written_status port t' Hst), app_nil_l. f_equal.
    unfold written. cbn [omap list_omap]. rewrite (Z.eqb_sym port PORT). by destruct (PORT =? port).
Qed.

Lemma getc_spec R pre c rest s :
  types R (pre ++ c :: rest) → is_u8 c → received PORT (vport s) = R ++ pre →
  ∃ t, getc device fuel s = Done (c, set_port s t (write_lock s)) ∧
    received PORT t = R ++ pre ++ [c] ∧
    ∀ port, written port t = written port (vport s).
Proof.
  intros Hty Hc Hrec.
  destruct (com_getc_spec device n fuel (vport s) Htyped Hfuel) as (t' & Hr & Hst).
  assert (device (vport s ++ t') PORT = c) as Hdev.
  { apply (Hty _ (length pre)).
    - by rewrite received_app, Hrec, (received_status t'), app_nil_r, take_app_length.
    - by apply list_lookup_middle. }
  rewrite Hdev, u8_id in Hr by done. unfold getc. rewrite Hr. cbn [mbind res_bind].
  eexists. split; [done|]. split.
  - rewrite !received_app, Hrec, (received_status t') by done. cbn. by rewrite (assoc_L (++)).
  - intros port. rewrite !written_app, (written_status port t' Hst). cbn. by rewrite app_nil_r.
Qed.

Lemma line_loop_step buf i curr s : curr ≠ 0x0d →
  line_loop device fuel buf (i, curr, s) =
    '(c, s) ← getc device fuel s;
    m ← store8 (vmem s) (buf + i) c;
    s ← putc device fuel c (set_mem s m (vheap s));
    Done (inl (i + 1, c, s)).
Proof. intros Hc. unfold line_loop. by rewrite (proj2 (Z.eqb_neq _ _) Hc). Qed.

Lemma line_loop_end buf i s : line_loop device fuel buf (i, 0x0d, s) = Done (inr (i, s)).
Proof. done. Qed.

(** The loop, with [pre] read so far. *)
Lemma line_loop_spec R line buf rest pre curr s fu :
  types R (line ++ [0x0d]) → 0x0d ∉ line → Forall is_u8 line → curr ≠ 0x0d →
  pre ++ rest = line ++ [0x0d] → rest ≠ [] → received PORT (vport s) = R ++ pre →
  mapped (vmem s) (buf + length_z pre) (length_z rest) → (length rest < fu)%nat →
  ∃ m t, while_loop fu (line_loop device fuel buf) (length_z pre, curr, s) =
      Done (length_z line + 1, set_port (set_mem s m (vheap s)) t (write_lock s)) ∧
    overwritten (vmem s) m (buf + length_z pre) (length_z rest) (λ i, rest !!z i) ∧
    ∀ port, written port t = written port (vport s) ++ (if port =? PORT then rest else []).
Proof.
  intros Hty Hno Hu8 Hcurr Heq Hne. revert pre curr s fu Hcurr Heq.
  induction rest as [|c rest IH]; intros pre curr s [|fu] Hcurr Heq Hrec Hmap Hfu; simpl in Hfu; [done|done|lia|].
  assert (Forall is_u8 (pre ++ c :: rest)) as Hall.
  { rewrite Heq. apply Forall_app. split; [done|]. repeat constructor; simpl; lia. }
  assert (is_u8 c) as Hc by (apply Forall_app in Hall as [_ Hall]; by inversion Hall).
  cbn [while_loop]. rewrite line_loop_step by done.
  destruct (getc_spec R pre c rest s) as (t1 & -> & Hrec1 & Hw1); [by rewrite Heq|done|done|].
  cbn [mbind res_bind].
  assert (length_z (pre ++ [c]) = length_z pre + 1) as Hlen by (by rewrite length_z_app).
  assert (length_z (c :: rest) = length_z rest + 1) as Hlr by (unfold length_z; simpl; lia).
  assert (0 ≤ length_z rest) as Hr0 by (unfold length_z; lia).
  cbn [vmem vheap set_port]. rewrite store8_Done by (apply Hmap; lia). cbn [mbind res_bind].
  set (m1 := <[buf + length_z pre := c]> (vmem s)).
  fold m1. destruct (putc_spec c (set_mem (set_port s t1 (write_lock s)) m1 (vheap s))) as (t2 & -> & Hrec2 & Hw2).
  cbn [mbind res_bind vport set_mem set_port] in *.
  set (s2 := set_port _ t2 _).
  assert (∀ port, written port t2 = written port (vport s) ++ (if port =? PORT then [c] else [])) as Hw.
  { intros port. by rewrite Hw2, Hw1, u8_id. }
  destruct rest as [|c' rest].
  - destruct fu as [|fu]; [simpl in *; lia|]. apply app_inj_tail in Heq as [-> ->].
    cbn [while_loop]. rewrite line_loop_end. cbn [mbind res_bind].
    exists m1, t2. split; [done|]. split; [|done]. intros a. unfold m1.
    change (length_z [0x0d]) with 1. destruct (decide (a = buf + length_z line)) as [->|Hna].
    + rewrite lookup_insert_eq, bool_decide_true by lia. by rewrite Z.sub_diag.
    + by rewrite lookup_insert_ne, bool_decide_false by lia.
  - assert (c ≠ 0x0d) as Hc13.
    { intros ->. apply Hno. destruct (decide (0x0d ∈ line)) as [|Hn]; [done|exfalso].
      assert ((pre ++ 0x0d :: c' :: rest) !! length pre = Some 0x0d) as Hl by by apply list_lookup_middle.
      rewrite Heq in Hl. apply (f_equal length) in Heq. rewrite !length_app in Heq. simpl in Heq.
      rewrite lookup_app_l in Hl by lia. apply Hn. by eapply list_elem_of_lookup_2. }
    rewrite <-Hlen. destruct (IH ltac:(done) (pre ++ [c]) c s2 fu Hc13) as (m & t & Hr & Ho & Hwt).
    + by rewrite <-Heq, <-app_assoc.
    + change (vport s2) with t2. by rewrite Hrec2, Hrec1.
    + cbn. apply mapped_insert. eapply mapped_mono; [exact Hmap|lia..].
    + simpl in *. lia.
    + exists m, t. split; [exact Hr|]. split.
      * intros a. rewrite Ho. cbn. unfold m1. rewrite Hlen.
        destruct (decide (a = buf + length_z pre)) as [->|Hna].
        { rewrite bool_decide_false, lookup_insert_eq, bool_decide_true by lia. by rewrite Z.sub_diag. }
        rewrite lookup_insert_ne by done.
        rewrite (bool_decide_ext (_ ≤ a < _) (buf + length_z pre ≤ a < buf + length_z pre + length_z (c :: c' :: rest))) by lia.
        case_bool_decide; [|done]. rewrite !lookup_z_nat by lia.
        replace (Z.to_nat (a - (buf + length_z pre))) with (S (Z.to_nat (a - (buf + (length_z pre + 1))))) by lia.
        done.
      * intros port. rewrite Hwt. cbn [vport set_port s2]. rewrite Hw, <-app_assoc. f_equal.
        by destruct (port =? PORT).
Qed.

(** The loop of [devfs_write]. *)
Lemma send_loop data buffer s :
  (∀ i, 0 ≤ i < length_z data → vmem s !! (buffer + i) = data !!z i) → Forall is_u8 data →
  ∃ t, for_loop (length data) 0 (λ i s, c ← load8 (vmem s) (buffer + i); putc device fuel c s) s =
      Done (set_port s t (write_lock s)) ∧
    ∀ port, written port t = written port (vport s) ++ (if port =? PORT then data else []).
Proof.
  intros Hdata Hu8.
  destruct (for_loop_inv (λ i s', ∃ t, s' = set_port s t (write_lock s) ∧
      ∀ port, written port t = written port (vport s) ++
        (if port =? PORT then take (Z.to_nat i) data else []))
    (length data) 0 (λ i s, c ← load8 (vmem s) (buffer + i); putc device fuel c s) s)
    as (s' & Hr & t & -> & Hw).
  - exists (vport s). split; [by destruct s|]. intros port. destruct (port =? PORT); by rewrite app_nil_r.
  - intros i s' Hi (t & -> & Hw).
    destruct (lookup_lt_is_Some_2 data (Z.to_nat i)) as [c Hc]; [lia|].
    unfold load8. cbn [vmem set_port].
    rewrite Hdata, lookup_z_nat, Hc by (unfold length_z; lia). cbn [of_option mbind res_bind].
    destruct (putc_spec c (set_port s t (write_lock s))) as (t' & -> & _ & Hw'). eexists. split; [done|].
    exists t'. split; [done|]. intros port. rewrite Hw'. cbn [vport set_port]. rewrite Hw.
    rewrite u8_id by by eapply (Forall_lookup_1 _ _ _ _ Hu8). rewrite <-app_assoc. f_equal.
    destruct (port =? PORT); [|done]. replace (Z.to_nat (i + 1)) with (S (Z.to_nat i)) by lia.
    by rewrite (take_S_r _ _ _ Hc).
  - exists t. rewrite Hr. split; [done|]. intros port. rewrite Hw. do 2 f_equal.
    destruct (port =? PORT); [|done]. apply take_ge. lia.
Qed.
End spec.

Lemma wf_free {H} `{HeapLaws H} (s : vfs H) q c :
  vfs_wf s → live (vheap s) q c →
  (∀ a, is_Some (nodes s !! a) ∨ is_Some (mounts s !! a) → a ≠ q) →
  ∃ h, free q (vmem s) (vheap s) = Done (vmem s, h) ∧ vfs_wf (set_mem s (vmem s) h).
Proof.
  intros [Hh Hn Hm Hc Hp] Hq Hown. destruct (free_law q c _ _ Hh Hq) as (h & Hr & Hok & Hl).
  exists h. split; [done|]. split; cbn; [done| | |done|done]; intros a y Ha; apply Hl; (split; [by eauto|]);
    apply Hown; rewrite Ha; eauto.
Qed.

(** ** Properties *)

(** A buffer taken, written and given back: the tree is as well formed as before. *)
Lemma scratch_freed {H} `{HeapLaws H} (s : vfs H) q count m h m3 :
  vfs_wf s → vfs_wf (set_mem s m h) → new_block count (vmem s) (vheap s) q m h → 0 < count →
  (∀ a, is_Some (m !! a) → is_Some (m3 !! a)) → (∀ a, ¬ settled h a → m3 !! a = m !! a) →
  ∃ h', free q m3 h = Done (m3, h') ∧ vfs_wf (set_mem s m3 h').
Proof.
  intros Hwf Hwf1 Hb Hc Hdom Hout.
  pose proof (wf_set_mem (set_mem s m h) m3 Hwf1 Hdom Hout) as Hwf3.
  destruct (wf_free (set_mem (set_mem s m h) m3 h) q count Hwf3) as (h' & Hfree & Hwf4).
  - apply (nb_live _ _ _ _ _ _ Hb). by right.
  - intros a [[nd' Ha]|[mp Ha]] ->; cbn in Ha.
    + apply (wf_node s Hwf), (nb_disjoint _ _ _ _ _ _ Hb) in Ha. unfold sizeof_VfsNode in Ha. lia.
    + apply (wf_mount s Hwf), (nb_disjoint _ _ _ _ _ _ Hb) in Ha. unfold sizeof_Mountpoint in Ha. lia.
  - exists h'. split; [exact Hfree|]. by destruct Hwf4.
Qed.

(** The line typed into a buffer at [q], with its end, and copied to [buf]. *)
Lemma line_read {H} `{HeapLaws H} (device : list port_event → Z → Z) (n fuel : nat) (s : vfs H) (line : list Z) q buf :
  uart_ready device n → uart_typed device n → (n ≤ fuel)%nat → (length line + 1 < fuel)%nat →
  types device (received PORT (vport s)) (line ++ [0x0d]) → 0x0d ∉ line → Forall is_u8 line →
  mapped (vmem s) q (length_z line + 2) → mapped (vmem s) buf (length_z line + 1) →
  q + (length_z line + 2) ≤ buf ∨ buf + (length_z line + 1) ≤ q →
  ∃ m3 t, (∀ (A : Type) (f : Z → vfs H → res A),
      ('(i, s) ← while_loop fuel (line_loop device fuel q) (0, 0, s);
       m ← store8 (vmem s) (q + i) 0xff;
       s ← putc device fuel 0x0a (set_mem s m (vheap s));
       s ← copy buf q i s;
       f i s) = f (length_z line + 1) (set_port (set_mem s m3 (vheap s)) t (write_lock s))) ∧
    (∀ a, is_Some (vmem s !! a) → is_Some (m3 !! a)) ∧
    (∀ a, ¬ (buf ≤ a < buf + (length_z line + 1)) → ¬ (q ≤ a < q + (length_z line + 2)) → m3 !! a = vmem s !! a) ∧
    (∀ i, 0 ≤ i < length_z line + 1 → m3 !! (buf + i) = (line ++ [0x0d]) !!z i) ∧
    written PORT t = written PORT (vport s) ++ line ++ [0x0d; 0x0a].
Proof.
  intros Hready Htyped Hfuel Hloop Hkeys Hno Hu8 Hmq Hmx Hd.
  assert (0 ≤ length_z line) as Hl0 by (unfold length_z; lia).
  assert (length_z (line ++ [0x0d]) = length_z line + 1) as Hlk by (by rewrite length_z_app).
  destruct (line_loop_spec device n fuel Hready Htyped Hfuel (received PORT (vport s)) line q
    (line ++ [0x0d]) [] 0 s fuel) as (m1 & t1 & Hr1 & Ho1 & Hw1); try done.
  { by destruct line. }
  { by rewrite app_nil_r. }
  { change (length_z []) with 0. rewrite Hlk. eapply mapped_mono; [exact Hmq|lia..]. }
  { rewrite length_app. simpl. lia. }
  change (length_z []) with 0 in *. rewrite Hlk, Z.add_0_r in Ho1.
  assert (∀ a, is_Some (vmem s !! a) → is_Some (m1 !! a)) as Hdom1.
  { intros a Ha. rewrite Ho1. case_bool_decide; [|done]. apply lookup_z_is_Some. rewrite Hlk. lia. }
  set (m2 := <[q + (length_z line + 1) := 0xff]> m1).
  assert (∀ a, is_Some (vmem s !! a) → is_Some (m2 !! a)) as Hdom2.
  { intros a Ha. apply lookup_insert_is_Some'. right. by apply Hdom1. }
  destruct (putc_spec device n fuel Hready Hfuel 0x0a
    (set_mem (set_port (set_mem s m1 (vheap s)) t1 (write_lock s)) m2 (vheap s))) as (t2 & Hr2 & _ & Hw2).
  destruct (copy_spec (set_port (set_mem s m2 (vheap s)) t2 (write_lock s)) buf q (length_z line + 1))
    as (m3 & Hr3 & Ho3); cbn [vmem set_port set_mem vheap write_lock] in *;
    [lia|intros a Ha; apply Hdom2, Hmx; lia|intros a Ha; apply Hdom2, Hmq; lia|lia|].
  exists m3, t2. split; [|split; [|split; [|split]]].
  - intros A f. rewrite Hr1. cbn [mbind res_bind vmem vheap set_mem set_port write_lock].
    rewrite store8_Done by (apply Hdom1, Hmq; lia). cbn [mbind res_bind]. fold m2. cbn in Hr2 |- *. rewrite Hr2.
    cbn [mbind res_bind]. match type of Hr3 with copy _ _ _ ?s1 = _ =>
      match goal with |- context [copy buf q _ ?s0] => change s0 with s1 end end. by rewrite Hr3.
  - intros a Ha. rewrite Ho3. case_bool_decide; [apply Hdom2, Hmq; lia|by apply Hdom2].
  - intros a Hab Haq. rewrite Ho3, bool_decide_false by lia. unfold m2.
    by rewrite lookup_insert_ne, Ho1, bool_decide_false by lia.
  - intros i Hi. rewrite Ho3, bool_decide_true, Z.add_simpl_l by lia. unfold m2.
    rewrite lookup_insert_ne, Ho1, bool_decide_true by lia. by rewrite Z.add_simpl_l.
  - rewrite Hw2, Hw1, Z.eqb_refl, <-!app_assoc. done.
Qed.

(** C36: reading the terminal. On a serial line on which a line ending in a
    carriage return is typed, [devfs_read] returns its length, puts it in the
    buffer and echoes it, followed by a line feed; the tree and the heap are as
    before.  [count] is the size of the block the line is gathered in: the line and its
    carriage return have to fit into it with one byte to spare. *)
Theorem devfs_read_line {H} `{HeapLaws H} (device : list port_event → Z → Z) (n fuel k : nat)
    (s : vfs H) (f : Z) (nd : vnode) (line : list Z) (offset count buf x j : Z)
    (Hready : uart_ready device n) (Htyped : uart_typed device n) (Hfuel : (n ≤ fuel)%nat)
    (Hloop : (length line + 1 < fuel)%nat)
    (Hwf : vfs_wf s) (Hf : nodes s !! f = Some nd) (Hname : name nd = tty)
    (Hkeys : types device (received PORT (vport s)) (line ++ [0x0d]))
    (Hno : 0x0d ∉ line) (Hu8 : Forall is_u8 line)
    (Hcount : length_z line + 2 ≤ count ≤ small) (Hroom : room (S k) (vheap s))
    (Hbuf : live (vheap s) x j ∧ x ≤ buf ∧ buf + (length_z line + 1) ≤ x + j) :
  ∃ s', devfs_read device fuel f offset count buf s = Done (length_z line + 1, s') ∧
    vfs_wf s' ∧ nodes s' = nodes s ∧
    (∀ i, 0 ≤ i < length_z line + 1 → vmem s' !! (buf + i) = (line ++ [0x0d]) !!z i) ∧
    written PORT (vport s') = written PORT (vport s) ++ line ++ [0x0d; 0x0a].
Proof.
  assert (0 ≤ length_z line) as Hl0 by (unfold length_z; lia). unfold small in Hcount.
  destruct (malloc_law count (vmem s) (vheap s) (wf_heap s Hwf)) as (q & m & h & Hm & Hok & Hc); [lia|].
  destruct (room_law k count _ _ _ _ _ (wf_heap s Hwf) Hroom ltac:(unfold small; lia) Hm) as [Hq _].
  destruct Hc as [[? _]|Hb]; [done|].
  pose proof (malloc_grows count s q m h Hwf Hm ltac:(lia)) as [Hwf1 _ _].
  destruct Hbuf as (Hx & Hxb & Hbx). pose proof (nb_disjoint _ _ _ _ _ _ Hb x j Hx) as Hd.
  pose proof (nb_mapped _ _ _ _ _ _ Hb) as Hmq.
  assert (live h x j ∧ live h q count) as [Hxh Hqh] by (rewrite !(nb_live _ _ _ _ _ _ Hb); auto).
  assert (mapped m x j) as Hmx by by apply (live_law x j m h).
  destruct (line_read device n fuel (set_mem s m h) line q buf Hready Htyped Hfuel Hloop Hkeys Hno Hu8)
    as (m3 & t & Hrun & Hdom & Hout & Hline & Hw); cbn [vmem set_mem] in *;
    [eapply mapped_mono; [exact Hmq|lia..]|eapply mapped_mono; [exact Hmx|lia..]|lia|].
  destruct (scratch_freed s q count m h m3 Hwf Hwf1 Hb ltac:(lia) Hdom) as (h' & Hfree & Hwf').
  { intros a Ha. apply Hout; intros ?; apply Ha; [apply (settled_live _ x j)|apply (settled_live _ q count)]; done || lia. }
  unfold devfs_read. rewrite (node_at_eq s f nd Hf). cbn [mbind res_bind].
  rewrite bool_decide_true by done. rewrite Hm. cbn [mbind res_bind]. rewrite Hrun.
  cbn [vmem vheap set_mem set_port]. rewrite Hfree. cbn [mbind res_bind].
  rewrite i32_id by (unfold is_i32; simpl in *; lia).
  eexists. split; [done|]. split; [by destruct Hwf'|]. split; [done|]. by split.
Qed.

(** Writing to the terminal sends the bytes of the buffer to the serial
    line, in order and nothing else, advances the cursor and the size, and leaves
    the lock free; while the lock is taken the call spins. *)
Theorem devfs_write_sends {H} `{HeapLaws H} (device : list port_event → Z → Z) (n fuel : nat)
    (s : vfs H) (f : Z) (nd : vnode) (buf : Z) (data : list Z)
    (Hready : uart_ready device n) (Hfuel : (n ≤ fuel)%nat)
    (Hf : nodes s !! f = Some nd) (Hname : name nd = tty) (Hlen : length_z data < 2 ^ 31)
    (Hdata : ∀ i, 0 ≤ i < length_z data → vmem s !! (buf + i) = data !!z i) (Hu8 : Forall is_u8 data) :
  if write_lock s then devfs_write device fuel f (length_z data) buf s = Hang
  else ∃ s', devfs_write device fuel f (length_z data) buf s = Done (length_z data, s') ∧
    (∀ port, written port (vport s') = written port (vport s) ++ (if port =? PORT then data else [])) ∧
    write_lock s' = false ∧ vmem s' = vmem s ∧ vheap s' = vheap s ∧
    nodes s' = <[f := add_size (length_z data) (set_cursor (u64 (cursor nd + length_z data)) nd)]> (nodes s).
Proof.
  unfold devfs_write. rewrite (node_at_eq s f nd Hf). cbn [mbind res_bind].
  rewrite bool_decide_true by done. destruct (write_lock s) eqn:Hlock; [done|].
  rewrite spin_lock_free. cbn [mbind res_bind].
  replace (Z.to_nat (length_z data)) with (length data) by (unfold length_z; lia).
  destruct (send_loop device n fuel Hready Hfuel data buf (set_port s (vport s) true))
    as (t & -> & Hw); [done..|]. cbn [mbind res_bind].
  rewrite (upd_node_eq _ f nd) by done. cbn [mbind res_bind].
  rewrite (upd_node_eq _ f (set_cursor (u64 (cursor nd + length_z data)) nd)) by apply lookup_insert_eq.
  cbn [mbind res_bind]. rewrite i32_id by (unfold is_i32, length_z in *; simpl in *; lia).
  eexists. split; [done|]. split; [exact Hw|]. split; [done|]. split; [done|]. split; [done|].
  cbn. by rewrite insert_insert_eq.
Qed.
