(* ===== verification/FilesRun.v ===== *)
(** * Files on the kernel's heap

    The theorems of [Tmpfs.v] and [Devfs.v] at a file of ten bytes whose buffer and
    node are two blocks of the allocator of [Alloc.v]. *)

From S2P Require Import Prelude CInt Mem Boot Abi Pages Alloc AllocInv AllocSpec BumpPages Vec Heap.
From S2P Require Import AllocHeap Str Devices Vfs VfsSpec VfsRun Tmpfs Devfs.

#[local] Existing Instance heap_ops.
#[local] Existing Instance heap_laws.

(** After [malloc(100)] and [malloc(208)]; [zero] as in [BumpPages.v]. *)
Definition two_blocks_with (zero : mem → Z → Z → mem) : heap bump :=
  match Alloc.malloc (H := bump_pages_with zero) 7 208 (zero ∅ 0x100000 65536) one_block with
  | Done (_, (_, h)) => h
  | _ => one_block
  end.
Definition two_blocks : heap bump := two_blocks_with zero_run.
Definition two_mem : mem := zero_run one_block_mem 0x110000 65536.

Lemma two_blocks_run :
  Heap.malloc 208 one_block_mem one_block = Done (0x110030, (two_mem, two_blocks)).
Proof.
  assert (∀ zero, Alloc.malloc (H := bump_pages_with zero) 7 208 (zero ∅ 0x100000 65536) one_block =
    Done (0x110030, (zero (zero ∅ 0x100000 65536) 0x110000 65536, two_blocks_with zero))) as Hr
    by (intros zero; vm_compute; reflexivity).
  exact (Hr zero_run).
Qed.

Lemma two_blocks_new :
  Heap.heap_ok two_mem two_blocks ∧ new_block 208 one_block_mem one_block 0x110030 two_mem two_blocks.
Proof.
  destruct (malloc_law 208 one_block_mem one_block) as (p & m & h & Hr & Hok & Hc);
    [exact one_block_ok|lia|].
  rewrite two_blocks_run in Hr. apply Done_triple_inj in Hr as (<- & <- & <-).
  split; [exact Hok|]. destruct Hc as [[Hp _]|Hb]; [discriminate Hp|exact Hb].
Qed.

(** The file: ten bytes of the first block, the node in the second. *)
Definition ten (mode : Z) (ini : bool) (image cur : Z) : vnode :=
  VNode VFS_FILE dev 0x110030 0 vec_init 0 10 cur mode 0x100030 image ini.
Definition ten_state (n : vnode) : vfs (heap bump) :=
  Vfs two_mem two_blocks {[ 0x110030 := n ]} ∅ [] 0x110030 (Globals false 0) [] false.

Lemma ten_live : live two_blocks 0x100030 100.
Proof.
  destruct two_blocks_new as [_ Hb]. apply (nb_live _ _ _ _ _ _ Hb). left. exact one_block_allocated.
Qed.

Lemma ten_mem a : (0x100000 ≤ a < 0x110000 ∨ 0x110000 ≤ a < 0x120000) → two_mem !! a = Some 0.
Proof.
  intros Ha. unfold two_mem, one_block_mem. rewrite zero_run_overwritten. case_bool_decide; [done|].
  rewrite zero_run_overwritten, bool_decide_true by lia. done.
Qed.

Lemma ten_null : two_mem !! 0 = None.
Proof.
  unfold two_mem. rewrite zero_run_overwritten, bool_decide_false by lia. exact one_block_null.
Qed.

Lemma ten_bytes : bytes_ok two_mem.
Proof. destruct two_blocks_new as [_ Hb]. apply (nb_bytes _ _ _ _ _ _ Hb), one_block_bytes. Qed.

Lemma ten_wf n : children n = vec_init → points_to n = 0 → vfs_wf (ten_state n).
Proof.
  intros Hc Hp. destruct two_blocks_new as [Hok Hb].
  split; cbn [nodes mounts vmem vheap ten_state].
  - exact Hok.
  - intros a m [<- _]%lookup_singleton_Some. apply (nb_live _ _ _ _ _ _ Hb). by right.
  - intros a m Hm. by rewrite lookup_empty in Hm.
  - intros a m [_ <-]%lookup_singleton_Some. rewrite Hc. split; [cbn; lia|]. exists [].
    split; [apply vrep_init|]. by intros c Hin%elem_of_nil.
  - intros a m [_ <-]%lookup_singleton_Some. by rewrite Hp.
Qed.

Lemma ten_file mode ini image cur :
  file (ten_state (ten mode ini image cur)) 0x110030 (ten mode ini image cur) 100.
Proof.
  split; cbn [nodes mounts vheap ten_state address st_size ten].
  - apply lookup_singleton_eq.
  - exact ten_live.
  - lia.
  - lia.
  - intros a [[m Ha]|[m Ha]]; [|by rewrite lookup_empty in Ha].
    apply lookup_singleton_Some in Ha as [<- _]. done.
Qed.

(** Twelve bytes from the second block, appended. *)
Lemma tmpfs_append_witness :
  tmpfs_write 0x110030 12 0x110040 (ten_state (ten O_APPEND true 0 4)) = Fault ∨
  ∃ s', tmpfs_write 0x110030 12 0x110040 (ten_state (ten O_APPEND true 0 4)) = Done (0, s') ∧ vfs_wf s'.
Proof.
  destruct (tmpfs_append (ten_state (ten O_APPEND true 0 4)) 0x110030 (ten O_APPEND true 0 4) 100 12 0x110040)
    as [(h & _ & Hr)|(s' & n' & Hr & Hwf & _)].
  - apply ten_wf; reflexivity.
  - apply ten_file.
  - reflexivity.
  - vm_compute. discriminate.
  - exact ten_bytes.
  - exact ten_null.
  - lia.
  - cbn [st_size ten]. lia.
  - intros i Hi. split.
    + apply (settled_live _ 0x110030 208); [|lia].
      destruct two_blocks_new as [_ Hb]. apply (nb_live _ _ _ _ _ _ Hb). right. split; reflexivity.
    + cbn [vmem ten_state]. rewrite ten_mem by lia. by eexists.
  - left. exact Hr.
  - right. exists s'. split; [exact Hr|exact Hwf].
Defined.

(** The last five bytes, from an image of zeros. *)
Lemma tmpfs_read_file_witness :
  ∃ s' n', tmpfs_read 0x110030 5 5 0x110040 (ten_state (ten 0 false 0x110100 4)) = Done (5, s') ∧
    init n' = true ∧ vmem s' !! 0x110044 = Some 0xff ∧ vmem s' !! 0x110040 = Some 0.
Proof.
  destruct (tmpfs_read_file (ten_state (ten 0 false 0x110100 4)) 0x110030 (ten 0 false 0x110100 4) 100 5 5 0x110040)
    as (s' & n' & Hr & _ & Hi & _ & Hb & _).
  - apply ten_wf; reflexivity.
  - apply ten_file.
  - cbn [st_size ten]. lia.
  - split; [lia|]. intros i Hi. cbn [vmem ten_state]. rewrite ten_mem by lia. by eexists.
  - cbn [address ten]. lia.
  - intros _. cbn [st_size ten internal_address address]. split; [lia|]. split; [|lia].
    intros i Hi. cbn [vmem ten_state]. rewrite ten_mem by lia. by eexists.
  - exists s', n'. split; [exact Hr|]. split; [exact Hi|].
    pose proof (Hb 4) as H4. pose proof (Hb 0) as H0b.
    change (0x110040 + 4) with 0x110044 in H4. change (0x110040 + 0) with 0x110040 in H0b.
    rewrite H4, H0b by lia. cbn [init ten st_size internal_address vmem ten_state]. split.
    + reflexivity.
    + rewrite bool_decide_false by lia. apply ten_mem. lia.
Defined.

(** The same file, were it not from an image. *)
Lemma tmpfs_read_created_witness :
  tmpfs_read 0x110030 5 5 0x110040 (ten_state (ten 0 false 0 4)) = Fault.
Proof.
  apply (tmpfs_read_created (ten_state (ten 0 false 0 4)) 0x110030 (ten 0 false 0 4)).
  - apply lookup_singleton_eq.
  - reflexivity.
  - reflexivity.
  - exact ten_null.
  - cbn [st_size ten]. lia.
  - cbn [st_size ten]. lia.
Defined.

Lemma tmpfs_overwrite_witness :
  ∃ s' n', tmpfs_write 0x110030 3 0x110040 (ten_state (ten 0 true 0 4)) = Done (3, s') ∧
    cursor n' = 7 ∧ st_size n' = 13.
Proof.
  destruct (tmpfs_overwrite (ten_state (ten 0 true 0 4)) 0x110030 (ten 0 true 0 4) 100 3 0x110040)
    as (s' & n' & Hr & _ & _ & _ & _ & Hc & Hs & _).
  - apply ten_wf; reflexivity.
  - apply ten_file.
  - reflexivity.
  - lia.
  - cbn [st_size cursor ten]. lia.
  - cbn [st_size cursor ten]. lia.
  - intros i Hi. cbn [vmem ten_state]. rewrite ten_mem by lia. by eexists.
  - cbn [address ten]. lia.
  - exists s', n'. split; [exact Hr|]. split; [exact Hc|exact Hs].
Defined.

(** A line that is always ready, on which "h" and a carriage return are typed. *)
Definition keyboard (t : list port_event) (port : Z) : Z :=
  if port =? PORT then default 0 ([104; 13] !! length (received PORT t)) else 0x61.

Lemma keyboard_ready mask : Z.land 0x61 mask ≠ 0 → line_ready keyboard mask 1.
Proof.
  intros Hm t. exists 0%nat. split; [lia|]. intros t' _ _. unfold keyboard.
  rewrite (proj2 (Z.eqb_neq (PORT + 5) PORT)) by (unfold PORT; lia). exact Hm.
Qed.

Definition terminal : vnode := VNode VFS_FILE tty 0x110030 0 vec_init 0 0 0 0 0x100030 0 false.

Lemma two_blocks_room k : (k ≤ 100)%nat → room k two_blocks.
Proof.
  intros Hk.
  assert (∀ zero, bump_next (Alloc.pages (two_blocks_with zero)) = 0x120000) as Hn
    by (intros zero; vm_compute; reflexivity).
  specialize (Hn zero_run). unfold room, heap_ops, alloc_heap, pages_room, bump_pages, bump_pages_with.
  fold two_blocks in Hn. rewrite Hn. unfold bump_limit, Arch.PAGE_SIZE. lia.
Qed.

(** The line, into the first block. *)
Lemma devfs_read_line_witness :
  ∃ s', devfs_read keyboard 10 0x110030 0 100 0x100040 (ten_state terminal) = Done (2, s') ∧
    vmem s' !! 0x100041 = Some 13 ∧ written PORT (vport s') = [104; 13; 10].
Proof.
  destruct (devfs_read_line keyboard 1 10 5 (ten_state terminal) 0x110030 terminal [104] 0 100
    0x100040 0x100030 100) as (s' & Hr & _ & _ & Hb & Hw).
  - apply keyboard_ready. discriminate.
  - apply keyboard_ready. discriminate.
  - lia.
  - simpl. lia.
  - apply ten_wf; reflexivity.
  - apply lookup_singleton_eq.
  - reflexivity.
  - intros t j c Ht Hc. cbn [received vport ten_state omap list_omap app] in Ht.
    unfold keyboard. rewrite Z.eqb_refl, Ht, length_take_le.
    + change ([104] ++ [13]) with [104; 13] in Hc. rewrite Hc. reflexivity.
    + apply lookup_lt_Some in Hc. simpl in *. lia.
  - rewrite list_elem_of_singleton. discriminate.
  - repeat constructor; lia.
  - unfold length_z, small. simpl. lia.
  - apply (two_blocks_room 6). lia.
  - unfold length_z. simpl. split; [exact ten_live|lia].
  - exists s'. split; [exact Hr|]. split; [|exact Hw]. exact (Hb 1 ltac:(unfold length_z; simpl; lia)).
Defined.

Lemma devfs_write_sends_witness :
  ∃ s', devfs_write keyboard 10 0x110030 3 0x100040 (ten_state terminal) = Done (3, s') ∧
    written PORT (vport s') = [0; 0; 0].
Proof.
  destruct (devfs_write_sends keyboard 1 10 (ten_state terminal) 0x110030 terminal 0x100040 [0; 0; 0])
    as (s' & Hr & Hw & _).
  - apply keyboard_ready. discriminate.
  - lia.
  - apply lookup_singleton_eq.
  - reflexivity.
  - unfold length_z. simpl. lia.
  - intros i Hi. unfold length_z in Hi. simpl in Hi. cbn [vmem ten_state]. rewrite ten_mem by lia.
    assert (i = 0 ∨ i = 1 ∨ i = 2) as [->|[->| ->]] by lia; reflexivity.
  - repeat constructor; lia.
  - exists s'. split; [exact Hr|exact (Hw PORT)].
Defined.

