(* ===== verification/Ustar.v ===== *)
(** * The boot image and the table of file systems

    [src/src/kernel/fs/ustar.c]: a tape archive in memory becomes files and
    directories of the tree.  Each header is read where the loader put it: the name
    at offset 0, the size in octal at 124, the type at 156.  Here the paths are
    built byte by byte in blocks of the heap, as in the code, and handed to the file
    system as the string found there. *)

From S2P Require Import Prelude CInt Mem Boot Abi Vec Heap Str Devices Vfs VfsSpec Tmpfs Devfs.

(** A [char] is signed. *)
Definition schar (b : Z) : Z := if b <? 128 then b else b - 256.

(** [size += (in[j - 1] - '0') * count] for [j] from 11 down to 1. *)
Definition getsize (m : mem) (in_ : Z) : res Z :=
  '(size, _) ← for_loop 11 0 (λ k '(size, count),
      c ← load8 m (in_ + (11 - k) - 1);
      Done (u32 (size + u32 ((schar c - 0x30) * count)), u32 (count * 8))) (0, 1);
  Done size.

(** The last lines of the loop: where the next header is. *)
Definition next_header (address size : Z) : Z :=
  let address := u64 (address + u64 ((size / 512 + 1) * 512)) in
  if negb (size mod 512 =? 0) then u64 (address + 512) else address.

Section ustar.
Context {H : Type} `{Heap H} (junk : Z → vnode) (vec_ok : Z → bool) (fuel : nat).
Implicit Types (s : vfs H).

(** [new_name = malloc(strlen(name) + 2); new_name[0] = '/'; memcpy(new_name + 1,
    name, strlen(name));] *)
Definition slash_name (nm : Z) s : res (Z * vfs H) :=
  l ← strlen fuel (vmem s) nm;
  '(new_name, (m, h)) ← malloc (u64 (l + 2)) (vmem s) (vheap s);
  m ← store8 m new_name 0x2f;
  l ← strlen fuel m nm;
  m ← memcpy m (new_name + 1) nm l;
  Done (new_name, set_mem s m h).

Definition tar_directory (header : Z) s : res (vfs H) :=
  '(nm, (m, h)) ← strdup fuel header (vmem s) (vheap s);
  l ← strlen fuel m nm;
  m ← store8 m (nm + l - 1) 0;
  '(new_name, s) ← slash_name nm (set_mem s m h);
  path ← read_str fuel (vmem s) new_name;
  '(_, s) ← vfs_mkdir junk vec_ok path s;
  Done s.

Definition tar_file (header : Z) s : res (vfs H) :=
  '(new_name, s) ← slash_name header s;
  path ← read_str fuel (vmem s) new_name;
  size ← getsize (vmem s) (header + 124);
  tmpfs_create_file junk vec_ok path (u64 (header + 512)) size s.

Definition create_tmpfs_files (address : Z) s : res (Z * vfs H) :=
  while_loop fuel (λ '(address, s),
    c ← load8 (vmem s) address;
    if c =? 0 then Done (inr (0xc001c0de, s))
    else
      typeflag ← load8 (vmem s) (address + 156);
      s ← (if typeflag =? 0x35 then tar_directory address s else tar_file address s);
      size ← getsize (vmem s) (address + 124);
      Done (inl (next_header address size, s))) (address, s).

Definition ustar_initialize (addr : Z) s : res (vfs H) :=
  '(_, s) ← create_tmpfs_files addr s; Done s.

Definition ustar_read (node offset count buffer : Z) s : res (Z * vfs H) :=
  n ← node_at s node;
  s ← copy buffer (u64 (address n + offset)) count s;
  Done (i32 count, s).
Definition ustar_write (node offset count buffer : Z) s : res (Z * vfs H) := Done (-1, s).

(** ** The functions of a mount point *)

Context (device : list port_event → Z → Z).

(** [ustar_fs] leaves [write] NULL: calling it is a fault. *)
Definition fs_read (f : filesystem) : Z → Z → Z → Z → vfs H → res (Z * vfs H) :=
  match f with
  | TMPFS => tmpfs_read
  | DEVFS => devfs_read device fuel
  | USTAR => ustar_read
  end.
Definition fs_write (f : filesystem) : Z → Z → Z → vfs H → res (Z * vfs H) :=
  match f with
  | TMPFS => tmpfs_write
  | DEVFS => devfs_write device fuel
  | USTAR => λ _ _ _ _, Fault
  end.

Definition kernel_read : Z → Z → Z → Z → vfs H → res (Z * vfs H) := vfs_read fs_read.
Definition kernel_write : Z → Z → Z → vfs H → res (Z * vfs H) := vfs_write fs_write.
End ustar.

(** ** Proofs *)

(** A number by its octal digits, the first one leading. *)
Definition octal (ds : list Z) : Z := foldl (λ a d, 8 * a + d) 0 ds.

(** The size field: eleven digits. *)
Definition size_field (m : mem) (p : Z) (ds : list Z) : Prop :=
  length ds = 11%nat ∧ Forall (λ d, 0 ≤ d < 8) ds ∧
  ∀ i d, ds !! i = Some d → m !! (p + Z.of_nat i) = Some (0x30 + d).

Lemma octal_acc a ds : foldl (λ a d, 8 * a + d) a ds = a * 8 ^ length_z ds + octal ds.
Proof.
  unfold octal. revert a. induction ds as [|d ds IH]; intros a; cbn [foldl].
  - unfold length_z. simpl. lia.
  - rewrite IH, (IH (8 * 0 + d)). unfold length_z. cbn [length]. rewrite Nat2Z.inj_succ, Z.pow_succ_r by lia.
    lia.
Qed.

Lemma octal_cons d ds : octal (d :: ds) = d * 8 ^ length_z ds + octal ds.
Proof. unfold octal at 1. cbn [foldl]. rewrite octal_acc. f_equal; lia. Qed.

Lemma octal_bound ds : Forall (λ d, 0 ≤ d < 8) ds → 0 ≤ octal ds < 8 ^ length_z ds.
Proof.
  induction 1 as [|d ds Hd _ IH]; [unfold octal, length_z; simpl; lia|]. rewrite octal_cons.
  unfold length_z in *. cbn [length]. rewrite Nat2Z.inj_succ, Z.pow_succ_r by lia. nia.
Qed.

Lemma u32_step size x count :
  u32 (u32 size + u32 (x * u32 count)) = u32 (x * count + size).
Proof.
  unfold u32. rewrite Z.mul_mod_idemp_r, <-Z.add_mod by lia. f_equal. lia.
Qed.

(** [getsize] is the number the digits stand for, as an [unsigned int]. *)
Lemma getsize_spec m p ds : size_field m p ds → getsize m p = Done (u32 (octal ds)).
Proof.
  intros (Hlen & Hds & Hm). unfold getsize.
  destruct (for_loop_inv (λ k '(size, count),
      size = u32 (octal (drop (11 - Z.to_nat k) ds)) ∧ count = u32 (8 ^ k)) 11 0
    (λ k '(size, count), c ← load8 m (p + (11 - k) - 1);
       Done (u32 (size + u32 ((schar c - 0x30) * count)), u32 (count * 8))) (0, 1))
    as ([size count] & -> & Hs & _).
  - rewrite drop_ge by (rewrite Hlen; lia). done.
  - intros k [size count] Hk [-> ->].
    destruct (lookup_lt_is_Some_2 ds (11 - Z.to_nat (k + 1))) as [d Hd]; [rewrite Hlen; lia|].
    pose proof (Forall_lookup_1 _ _ _ _ Hds Hd) as Hd8.
    replace (p + (11 - k) - 1) with (p + Z.of_nat (11 - Z.to_nat (k + 1))) by lia.
    unfold load8. rewrite (Hm _ d Hd). cbn [of_option mbind res_bind]. eexists. split; [done|].
    unfold schar. destruct (Z.ltb_spec (0x30 + d) 128); [|simpl in Hd8; lia].
    rewrite (drop_S _ _ _ Hd), octal_cons.
    replace (S (11 - Z.to_nat (k + 1))) with (11 - Z.to_nat k)%nat by lia. split.
    + rewrite u32_step. unfold length_z. rewrite length_drop, Hlen. do 4 f_equal; lia.
    + rewrite Z.pow_add_r by lia. unfold u32. by rewrite Z.mul_mod_idemp_l by lia.
  - cbn [mbind res_bind]. by rewrite Hs.
Qed.

Lemma next_header_spec address size :
  0 ≤ address → 0 ≤ size → address + size + 1024 < 2 ^ 64 →
  next_header address size = address + 512 + 512 * ((size + 511) / 512).
Proof.
  intros Ha Hs Hlim. unfold next_header.
  rewrite (u64_id ((size / 512 + 1) * 512)) by (unfold is_u64; simpl; zlia).
  rewrite (u64_id (address + _)) by (unfold is_u64; simpl; zlia).
  destruct (Z.eqb_spec (size mod 512) 0); cbn [negb]; [zlia|].
  rewrite u64_id by (unfold is_u64; simpl; zlia). zlia.
Qed.
