(* ===== verification/Task.v ===== *)
(** * Tasks and the state of the whole kernel

    The saved registers ([arch/arch.h]), the task record ([kernel/sched.h]) and
    [sys], which joins the components: the file system (with the heap and the
    serial line), the scheduler, the address spaces and the tasks, each a record at
    its address; and [fpu], the floating point state as the bytes [fxsave] stores.  Page tables and frames, and kernel data, are in different parts of
    memory, and each component keeps its own. *)

From S2P Require Import Prelude CInt Mem Arch Boot Pmm Frames Vmm PmmFrames Vec Sched Heap.
From S2P Require Import Str Devices Vfs.

(** The registers an interrupt saves. *)
Record Stack : Type := MkStack {
  r15 : Z; r14 : Z; r13 : Z; r12 : Z; r11 : Z; r10 : Z; r9 : Z; r8 : Z; rbp : Z; rdi : Z; rsi : Z;
  rdx : Z; rcx : Z; rbx : Z; rax : Z; intno : Z; err : Z; rip : Z; cs : Z; rflags : Z; rsp : Z; ss : Z;
}.
Definition set_rax (x : Z) (k : Stack) : Stack :=
  MkStack (r15 k) (r14 k) (r13 k) (r12 k) (r11 k) (r10 k) (r9 k) (r8 k) (rbp k) (rdi k) (rsi k)
    (rdx k) (rcx k) (rbx k) x (intno k) (err k) (rip k) (cs k) (rflags k) (rsp k) (ss k).
Definition set_rdx (x : Z) (k : Stack) : Stack :=
  MkStack (r15 k) (r14 k) (r13 k) (r12 k) (r11 k) (r10 k) (r9 k) (r8 k) (rbp k) (rdi k) (rsi k)
    x (rcx k) (rbx k) (rax k) (intno k) (err k) (rip k) (cs k) (rflags k) (rsp k) (ss k).

(** A descriptor is its number and its file.  [parent] is never used.  [fpu_storage]
    is a pointer nothing sets or follows: the instructions that save and load the
    floating point state take the field itself for their 512 bytes. *)
Record Task : Type := MkTask {
  current_fd : Z;
  descriptors : vec (Z * Z);
  cwd : Z;
  pid : Z;
  sp : Z;
  pagemap : Z;
  used_pages : Z;
  tstack : Stack;
  tstate : Z;
  exit_code : Z;
  fpu_storage : Z;
}.
Definition set_fds (n : Z) (v : vec (Z * Z)) (t : Task) : Task :=
  MkTask n v (cwd t) (pid t) (sp t) (pagemap t) (used_pages t) (tstack t) (tstate t) (exit_code t) (fpu_storage t).
Definition set_used (n : Z) (t : Task) : Task :=
  MkTask (current_fd t) (descriptors t) (cwd t) (pid t) (sp t) (pagemap t) n (tstack t) (tstate t) (exit_code t) (fpu_storage t).
Definition set_stack (k : Stack) (t : Task) : Task :=
  MkTask (current_fd t) (descriptors t) (cwd t) (pid t) (sp t) (pagemap t) (used_pages t) k (tstate t) (exit_code t) (fpu_storage t).
Definition set_dead (code : Z) (t : Task) : Task :=
  MkTask (current_fd t) (descriptors t) (cwd t) (pid t) (sp t) (pagemap t) (used_pages t) (tstack t) (-1) code (fpu_storage t).

Record sys (H : Type) : Type := Sys {
  files : vfs H;
  sch : sched;
  space : vmm pmm;
  tasks : gmap Z Task;
  log_lock : bool;
  fs_base : Z;
  prev_task : Z;
  kernel_pagemap : Z;
  fpu : list Z;
}.
Arguments Sys {_} _ _ _ _ _ _ _ _ _.
Arguments files {_} _.
Arguments sch {_} _.
Arguments space {_} _.
Arguments tasks {_} _.
Arguments log_lock {_} _.
Arguments fs_base {_} _.
Arguments prev_task {_} _.
Arguments kernel_pagemap {_} _.
Arguments fpu {_} _.

Section sys.
Context {H : Type} `{Heap H}.
Implicit Types (s : sys H).

Definition set_files s (f : vfs H) : sys H :=
  Sys f (sch s) (space s) (tasks s) (log_lock s) (fs_base s) (prev_task s) (kernel_pagemap s) (fpu s).
Definition set_tasks s (ts : gmap Z Task) : sys H :=
  Sys (files s) (sch s) (space s) ts (log_lock s) (fs_base s) (prev_task s) (kernel_pagemap s) (fpu s).
Definition set_sch s (c : sched) : sys H :=
  Sys (files s) c (space s) (tasks s) (log_lock s) (fs_base s) (prev_task s) (kernel_pagemap s) (fpu s).
Definition set_space s (v : vmm pmm) : sys H :=
  Sys (files s) (sch s) v (tasks s) (log_lock s) (fs_base s) (prev_task s) (kernel_pagemap s) (fpu s).

Definition task_at s (a : Z) : res Task := of_option (tasks s !! a).
Definition upd_task (a : Z) (f : Task → Task) s : res (sys H) :=
  t ← task_at s a; Done (set_tasks s (<[a := f t]> (tasks s))).
(** [sched_current_task()], as a record. *)
Definition current s : res Task := task_at s (sched_current_task (sch s)).
Definition upd_current (f : Task → Task) s : res (sys H) :=
  upd_task (sched_current_task (sch s)) f s.
Definition upd_file (a : Z) (f : vnode → vnode) s : res (sys H) :=
  v ← upd_node a f (files s); Done (set_files s v).

End sys.
