(* ===== verification/Elf.v ===== *)
(** * The program loader ([src/src/kernel/elf.c])

    The file is in the kernel's heap, read field by field at the offsets of
    [elf.h]; its segments go into frames of the physical memory manager, written
    through the I/O window, behind pages of the new process.  [user_byte] is what
    the process finds at one of its addresses. *)

From S2P Require Import Prelude CInt Mem Arch Boot Pmm Frames Vmm PmmFrames Vec Sched Heap.
From S2P Require Import Str Devices Vfs Task.

Definition ELF_SECTION_HEADER_NOBITS : Z := 8.
Definition ELF_PROGRAM_HEADER_LOAD : Z := 1.
Definition ELF_PROGRAM_HEADER_INTERPRET : Z := 3.

(** The packed structures, as offsets of their fields. *)
Module Elf64Header.
Definition entry (p : Z) : Z := p + 24.
Definition program_header_table_file_offset (p : Z) : Z := p + 32.
Definition section_header_table_file_offset (p : Z) : Z := p + 40.
Definition program_header_table_entry_size (p : Z) : Z := p + 54.
Definition program_header_table_entry_count (p : Z) : Z := p + 56.
Definition section_header_table_entry_count (p : Z) : Z := p + 60.
Definition size : Z := 64.
End Elf64Header.

(** [elf_validate]: the four bytes at the start of the file.  Nothing calls it: the
    loader below takes any file for a program. *)
Definition elf_validate (m : mem) (header : Z) : res bool :=
  a ← load8 m header;
  if negb (a =? 0x7f) then Done false
  else
    b ← load8 m (header + 1);
    if negb (b =? 0x45) then Done false
    else
      c ← load8 m (header + 2);
      if negb (c =? 0x4c) then Done false
      else d ← load8 m (header + 3); Done (d =? 0x46).

Module Elf64ProgramHeader.
Definition type (p : Z) : Z := p.
Definition file_offset (p : Z) : Z := p + 8.
Definition virtual_address (p : Z) : Z := p + 16.
Definition file_size (p : Z) : Z := p + 32.
Definition memory_size (p : Z) : Z := p + 40.
Definition size : Z := 56.
End Elf64ProgramHeader.

Module Elf64SectionHeader.
Definition type (p : Z) : Z := p + 4.
Definition flags (p : Z) : Z := p + 8.
Definition file_offset (p : Z) : Z := p + 24.
Definition entry_size (p : Z) : Z := p + 56.
Definition size : Z := 64.
End Elf64SectionHeader.

Record Auxval : Type := MkAuxval { at_entry : Z; at_phdr : Z; at_phent : Z; at_phnum : Z }.

Definition load16 (m : mem) (a : Z) : res Z := load_le 2 m a.

(** [memcpy] from the kernel's data [m] into frames. *)
Definition copy_in (m r : mem) (to from n : Z) : res mem :=
  for_loop (Z.to_nat n) 0 (λ i r, b ← load8 m (from + i); store8 r (to + i) b) r.

(** The branch of a segment to load, for the program header [p]. *)
Definition load_segment (elf_base base pagemap p : Z) (m : mem) (st : vmm pmm) : res (vmm pmm) :=
  virtual_address ← load64 m (Elf64ProgramHeader.virtual_address p);
  memory_size ← load64 m (Elf64ProgramHeader.memory_size p);
  let misalign := Z.land virtual_address (PAGE_SIZE - 1) in
  let page_count := DIV_ROUNDUP (u64 (misalign + memory_size)) PAGE_SIZE in
  '(new_addr, (r, f)) ← pmm_allocate_zero (ram st) (frames st) page_count;
  st ← for_loop (Z.to_nat (u64 (page_count * PAGE_SIZE) / PAGE_SIZE)) 0
         (λ k st, let j := k * PAGE_SIZE in
            vmm_map pagemap (u64 (j + new_addr)) (u64 (base + j + virtual_address)) 7 st)
         (Vmm.set_mem st r f);
  file_offset ← load64 m (Elf64ProgramHeader.file_offset p);
  file_size ← load64 m (Elf64ProgramHeader.file_size p);
  let to := phys_of (u64 (new_addr + MMAP_IO_BASE + misalign)) in
  r ← copy_in m (ram st) to (u64 (elf_base + file_offset)) file_size;
  r ← memset r (to + file_size) 0 (u64 (memory_size - file_size));
  Done (Vmm.set_mem st r (frames st)).

Section elf.
Context {H : Type} `{Heap H}.
Implicit Types (s : sys H).

(** The branch of the interpreter: its path, copied to a block of its own. *)
Definition load_interpret (elf_base p : Z) s : res (Z * sys H) :=
  let v := files s in
  file_size ← load64 (vmem v) (Elf64ProgramHeader.file_size p);
  '(ld, (m, h)) ← malloc (u64 (file_size + 1)) (vmem v) (vheap v);
  file_offset ← load64 m (Elf64ProgramHeader.file_offset p);
  m ← memcpy m ld (u64 (elf_base + file_offset)) file_size;
  m ← store8 m (ld + file_size) 0;
  Done (ld, set_files s (Vfs.set_mem v m h)).

(** The program headers from [p] on.  [ld] is what [ld_path] points to, [None]
    when it is NULL. *)
Fixpoint load_headers (n : nat) (entry_size elf_base base pagemap p : Z) (ld : option Z)
    (phdr : Z) s : res (option Z * Z * sys H) :=
  match n with
  | O => Done (ld, phdr, s)
  | S n =>
      let m := vmem (files s) in
      type ← load32 m (Elf64ProgramHeader.type p);
      let next := u64 (p + entry_size) in
      if type =? ELF_PROGRAM_HEADER_INTERPRET then
        match ld with
        | None => Done (ld, phdr, s)
        | Some _ =>
            '(path, s) ← load_interpret elf_base p s;
            load_headers n entry_size elf_base base pagemap next (Some path) phdr s
        end
      else if type =? 6 then
        virtual_address ← load64 m (Elf64ProgramHeader.virtual_address p);
        load_headers n entry_size elf_base base pagemap next ld (u64 (base + virtual_address)) s
      else if type =? ELF_PROGRAM_HEADER_LOAD then
        st ← load_segment elf_base base pagemap p m (space s);
        load_headers n entry_size elf_base base pagemap next ld phdr (set_space s st)
      else load_headers n entry_size elf_base base pagemap next ld phdr s
  end.

(** One section: a block of zeros for those that are not in the file. *)
Definition load_section (elf_header section : Z) s : res (sys H) :=
  let v := files s in
  type ← load32 (vmem v) (Elf64SectionHeader.type section);
  if negb (type =? ELF_SECTION_HEADER_NOBITS) then Done s
  else
    entry_size ← load64 (vmem v) (Elf64SectionHeader.entry_size section);
    if entry_size =? 0 then Done s
    else
      flags ← load64 (vmem v) (Elf64SectionHeader.flags section);
      if Z.land flags 2 =? 0 then Done s
      else
        '(p, (m, h)) ← malloc entry_size (vmem v) (vheap v);
        m ← memset m p 0 entry_size;
        m ← store64 m (Elf64SectionHeader.file_offset section) (u64 (p - elf_header));
        Done (set_files s (Vfs.set_mem v m h)).

(** [elf_header + section_header_table_file_offset] steps in whole headers. *)
Definition elf_load_program (elf_base base pagemap : Z) (ld : option Z) s
    : res (Z * (Auxval * option Z * sys H)) :=
  let v := files s in
  '(elf_header, (m, h)) ← malloc Elf64Header.size (vmem v) (vheap v);
  m ← memcpy m elf_header elf_base Elf64Header.size;
  let s := set_files s (Vfs.set_mem v m h) in
  phoff ← load64 m (Elf64Header.program_header_table_file_offset elf_header);
  phnum ← load16 m (Elf64Header.program_header_table_entry_count elf_header);
  phsize ← load16 m (Elf64Header.program_header_table_entry_size elf_header);
  '(ld, phdr, s) ← load_headers (Z.to_nat phnum) phsize elf_base base pagemap
                     (u64 (elf_base + phoff)) ld 0 s;
  let m := vmem (files s) in
  entry ← load64 m (Elf64Header.entry elf_header);
  shoff ← load64 m (Elf64Header.section_header_table_file_offset elf_header);
  shnum ← load16 m (Elf64Header.section_header_table_entry_count elf_header);
  let shdr := u64 (elf_header + Elf64Header.size * shoff) in
  s ← for_loop (Z.to_nat shnum) 0
        (λ i s, load_section elf_header (u64 (shdr + i * Elf64SectionHeader.size)) s) s;
  Done (u64 (base + entry),
        (MkAuxval (u64 (base + entry)) phdr Elf64ProgramHeader.size phnum, ld, s)).
End elf.

(** [elf_validate] accepts exactly the magic of an ELF file. *)
Lemma elf_validate_magic m h (bs : list Z) :
  length bs = 4%nat → (∀ i b, bs !! i = Some b → m !! (h + Z.of_nat i) = Some b) →
  elf_validate m h = Done (bool_decide (bs = [0x7f; 0x45; 0x4c; 0x46])).
Proof.
  destruct bs as [|a [|b [|c [|d [|]]]]]; intros [=] Hm.
  pose proof (Hm 0%nat a eq_refl) as Ha. rewrite Z.add_0_r in Ha.
  pose proof (Hm 1%nat b eq_refl) as Hb. pose proof (Hm 2%nat c eq_refl) as Hc. pose proof (Hm 3%nat d eq_refl) as Hd.
  change (Z.of_nat 1) with 1 in Hb. change (Z.of_nat 2) with 2 in Hc. change (Z.of_nat 3) with 3 in Hd.
  unfold elf_validate, load8. rewrite Ha, Hb, Hc, Hd.
  cbn [of_option mbind res_bind].
  destruct (Z.eqb_spec a 0x7f), (Z.eqb_spec b 0x45), (Z.eqb_spec c 0x4c), (Z.eqb_spec d 0x46); subst; cbn [negb];
    case_bool_decide; congruence.
Qed.

(** ** Proofs *)

(** What a process with the tables [root] finds at [va]. *)
Definition user_byte (r : mem) (root va : Z) : option Z :=
  e ← translate r root va; r !! (frame_of e + va mod PAGE_SIZE).

(** The fields of a program header that describe a segment. *)
Record segment (m : mem) (p virtual_address file_offset file_size memory_size : Z) : Prop := Segment {
  sg_address : load64 m (Elf64ProgramHeader.virtual_address p) = Done virtual_address;
  sg_offset : load64 m (Elf64ProgramHeader.file_offset p) = Done file_offset;
  sg_file : load64 m (Elf64ProgramHeader.file_size p) = Done file_size;
  sg_memory : load64 m (Elf64ProgramHeader.memory_size p) = Done memory_size;
}.

(** Pages from the one [va] is in to the one of [va + size - 1]. *)
Definition pages_of (va size : Z) : Z := (va mod PAGE_SIZE + size + (PAGE_SIZE - 1)) / PAGE_SIZE.

Lemma copy_in_spec m r to from n :
  0 ≤ n → mapped r to n → mapped m from n →
  ∃ r', copy_in m r to from n = Done r' ∧ overwritten r r' to n (λ i, m !! (from + i)).
Proof.
  intros Hn Hr Hm. unfold copy_in.
  destruct (for_loop_inv (λ k r', overwritten r r' to k (λ i, m !! (from + i)))
    (Z.to_nat n) 0 (λ i r, b ← load8 m (from + i); store8 r (to + i) b) r) as (r' & Hl & Ho).
  - apply overwritten_nil.
  - intros k r1 Hk Ho. destruct (Hm (from + k)) as [b Hb]; [lia|].
    exists (<[to + k := b]> r1). unfold load8. rewrite Hb. cbn [of_option mbind res_bind].
    rewrite store8_Done.
    + split; [done|]. by apply overwritten_grow_up; [|lia|].
    + rewrite Ho, bool_decide_false by lia. apply Hr. lia.
  - exists r'. by replace (0 + Z.of_nat (Z.to_nat n)) with n in Ho by lia.
Qed.

(** The page of a byte of a run of pages that starts in the middle of one. *)
Lemma run_page va i :
  0 ≤ va → 0 ≤ i →
  vpn (va + i) = vpn (va + (va mod PAGE_SIZE + i) / PAGE_SIZE * 4096) ∧
  (va mod PAGE_SIZE + i) / PAGE_SIZE * PAGE_SIZE + (va + i) mod PAGE_SIZE = va mod PAGE_SIZE + i.
Proof.
  unfold vpn, PAGE_SIZE. intros Hv Hi. change (2 ^ 12) with 4096. split; [|zlia].
  rewrite Z.div_add by done. f_equal. zlia.
Qed.

Lemma pages_of_page va i size :
  0 ≤ va → 0 ≤ i < size → 0 ≤ (va mod PAGE_SIZE + i) / PAGE_SIZE < pages_of va size.
Proof. unfold pages_of, PAGE_SIZE. zlia. Qed.

Lemma page_count_eq base va size :
  base mod PAGE_SIZE = 0 → 0 ≤ va → 0 ≤ size → va + size ≤ 2 ^ 62 →
  Z.land va (PAGE_SIZE - 1) = (base + va) mod PAGE_SIZE ∧
  DIV_ROUNDUP (u64 (Z.land va (PAGE_SIZE - 1) + size)) PAGE_SIZE = pages_of (base + va) size.
Proof.
  intros Hb Hv Hs Hlim. assert (Z.land va (PAGE_SIZE - 1) = (base + va) mod PAGE_SIZE) as Heq.
  { change (PAGE_SIZE - 1) with (Z.ones 12). rewrite Z.land_ones by lia. unfold PAGE_SIZE in *.
    change (2 ^ 12) with 4096. zlia. }
  split; [done|]. rewrite Heq. unfold DIV_ROUNDUP, pages_of.
  pose proof (Z.mod_pos_bound (base + va) PAGE_SIZE ltac:(done)) as Hm.
  assert ((base + va) mod PAGE_SIZE ≤ va) by (unfold PAGE_SIZE in *; zlia).
  rewrite (u64_id (_ + size)) by (simpl in *; lia).
  by rewrite u64_id by (unfold PAGE_SIZE in *; simpl in *; lia).
Qed.

(** The segment's bytes: those of the file, then zeros. *)
Lemma fill_spec m r to from file_size memory_size :
  0 ≤ file_size ≤ memory_size → memory_size < 2 ^ 64 → mapped r to memory_size →
  mapped m from file_size →
  ∃ r1 r2, copy_in m r to from file_size = Done r1 ∧
    memset r1 (to + file_size) 0 (u64 (memory_size - file_size)) = Done r2 ∧
    overwritten r r2 to memory_size (λ i, if i <? file_size then m !! (from + i) else Some 0).
Proof.
  intros Hf Hlim Hr Hm.
  destruct (copy_in_spec m r to from file_size) as (r1 & Hr1 & Ho1); [lia| |done|].
  { eapply mapped_mono; [done|lia..]. }
  rewrite u64_id by (simpl in *; lia).
  destruct (memset_spec r1 (to + file_size) 0 (memory_size - file_size)) as (r2 & Hr2 & Ho2); [lia| |].
  { eapply mapped_mono; [eapply overwritten_mapped; [done|intros; apply Hm; lia|done]|lia..]. }
  exists r1, r2. split_and!; [done..|].
  replace memory_size with (file_size + (memory_size - file_size)) by lia.
  eapply overwritten_app; [lia|lia| |].
  - intros a. rewrite Ho1. case_bool_decide; [|done]. by rewrite (proj2 (Z.ltb_lt _ _)) by lia.
  - intros a. rewrite Ho2. case_bool_decide; [|done]. by rewrite (proj2 (Z.ltb_ge _ _)) by lia.
Qed.

Section spec.
Implicit Types (st : vmm pmm).

(** Writing to frames that are not tables. *)
Lemma vm_ok_data st r root lo hi :
  vm_ok st root → (∀ a, ¬ (lo ≤ a < hi) → r !! a = ram st !! a) → dom_grows (ram st) r →
  (∀ a, lo ≤ a < hi → ¬ in_table (ram st) root a) →
  vm_ok (Vmm.set_mem st r (frames st)) root ∧
  (∀ va, translate r root va = translate (ram st) root va) ∧
  (∀ a, in_table r root a → in_table (ram st) root a).
Proof.
  intros [Hok Hinv Hlk] Hsame Hdom Hout.
  assert (∀ a, in_table (ram st) root a → r !! a = ram st !! a) as Ht.
  { intros a Ha. apply Hsame. intros Hin. by apply (Hout a). }
  split_and!.
  - split; [|done..]. by eapply alloc_pt_ok.
  - intros va. eapply alloc_walk; [done|done|apply va_path_ok|apply PML_ENTRY_ok; lia].
  - by eapply alloc_in_table.
Qed.

Lemma user_byte_page r root va pa :
  translate r root va = Some (pa + 7) → pa mod PAGE_SIZE = 0 → 0 ≤ pa < 2 ^ 52 →
  user_byte r root va = r !! (pa + va mod PAGE_SIZE).
Proof.
  intros Ht Hpa Hb. unfold user_byte. rewrite Ht. cbn [mbind option_bind].
  destruct (frame_flags pa 7) as (Hl & Hf & _); [done..|]. by rewrite <-Hl, Hf.
Qed.

(** After a run has been taken: the tables as before, none of them in the run. *)
Record fresh_run root f n st st' : Prop := FreshRun {
  fr_ok : vm_ok st' root;
  fr_same va : translate (ram st') root va = translate (ram st) root va;
  fr_tables a : in_table (ram st') root a → in_table (ram st) root a;
  fr_out a : f * PAGE_SIZE ≤ a < (f + n) * PAGE_SIZE → ¬ in_table (ram st') root a;
  fr_owned a : f * PAGE_SIZE ≤ a < (f + n) * PAGE_SIZE → in_use (frames st') (a / PAGE_SIZE);
  fr_use g : in_use (frames st) g → in_use (frames st') g;
  fr_data a : in_use (frames st) (a / PAGE_SIZE) → ram st' !! a = ram st !! a;
  fr_new a : in_use (frames st) (a / PAGE_SIZE) → ¬ (f * PAGE_SIZE ≤ a < (f + n) * PAGE_SIZE);
  fr_dom : dom_grows (ram st) (ram st');
}.

Lemma fresh_run_taken st root f n m' s' :
  vm_ok st root → run_taken (ram st) (frames st) f n m' s' →
  fresh_run root f n st (Vmm.set_mem st m' s').
Proof.
  intros [Hok Hinv Hlk] [Hinv' Hfresh Huse Hz [Hf0 Htop] _ _ _ _].
  assert (∀ a, in_use (frames st) (a / PAGE_SIZE) → ¬ (f * PAGE_SIZE ≤ a < (f + n) * PAGE_SIZE)) as Hnew.
  { intros a Ha Hin. apply (Hfresh (a / PAGE_SIZE)); [|done]. unfold PAGE_SIZE in *. zlia. }
  assert (∀ a, in_use (frames st) (a / PAGE_SIZE) → m' !! a = ram st !! a) as Hdata.
  { intros a Ha. eapply overwritten_out; [done|]. specialize (Hnew a Ha). lia. }
  assert (∀ a, in_table (ram st) root a → m' !! a = ram st !! a) as Ht
    by (intros a Ha; by eapply Hdata, in_table_use).
  assert (dom_grows (ram st) m') as Hdom by by eapply overwritten_dom.
  assert (∀ a, in_table m' root a → in_table (ram st) root a) as Hin
    by (intros a; by eapply alloc_in_table).
  split; try done.
  - split; [|done..]. eapply alloc_pt_ok; try done. intros g Hg. apply Huse. by left.
  - intros va. eapply alloc_walk; [done|done|apply va_path_ok|apply PML_ENTRY_ok; lia].
  - intros a Ha Hta. apply (Hnew a); [|done]. by eapply in_table_use, Hin.
  - intros a Ha. apply Huse. right. unfold PAGE_SIZE in *. zlia.
  - intros g Hg. apply Huse. by left.
Qed.

(** The process finds [b] at [va], in the frame [pa] of its own. *)
Definition holds_in st root va pa (b : option Z) : Prop :=
  translate (ram st) root va = Some (pa + 7) ∧ pa mod PAGE_SIZE = 0 ∧ 0 ≤ pa < 2 ^ 52 ∧
    in_use (frames st) (pa / PAGE_SIZE) ∧ ¬ in_table (ram st) root (pa + va mod PAGE_SIZE) ∧
    ram st !! (pa + va mod PAGE_SIZE) = b.
Definition holds st root va (b : option Z) : Prop := ∃ pa, holds_in st root va pa b.

Lemma holds_user st root va b : holds st root va b → user_byte (ram st) root va = b.
Proof. intros (pa & Ht & Ha & Hr & _ & _ & <-). by apply user_byte_page. Qed.

(** What loading the segment has done to the process, and what it has not. *)
Record loaded root va (m : mem) from file_size memory_size st st' : Prop := Loaded {
  ld_bytes i : 0 ≤ i < memory_size → ∃ pa, ¬ in_use (frames st) (pa / PAGE_SIZE) ∧
    holds_in st' root (va + i) pa (if i <? file_size then m !! (from + i) else Some 0);
  ld_tables a : in_use (frames st) (a / PAGE_SIZE) →
    in_table (ram st') root a → in_table (ram st) root a;
  ld_other w : (∀ i, 0 ≤ i < memory_size → vpn w ≠ vpn (va + i)) →
    translate (ram st') root w = translate (ram st) root w;
  ld_data a : in_use (frames st) (a / PAGE_SIZE) → ¬ in_table (ram st) root a →
    ram st' !! a = ram st !! a;
  ld_use g : in_use (frames st) g → in_use (frames st') g;
}.

Lemma loaded_intro root va (m : mem) from file_size memory_size f st st1 st2 r :
  0 ≤ va → 0 < memory_size → va + memory_size ≤ 2 ^ 47 → 0 < f →
  (f + pages_of va memory_size) * PAGE_SIZE ≤ 2 ^ 46 →
  fresh_run root f (pages_of va memory_size) st st1 →
  run_mapped root (f * PAGE_SIZE) va 7 (pages_of va memory_size) st1 st2 → vm_ok st2 root →
  overwritten (ram st2) r (f * PAGE_SIZE + va mod PAGE_SIZE) memory_size
    (λ i, if i <? file_size then m !! (from + i) else Some 0) → dom_grows (ram st2) r →
  vm_ok (Vmm.set_mem st2 r (frames st2)) root ∧
  loaded root va m from file_size memory_size st (Vmm.set_mem st2 r (frames st2)).
Proof.
  intros Hva Hsz Hlim Hf0 Htop Hfr Hrm Hvm2 Ho Hdom.
  set (n := pages_of va memory_size) in *. set (lo := f * PAGE_SIZE + va mod PAGE_SIZE) in *.
  assert (f * PAGE_SIZE ≤ lo ∧ lo + memory_size ≤ (f + n) * PAGE_SIZE) as Hlo.
  { subst lo n. unfold pages_of, PAGE_SIZE in *. zlia. }
  destruct (vm_ok_data st2 r root lo (lo + memory_size)) as (Hvm & Htr & Htab); [done| |done| |].
  { intros a Ha. by eapply overwritten_out. }
  { intros a Ha Hin. eapply fr_out; [done| |]; [|eapply rm_tables; [done| |done]]; [lia|].
    eapply fr_owned; [done|lia]. }
  split; [done|]. split.
  - intros i Hi. destruct (run_page va i) as [Hpg Hoff]; [lia..|].
    pose proof (pages_of_page va i memory_size Hva Hi) as Hk. fold n in Hk.
    set (k := (va mod PAGE_SIZE + i) / PAGE_SIZE) in *. cbn [ram Vmm.set_mem].
    assert (f * PAGE_SIZE + k * 4096 + (va + i) mod PAGE_SIZE = lo + i) as Hat
      by (subst lo; unfold PAGE_SIZE in *; lia).
    exists (f * PAGE_SIZE + k * 4096). unfold holds_in. cbn [ram frames Vmm.set_mem]. rewrite Hat. split_and!.
    + intros Hu. apply (fr_new _ _ _ _ _ Hfr (f * PAGE_SIZE + k * 4096) Hu). unfold PAGE_SIZE in *. lia.
    + rewrite Htr, (translate_vpn _ _ _ _ Hpg). by apply (rm_here _ _ _ _ _ _ _ Hrm).
    + unfold PAGE_SIZE. zlia.
    + unfold PAGE_SIZE in *. lia.
    + unfold PAGE_SIZE in *. simpl in *. lia.
    + eapply rm_use, fr_owned; [done..|]. unfold PAGE_SIZE in *. lia.
    + intros Hin. eapply fr_out; [done| |eapply rm_tables; [done| |by apply Htab]]; [lia|].
      eapply fr_owned; [done|lia].
    + rewrite Ho, bool_decide_true by lia. by replace (lo + i - lo) with i by lia.
  - intros a Ha Hin. apply (fr_tables _ _ _ _ _ Hfr), (rm_tables _ _ _ _ _ _ _ Hrm), Htab, Hin.
    by apply (fr_use _ _ _ _ _ Hfr).
  - intros w Hw. cbn [ram Vmm.set_mem]. rewrite Htr, (rm_other _ _ _ _ _ _ _ Hrm).
    + apply (fr_same _ _ _ _ _ Hfr).
    + intros k Hk Heq. apply (Hw (Z.max 0 (k * PAGE_SIZE - va mod PAGE_SIZE))).
      { subst n. unfold pages_of, PAGE_SIZE in *. zlia. }
      rewrite Heq. unfold vpn, PAGE_SIZE in *. change (2 ^ 12) with 4096.
      rewrite Z.div_add by done. f_equal. zlia.
  - intros a Ha Hnt. cbn [ram Vmm.set_mem].
    pose proof (fr_new _ _ _ _ _ Hfr a Ha). rewrite (overwritten_out _ _ _ _ _ _ Ho) by lia.
    rewrite (rm_data _ _ _ _ _ _ _ Hrm); [by apply (fr_data _ _ _ _ _ Hfr)| |].
    + by apply (fr_use _ _ _ _ _ Hfr).
    + intros Hin. by apply Hnt, (fr_tables _ _ _ _ _ Hfr).
  - intros g Hg. by apply (rm_use _ _ _ _ _ _ _ Hrm), (fr_use _ _ _ _ _ Hfr).
Qed.

Lemma holds_kept root va m from file_size memory_size st st' w pa b :
  loaded root va m from file_size memory_size st st' →
  (∀ i, 0 ≤ i < memory_size → vpn w ≠ vpn (va + i)) → holds_in st root w pa b → holds_in st' root w pa b.
Proof.
  intros [_ Htab Hoth Hdata Huse] Hw (Ht & Ha & Hr & Hu & Hnt & <-).
  assert ((pa + w mod PAGE_SIZE) / PAGE_SIZE = pa / PAGE_SIZE) as Hpg by (unfold PAGE_SIZE in *; zlia).
  unfold holds_in. rewrite Hoth, Hdata by (done || by rewrite Hpg). split_and!; [done|done|lia|lia|by apply Huse| |done].
  intros Hin. apply Hnt, Htab; [by rewrite Hpg|done].
Qed.

(** What loading needs of the machine: tables in order, the free frames in one
    run, and [k] frames to spare. *)
Record ready root pagemap (k : nat) st : Prop := Ready {
  rd_ok : vm_ok st root;
  rd_points : Vmm.points_to pagemap root;
  rd_tidy : tidy (frames st);
  rd_spare : available k (ram st) (frames st);
}.

Lemma load_segment_spec st root pagemap elf_base base p m va off file_size memory_size k :
  let to := base + va in let from := elf_base + off in let n := pages_of to memory_size in
  segment m p va off file_size memory_size →
  0 ≤ base → base mod PAGE_SIZE = 0 → 0 ≤ va → 0 ≤ file_size ≤ memory_size → 0 < memory_size →
  to + memory_size ≤ 2 ^ 47 → 0 ≤ from < 2 ^ 64 → mapped m from file_size →
  ready root pagemap (4 * Z.to_nat n + k) st → n ≤ bitmap_size (frames st) →
  ∃ st', load_segment elf_base base pagemap p m st = Done st' ∧ ready root pagemap k st' ∧
    bitmap_size (frames st') = bitmap_size (frames st) ∧
    loaded root to m from file_size memory_size st st'.
Proof.
  intros to from n [Hga Hgo Hgf Hgm] Hb Hba Hva Hfs Hms Hlim Hfrom Hsrc [Hvm Hpt Htidy Hav] Hsz.
  destruct (page_count_eq base va memory_size) as [Hmis Hpc]; [done|lia|lia|simpl in *; lia|].
  assert (1 ≤ n ≤ 2 ^ 36) as Hn by (subst n to; unfold pages_of, PAGE_SIZE; simpl in *; zlia).
  unfold load_segment. rewrite Hga, Hgm. cbn [mbind res_bind]. rewrite Hpc, Hmis. fold to n.
  destruct (tidy_run (ram st) (frames st) (Z.to_nat n)) as (f & nf & _ & _ & _ & Hff & Hrun);
    [done|eapply available_le; [exact Hav|lia]|lia|]. rewrite Z2Nat.id in Hrun by lia.
  destruct (pmm_allocate_zero_run (ram st) (frames st) f n) as (r & s & -> & Hrt);
    [apply Hvm|eapply (available_le 1); [exact Hav|lia]|lia|done|done|].
  pose proof (rt_range _ _ _ _ _ _ Hrt) as [Hf0 Htop]. cbn [mbind res_bind].
  pose proof (fresh_run_taken _ _ _ _ _ _ Hvm Hrt) as Hfr.
  rewrite (u64_id (n * _)), Z.div_mul by (unfold PAGE_SIZE; simpl in *; lia || done).
  destruct (map_frames (Vmm.set_mem st r s) root pagemap (λ k, u64 (k * PAGE_SIZE + f * PAGE_SIZE))
    (λ k, u64 (base + k * PAGE_SIZE + va)) (f * PAGE_SIZE) to 7 n k)
    as (st2 & Hr2 & Hvm2 & Hav2 & Hrm);
    [apply Hfr| |done|done|by apply Z.mod_mul|unfold PAGE_SIZE; lia|lia|lia| | |].
  { apply (rt_left _ _ _ _ _ _ Hrt). eapply available_le; [exact Hav|lia]. }
  { unfold PAGE_SIZE in *. simpl in *. lia. }
  { intros j Hj. rewrite vpn_u64. split; [|f_equal; subst to; unfold PAGE_SIZE; lia].
    rewrite u64_id; unfold PAGE_SIZE in *; simpl in *; lia. }
  rewrite Hr2. cbn [mbind res_bind]. rewrite Hgo, Hgf. cbn [mbind res_bind].
  assert (phys_of (u64 (f * PAGE_SIZE + MMAP_IO_BASE + to mod PAGE_SIZE)) =
          f * PAGE_SIZE + to mod PAGE_SIZE) as ->.
  { rewrite <-Z.add_assoc, (Z.add_comm MMAP_IO_BASE), Z.add_assoc.
    apply phys_of_io. unfold phys_ok, MMAP_KERNEL_BASE, MMAP_IO_BASE, PAGE_SIZE in *. simpl in *. zlia. }
  rewrite (u64_id (elf_base + off)) by done.
  assert (∀ i, 0 ≤ i < memory_size → 0 ≤ to mod PAGE_SIZE + i < n * PAGE_SIZE) as Hin
    by (subst n; unfold pages_of, PAGE_SIZE in *; zlia).
  destruct (fill_spec m (ram st2) (f * PAGE_SIZE + to mod PAGE_SIZE) from
    file_size memory_size) as (r1 & r2 & Hc & Hms2 & Ho); [done|simpl in *; lia| |done|].
  { eapply dom_grows_mapped; [apply (rm_dom _ _ _ _ _ _ _ Hrm)|]. intros a Ha. exists 0.
    apply (overwritten_in _ _ _ _ _ _ (rt_zero _ _ _ _ _ _ Hrt)).
    specialize (Hin (a - (f * PAGE_SIZE + to mod PAGE_SIZE))). lia. }
  cbn [ram Vmm.set_mem]. fold from. rewrite Hc. cbn [mbind res_bind]. rewrite Hms2. cbn [mbind res_bind].
  assert (dom_grows (ram st2) r2) as Hdom.
  { eapply overwritten_grows; [done|]. intros i Hi. simpl.
    destruct (Z.ltb_spec i file_size); [apply Hsrc; lia|by eexists]. }
  destruct (loaded_intro root to m from file_size memory_size f st (Vmm.set_mem st r s) st2 r2)
    as [Hvm3 Hld]; try done; [lia|].
  apply (map_loop_keeps tidy_same tidy_keeps) in Hr2.
  destruct Hr2 as [Htidy2 (_ & _ & Hsz2)]; [eapply tidy_run_taken; (done || lia)|].
  eexists. split; [done|]. split_and!;
    [|etrans; [exact Hsz2|]; apply (rt_same _ _ _ _ _ _ Hrt)|exact Hld].
  split; [done|done|done|]. by eapply fa_mono.
Qed.
End spec.

(** ** Whole programs *)

(** A program header, as its fields. *)
Record phdr : Type := Phdr { ph_type : Z; ph_va : Z; ph_off : Z; ph_filesz : Z; ph_memsz : Z }.

Definition is_load (h : phdr) : bool := ph_type h =? ELF_PROGRAM_HEADER_LOAD.

Record header_at (m : mem) (p : Z) (h : phdr) : Prop := HeaderAt {
  ha_type : load32 m (Elf64ProgramHeader.type p) = Done (ph_type h);
  ha_segment : segment m p (ph_va h) (ph_off h) (ph_filesz h) (ph_memsz h);
}.

(** The headers [hs], [step] bytes apart from [p] on, inside [lo .. hi-1]. *)
Fixpoint headers_at (m : mem) (lo hi step p : Z) (hs : list phdr) : Prop :=
  match hs with
  | [] => True
  | h :: hs => (lo ≤ p ∧ p + Elf64ProgramHeader.size ≤ hi) ∧ header_at m p h ∧
      headers_at m lo hi step (u64 (p + step)) hs
  end.

(** A segment that makes sense: in user space, and with its bytes in the file. *)
Record segment_ok (size base : Z) (h : phdr) : Prop := SegmentOk {
  sk_va : 0 ≤ ph_va h;
  sk_sizes : 0 ≤ ph_filesz h ≤ ph_memsz h ∧ 0 < ph_memsz h;
  sk_top : base + ph_va h + ph_memsz h ≤ 2 ^ 47;
  sk_file : 0 ≤ ph_off h ∧ ph_off h + ph_filesz h ≤ size;
}.

(** No page is in both segments. *)
Definition pages_apart (base : Z) (h h' : phdr) : Prop :=
  ∀ i j, 0 ≤ i < ph_memsz h → 0 ≤ j < ph_memsz h' → vpn (base + ph_va h + i) ≠ vpn (base + ph_va h' + j).

Fixpoint all_apart (base : Z) (hs : list phdr) : Prop :=
  match hs with
  | [] => True
  | h :: hs => (∀ h', h' ∈ hs → is_load h = true → is_load h' = true → pages_apart base h h') ∧
      all_apart base hs
  end.

Definition frames_for (base : Z) (h : phdr) : nat :=
  if is_load h then 4 * Z.to_nat (pages_of (base + ph_va h) (ph_memsz h)) else 0.

(** What [at_phdr] becomes. *)
Definition last_phdr (base : Z) (hs : list phdr) (a : Z) : Z :=
  foldl (λ a h, if ph_type h =? 6 then u64 (base + ph_va h) else a) a hs.

Section program.
Context {H : Type} `{HeapLaws H}.
Implicit Types (s : sys H) (hs : list phdr).

(** Each segment of [hs] is in place, in frames that were free, with the bytes [m]
    has of it. *)
Definition all_loaded (base elf_base root : Z) (m : mem) hs (st0 st : vmm pmm) : Prop :=
  ∀ h i, h ∈ hs → is_load h = true → 0 ≤ i < ph_memsz h →
    ∃ pa, ¬ in_use (frames st0) (pa / PAGE_SIZE) ∧
      holds_in st root (base + ph_va h + i) pa
        (if i <? ph_filesz h then m !! (elf_base + ph_off h + i) else Some 0).

(** What the process has in pages that [hs] does not touch stays where it is. *)
Definition others_kept (base root : Z) hs (st0 st : vmm pmm) : Prop :=
  ∀ w, (∀ h i, h ∈ hs → is_load h = true → 0 ≤ i < ph_memsz h → vpn w ≠ vpn (base + ph_va h + i)) →
    translate (ram st) root w = translate (ram st0) root w ∧
    ∀ pa b, holds_in st0 root w pa b → holds_in st root w pa b.

Lemma set_space_id s : set_space s (space s) = s.
Proof. by destruct s. Qed.

Lemma load_headers_spec base elf_base size root pagemap step ld hs p a s k :
  0 ≤ base → base mod PAGE_SIZE = 0 → 0 ≤ elf_base → elf_base + size < 2 ^ 64 →
  mapped (vmem (files s)) elf_base size →
  headers_at (vmem (files s)) elf_base (elf_base + size) step p hs →
  Forall (λ h, ph_type h ≠ ELF_PROGRAM_HEADER_INTERPRET ∧
    (is_load h = true → segment_ok size base h ∧
       pages_of (base + ph_va h) (ph_memsz h) ≤ bitmap_size (frames (space s)))) hs →
  all_apart base hs →
  ready root pagemap (sum_list (frames_for base <$> hs) + k) (space s) →
  ∃ st, load_headers (length hs) step elf_base base pagemap p ld a s =
      Done (ld, last_phdr base hs a, set_space s st) ∧ ready root pagemap k st ∧
    all_loaded base elf_base root (vmem (files s)) hs (space s) st ∧
    others_kept base root hs (space s) st.
Proof.
  intros Hb Hba He Hsz Hmap. revert p a s k Hmap.
  induction hs as [|h hs IH]; intros p a s k Hmap Hhs Hok Hap Hrd.
  { exists (space s). rewrite set_space_id. split_and!; [done|done| |by intros w _].
    intros h i Hin. by apply not_elem_of_nil in Hin. }
  destruct Hhs as (_ & [Hty Hseg] & Hhs). apply Forall_cons_1 in Hok as [[Hni Hh] Hok].
  destruct Hap as [Hap1 Hap]. cbn [length load_headers]. rewrite Hty. cbn [mbind res_bind].
  rewrite (proj2 (Z.eqb_neq _ _) Hni). change (sum_list (frames_for base <$> h :: hs))
    with (frames_for base h + sum_list (frames_for base <$> hs))%nat in Hrd.
  unfold frames_for at 1 in Hrd. destruct (is_load h) eqn:Hld.
  - pose proof Hld as Hty1%Z.eqb_eq. rewrite Hty1. cbn [Z.eqb ELF_PROGRAM_HEADER_LOAD Pos.eqb].
    destruct (Hh eq_refl) as [[Hva [Hfs Hms] Htop [Ho1 Ho2]] Hbm].
    destruct (load_segment_spec (space s) root pagemap elf_base base p (vmem (files s)) (ph_va h)
      (ph_off h) (ph_filesz h) (ph_memsz h) (sum_list (frames_for base <$> hs) + k))
      as (st & Hr & Hrd1 & Hbs & Hl); [done|done|done|done|done|done|done|lia| | |done|].
    { eapply mapped_mono; [exact Hmap|lia..]. }
    { by rewrite Nat.add_assoc. }
    rewrite Hr. cbn [mbind res_bind].
    destruct (IH (u64 (p + step)) a (set_space s st) k) as (st' & Hr' & Hrd' & Hal & Hkeep); try done.
    { eapply Forall_impl; [|exact Hok]. intros h' [? Hh']. split; [done|]. intros Hl'.
      cbn [space set_space]. rewrite Hbs. by apply Hh'. }
    exists st'. split_and!; [|done| |].
    + rewrite Hr'. f_equal. unfold last_phdr. cbn [foldl]. by rewrite Hty1.
    + intros h' i [->|Hin]%elem_of_cons Hl' Hi.
      * destruct (ld_bytes _ _ _ _ _ _ _ _ Hl i Hi) as (pa & Hf & Hpa). exists pa. split; [done|].
        apply (Hkeep (base + ph_va h + i)); [|done]. intros h2 j Hin2 Hl2 Hj. by apply (Hap1 h2 Hin2).
      * destruct (Hal h' i Hin Hl' Hi) as (pa & Hf & Hpa). exists pa. split; [|done].
        intros Hu. by apply Hf, (ld_use _ _ _ _ _ _ _ _ Hl).
    + intros w Hw. destruct (Hkeep w) as [Htr Hhold]; [intros h2 j Hin2; apply Hw; by right|].
      assert (∀ i, 0 ≤ i < ph_memsz h → vpn w ≠ vpn (base + ph_va h + i)) as Hwh
        by (intros i Hi; apply (Hw h i); [by left|done|done]).
      split; [by rewrite Htr, <-(ld_other _ _ _ _ _ _ _ _ Hl w Hwh)|].
      intros pa b Hh0. apply Hhold. by eapply holds_kept; [exact Hl| |].
  - assert (ph_type h =? ELF_PROGRAM_HEADER_LOAD = false) as -> by done.
    destruct (ph_type h =? 6) eqn:Hty6.
    + rewrite (sg_address _ _ _ _ _ _ Hseg). cbn [mbind res_bind].
      destruct (IH (u64 (p + step)) (u64 (base + ph_va h)) s k) as (st & Hr & Hrd' & Hal & Hkeep); try done.
      exists st. split_and!; [|done| |].
      * rewrite Hr. f_equal. unfold last_phdr. cbn [foldl]. by rewrite Hty6.
      * intros h' i [->|Hin]%elem_of_cons Hl' Hi; [congruence|by apply Hal].
      * intros w Hw. apply Hkeep. intros h2 j Hin2. apply Hw. by right.
    + destruct (IH (u64 (p + step)) a s k) as (st & Hr & Hrd' & Hal & Hkeep); try done.
      exists st. split_and!; [|done| |].
      * rewrite Hr. f_equal. unfold last_phdr. cbn [foldl]. by rewrite Hty6.
      * intros h' i [->|Hin]%elem_of_cons Hl' Hi; [congruence|by apply Hal].
      * intros w Hw. apply Hkeep. intros h2 j Hin2. apply Hw. by right.
Qed.

Lemma load_le_shift n (m m' : mem) a b :
  (∀ i, 0 ≤ i < Z.of_nat n → m' !! (b + i) = m !! (a + i)) → load_le n m' b = load_le n m a.
Proof.
  revert a b. induction n as [|n IH]; intros a b Heq; cbn [load_le]; [done|].
  unfold load8. rewrite <-(Z.add_0_r b), <-(Z.add_0_r a), Heq, !Z.add_0_r by lia.
  rewrite (IH (a + 1) (b + 1)); [done|]. intros i Hi. rewrite <-!Z.add_assoc. apply Heq. lia.
Qed.

Lemma headers_at_same m m' lo hi step p hs :
  (∀ a, lo ≤ a < hi → m' !! a = m !! a) → headers_at m lo hi step p hs →
  headers_at m' lo hi step p hs.
Proof.
  intros Heq. revert p. induction hs as [|h hs IH]; intros p; [done|].
  intros ([Hlo Hhi] & [Hty [Ha Ho Hf Hm]] & Hhs). unfold Elf64ProgramHeader.size in *.
  split; [done|]. split; [|by apply IH].
  split; [|split]; unfold load32, load64 in *; (erewrite load_le_lookup; [eassumption|]); intros a Hin; apply Heq;
    unfold Elf64ProgramHeader.type, Elf64ProgramHeader.file_offset, Elf64ProgramHeader.virtual_address,
      Elf64ProgramHeader.file_size, Elf64ProgramHeader.memory_size in *; lia.
Qed.

(** An ELF file of [size] bytes at [p], with [shnum] section headers at [shoff]. *)
Record elf_file (m : mem) (p size entry step shoff shnum : Z) hs : Prop := ElfFile {
  ef_size : Elf64Header.size ≤ size;
  ef_entry : load64 m (Elf64Header.entry p) = Done entry;
  ef_count : load16 m (Elf64Header.program_header_table_entry_count p) = Done (length_z hs);
  ef_step : load16 m (Elf64Header.program_header_table_entry_size p) = Done step;
  ef_headers : ∃ off, load64 m (Elf64Header.program_header_table_file_offset p) = Done off ∧
    headers_at m p (p + size) step (u64 (p + off)) hs;
  ef_sections : load64 m (Elf64Header.section_header_table_file_offset p) = Done shoff ∧
    load16 m (Elf64Header.section_header_table_entry_count p) = Done shnum;
}.

(** What the loader takes for a section header, at [a], and skips: it is not [NOBITS],
    or has no entry size, or is not to be allocated.  The loader's copy of the file
    header, at [eh], does not overlap it. *)
Definition section_skipped (m : mem) (eh a : Z) : Prop :=
  (a + Elf64SectionHeader.size ≤ eh ∨ eh + Elf64Header.size ≤ a) ∧
  ∃ type, load32 m (Elf64SectionHeader.type a) = Done type ∧
    (type ≠ ELF_SECTION_HEADER_NOBITS ∨ load64 m (Elf64SectionHeader.entry_size a) = Done 0 ∨
     ∃ e f, load64 m (Elf64SectionHeader.entry_size a) = Done e ∧
       load64 m (Elf64SectionHeader.flags a) = Done f ∧ Z.land f 2 = 0).

(** The sections are not looked for in the file but 64 bytes times [shoff] behind the
    copy of its header, which is in a block that [malloc] returns: what is there has
    to be skipped. *)
Definition sections_skipped (m : mem) (h : H) (shoff shnum : Z) : Prop :=
  ∀ eh m' h', malloc Elf64Header.size m h = Done (eh, (m', h')) → ∀ i, 0 ≤ i < shnum →
    section_skipped m' eh (u64 (u64 (eh + Elf64Header.size * shoff) + i * Elf64SectionHeader.size)).

Lemma load_section_skips (m : mem) eh a s :
  section_skipped m eh a → (∀ x, ¬ (eh ≤ x < eh + Elf64Header.size) → vmem (files s) !! x = m !! x) →
  load_section eh a s = Done s.
Proof.
  intros [Hd (type & Hty & Hc)] Hsame. unfold Elf64Header.size, Elf64SectionHeader.size in *.
  assert (∀ n o, 0 ≤ o → o + Z.of_nat n ≤ 64 → load_le n (vmem (files s)) (a + o) = load_le n m (a + o)) as Hl.
  { intros n o Ho Hn. apply load_le_lookup. intros i Hi. apply Hsame. lia. }
  assert (load64 (vmem (files s)) (Elf64SectionHeader.entry_size a) = load64 m (Elf64SectionHeader.entry_size a)) as He
    by (apply (Hl 8%nat 56); lia).
  assert (load64 (vmem (files s)) (Elf64SectionHeader.flags a) = load64 m (Elf64SectionHeader.flags a)) as Hf
    by (apply (Hl 8%nat 8); lia).
  unfold load_section, load32 in *. unfold Elf64SectionHeader.type in *.
  rewrite (Hl 4%nat 4), Hty by lia. cbn [mbind res_bind].
  destruct (Z.eqb_spec type ELF_SECTION_HEADER_NOBITS) as [?|?]; cbn [negb]; [|done].
  rewrite He, Hf. destruct Hc as [?|[->|(x & y & -> & -> & Hz)]]; [done|done|].
  cbn [mbind res_bind]. destruct (x =? 0); [done|]. by rewrite Hz.
Qed.

(** The same bytes at another address. *)
Lemma u64_shift p x : 0 ≤ p → p + u64 x < 2 ^ 64 → u64 (p + x) = p + u64 x.
Proof.
  intros Hp Hx. pose proof (u64_range x) as [Hx0 _]. rewrite <-(u64_id (p + u64 x)) by (unfold is_u64 in *; lia).
  unfold u64. by rewrite Zplus_mod_idemp_r.
Qed.

Lemma header_moved (m m' : mem) p o h :
  (∀ i, o ≤ i < o + Elf64ProgramHeader.size → m' !! (p + i) = m !! i) →
  header_at m o h → header_at m' (p + o) h.
Proof.
  intros Heq [Hty [Ha Ho Hf Hm]]. unfold Elf64ProgramHeader.size in *.
  assert (∀ n k, 0 ≤ k → k + Z.of_nat n ≤ 56 → load_le n m' (p + o + k) = load_le n m (o + k)) as Hl.
  { intros n k Hk Hn. apply load_le_shift. intros i Hi. rewrite <-!Z.add_assoc. apply Heq. lia. }
  split; [|split]; unfold load32, load64 in *.
  - rewrite <-Hty. unfold Elf64ProgramHeader.type. rewrite <-(Z.add_0_r o), Z.add_assoc. apply Hl; lia.
  - rewrite <-Ha. apply Hl; lia.
  - rewrite <-Ho. apply Hl; lia.
  - rewrite <-Hf. apply Hl; lia.
  - rewrite <-Hm. apply Hl; lia.
Qed.

Lemma headers_moved (m m' : mem) p size step hs x :
  0 ≤ p → p + size < 2 ^ 64 → (∀ i, 0 ≤ i < size → m' !! (p + i) = m !! i) →
  headers_at m 0 (0 + size) step (u64 x) hs → headers_at m' p (p + size) step (u64 (p + x)) hs.
Proof.
  intros Hp Hlim Heq. revert x. induction hs as [|h hs IH]; intros x; [done|].
  intros ([Hlo Hhi] & Hh & Hhs). unfold Elf64ProgramHeader.size in *.
  assert (u64 (p + x) = p + u64 x) as Hx by (apply u64_shift; lia). rewrite Hx.
  split; [unfold Elf64ProgramHeader.size; lia|]. split.
  - eapply header_moved; [|done]. intros i Hi. apply Heq. unfold Elf64ProgramHeader.size in Hi. lia.
  - rewrite <-Z.add_assoc. by apply IH.
Qed.

Lemma elf_file_moved (m m' : mem) p size entry step shoff shnum hs :
  0 ≤ p → p + size < 2 ^ 64 → (∀ i, 0 ≤ i < size → m' !! (p + i) = m !! i) →
  elf_file m 0 size entry step shoff shnum hs → elf_file m' p size entry step shoff shnum hs.
Proof.
  intros Hp Hlim Heq [Hsz He Hc Hst (off & Hoff & Hh) [Hso Hsec]]. unfold Elf64Header.size in *.
  assert (∀ n k, 0 ≤ k → k + Z.of_nat n ≤ 64 → load_le n m' (p + k) = load_le n m (0 + k)) as Hl.
  { intros n k Hk Hn. apply load_le_shift. intros i Hi. rewrite <-Z.add_assoc. apply Heq. lia. }
  split; unfold load16, load64 in *; [done|..].
  - rewrite <-He. apply (Hl 8%nat 24); lia.
  - rewrite <-Hc. apply (Hl 2%nat 56); lia.
  - rewrite <-Hst. apply (Hl 2%nat 54); lia.
  - exists off. split; [rewrite <-Hoff; apply (Hl 8%nat 32); lia|]. by eapply headers_moved.
  - split; [rewrite <-Hso; apply (Hl 8%nat 40)|rewrite <-Hsec; apply (Hl 2%nat 60)]; lia.
Qed.

(** The loader's own copy of the header. *)
Lemma copy_header s elf_base size k :
  Elf64Header.size ≤ size → heap_ok (vmem (files s)) (vheap (files s)) →
  live (vheap (files s)) elf_base size → room (S k) (vheap (files s)) →
  ∃ p m h m', malloc Elf64Header.size (vmem (files s)) (vheap (files s)) = Done (p, (m, h)) ∧
    memcpy m p elf_base Elf64Header.size = Done m' ∧ heap_ok m' h ∧ room k h ∧
    (∀ i, 0 ≤ i < Elf64Header.size → m' !! (p + i) = vmem (files s) !! (elf_base + i)) ∧
    (∀ a, ¬ (p ≤ a < p + Elf64Header.size) → m' !! a = m !! a) ∧
    (∀ a, settled (vheap (files s)) a → m' !! a = vmem (files s) !! a) ∧
    ∀ q j, live h q j ↔ live (vheap (files s)) q j ∨ q = p ∧ j = Elf64Header.size.
Proof.
  unfold Elf64Header.size. intros Hsz Hok Hlive Hroom.
  destruct (malloc_law 64 _ _ Hok ltac:(simpl; lia)) as (p & m & h & Hr & Hok' & Hc).
  destruct (room_law k 64 _ _ _ _ _ Hok Hroom ltac:(unfold small; lia) Hr) as [Hp Hroom'].
  destruct Hc as [(-> & _)|Hblk]; [done|]. pose proof Hblk as [Hpos Hmap Hd _ Hsame _ Hl].
  destruct (live_law _ _ _ _ Hok Hlive) as (He & _ & _ & Hfile).
  assert (∀ a, elf_base ≤ a < elf_base + size → m !! a = vmem (files s) !! a) as Hf
    by (intros a Ha; by apply Hsame, (settled_live _ elf_base size)).
  destruct (memcpy_spec m p elf_base 64) as (m' & Hcp & Ho); [lia|done| |apply Hd in Hlive; lia|].
  { intros a Ha. rewrite Hf by lia. apply Hfile. lia. }
  exists p, m, h, m'. split_and!; try done.
  - apply (heap_ok_writes m); [done| |].
    + intros a Ha. rewrite Ho. case_bool_decide; [|done]. rewrite Hf by lia. apply Hfile. lia.
    + intros a Ha. rewrite Ho, bool_decide_false; [done|]. intros Hin. apply Ha, (settled_live _ p 64); [|lia].
      apply Hl. by right.
  - intros i Hi. rewrite Ho, bool_decide_true by lia. rewrite Z.add_simpl_l. apply Hf. lia.
  - intros a Ha. by rewrite Ho, bool_decide_false.
  - intros a Ha. rewrite Ho, bool_decide_false; [by apply Hsame|].
    by apply (nb_apart _ _ _ _ _ _ a Hblk).
Qed.
End program.

(** What [elf_load_program] leaves behind. *)
Record program_loaded {H} `{Heap H} (base elf_base root : Z) hs (j : nat) (s s' : sys H) : Prop := ProgramLoaded {
  pl_all : all_loaded base elf_base root (vmem (files s)) hs (space s) (space s');
  pl_kept : others_kept base root hs (space s) (space s');
  pl_heap : heap_ok (vmem (files s')) (vheap (files s'));
  pl_room : room j (vheap (files s'));
  pl_live q n : live (vheap (files s)) q n → live (vheap (files s')) q n;
  pl_same a : settled (vheap (files s)) a → vmem (files s') !! a = vmem (files s) !! a;
  pl_state : ∃ m h st, s' = set_space (set_files s (Vfs.set_mem (files s) m h)) st;
}.

Lemma elf_load_program_spec {H} `{HeapLaws H} (s : sys H) (elf_base size base root pagemap : Z)
    (entry step shoff shnum : Z) (hs : list phdr) (ld : option Z) (j k : nat) :
  0 ≤ base ∧ base mod PAGE_SIZE = 0 →
  heap_ok (vmem (files s)) (vheap (files s)) → room (S j) (vheap (files s)) →
  live (vheap (files s)) elf_base size →
  elf_file (vmem (files s)) elf_base size entry step shoff shnum hs →
  sections_skipped (vmem (files s)) (vheap (files s)) shoff shnum →
  Forall (λ h, ph_type h ≠ ELF_PROGRAM_HEADER_INTERPRET ∧
       (is_load h = true → segment_ok size base h ∧
          pages_of (base + ph_va h) (ph_memsz h) ≤ bitmap_size (frames (space s)))) hs →
  all_apart base hs →
  ready root pagemap (sum_list (frames_for base <$> hs) + k) (space s) →
  ∃ s', elf_load_program elf_base base pagemap ld s =
      Done (u64 (base + entry), (MkAuxval (u64 (base + entry)) (last_phdr base hs 0)
                                   Elf64ProgramHeader.size (length_z hs), ld, s')) ∧
    ready root pagemap k (space s') ∧ program_loaded base elf_base root hs j s s'.
Proof.
  intros Hbase Hok Hroom Hlive Hfile Hskip Hhs Hapart Hready.
  destruct Hfile as [Hsz Hentry Hcount Hstep (off & Hoff & Hheaders) [Hshoff Hshnum]], Hbase as [Hb Hba].
  destruct (live_law _ _ _ _ Hok Hlive) as (He & _ & Htop & Hmap).
  destruct (copy_header s elf_base size j) as (p & m & h & m' & Hr & Hcp & Hok' & Hroom' & Hcopy & Hrest & Hsame & Hlv);
    [done..|].
  assert (∀ a, elf_base ≤ a < elf_base + size → m' !! a = vmem (files s) !! a) as Hf
    by (intros a Ha; by apply Hsame, (settled_live _ elf_base size)).
  assert (∀ n o, 0 ≤ o → o + Z.of_nat n ≤ 64 →
    load_le n m' (p + o) = load_le n (vmem (files s)) (elf_base + o)) as Hfield.
  { intros n o Ho Hn. apply load_le_shift. intros i Hi. rewrite <-!Z.add_assoc. apply Hcopy.
    unfold Elf64Header.size. lia. }
  unfold elf_load_program. rewrite Hr. cbn [mbind res_bind]. rewrite Hcp. cbn [mbind res_bind].
  assert (load64 m' (Elf64Header.program_header_table_file_offset p) = Done off) as ->
    by (rewrite <-Hoff; by apply (Hfield 8%nat 32)).
  assert (load16 m' (Elf64Header.program_header_table_entry_count p) = Done (length_z hs)) as ->
    by (rewrite <-Hcount; by apply (Hfield 2%nat 56)).
  assert (load16 m' (Elf64Header.program_header_table_entry_size p) = Done step) as ->
    by (rewrite <-Hstep; by apply (Hfield 2%nat 54)).
  cbn [mbind res_bind]. assert (Z.to_nat (length_z hs) = length hs) as -> by apply Nat2Z.id.
  destruct (load_headers_spec base elf_base size root pagemap step ld hs (u64 (elf_base + off)) 0
    (set_files s (Vfs.set_mem (files s) m' h)) k) as (st & -> & Hrd & Hal & Hkeep); try done; [lia| | |].
  { intros a Ha. cbn. rewrite Hf by done. by apply Hmap. }
  { eapply headers_at_same; [|exact Hheaders]. exact Hf. }
  cbn [mbind res_bind files set_space set_files vmem Vfs.set_mem].
  assert (load64 m' (Elf64Header.entry p) = Done entry) as ->
    by (rewrite <-Hentry; by apply (Hfield 8%nat 24)).
  assert (load64 m' (Elf64Header.section_header_table_file_offset p) = Done shoff) as ->
    by (rewrite <-Hshoff; by apply (Hfield 8%nat 40)).
  assert (load16 m' (Elf64Header.section_header_table_entry_count p) = Done shnum) as ->
    by (rewrite <-Hshnum; by apply (Hfield 2%nat 60)).
  cbn [mbind res_bind]. rewrite for_loop_skip.
  2: { intros i Hi. apply (load_section_skips m); [by apply (Hskip p m h Hr); lia|exact Hrest]. }
  cbn [mbind res_bind]. eexists. split; [done|].
  split; [exact Hrd|]. split; try done; cbn [space set_space files set_files vmem vheap Vfs.set_mem].
  - intros h' i Hin Hl Hi. destruct (Hal h' i Hin Hl Hi) as (pa & Hfresh & Hh). exists pa. split; [done|].
    cbn [vmem files set_files Vfs.set_mem] in Hh.
    destruct (Z.ltb_spec i (ph_filesz h')); [|done]. rewrite Hf in Hh; [done|].
    apply list_elem_of_In, (proj1 (Forall_forall _ _) Hhs) in Hin as [_ Hh'].
    destruct (Hh' Hl) as [[_ _ _ Ho] _]. lia.
  - intros q n Hq. apply Hlv. by left.
  - by eexists _, _, _.
Qed.

(** C8: loading a program. For an ELF file in a block of the heap, whose
    segments share no page, [elf_load_program] returns the entry point, and the
    process then finds each segment at its address: the bytes of the file, and
    zeros behind them up to the size in memory; the auxiliary values are those of
    the program headers, and what the process had in other pages it still has.
    (Without interpreter; the section headers, which the code reads from the wrong
    place, must be skipped there; the free frames are in one run.) *)
Theorem elf_load_program_correct {H} `{HeapLaws H} (s : sys H) (elf_base size base root pagemap : Z)
    (entry step shoff shnum : Z) (hs : list phdr) (ld : option Z) (j k : nat)
    (Hbase : 0 ≤ base ∧ base mod PAGE_SIZE = 0)
    (Hok : heap_ok (vmem (files s)) (vheap (files s))) (Hroom : room (S j) (vheap (files s)))
    (Hlive : live (vheap (files s)) elf_base size)
    (Hfile : elf_file (vmem (files s)) elf_base size entry step shoff shnum hs)
    (Hskip : sections_skipped (vmem (files s)) (vheap (files s)) shoff shnum)
    (Hhs : Forall (λ h, ph_type h ≠ ELF_PROGRAM_HEADER_INTERPRET ∧
       (is_load h = true → segment_ok size base h ∧
          pages_of (base + ph_va h) (ph_memsz h) ≤ bitmap_size (frames (space s)))) hs)
    (Hapart : all_apart base hs)
    (Hready : ready root pagemap (sum_list (frames_for base <$> hs) + k) (space s)) :
  ∃ s', elf_load_program elf_base base pagemap ld s =
      Done (u64 (base + entry), (MkAuxval (u64 (base + entry)) (last_phdr base hs 0)
                                   Elf64ProgramHeader.size (length_z hs), ld, s')) ∧
    ready root pagemap k (space s') ∧
    (∀ h i, h ∈ hs → is_load h = true → 0 ≤ i < ph_memsz h →
       user_byte (ram (space s')) root (base + ph_va h + i) =
         if i <? ph_filesz h then vmem (files s) !! (elf_base + ph_off h + i) else Some 0) ∧
    (∀ w b, (∀ h i, h ∈ hs → is_load h = true → 0 ≤ i < ph_memsz h → vpn w ≠ vpn (base + ph_va h + i)) →
       holds (space s) root w b → user_byte (ram (space s')) root w = b) ∧
    heap_ok (vmem (files s')) (vheap (files s')) ∧ room j (vheap (files s')).
Proof.
  destruct (elf_load_program_spec s elf_base size base root pagemap entry step shoff shnum hs ld j k)
    as (s' & Hr & Hrd & [Hal Hkeep Hok' Hroom' _ _ _]); [done..|].
  exists s'. split; [done|]. split; [done|]. split; [|split; [|done]].
  - intros h' i Hin Hl Hi. destruct (Hal h' i Hin Hl Hi) as (pa & _ & Hh). apply holds_user. by exists pa.
  - intros w b Hw (pa & Hh). apply holds_user. exists pa. by apply (Hkeep w Hw).
Qed.
