(* ===== verification/Process.v ===== *)
(** * Creating processes ([src/src/kernel/sched.c])

    [task_init] and [sched_new_elf_process]: a page map that shares the kernel's
    half, a stack, a program from the file system, the open files, and the block of
    arguments at the top of the stack.  Strings the caller passes are their bytes.
    The second half of the file is what the new process finds. *)

From S2P Require Import Prelude CInt Mem Lock Arch Boot Abi Pmm Frames Vmm PmmFrames Vec Sched Heap.
From S2P Require Import Str Devices Vfs VfsSpec Tmpfs Devfs Ustar Task Elf Fpu.

Definition AT_ENTRY : Z := 10.
Definition AT_PHDR : Z := 20.
Definition AT_PHENT : Z := 21.
Definition AT_PHNUM : Z := 22.

(** [current_pid++] *)
Definition next_pid (c : sched) : sched :=
  Sched (u64 (current_pid c + 1)) (current_tick c) (index c) (current_task c) (processes c)
    (started c) (slock c).

(** ** The block of arguments

    Written through the I/O window, from the pointer [stack] down. *)

(** [stack = (void * )stack - (strlen(str) + 1); strcpy((char * )stack, str);] *)
Definition push_string (str : list Z) (st : Z * mem) : res (Z * mem) :=
  let '(stack, r) := st in
  let stack := u64 (stack - (length_z str + 1)) in
  r ← store_bytes r (phys_of stack) (str ++ [0]);
  Done (stack, r).

Fixpoint push_strings (strs : list (list Z)) (st : Z * mem) : res (Z * mem) :=
  match strs with
  | [] => Done st
  | str :: strs => st ← push_string str st; push_strings strs st
  end.

(** [*(--stack) = v;] *)
Definition push_word (v : Z) (st : Z * mem) : res (Z * mem) :=
  let '(stack, r) := st in
  let stack := u64 (stack - 8) in
  r ← store64 r (phys_of stack) v;
  Done (stack, r).

(** [stack -= 2; *stack = key; *(stack + 1) = v;] *)
Definition push_auxv (key v : Z) (st : Z * mem) : res (Z * mem) :=
  let '(stack, r) := st in
  let stack := u64 (stack - 16) in
  r ← store64 r (phys_of stack) key;
  r ← store64 r (phys_of (u64 (stack + 8))) v;
  Done (stack, r).

(** The loop [sa -= strlen(strs[i]) + 1; stack[i] = sa;]. *)
Fixpoint store_pointers (strs : list (list Z)) (at_ sa : Z) (r : mem) : res (Z * mem) :=
  match strs with
  | [] => Done (sa, r)
  | str :: strs =>
      let sa := u64 (sa - (length_z str + 1)) in
      r ← store64 r (phys_of at_) sa;
      store_pointers strs (u64 (at_ + 8)) sa r
  end.

(** [*(--stack) = 0; stack -= n;] and the loop. *)
Definition push_pointers (strs : list (list Z)) (sa : Z) (st : Z * mem) : res (Z * (Z * mem)) :=
  '(stack, r) ← push_word 0 st;
  let stack := u64 (stack - 8 * length_z strs) in
  '(sa, r) ← store_pointers strs stack sa r;
  Done (sa, (stack, r)).

Definition build_stack (stack rsp : Z) (argv envp : list (list Z)) (val : Auxval) (r : mem)
    : res (Z * mem) :=
  st ← push_strings envp (stack, r);
  '(stack, r) ← push_strings argv st;
  let stack := u64 (stack - Z.land stack 0xf) in
  let stack := if negb (Z.land (length_z argv + length_z envp + 1) 1 =? 0)
               then u64 (stack - 8) else stack in
  st ← push_word 0 (stack, r);
  st ← push_word 0 st;
  st ← push_auxv AT_ENTRY (at_entry val) st;
  st ← push_auxv AT_PHDR (at_phdr val) st;
  st ← push_auxv AT_PHENT (at_phent val) st;
  st ← push_auxv AT_PHNUM (at_phnum val) st;
  '(sa, st) ← push_pointers envp rsp st;
  '(_, st) ← push_pointers argv sa st;
  push_word (length_z argv) st.

(** The strings a NULL-terminated array of pointers points to. *)
Fixpoint read_strv (n fuel : nat) (m : mem) (p : Z) : res (list (list Z)) :=
  match n with
  | O => NoFuel
  | S n =>
      elem ← load64 m p;
      if elem =? 0 then Done []
      else str ← read_str fuel m elem; strs ← read_strv n fuel m (p + 8); Done (str :: strs)
  end.

(** ** Tasks *)

Definition set_rip (x : Z) (k : Stack) : Stack :=
  MkStack (r15 k) (r14 k) (r13 k) (r12 k) (r11 k) (r10 k) (r9 k) (r8 k) (rbp k) (rdi k) (rsi k)
    (rdx k) (rcx k) (rbx k) (rax k) (intno k) (err k) x (cs k) (rflags k) (rsp k) (ss k).
Definition set_rsp (x : Z) (k : Stack) : Stack :=
  MkStack (r15 k) (r14 k) (r13 k) (r12 k) (r11 k) (r10 k) (r9 k) (r8 k) (rbp k) (rdi k) (rsi k)
    (rdx k) (rcx k) (rbx k) (rax k) (intno k) (err k) (rip k) (cs k) (rflags k) x (ss k).
(** The registers [task_init] sets. *)
Definition user_regs (rsp_ rip_ rflags_ cs_ ss_ : Z) (k : Stack) : Stack :=
  MkStack (r15 k) (r14 k) (r13 k) (r12 k) (r11 k) (r10 k) (r9 k) (r8 k) (rbp k) (rdi k) (rsi k)
    (rdx k) (rcx k) (rbx k) (rax k) (intno k) (err k) rip_ cs_ rflags_ rsp_ ss_.

(** Entries 256 to 511 of the page map [prev] into [new]. *)
Definition copy_half (prev new : Z) (r : mem) : res mem :=
  for_loop 256 256 (λ i r, e ← load64 r (slot prev i); store64 r (slot new i) e) r.

Definition map_stack (pagemap stack : Z) (st : vmm pmm) : res (vmm pmm) :=
  for_loop (Z.to_nat (STACK_SIZE / 4096)) 0
    (λ i st, vmm_map pagemap (u64 (i * PAGE_SIZE + stack))
               (u64 (i * PAGE_SIZE + (USER_STACK_TOP - STACK_SIZE))) 7 st) st.

Section process.
Context {H : Type} `{Heap H} (junk : Z → vnode) (vec_ok : Z → bool) (fuel : nat).
Context (device : list port_event → Z → Z) (task_junk : Z → Task).
Implicit Types (s : sys H).

(** The fields nothing sets keep what [malloc] left in them, [task_junk]. *)
Definition task_init (entry_point : Z) s : res (Z * sys H) :=
  '(new, (m, h)) ← malloc sizeof_Task (vmem (files s)) (vheap (files s));
  if new =? 0 then Fault
  else
    let pid := i32 (current_pid (sch s)) in
    let st := space s in
    '(stack, (r, f)) ← pmm_allocate_zero (ram st) (frames st) (STACK_SIZE / PAGE_SIZE);
    '(storage, (m, h)) ← fxsave new (fpu s) m h;
    '(p, (r, f)) ← pmm_allocate_zero r f 1;
    let pagemap := u64 (p + MMAP_KERNEL_BASE) in
    r ← copy_half (u64 (kernel_pagemap s + MMAP_KERNEL_BASE)) pagemap r;
    st ← map_stack pagemap stack (Vmm.set_mem st r f);
    let t := task_junk new in
    let t := MkTask 0 vec_init (vfs_get_root (files s)) pid stack pagemap (used_pages t)
               (user_regs USER_STACK_TOP entry_point 0x202 0x43 0x3b (tstack t))
               (tstate t) (exit_code t) storage in
    let s := set_space (set_files s (Vfs.set_mem (files s) m h)) st in
    Done (new, set_tasks (set_sch s (next_pid (sch s))) (<[new := t]> (tasks s))).

(** The three standard files; failures are only logged. *)
Definition open_stdio (t : Z) (stdio : list Z * list Z * list Z) s : res (sys H) :=
  let '(stdin, stdout, stderr) := stdio in
  let open path (s : sys H) :=
    ('(f, v) ← vfs_open junk vec_ok (vfs_get_root (files s)) path O_RDWR (files s);
     Done (f, set_files s v)) in
  '(stdin_node, s) ← open stdin s;
  '(stdout_node, s) ← open stdout s;
  '(stderr_node, s) ← open stderr s;
  tk ← task_at s t;
  '(_, d) ← vec_push 16 vec_ok (descriptors tk) (0, stdin_node);
  '(_, d) ← vec_push 16 vec_ok d (1, stdout_node);
  '(_, d) ← vec_push 16 vec_ok d (2, stderr_node);
  upd_task t (set_fds 3 d) s.

(** A file into a new block; a file that is not there is a NULL dereference. *)
Definition read_file (path : list Z) s : res (Z * sys H) :=
  '(file, v) ← vfs_open junk vec_ok (vfs_get_root (files s)) path O_RDWR (files s);
  n ← node_at v file;
  '(buf, (m, h)) ← malloc (u64 (st_size n)) (vmem v) (vheap v);
  '(_, v) ← kernel_read fuel device file 0 (u64 (st_size n)) buf (Vfs.set_mem v m h);
  Done (buf, set_files s v).

Definition free_block (p : Z) s : res (sys H) :=
  '(m, h) ← free p (vmem (files s)) (vheap (files s));
  Done (set_files s (Vfs.set_mem (files s) m h)).

(** The interpreter the program asks for. *)
Definition load_ld (t ld_path : Z) s : res (sys H) :=
  path ← read_str fuel (vmem (files s)) ld_path;
  '(buf, s) ← read_file path s;
  tk ← task_at s t;
  '(_, (ld_val, _, s)) ← elf_load_program buf 0x40000000 (pagemap tk) None s;
  s ← free_block ld_path s;
  s ← free_block buf s;
  upd_task t (λ tk, set_stack (set_rip (at_entry ld_val) (tstack tk)) tk) s.

(** [stdio] is [None] when one of the three paths is NULL. *)
Definition sched_new_elf_process (path : list Z) (argv envp : list (list Z))
    (stdio : option (list Z * list Z * list Z)) s : res (sys H) :=
  '(t, s) ← task_init 0 s;
  '(elf_buffer, s) ← read_file path s;
  tk ← task_at s t;
  '(rip, (val, ld, s)) ← elf_load_program elf_buffer 0 (pagemap tk) (Some 0) s;
  s ← upd_task t (λ tk, set_stack (set_rip rip (tstack tk)) tk) s;
  s ← (match stdio with Some f => open_stdio t f s | None => Done s end);
  tk ← task_at s t;
  let stack_top := u64 (sp tk + STACK_SIZE + MMAP_IO_BASE) in
  '(stack, r) ← build_stack stack_top (rsp (tstack tk)) argv envp val (ram (space s));
  let s := set_space s (Vmm.set_mem (space s) r (frames (space s))) in
  let skip := u64 (stack_top - stack) in
  s ← upd_task t (λ tk, set_stack (set_rsp (u64 (rsp (tstack tk) - skip)) (tstack tk)) tk) s;
  s ← (match ld with
       | Some p => if p =? 0 then Done s else load_ld t p s
       | None => Done s
       end);
  s ← free_block elf_buffer s;
  c ← sched_push vec_ok t (sch s);
  Done (set_sch s c).
End process.

(** ** The block of arguments, as the process reads it *)

(** A pointer through the I/O window. *)
Definition io (P : Z) : Z := u64 (P + MMAP_IO_BASE).

Definition stack_ok (P : Z) : Prop := 0 ≤ P ≤ 2 ^ 46.

Lemma io_phys P : stack_ok P → phys_of (io P) = P.
Proof.
  intros HP. apply phys_of_io. unfold stack_ok, phys_ok, MMAP_KERNEL_BASE, MMAP_IO_BASE in *. simpl in *. lia.
Qed.

Lemma io_sub P k : u64 (io P - k) = io (P - k).
Proof. unfold io, u64. rewrite Zminus_mod_idemp_l. f_equal. lia. Qed.

Lemma io_add P k : u64 (io P + k) = io (P + k).
Proof. unfold io, u64. rewrite Zplus_mod_idemp_l. f_equal. lia. Qed.

Lemma io_land P : stack_ok P → Z.land (io P) 0xf = P mod 16.
Proof.
  intros HP. change 0xf with (Z.ones 4). rewrite Z.land_ones by lia. unfold io, u64, MMAP_IO_BASE.
  change (2 ^ 64) with (16 * 2 ^ 60). rewrite Z.mod_mod_divide by (by exists (2 ^ 60)).
  change (2 ^ 4) with 16. zlia.
Qed.

(** Memory was written in [P' .. P-1] only. *)
Record grew (P P' : Z) (r r' : mem) : Prop := Grew {
  gr_le : P' ≤ P;
  gr_same x : ¬ (P' ≤ x < P) → r' !! x = r !! x;
  gr_dom : dom_grows r r';
}.

Lemma grew_refl P r : grew P P r r.
Proof. split; [lia|done|done]. Qed.

Lemma grew_trans P P1 P2 r r1 r2 : grew P P1 r r1 → grew P1 P2 r1 r2 → grew P P2 r r2.
Proof.
  intros [H1 S1 D1] [H2 S2 D2]. split; [lia| |by etrans].
  intros x Hx. rewrite S2, S1; [done|lia|lia].
Qed.

Lemma grew_down P P' r : P' ≤ P → grew P P' r r.
Proof. by split. Qed.

(** The words [ws] from address [a] on. *)
Definition words_at (r : mem) (a : Z) (ws : list Z) : Prop :=
  ∀ i w, ws !! i = Some w → load64 r (a + 8 * Z.of_nat i) = Done w.

Lemma words_at_app r a ws ws' :
  words_at r a ws → words_at r (a + 8 * length_z ws) ws' → words_at r a (ws ++ ws').
Proof.
  intros H1 H2 i w Hw. apply lookup_app_Some in Hw as [Hw|[Hi Hw]]; [by apply H1|].
  rewrite <-(H2 _ _ Hw). f_equal. unfold length_z. lia.
Qed.

Lemma words_at_grew P P' r r' a ws : grew P P' r r' → P ≤ a → words_at r a ws → words_at r' a ws.
Proof.
  intros Hg Ha Hw i w Hi. rewrite <-(Hw i w Hi). apply load_le_lookup. intros x Hx.
  apply (gr_same _ _ _ _ Hg). lia.
Qed.

Lemma cstr_grew P P' r r' a str : grew P P' r r' → P ≤ a → cstr r a str → cstr r' a str.
Proof.
  intros Hg Ha [Hc Hb]. split; [done|]. intros i Hi. rewrite (gr_same _ _ _ _ Hg) by lia. by apply Hb.
Qed.

Lemma store64_grew r P v r' : store64 r P v = Done r' → grew (P + 8) P r r'.
Proof.
  intros Hs. split; [lia| |by eapply store_le_dom].
  intros x Hx. eapply store_le_other; [done|]. change (Z.of_nat 8) with 8. lia.
Qed.

Lemma push_word_spec v P r :
  stack_ok P → 8 ≤ P → mapped r (P - 8) 8 → is_u64 v →
  ∃ r', push_word v (io P, r) = Done (io (P - 8), r') ∧ grew P (P - 8) r r' ∧ words_at r' (P - 8) [v].
Proof.
  intros HP H8 Hm Hv. unfold push_word. rewrite io_sub, io_phys by (unfold stack_ok in *; lia).
  destruct (store64_total r (P - 8) v Hm) as [r' Hr]. rewrite Hr. exists r'. split; [done|]. split.
  - apply store64_grew in Hr. by replace (P - 8 + 8) with P in Hr by lia.
  - intros [|i] w Hw; [|done]. injection Hw as <-. rewrite Z.mul_0_r, Z.add_0_r.
    by apply (load_store_64 r).
Qed.

Lemma push_auxv_spec key v P r :
  stack_ok P → 16 ≤ P → mapped r (P - 16) 16 → is_u64 key → is_u64 v →
  ∃ r', push_auxv key v (io P, r) = Done (io (P - 16), r') ∧ grew P (P - 16) r r' ∧
    words_at r' (P - 16) [key; v].
Proof.
  intros HP H16 Hm Hk Hv. unfold push_auxv.
  rewrite io_sub, io_add, !io_phys by (unfold stack_ok in *; lia).
  destruct (store64_total r (P - 16) key) as [r1 H1]; [eapply mapped_mono; [exact Hm|lia..]|].
  pose proof (store64_grew _ _ _ _ H1) as G1. rewrite H1. cbn [mbind res_bind].
  destruct (store64_total r1 (P - 16 + 8) v) as [r2 H2].
  { eapply dom_grows_mapped; [apply G1|]. eapply mapped_mono; [exact Hm|lia..]. }
  rewrite H2. exists r2. split; [done|]. pose proof (store64_grew _ _ _ _ H2) as G2. split.
  - split; [lia| |etrans; [apply G1|apply G2]].
    intros x Hx. rewrite (gr_same _ _ _ _ G2), (gr_same _ _ _ _ G1); [done|lia|lia].
  - intros [|[|i]] w Hw; [| |done]; injection Hw as <-.
    + rewrite Z.mul_0_r, Z.add_0_r, (load_store_64_ne _ _ _ _ _ H2) by lia. by apply (load_store_64 r).
    + by apply (load_store_64 r1).
Qed.

(** Where strings pushed from [sa] down are, and the bytes they take. *)
Fixpoint addrs (sa : Z) (strs : list (list Z)) : list Z :=
  match strs with
  | [] => []
  | str :: strs => sa - (length_z str + 1) :: addrs (sa - (length_z str + 1)) strs
  end.

Fixpoint total (strs : list (list Z)) : Z :=
  match strs with
  | [] => 0
  | str :: strs => length_z str + 1 + total strs
  end.

Lemma total_nonneg strs : 0 ≤ total strs.
Proof. induction strs; simpl; unfold length_z in *; lia. Qed.

Lemma addrs_ge sa strs i a : addrs sa strs !! i = Some a → sa - total strs ≤ a.
Proof.
  revert sa i. induction strs as [|str strs IH]; intros sa [|i]; simpl; try done.
  - intros [= <-]. pose proof (total_nonneg strs). lia.
  - intros Hi%IH. lia.
Qed.

Lemma addrs_le sa strs i a str :
  addrs sa strs !! i = Some a → strs !! i = Some str → a + length_z str + 1 ≤ sa.
Proof.
  revert sa i. induction strs as [|s strs IH]; intros sa [|i]; simpl; try done.
  - intros [= <-] [= ->]. lia.
  - intros Hi Hs. specialize (IH _ _ Hi Hs). unfold length_z in *. lia.
Qed.

Lemma length_addrs sa strs : length (addrs sa strs) = length strs.
Proof. revert sa. induction strs as [|str strs IH]; intros sa; simpl; [done|]. by rewrite IH. Qed.

Lemma addrs_app sa strs strs' : addrs sa (strs ++ strs') = addrs sa strs ++ addrs (sa - total strs) strs'.
Proof.
  revert sa. induction strs as [|str strs IH]; intros sa; simpl.
  - by rewrite Z.sub_0_r.
  - rewrite IH. by replace (sa - (length_z str + 1 + total strs))
      with (sa - (length_z str + 1) - total strs) by lia.
Qed.

Lemma store_bytes_spec l r a :
  mapped r a (length_z l) →
  ∃ r', store_bytes r a l = Done r' ∧ grew (a + length_z l) a r r' ∧
    ∀ i b, l !! i = Some b → r' !! (a + Z.of_nat i) = Some b.
Proof.
  revert r a. induction l as [|b l IH]; intros r a Hm.
  { exists r. split; [done|]. split; [apply grew_down; unfold length_z; simpl; lia|done]. }
  unfold length_z in *. cbn [length store_bytes] in *. rewrite store8_Done by (apply Hm; lia).
  cbn [mbind res_bind]. destruct (IH (<[a := b]> r) (a + 1)) as (r' & -> & [_ Hs Hd] & Hb).
  { apply mapped_insert. eapply mapped_mono; [exact Hm|lia..]. }
  exists r'. split; [done|]. split; [split|].
  - lia.
  - intros x Hx. rewrite Hs, lookup_insert_ne by lia. done.
  - intros x Hx. apply Hd. apply lookup_insert_is_Some'. by right.
  - intros [|i] c Hc.
    + injection Hc as <-. rewrite Z.add_0_r, Hs, lookup_insert_eq by lia. done.
    + rewrite <-(Hb i c Hc). f_equal. lia.
Qed.

Definition chars (str : list Z) : Prop := Forall (λ b, 0 < b < 256) str.

Lemma push_string_spec str P r :
  stack_ok P → length_z str + 1 ≤ P → mapped r (P - (length_z str + 1)) (length_z str + 1) → chars str →
  ∃ r', push_string str (io P, r) = Done (io (P - (length_z str + 1)), r') ∧
    grew P (P - (length_z str + 1)) r r' ∧ cstr r' (P - (length_z str + 1)) str.
Proof.
  intros HP Hl Hm Hc. assert (length_z (str ++ [0]) = length_z str + 1) as Hlen
    by (unfold length_z; rewrite length_app; simpl; lia).
  assert (0 ≤ length_z str) by (unfold length_z; lia).
  unfold push_string. rewrite io_sub, io_phys by (unfold stack_ok in *; lia).
  destruct (store_bytes_spec (str ++ [0]) r (P - (length_z str + 1))) as (r' & -> & Hg & Hb);
    [by rewrite Hlen|].
  exists r'. split; [done|]. rewrite Hlen in Hg. split.
  - by replace (P - (length_z str + 1) + (length_z str + 1)) with P in Hg by lia.
  - split; [done|]. intros i Hi. rewrite <-(Z2Nat.id i) at 1 by lia. apply Hb.
    unfold length_z in *. destruct (decide (i = Z.of_nat (length str))) as [->|].
    + rewrite Nat2Z.id, lookup_app_r, Nat.sub_diag by lia. by rewrite char_at_end.
    + rewrite lookup_app_l by lia. unfold char_at. rewrite lookup_z_nat by lia.
      destruct (lookup_lt_is_Some_2 str (Z.to_nat i)) as [b Hi']; [lia|]. by rewrite Hi'.
Qed.

Lemma push_strings_spec strs P r :
  stack_ok P → total strs ≤ P → mapped r (P - total strs) (total strs) → Forall chars strs →
  ∃ r', push_strings strs (io P, r) = Done (io (P - total strs), r') ∧ grew P (P - total strs) r r' ∧
    ∀ i a str, addrs P strs !! i = Some a → strs !! i = Some str → cstr r' a str.
Proof.
  revert P r. induction strs as [|str strs IH]; intros P r HP Ht Hm Hc.
  { exists r. cbn [push_strings total]. rewrite Z.sub_0_r. split; [done|]. split; [apply grew_refl|done]. }
  cbn [total push_strings addrs] in *. apply Forall_cons_1 in Hc as [Hc1 Hc].
  pose proof (total_nonneg strs). assert (0 ≤ length_z str) by (unfold length_z; lia).
  destruct (push_string_spec str P r) as (r1 & -> & Hg1 & Hs1);
    [done|lia|eapply mapped_mono; [exact Hm|lia..]|done|].
  cbn [mbind res_bind]. destruct (IH (P - (length_z str + 1)) r1) as (r2 & Hr2 & Hg2 & Hs2); [|lia| |done|].
  { unfold stack_ok in *. lia. }
  { eapply dom_grows_mapped; [apply Hg1|]. eapply mapped_mono; [exact Hm|lia..]. }
  replace (P - (length_z str + 1 + total strs)) with (P - (length_z str + 1) - total strs) by lia.
  exists r2. split; [done|]. split; [by eapply grew_trans|].
  intros [|i] a s Ha Hs; [|by eapply Hs2].
  injection Ha as <-. injection Hs as <-. by eapply cstr_grew.
Qed.

Lemma store_pointers_spec strs A sa r :
  0 ≤ A → A + 8 * length_z strs ≤ 2 ^ 46 → mapped r A (8 * length_z strs) →
  total strs ≤ sa < 2 ^ 64 →
  ∃ r', store_pointers strs (io A) sa r = Done (sa - total strs, r') ∧
    grew (A + 8 * length_z strs) A r r' ∧ words_at r' A (addrs sa strs).
Proof.
  revert A sa r. induction strs as [|str strs IH]; intros A sa r HA Htop Hm Hsa.
  { exists r. cbn [store_pointers total]. rewrite Z.sub_0_r. split; [done|].
    split; [apply grew_down; unfold length_z; simpl; lia|done]. }
  assert (length_z (str :: strs) = length_z strs + 1) as Hlen by (unfold length_z; simpl; lia).
  assert (0 ≤ length_z str ∧ 0 ≤ length_z strs) as [Hl0 Hl1] by (unfold length_z; lia).
  pose proof (total_nonneg strs). rewrite Hlen in *. cbn [total store_pointers addrs] in *.
  rewrite io_phys, io_add, (u64_id (sa - _)) by (unfold stack_ok in *; simpl in *; lia).
  destruct (store64_total r A (sa - (length_z str + 1))) as [r1 H1]; [eapply mapped_mono; [exact Hm|lia..]|].
  rewrite H1. cbn [mbind res_bind]. pose proof (store64_grew _ _ _ _ H1) as G1.
  destruct (IH (A + 8) (sa - (length_z str + 1)) r1) as (r2 & -> & G2 & W2); [lia|lia| |lia|].
  { eapply dom_grows_mapped; [apply G1|]. eapply mapped_mono; [exact Hm|lia..]. }
  exists r2. split; [f_equal; f_equal; lia|].
  split; [split|].
  - lia.
  - intros x Hx. rewrite (gr_same _ _ _ _ G2), (gr_same _ _ _ _ G1); [done|lia|lia].
  - etrans; [apply G1|apply G2].
  - intros [|i] w Hw.
    + injection Hw as <-. rewrite Z.mul_0_r, Z.add_0_r.
      rewrite <-(load_store_64 r A (sa - (length_z str + 1)) r1) by (simpl in *; lia || done).
      apply load_le_lookup. intros x Hx. apply (gr_same _ _ _ _ G2).
      change (Z.of_nat 8) with 8 in Hx. lia.
    + rewrite <-(W2 i w Hw). f_equal. lia.
Qed.

Lemma push_pointers_spec strs sa P r :
  let n := 8 * (length_z strs + 1) in
  stack_ok P → n ≤ P → mapped r (P - n) n → total strs ≤ sa < 2 ^ 64 →
  ∃ r', push_pointers strs sa (io P, r) = Done (sa - total strs, (io (P - n), r')) ∧
    grew P (P - n) r r' ∧ words_at r' (P - n) (addrs sa strs ++ [0]).
Proof.
  intros n HP Hn Hm Hsa. assert (0 ≤ length_z strs) by (unfold length_z; lia). subst n.
  unfold push_pointers.
  destruct (push_word_spec 0 P r) as (r1 & -> & G1 & W1);
    [done|lia|eapply mapped_mono; [exact Hm|lia..]|simpl; lia|].
  cbn [mbind res_bind]. rewrite io_sub.
  replace (P - 8 - 8 * length_z strs) with (P - 8 * (length_z strs + 1)) by lia.
  set (A := P - 8 * (length_z strs + 1)) in *.
  destruct (store_pointers_spec strs A sa r1) as (r2 & -> & G2 & W2);
    [lia|unfold stack_ok in *; lia| |done|].
  { eapply dom_grows_mapped; [apply G1|]. eapply mapped_mono; [exact Hm|lia..]. }
  cbn [mbind res_bind]. exists r2. split; [done|]. replace (A + 8 * length_z strs) with (P - 8) in G2 by lia.
  split; [by eapply grew_trans|]. apply words_at_app; [done|].
  replace (A + 8 * length_z (addrs sa strs)) with (P - 8) by (unfold length_z in *; rewrite length_addrs; lia).
  eapply words_at_grew; [exact G2|lia|done].
Qed.

Lemma addrs_shift sa d strs i a :
  addrs (sa + d) strs !! i = Some a → addrs sa strs !! i = Some (a - d).
Proof.
  revert sa i. induction strs as [|str strs IH]; intros sa [|i]; simpl; try done.
  - intros [= <-]. f_equal. lia.
  - intros Hi. apply IH. by replace (sa - (length_z str + 1) + d) with (sa + d - (length_z str + 1)) by lia.
Qed.

Lemma grew_mapped P P' r r' a n b k :
  grew P P' r r' → mapped r a n → a ≤ b → b + k ≤ a + n → mapped r' b k.
Proof. intros Hg Hm ??. eapply dom_grows_mapped; [apply Hg|]. by eapply mapped_mono. Qed.

Definition auxv_words (val : Auxval) : list Z :=
  [AT_PHNUM; at_phnum val; AT_PHENT; at_phent val; AT_PHDR; at_phdr val; AT_ENTRY; at_entry val; 0; 0].

Definition auxv_ok (val : Auxval) : Prop :=
  is_u64 (at_entry val) ∧ is_u64 (at_phdr val) ∧ is_u64 (at_phent val) ∧ is_u64 (at_phnum val).

(** Words pushed from [T] down to [P], the last one first; all of it above [lo]. *)
Section pushed.
Context (lo T : Z) (r0 : mem) (Hlo : 0 ≤ lo) (HT : T ≤ 2 ^ 46) (Hmap : mapped r0 lo (T - lo)).

Record pushed (ws : list Z) (P : Z) (r : mem) : Prop := Pushed {
  pu_grew : grew T P r0 r;
  pu_words : words_at r P ws;
  pu_end : T = P + 8 * length_z ws;
}.

Lemma pushed_nil : pushed [] T r0.
Proof. split; [apply grew_refl|by intros [|]|unfold length_z; simpl; lia]. Qed.

Lemma pushed_app ws ws' P P' r r' :
  pushed ws P r → grew P P' r r' → words_at r' P' ws' → P = P' + 8 * length_z ws' →
  pushed (ws' ++ ws) P' r'.
Proof.
  intros [Hg Hw He] Hg' Hw' He'. split.
  - by eapply grew_trans.
  - apply words_at_app; [done|]. rewrite <-He'. by eapply words_at_grew.
  - unfold length_z in *. rewrite length_app. lia.
Qed.

(** Room to push [k] bytes more. *)
Lemma pushed_room ws P r k :
  pushed ws P r → 0 ≤ k → lo ≤ P - k → stack_ok P ∧ k ≤ P ∧ mapped r (P - k) k.
Proof.
  intros [Hg _ He] Hk Hr. pose proof (gr_le _ _ _ _ Hg). unfold stack_ok. split; [lia|]. split; [lia|].
  eapply grew_mapped; [exact Hg|exact Hmap|lia..].
Qed.

Lemma push_word_step v ws P r :
  pushed ws P r → lo ≤ P - 8 → is_u64 v →
  ∃ r', push_word v (io P, r) = Done (io (P - 8), r') ∧ pushed (v :: ws) (P - 8) r'.
Proof.
  intros Hp Hr Hv. destruct (pushed_room _ _ _ 8 Hp) as (H1 & H2 & H3); [lia|done|].
  destruct (push_word_spec v P r) as (r' & -> & G & W); try done.
  exists r'. split; [done|]. apply (pushed_app ws [v] P _ r); (done || unfold length_z; simpl; lia).
Qed.

Lemma push_auxv_step key v ws P r :
  pushed ws P r → lo ≤ P - 16 → is_u64 key → is_u64 v →
  ∃ r', push_auxv key v (io P, r) = Done (io (P - 16), r') ∧ pushed (key :: v :: ws) (P - 16) r'.
Proof.
  intros Hp Hr Hk Hv. destruct (pushed_room _ _ _ 16 Hp) as (H1 & H2 & H3); [lia|done|].
  destruct (push_auxv_spec key v P r) as (r' & -> & G & W); try done.
  exists r'. split; [done|]. apply (pushed_app ws [key; v] P _ r); (done || unfold length_z; simpl; lia).
Qed.

Lemma push_pointers_step strs sa ws P r :
  let n := 8 * (length_z strs + 1) in
  pushed ws P r → lo ≤ P - n → total strs ≤ sa < 2 ^ 64 →
  ∃ r', push_pointers strs sa (io P, r) = Done (sa - total strs, (io (P - n), r')) ∧
    pushed (addrs sa strs ++ 0 :: ws) (P - n) r'.
Proof.
  intros n Hp Hr Hsa. assert (0 ≤ length_z strs) by (unfold length_z; lia).
  destruct (pushed_room _ _ _ n Hp) as (H1 & H2 & H3); [lia|done|].
  destruct (push_pointers_spec strs sa P r) as (r' & -> & G & W); try done.
  exists r'. split; [done|]. rewrite (app_assoc _ [0] ws).
  apply (pushed_app ws _ P _ r); try done.
  unfold length_z in *. rewrite length_app, length_addrs. simpl. lia.
Qed.

(** Everything below the strings. *)
Lemma push_words_spec argv envp val rsp :
  let n := 8 * (length_z argv + length_z envp) + 104 in
  lo ≤ T - n → auxv_ok val → total envp + total argv ≤ rsp < 2 ^ 64 → length_z argv < 2 ^ 64 →
  ∃ r', (st ← push_word 0 (io T, r0); st ← push_word 0 st;
         st ← push_auxv AT_ENTRY (at_entry val) st; st ← push_auxv AT_PHDR (at_phdr val) st;
         st ← push_auxv AT_PHENT (at_phent val) st; st ← push_auxv AT_PHNUM (at_phnum val) st;
         '(sa, st) ← push_pointers envp rsp st; '(_, st) ← push_pointers argv sa st;
         push_word (length_z argv) st) = Done (io (T - n), r') ∧
    pushed (length_z argv :: addrs (rsp - total envp) argv ++ 0 :: addrs rsp envp ++ 0 :: auxv_words val)
      (T - n) r'.
Proof.
  intros n Hn (He & Hp & Ht & Hc) Hrsp Hargc. subst n.
  pose proof (total_nonneg envp). pose proof (total_nonneg argv).
  assert (0 ≤ length_z argv ∧ 0 ≤ length_z envp) as [Ha0 He0] by (unfold length_z; lia).
  destruct (push_word_step 0 _ _ _ pushed_nil) as (r1 & -> & P1); [lia|simpl; lia|].
  cbn [mbind res_bind].
  destruct (push_word_step 0 _ _ _ P1) as (r2 & -> & P2); [lia|simpl; lia|]. cbn [mbind res_bind].
  destruct (push_auxv_step AT_ENTRY (at_entry val) _ _ _ P2) as (r3 & -> & P3); [lia|by (split; vm_compute)|done|].
  cbn [mbind res_bind].
  destruct (push_auxv_step AT_PHDR (at_phdr val) _ _ _ P3) as (r4 & -> & P4); [lia|by (split; vm_compute)|done|].
  cbn [mbind res_bind].
  destruct (push_auxv_step AT_PHENT (at_phent val) _ _ _ P4) as (r5 & -> & P5); [lia|by (split; vm_compute)|done|].
  cbn [mbind res_bind].
  destruct (push_auxv_step AT_PHNUM (at_phnum val) _ _ _ P5) as (r6 & -> & P6); [lia|by (split; vm_compute)|done|].
  cbn [mbind res_bind].
  destruct (push_pointers_step envp rsp _ _ _ P6) as (r7 & -> & P7); [lia|lia|]. cbn [mbind res_bind].
  destruct (push_pointers_step argv (rsp - total envp) _ _ _ P7) as (r8 & -> & P8); [lia| |].
  { lia. }
  cbn [mbind res_bind].
  destruct (push_word_step (length_z argv) _ _ _ P8) as (r9 & -> & P9); [lia|done|].
  exists r9. match goal with |- Done (io ?a, _) = Done (io ?b, _) ∧ _ => replace b with a by lia end.
  done.
Qed.
End pushed.

(** The bytes [build_stack] needs, at most. *)
Definition stack_need (argv envp : list (list Z)) : Z :=
  total envp + total argv + 8 * (length_z argv + length_z envp) + 127.

Lemma build_stack_spec (r : mem) (top rsp size : Z) (argv envp : list (list Z)) (val : Auxval) :
  0 ≤ size ≤ top ∧ top ≤ 2 ^ 46 → mapped r (top - size) size →
  stack_need argv envp ≤ size → Forall chars (envp ++ argv) → auxv_ok val → size ≤ rsp < 2 ^ 64 →
  ∃ P r', build_stack (io top) rsp argv envp val r = Done (io P, r') ∧
    top - stack_need argv envp ≤ P ∧ P mod 16 = 0 ∧ grew top P r r' ∧
    words_at r' P (length_z argv :: addrs (rsp - total envp) argv ++ 0 :: addrs rsp envp ++ 0 :: auxv_words val) ∧
    P + 8 * (length_z argv + length_z envp) + 104 + total envp + total argv ≤ top ∧
    ∀ i a str, addrs rsp (envp ++ argv) !! i = Some a → (envp ++ argv) !! i = Some str →
      cstr r' (top - (rsp - a)) str.
Proof.
  intros Htop Hmap Hfit Hchars Hval Hrsp.
  unfold stack_need in *. pose proof (total_nonneg envp). pose proof (total_nonneg argv).
  assert (0 ≤ length_z argv ∧ 0 ≤ length_z envp) as [Ha0 He0] by (unfold length_z; lia).
  apply Forall_app in Hchars as [Hce Hca]. unfold build_stack.
  destruct (push_strings_spec envp top r) as (r1 & -> & G1 & S1);
    [unfold stack_ok; lia|lia|eapply mapped_mono; [exact Hmap|lia..]|done|]. cbn [mbind res_bind].
  destruct (push_strings_spec argv (top - total envp) r1) as (r2 & -> & G2 & S2);
    [unfold stack_ok; lia|lia|eapply grew_mapped; [exact G1|exact Hmap|lia..]|done|].
  cbn [mbind res_bind]. set (Q := top - total envp - total argv) in *.
  assert (Q = top - total envp - total argv) as HQ by done. clearbody Q.
  rewrite io_land, io_sub by (unfold stack_ok; lia).
  set (odd := negb (Z.land (length_z argv + length_z envp + 1) 1 =? 0)).
  pose proof (Z.mod_pos_bound Q 16 ltac:(lia)).
  assert ((if odd then u64 (io (Q - Q mod 16) - 8) else io (Q - Q mod 16)) =
          io (Q - Q mod 16 - (if odd then 8 else 0))) as ->.
  { destruct odd; [by rewrite io_sub|by rewrite Z.sub_0_r]. }
  set (T := Q - Q mod 16 - (if odd then 8 else 0)) in *.
  assert (T = Q - Q mod 16 - (if odd then 8 else 0)) as HTe by done. clearbody T.
  assert (Q - 23 ≤ T ≤ Q) as HT by (subst T; destruct odd; lia).
  assert (mapped r2 (top - size) (T - (top - size))) as Hm2.
  { eapply (grew_mapped top Q r r2 (top - size) size); [by eapply grew_trans|exact Hmap|lia..]. }
  destruct (push_words_spec (top - size) T r2 ltac:(lia) ltac:(lia) Hm2 argv envp val rsp)
    as (r3 & -> & [G3 W3 _]); [lia|done|lia|simpl in *; lia|].
  exists (T - (8 * (length_z argv + length_z envp) + 104)), r3.
  pose proof (grew_trans _ _ _ _ _ _ (grew_trans _ _ _ _ _ _ G2 (grew_down Q T r2 ltac:(lia))) G3) as G23.
  split_and!; [done|lia| |by eapply grew_trans|done|lia|].
  - assert (odd = bool_decide ((length_z argv + length_z envp + 1) mod 2 = 1)) as Hodd.
    { subst odd. change 1 with (Z.ones 1) at 2. rewrite Z.land_ones by lia. change (2 ^ 1) with 2.
      case_bool_decide as Hd; [by rewrite Hd|]. replace (_ mod 2) with 0 by zlia. done. }
    subst T. rewrite Hodd. case_bool_decide; zlia.
  - intros i a str Ha Hs. replace rsp with (top + (rsp - top)) in Ha by lia.
    apply addrs_shift in Ha. rewrite addrs_app in Ha. replace (top - (rsp - a)) with (a - (rsp - top)) by lia.
    apply lookup_app_Some in Hs as [Hs|[Hi Hs]].
    + rewrite lookup_app_l in Ha by (rewrite length_addrs; by eapply lookup_lt_Some).
      eapply (cstr_grew _ _ r1); [by eapply grew_trans| |by eapply S1].
      by apply addrs_ge in Ha.
    + rewrite lookup_app_r, length_addrs in Ha by (by rewrite length_addrs).
      eapply (cstr_grew _ _ r2); [exact G3| |by eapply S2].
      apply addrs_ge in Ha. lia.
Qed.

(** C9: the arguments of a new process. [build_stack] leaves at the top of
    the stack what a C runtime expects: at the final pointer, 16-byte aligned, the
    number of arguments, the addresses of the arguments and a null word, those of
    the environment and a null word, and the auxiliary values with their end mark;
    and each address is, in the process's numbering, that of the string itself.
    Nothing outside that block is written. *)
Theorem build_stack_layout (r : mem) (top rsp size : Z) (argv envp : list (list Z)) (val : Auxval)
    (Htop : 0 ≤ size ≤ top ∧ top ≤ 2 ^ 46) (Hmap : mapped r (top - size) size)
    (Hfit : stack_need argv envp ≤ size) (Hchars : Forall chars (envp ++ argv))
    (Hval : auxv_ok val) (Hrsp : size ≤ rsp < 2 ^ 64) :
  ∃ P r', build_stack (io top) rsp argv envp val r = Done (io P, r') ∧
    top - stack_need argv envp ≤ P ∧ P mod 16 = 0 ∧ grew top P r r' ∧
    words_at r' P (length_z argv :: addrs (rsp - total envp) argv ++ 0 :: addrs rsp envp ++ 0 :: auxv_words val) ∧
    ∀ i a str, addrs rsp (envp ++ argv) !! i = Some a → (envp ++ argv) !! i = Some str →
      cstr r' (top - (rsp - a)) str.
Proof.
  destruct (build_stack_spec r top rsp size argv envp val) as (P & r' & ?&?&?&?&?&_&?); [done..|].
  by exists P, r'.
Qed.

(** ** The new address space *)

Section half.
Context (m m' : mem) (s s' : pmm) (K N : Z)
  (Hok : pt_ok m s K)
  (Hsame : ∀ a, in_table m K a → m' !! a = m !! a) (Hdom : dom_grows m m')
  (Huse : ∀ f, in_use s f → in_use s' f)
  (HN : N mod PAGE_SIZE = 0 ∧ 0 < N ∧ N + PAGE_SIZE ≤ 2 ^ 46 ∧ mapped m' N PAGE_SIZE)
  (Hfresh : ¬ in_use s (N / PAGE_SIZE)) (Hown : in_use s' (N / PAGE_SIZE))
  (Hlow : ∀ i, 0 ≤ i < 256 → load64 m' (N + 8 * i) = Done 0)
  (Hhigh : ∀ i, 256 ≤ i < 512 → load64 m' (N + 8 * i) = load64 m (K + 8 * i)).

(** The tables of the new root: its own half empty, the kernel's half shared. *)
Lemma half_next i : idx_ok i → next m' N i = if 256 <=? i then next m K i else None.
Proof.
  intros [Hi0 Hi]. unfold next, entry. destruct (Z.leb_spec 256 i).
  - by rewrite Hhigh by lia.
  - by rewrite Hlow by lia.
Qed.

Lemma half_kernel_next i : idx_ok i → next m' K i = next m K i.
Proof. intros Hi. apply next_lookup. eapply (alloc_load m s K m' Hok Hsame []); [apply is_path_nil|done|done]. Qed.

Lemma half_table_at i q :
  is_path 3 (i :: q) → table_at m' N (i :: q) = if 256 <=? i then table_at m K (i :: q) else None.
Proof.
  intros Hq. assert (idx_ok i) as Hi by (destruct Hq as [_ Hq]; by apply Forall_cons_1 in Hq as [Hi _]).
  transitivity (if 256 <=? i then table_at m' K (i :: q) else None).
  - cbn [table_at]. rewrite half_next, half_kernel_next by done. by destruct (256 <=? i).
  - destruct (256 <=? i); [|done]. by eapply (alloc_table_at m s K m' Hok Hsame).
Qed.

Lemma half_pt_ok : pt_ok m' s' N.
Proof.
  destruct HN as (Ha & H0 & Hb & Hm). split.
  - intros [|i q] f Hq; [intros [= <-]; done|]. rewrite half_table_at by done.
    destruct (256 <=? i); [|done]. intros Hf. destruct (pt_frames _ _ _ Hok _ _ Hq Hf) as (?&?&?&?&?).
    split_and!; try done; [by eapply dom_grows_mapped|by apply Huse].
  - assert (∀ i q, is_path 3 (i :: q) → table_at m' N (i :: q) ≠ Some N) as Hne.
    { intros i q Hq. rewrite half_table_at by done. destruct (256 <=? i); [|done]. intros Hf.
      apply Hfresh. by eapply pt_frames. }
    intros [|i q] [|i' q'] f Hq Hq' Hf Hf'; try done.
    + exfalso. injection Hf as <-. by eapply Hne.
    + exfalso. injection Hf' as <-. by eapply Hne.
    + rewrite half_table_at in Hf, Hf' by done. destruct (256 <=? i), (256 <=? i'); try done.
      by eapply pt_inj.
  - intros [|i q] f j e Hq Hj.
    + intros [= <-] He Hp. destruct (decide (256 ≤ j)) as [Hj'|Hj'].
      * rewrite Hhigh in He by (unfold idx_ok in Hj; lia).
        by apply (pt_entries _ _ _ Hok [] K j e).
      * rewrite Hlow in He by (unfold idx_ok in Hj; lia). by injection He as <-.
    + assert (is_path 3 (i :: q)) as Hq3 by (eapply is_path_le; [done|lia]).
      rewrite half_table_at by done. destruct (256 <=? i); [|done]. intros Hf.
      rewrite (alloc_load m s K m' Hok Hsame (i :: q)) by done. by apply (pt_entries _ _ _ Hok (i :: q)).
Qed.

Lemma half_translate va :
  translate m' N va = if 256 <=? PML_ENTRY va 39 then translate m K va else None.
Proof.
  unfold translate, Vmm.walk. pose proof (va_path_ok va) as Hp.
  rewrite (half_table_at _ _ Hp).
  destruct (256 <=? PML_ENTRY va 39); [|done].
  destruct (table_at m K [PML_ENTRY va 39; PML_ENTRY va 30; PML_ENTRY va 21]) as [t|] eqn:Ht; cbn [mbind option_bind]; [|done].
  apply entry_lookup. eapply (alloc_load m s K m' Hok Hsame); [exact Hp|exact Ht|apply PML_ENTRY_ok; lia].
Qed.

Lemma half_in_table a : in_table m' N a → in_table m K a ∨ N ≤ a < N + PAGE_SIZE.
Proof.
  intros ([|i q] & f & Hq & Hf & Ha).
  - injection Hf as <-. by right.
  - left. rewrite half_table_at in Hf by done. destruct (256 <=? i); [|done]. by exists (i :: q), f.
Qed.
End half.

Lemma copy_half_spec (r : mem) prev new K N :
  Vmm.points_to prev K → Vmm.points_to new N → mapped r K PAGE_SIZE → mapped r N PAGE_SIZE →
  bytes_ok r → K + PAGE_SIZE ≤ N ∨ N + PAGE_SIZE ≤ K →
  ∃ r', copy_half prev new r = Done r' ∧ dom_grows r r' ∧
    (∀ a, ¬ (N + 2048 ≤ a < N + PAGE_SIZE) → r' !! a = r !! a) ∧
    ∀ i, 256 ≤ i < 512 → load64 r' (N + 8 * i) = load64 r (K + 8 * i).
Proof.
  intros Hp Hn HK HN Hby Hd. unfold copy_half, PAGE_SIZE in *.
  destruct (for_loop_inv (λ k r', dom_grows r r' ∧
      (∀ a, ¬ (N + 2048 ≤ a < N + 8 * k) → r' !! a = r !! a) ∧
      ∀ i, 256 ≤ i < k → load64 r' (N + 8 * i) = load64 r (K + 8 * i)) 256 256
    (λ i r, e ← load64 r (slot prev i); store64 r (slot new i) e) r)
    as (r' & Hr & Hdom & Hs & Hw).
  - split_and!; [done|done|lia].
  - intros k r1 Hk (Hdom & Hs & Hw). rewrite Hp, Hn by (unfold idx_ok; lia).
    assert (load64 r1 (K + 8 * k) = load64 r (K + 8 * k)) as ->.
    { apply load_le_lookup. intros a Ha. change (Z.of_nat 8) with 8 in Ha. apply Hs. lia. }
    destruct (load64_total r (K + 8 * k)) as [e He]; [eapply mapped_mono; [exact HK|lia..]|].
    assert (is_u64 e) as Heu by (by eapply load64_u64).
    destruct (store64_total r1 (N + 8 * k) e) as [r2 H2].
    { eapply dom_grows_mapped; [exact Hdom|]. eapply mapped_mono; [exact HN|lia..]. }
    rewrite He. cbn [mbind res_bind]. exists r2. split; [done|]. split_and!.
    + etrans; [exact Hdom|]. by eapply store_le_dom.
    + intros a Ha. rewrite (store_le_other _ _ _ _ _ _ H2); [apply Hs; lia|].
      change (Z.of_nat 8) with 8. lia.
    + intros i Hi. destruct (decide (i = k)) as [->|].
      * rewrite He. by apply (load_store_64 r1).
      * rewrite (load_store_64_ne _ _ _ _ _ H2) by lia. apply Hw. lia.
  - exists r'. split_and!; [done|done|intros a Ha; apply Hs; lia|intros i Hi; apply Hw; lia].
Qed.

(** The lowest address of the stack. *)
Definition stack_bottom : Z := USER_STACK_TOP - STACK_SIZE.

Lemma pml4_vpn va : PML_ENTRY va 39 = vpn va / 2 ^ 27.
Proof.
  rewrite PML_ENTRY_div by lia. unfold vpn. change (2 ^ 39) with (2 ^ 12 * 2 ^ 27).
  rewrite <-Z.div_div by lia. set (x := va / 2 ^ 12). change (2 ^ 27) with 134217728.
  change (2 ^ 36) with 68719476736. zlia.
Qed.

(** After the two allocations and the copy: the new root and the stack's frames. *)
Record root_made K N F (k : nat) (st st' : vmm pmm) : Prop := RootMade {
  ro_ok : vm_ok st' N;
  ro_root : 0 < N ∧ N + PAGE_SIZE ≤ 2 ^ 31;
  ro_translate va :
    translate (ram st') N va = if 256 <=? PML_ENTRY va 39 then translate (ram st) K va else None;
  ro_frames : F mod PAGE_SIZE = 0 ∧ 0 < F ∧ F + STACK_SIZE ≤ 2 ^ 46;
  ro_stack a : F ≤ a < F + STACK_SIZE →
    in_use (frames st') (a / PAGE_SIZE) ∧ ¬ in_table (ram st') N a ∧ ram st' !! a = Some 0;
  ro_tidy : tidy (frames st') ∧ bitmap_size (frames st') = bitmap_size (frames st);
  ro_left : available k (ram st') (frames st');
}.

(** A run from a tidy memory of at most 128 MiB, which the kernel window reaches. *)
Lemma take_run (st : vmm pmm) K n k :
  vm_ok st K → tidy (frames st) → available (Z.to_nat n + k) (ram st) (frames st) →
  1 ≤ n ≤ bitmap_size (frames st) → highest_page (frames st) ≤ 0x8000000 →
  ∃ f r s, pmm_allocate_zero (ram st) (frames st) n = Done (f * PAGE_SIZE, (r, s)) ∧
    run_taken (ram st) (frames st) f n r s ∧ fresh_run K f n st (Vmm.set_mem st r s) ∧
    tidy s ∧ available k r s ∧ same_frame (frames st) s ∧ 0 < f ∧ (f + n) * PAGE_SIZE ≤ 0x8000000.
Proof.
  intros Hvm Htidy Hav Hn Hhigh.
  destruct (tidy_run (ram st) (frames st) (Z.to_nat n)) as (f & nf & _ & _ & _ & Hff & Hrun);
    [done|eapply available_le; [exact Hav|lia]|lia|]. rewrite Z2Nat.id in Hrun by lia.
  destruct (pmm_allocate_zero_run (ram st) (frames st) f n) as (r & s & Hr & Hrt);
    [apply Hvm|eapply (available_le 1); [exact Hav|lia]|lia|done|done|].
  exists f, r, s. pose proof (rt_range _ _ _ _ _ _ Hrt) as [Hf0 _].
  pose proof (rt_top _ _ _ _ _ _ Hrt). split_and!; try done; [by apply fresh_run_taken|..|lia].
  - eapply tidy_run_taken; (done || lia).
  - by apply (rt_left _ _ _ _ _ _ Hrt).
  - apply (rt_same _ _ _ _ _ _ Hrt).
Qed.

(** The kernel's half of [K], copied into the cleared page [N]. *)
Lemma half_copied (r1 : mem) (s1 : pmm) (r2 : mem) prev K N :
  pt_ok r1 s1 K → Vmm.points_to prev K → N mod PAGE_SIZE = 0 ∧ 0 < N ∧ N + PAGE_SIZE ≤ 0x8000000 →
  bytes_ok r2 → dom_grows r1 r2 → ¬ in_use s1 (N / PAGE_SIZE) →
  (∀ a, N ≤ a < N + PAGE_SIZE → r2 !! a = Some 0) →
  (∀ a, in_use s1 (a / PAGE_SIZE) → r2 !! a = r1 !! a ∧ ¬ (N ≤ a < N + PAGE_SIZE)) →
  ∃ r3, copy_half prev (u64 (N + MMAP_KERNEL_BASE)) r2 = Done r3 ∧ dom_grows r2 r3 ∧
    mapped r3 N PAGE_SIZE ∧ (∀ a, ¬ (N ≤ a < N + PAGE_SIZE) → r3 !! a = r2 !! a) ∧
    (∀ a, in_table r1 K a → r3 !! a = r1 !! a) ∧
    (∀ i, 0 ≤ i < 256 → load64 r3 (N + 8 * i) = Done 0) ∧
    ∀ i, 256 ≤ i < 512 → load64 r3 (N + 8 * i) = load64 r1 (K + 8 * i).
Proof.
  intros Hok1 Hprev (HNa & HN0 & HNb) Hby Hdom Hfresh Hz2 Hold.
  destruct (pt_frames _ _ _ Hok1 [] K ltac:(apply is_path_nil) eq_refl) as (HKa & HK0 & HKb & HKm & HKu).
  destruct (copy_half_spec r2 prev (u64 (N + MMAP_KERNEL_BASE)) K N) as (r3 & Hcp & Hdom3 & Hs3 & Hhigh3);
    [done|apply points_to_kernel; unfold PAGE_SIZE in *; simpl in *; lia|by eapply dom_grows_mapped| |done| |].
  { intros a Ha. exists 0. by apply Hz2. }
  { destruct (decide (K = N)) as [->|]; [done|]. unfold PAGE_SIZE in *. zlia. }
  exists r3. split_and!; [done|done|intros a Ha; apply Hdom3; exists 0; by apply Hz2|intros a Ha; apply Hs3; lia|..].
  - intros a Ha. apply in_table_use with (s := s1) in Ha; [|done]. destruct (Hold a Ha) as [<- Hn]. apply Hs3. lia.
  - intros i Hi. apply load_le_zero. intros a Ha. change (Z.of_nat 8) with 8 in Ha.
    rewrite Hs3 by lia. apply Hz2. unfold PAGE_SIZE. lia.
  - intros i Hi. rewrite Hhigh3 by done. apply load_le_lookup. intros a Ha. change (Z.of_nat 8) with 8 in Ha.
    apply Hold. replace (a / PAGE_SIZE) with (K / PAGE_SIZE); [done|]. unfold PAGE_SIZE in *. zlia.
Qed.

Lemma root_spec (st : vmm pmm) K prev k :
  vm_ok st K → Vmm.points_to prev K → tidy (frames st) → available (5 + k) (ram st) (frames st) →
  bytes_ok (ram st) → 4 ≤ bitmap_size (frames st) → highest_page (frames st) ≤ 0x8000000 →
  ∃ F r1 s1 N r2 s2 r3, pmm_allocate_zero (ram st) (frames st) 4 = Done (F, (r1, s1)) ∧
    pmm_allocate_zero r1 s1 1 = Done (N, (r2, s2)) ∧
    copy_half prev (u64 (N + MMAP_KERNEL_BASE)) r2 = Done r3 ∧
    root_made K N F k st (Vmm.set_mem st r3 s2).
Proof.
  intros Hvm Hprev Htidy Hav Hby Hsz Hhigh.
  destruct (take_run st K 4 (1 + k)) as (f & r1 & s1 & H1 & Hrt1 & Hfr1 & Ht1 & Hav1 & Hsf1 & Hf0 & Hftop);
    [done|done|done|lia|done|]. pose proof Hsf1 as (Hh1 & _ & Hb1).
  destruct (take_run (Vmm.set_mem st r1 s1) K 1 k)
    as (g & r2 & s2 & H2 & Hrt2 & Hfr2 & Ht2 & Hav2 & Hsf2 & Hg0 & Hgtop);
    [apply Hfr1|done|done|cbn; lia|cbn; lia|]. pose proof Hsf2 as (_ & _ & Hb2).
  cbn [ram frames Vmm.set_mem] in *. pose proof (fr_ok _ _ _ _ _ Hfr1) as [Hok1 Hinv1 Hlk].
  cbn [ram frames vlock Vmm.set_mem] in Hok1, Hinv1, Hlk.
  set (N := g * PAGE_SIZE) in *. assert (N = g * PAGE_SIZE) as HN by done.
  assert (bytes_ok r2) as Hby2 by (eapply bytes_ok_zeros; [|apply Hrt2]; eapply bytes_ok_zeros; [|apply Hrt1]; done).
  assert (∀ a, N ≤ a < N + PAGE_SIZE → r2 !! a = Some 0) as Hz2.
  { intros a Ha. apply (overwritten_in _ _ _ _ _ _ (rt_zero _ _ _ _ _ _ Hrt2)). unfold PAGE_SIZE in *. lia. }
  assert (¬ in_use s1 (N / PAGE_SIZE)) as Hfresh.
  { subst N. rewrite Z.div_mul by done. apply (rt_fresh _ _ _ _ _ _ Hrt2). lia. }
  assert (∀ a, in_use s1 (a / PAGE_SIZE) → r2 !! a = r1 !! a ∧ ¬ (N ≤ a < N + PAGE_SIZE)) as Hold.
  { intros a Ha. split; [by apply (fr_data _ _ _ _ _ Hfr2)|]. intros Hin.
    apply (fr_new _ _ _ _ _ Hfr2 a Ha). unfold PAGE_SIZE in *. lia. }
  destruct (half_copied r1 s1 r2 prev K N Hok1 Hprev) as (r3 & Hcp & Hdom3 & Hmap3 & Hs3' & Hsame & Hlow & Hhi);
    [split; [by apply Z.mod_mul|unfold PAGE_SIZE in *; lia]|done|apply (fr_dom _ _ _ _ _ Hfr2)|done|done|done|].
  exists (f * PAGE_SIZE), r1, s1, N, r2, s2, r3. split_and!; [done..|].
  assert (dom_grows r1 r3) as Hdom13 by (etrans; [apply (fr_dom _ _ _ _ _ Hfr2)|done]).
  assert (∀ h, in_use s1 h → in_use s2 h) as Huse2 by apply (fr_use _ _ _ _ _ Hfr2).
  assert (N mod PAGE_SIZE = 0 ∧ 0 < N ∧ N + PAGE_SIZE ≤ 2 ^ 46 ∧ mapped r3 N PAGE_SIZE) as HNok.
  { split_and!; [by apply Z.mod_mul|unfold PAGE_SIZE in *; lia|unfold PAGE_SIZE in *; simpl in *; lia|done]. }
  assert (in_use s2 (N / PAGE_SIZE)) as Hown
    by (apply (fr_owned _ _ _ _ _ Hfr2 N); unfold PAGE_SIZE in *; lia).
  split; cbn [ram frames vlock Vmm.set_mem].
  - split; [by eapply (half_pt_ok r1 r3 s1 s2 K N)|apply Hrt2|done].
  - unfold PAGE_SIZE in *. simpl in *. lia.
  - intros va. rewrite (half_translate r1 r3 s1 K N Hok1 Hsame Hlow Hhi).
    by rewrite (fr_same _ _ _ _ _ Hfr1).
  - unfold STACK_SIZE, PAGE_SIZE in *. simpl in *. split; [by apply Z.mod_mul|lia].
  - intros a Ha. assert (f * PAGE_SIZE ≤ a < (f + 4) * PAGE_SIZE) as Hrun
      by (unfold STACK_SIZE, PAGE_SIZE in *; lia).
    pose proof (fr_owned _ _ _ _ _ Hfr1 a Hrun) as Hu. cbn in Hu. destruct (Hold a Hu) as [Heq Hn].
    split; [by apply Huse2|]. split.
    + intros [Hin|Hin]%(half_in_table r1 r3 s1 K N Hok1 Hsame Hlow Hhi); [|lia].
      by apply (fr_out _ _ _ _ _ Hfr1 a).
    + rewrite Hs3' by done. rewrite Heq. apply (overwritten_in _ _ _ _ _ _ (rt_zero _ _ _ _ _ _ Hrt1)).
      unfold PAGE_SIZE in *. lia.
  - split; [done|congruence].
  - eapply fa_mono; [exact Hdom3|exact Hav2].
Qed.

Record space_made K N F (k : nat) (st st' : vmm pmm) : Prop := SpaceMade {
  sm_ready : ready N (u64 (N + MMAP_KERNEL_BASE)) k st';
  sm_kernel va : 256 ≤ PML_ENTRY va 39 → translate (ram st') N va = translate (ram st) K va;
  sm_user va : PML_ENTRY va 39 < 256 →
    (∀ i, 0 ≤ i < STACK_SIZE → vpn va ≠ vpn (stack_bottom + i)) → translate (ram st') N va = None;
  sm_stack i : 0 ≤ i < STACK_SIZE →
    holds_in st' N (stack_bottom + i) (F + i / 4096 * 4096) (Some 0);
  sm_size : bitmap_size (frames st') = bitmap_size (frames st);
}.

Lemma stack_page i :
  0 ≤ i → vpn (stack_bottom + i) = vpn (stack_bottom + i / 4096 * 4096) ∧
  (stack_bottom + i) mod PAGE_SIZE = i mod 4096.
Proof.
  intros Hi. unfold vpn, stack_bottom, USER_STACK_TOP, STACK_SIZE, PAGE_SIZE. change (2 ^ 12) with 4096.
  split; [f_equal|]; simpl (2 ^ 47); zlia.
Qed.

Lemma stack_pml4 i : 0 ≤ i < STACK_SIZE → PML_ENTRY (stack_bottom + i) 39 = 255.
Proof.
  intros Hi. rewrite PML_ENTRY_div by lia.
  unfold stack_bottom, USER_STACK_TOP, STACK_SIZE in *. simpl (2 ^ 47). change (2 ^ 39) with 549755813888.
  zlia.
Qed.

(** Mapping the stack completes it. *)
Lemma map_stack_spec (st st1 : vmm pmm) K N F k :
  root_made K N F (12 + k) st st1 →
  ∃ st', map_stack (u64 (N + MMAP_KERNEL_BASE)) F st1 = Done st' ∧ space_made K N F k st st'.
Proof.
  intros [Hok [HN0 HN] Htr (HFa & HF0 & HF) Hst [Htidy Hsz] Hav].
  destruct (map_frames st1 N (u64 (N + MMAP_KERNEL_BASE)) (λ i, u64 (i * PAGE_SIZE + F))
    (λ i, u64 (i * PAGE_SIZE + (USER_STACK_TOP - STACK_SIZE))) F stack_bottom 7 4 k)
    as (st' & Hr & Hvm & Hav' & Hrm);
    [exact Hok|exact Hav|apply points_to_kernel; [lia|exact HN]|split; [lia|reflexivity]|exact HFa|lia|
     discriminate|lia| | |].
  { unfold PAGE_SIZE, STACK_SIZE in *. lia. }
  { intros j Hj. rewrite vpn_u64. split; [|f_equal; unfold stack_bottom, PAGE_SIZE; lia].
    clear - Hj HF HF0. unfold PAGE_SIZE, STACK_SIZE in *. rewrite u64_id; simpl in *; lia. }
  exists st'. split; [exact Hr|].
  assert (∀ va, PML_ENTRY va 39 ≠ 255 → ∀ j, 0 ≤ j < 4 → vpn va ≠ vpn (stack_bottom + j * 4096)) as Hne.
  { intros va Hva j Hj Heq. apply Hva. rewrite pml4_vpn, Heq, <-pml4_vpn. apply stack_pml4.
    unfold STACK_SIZE. lia. }
  pose proof (map_loop_keeps tidy_same tidy_keeps
    _ (λ i, u64 (i * PAGE_SIZE + F)) (λ i, u64 (i * PAGE_SIZE + (USER_STACK_TOP - STACK_SIZE)))
    7 _ 0 st1 st' Hr) as Hkeep.
  destruct (Hkeep Htidy) as [Htidy' (_ & _ & Hsz')].
  split.
  - split; [done|apply points_to_kernel; lia|done|done].
  - intros va Hva. rewrite (rm_other _ _ _ _ _ _ _ Hrm) by (apply Hne; lia).
    rewrite Htr. by rewrite (proj2 (Z.leb_le _ _) Hva).
  - intros va Hva Hout. rewrite (rm_other _ _ _ _ _ _ _ Hrm).
    + rewrite Htr. by rewrite (proj2 (Z.leb_gt _ _) Hva).
    + intros j Hj. apply (Hout (j * 4096)). unfold STACK_SIZE. lia.
  - intros i Hi. destruct (stack_page i) as [Hv Hm]; [lia|].
    assert (translate (ram st') N (stack_bottom + i) = Some (F + i / 4096 * 4096 + 7)) as Ht.
    { rewrite (translate_vpn _ _ _ _ Hv). apply (rm_here _ _ _ _ _ _ _ Hrm).
      unfold STACK_SIZE in Hi. zlia. }
    unfold holds_in. assert (F + i / 4096 * 4096 + (stack_bottom + i) mod PAGE_SIZE = F + i) as -> by (rewrite Hm; zlia).
    destruct (Hst (F + i)) as (Hu & Hnt & Hz); [lia|].
    assert ((F + i / 4096 * 4096) / PAGE_SIZE = (F + i) / PAGE_SIZE) as -> by (unfold PAGE_SIZE in *; zlia).
    assert (0 ≤ i / 4096 * 4096 ≤ i) as Hpg by zlia.
    split_and!; [done|unfold PAGE_SIZE in *; zlia|lia| | | |].
    + clear - HF Hpg Hi. unfold STACK_SIZE in *. simpl in *. lia.
    + by apply (rm_use _ _ _ _ _ _ _ Hrm).
    + intros Hin. by apply Hnt, (rm_tables _ _ _ _ _ _ _ Hrm).
    + by rewrite (rm_data _ _ _ _ _ _ _ Hrm).
  - cbn in Hsz'. congruence.
Qed.

(** What [task_init] leaves behind. *)
Record task_made {H} `{Heap H} (task_junk : Z → Task) (entry : Z) (j k : nat) (s : sys H)
    (p : Z) (t : Task) (N : Z) (s' : sys H) : Prop := TaskMade {
  tm_tasks : tasks s' = <[p := t]> (tasks s);
  tm_regs : tstack t = user_regs USER_STACK_TOP entry 0x202 0x43 0x3b (tstack (task_junk p));
  tm_pid : pid t = i32 (current_pid (sch s));
  tm_sch : sch s' = next_pid (sch s);
  tm_files : (current_fd t, cwd t, descriptors t) = (0, root (files s), vec_init);
  tm_pagemap : pagemap t = u64 (N + MMAP_KERNEL_BASE);
  tm_space : space_made (kernel_pagemap s) N (sp t) k (space s) (space s');
  tm_stack : 0 < sp t ∧ sp t mod PAGE_SIZE = 0 ∧ sp t + STACK_SIZE ≤ 2 ^ 46;
  tm_block : new_block sizeof_Task (vmem (files s)) (vheap (files s)) p (vmem (files s')) (vheap (files s'));
  tm_heap : heap_ok (vmem (files s')) (vheap (files s'));
  tm_room : room j (vheap (files s'));
  tm_state : ∃ m h st ts c, s' = Sys (Vfs.set_mem (files s) m h) c st ts (log_lock s) (fs_base s)
    (prev_task s) (kernel_pagemap s) (fpu s);
}.

(** What [fxsave] in [task_init] needs: the block the heap is about to return for the
    task has to be aligned as the instruction wants it, and the 504 bytes behind it
    have to be nobody's.  Nothing in the code sees to that. *)
Record fx_safe {H} `{Heap H} (s : sys H) : Prop := FxSafe {
  fx_image : fpu_image (fpu s);
  fx_place p m h : malloc sizeof_Task (vmem (files s)) (vheap (files s)) = Done (p, (m, h)) → p ≠ 0 →
    (p + fpu_offset) mod 16 = 0 ∧ vacant m h (p + sizeof_Task) 504;
}.

Lemma fxsave_safe {H} `{HeapLaws H} (s : sys H) p m h :
  fx_safe s → malloc sizeof_Task (vmem (files s)) (vheap (files s)) = Done (p, (m, h)) → p ≠ 0 →
  heap_ok m h → new_block sizeof_Task (vmem (files s)) (vheap (files s)) p m h →
  ∃ m', fxsave p (fpu s) m h = Done (of_bytes (take 8 (fpu s)), (m', h)) ∧ heap_ok m' h ∧
    new_block sizeof_Task (vmem (files s)) (vheap (files s)) p m' h.
Proof.
  intros [Himage Hplace] Hr Hp Hok Hb. destruct (Hplace p m h Hr Hp) as [Hal Hv].
  by apply fxsave_vacant.
Qed.

Lemma task_init_spec {H} `{HeapLaws H} (task_junk : Z → Task) (s : sys H) (entry : Z) (j k : nat) :
  heap_ok (vmem (files s)) (vheap (files s)) → room (S j) (vheap (files s)) →
  vm_ok (space s) (kernel_pagemap s) → kernel_pagemap s + PAGE_SIZE ≤ 2 ^ 31 →
  tidy (frames (space s)) → available (17 + k) (ram (space s)) (frames (space s)) →
  bytes_ok (ram (space s)) → 4 ≤ bitmap_size (frames (space s)) →
  highest_page (frames (space s)) ≤ 0x8000000 → fx_safe s →
  ∃ p t N s', task_init task_junk entry s = Done (p, s') ∧ task_made task_junk entry j k s p t N s'.
Proof.
  intros Hok Hroom Hvm Hk Htidy Hav Hby Hsz Hhigh Hfx.
  destruct (malloc_law sizeof_Task _ _ Hok ltac:(by vm_compute)) as (p & m & h & Hr & Hok' & Hblk).
  destruct (room_law j sizeof_Task _ _ _ _ _ Hok Hroom ltac:(by vm_compute) Hr) as [Hp Hroom'].
  assert (0 < kernel_pagemap s) as HK0
    by (by destruct (pt_frames _ _ _ (vm_tables _ _ Hvm) [] _ (is_path_nil 3) eq_refl) as (_ & ? & _)).
  destruct (root_spec (space s) (kernel_pagemap s) (u64 (kernel_pagemap s + MMAP_KERNEL_BASE)) (12 + k))
    as (F & r1 & s1 & N & r2 & s2 & r3 & Hstep1 & Hstep2 & Hstep3 & Hroot);
    [done|apply points_to_kernel; lia|done|done|done|done|done|].
  destruct (map_stack_spec _ _ _ _ _ _ Hroot) as (st' & Hstep4 & Hspace).
  unfold task_init. rewrite Hr. cbn [mbind res_bind]. rewrite (proj2 (Z.eqb_neq _ _) Hp).
  destruct Hblk as [(? & _)|Hblk]; [done|].
  destruct (fxsave_safe s p m h Hfx Hr Hp Hok' Hblk) as (m' & Hsave & Hok2 & Hblk2).
  change (STACK_SIZE / PAGE_SIZE) with 4. rewrite Hstep1. cbn [mbind res_bind].
  rewrite Hsave. cbn [mbind res_bind]. rewrite Hstep2. cbn [mbind res_bind]. rewrite Hstep3. cbn [mbind res_bind]. rewrite Hstep4. cbn [mbind res_bind].
  destruct (ro_frames _ _ _ _ _ _ Hroot) as (? & ? & ?).
  eexists p, _, N, _. split; [reflexivity|]. split; cbn; try done. by eexists _, _, _, _, _.
Qed.

