(* ===== verification/Exec.v ===== *)
(** * Starting a program

    [sched_new_elf_process] as a whole ([src/src/kernel/sched.c]): the theorems on
    files, on the loader and on the new task put together.  A program is a file of
    the in-memory file system; what [read_file] brings into the heap is loaded, the
    arguments are laid out on the new stack, the standard files are opened and the
    task joins the queue. *)

From S2P Require Import Prelude CInt Mem Lock Arch Boot Abi Pmm Frames Vmm PmmFrames Vec Sched Heap.
From S2P Require Import Str Devices Vfs VfsSpec Tmpfs Devfs Ustar Task Elf Process.

(** ** Files *)

Section files.
Context {H : Type} `{HeapLaws H} (junk : Z → vnode) (vec_ok : Z → bool) (fuel : nat).
Context (device : list port_event → Z → Z).
Implicit Types (v : vfs H) (n : vnode).

(** [path] leads to the file [f]. *)
Record leads v (path : list Z) (f : Z) (n : vnode) : Prop := Leads {
  le_path : ∃ cs c par p, path = path_of (cs ++ [c]) ∧ in_dir v cs c par p ∧
    lookup_name (nodes v) par c = f;
  le_node : nodes v !! f = Some n;
  le_file : n_type n = VFS_FILE ∧ points_to n = 0;
}.

(** Opening it from anywhere finds it. *)
Lemma leads_open v path f n start flags :
  vfs_wf v → leads v path f n →
  vfs_open junk vec_ok start path flags v =
    Done (f, set_nodes v (<[f := set_o_mode flags n]> (nodes v))).
Proof.
  intros Hwf [(cs & c & par & p & -> & Hd & Hl) Hn [Ht Hp]].
  apply (open_run junk vec_ok start v cs c par p); [done|done|].
  unfold open_spec. rewrite Hl, Hn, Ht, Hp. rewrite (bool_decide_false (VFS_FILE = _)) by done.
  by rewrite !andb_false_r.
Qed.

(** The same tree: what names and types say is as it was. *)
Definition form n : (Z * vec Z * list Z) * node_type := (shape n, n_type n).
Record same_tree v v' : Prop := SameTree {
  st_root : root v' = root v;
  st_form b : form <$> nodes v' !! b = form <$> nodes v !! b;
  st_mounts : mounts v' = mounts v;
  st_mountpoint b n n' : nodes v !! b = Some n → nodes v' !! b = Some n' → mountpoint n' = mountpoint n;
}.

#[global] Instance same_tree_refl : Reflexive same_tree.
Proof. intros v. split; [done..|]. intros b n n' Hb Hb'. congruence. Qed.

Lemma same_tree_node v v' b n :
  same_tree v v' → nodes v !! b = Some n → ∃ n', nodes v' !! b = Some n' ∧ form n' = form n.
Proof.
  intros Hs Hb. pose proof (st_form _ _ Hs b) as Hf. rewrite Hb in Hf.
  destruct (nodes v' !! b) as [n'|]; [|done]. exists n'. split; [done|]. by apply (inj Some) in Hf.
Qed.

#[global] Instance same_tree_trans : Transitive same_tree.
Proof.
  intros v1 v2 v3 H12 H23. split; [by rewrite (st_root _ _ H23), (st_root _ _ H12)| | |].
  - intros b. by rewrite (st_form _ _ H23), (st_form _ _ H12).
  - by rewrite (st_mounts _ _ H23), (st_mounts _ _ H12).
  - intros b n n' Hb Hb'. destruct (same_tree_node _ _ _ _ H12 Hb) as (n2 & Hb2 & _).
    rewrite (st_mountpoint _ _ H23 _ _ _ Hb2 Hb'). by apply (st_mountpoint _ _ H12 b).
Qed.

(** Memory does not matter, and neither do the other fields of a node. *)
Lemma same_tree_node_set v f n n' m h :
  nodes v !! f = Some n → form n' = form n → mountpoint n' = mountpoint n →
  same_tree v (set_nodes (set_mem v m h) (<[f := n']> (nodes v))).
Proof.
  intros Hf Hform Hmp. split; cbn; [done| |done|].
  - intros b. destruct (decide (b = f)) as [->|]; [|by rewrite lookup_insert_ne].
    rewrite lookup_insert_eq, Hf. cbn. by rewrite Hform.
  - intros b k k' Hb Hb'. destruct (decide (b = f)) as [->|]; [|rewrite lookup_insert_ne in Hb' by done; congruence].
    rewrite lookup_insert_eq in Hb'. congruence.
Qed.

Lemma same_tree_mem v m h : same_tree v (set_mem v m h).
Proof. split; [done..|]. cbn. intros b n n' Hb Hb'. congruence. Qed.

Lemma leads_same v v' path f n n' :
  same_tree v v' → leads v path f n → nodes v' !! f = Some n' → leads v' path f n'.
Proof.
  intros Hs [(cs & c & par & p & -> & [Hnm Hrt Hw Hp] & Hl) Hn [Ht Hpt]] Hn'.
  assert (∀ b, shape <$> nodes v' !! b = shape <$> nodes v !! b) as Hsh.
  { intros b. pose proof (st_form _ _ Hs b) as Hf. destruct (nodes v' !! b), (nodes v !! b); try done.
    apply (inj Some) in Hf. cbn. f_equal. unfold shape. injection Hf. congruence. }
  destruct (same_tree_node _ _ _ _ Hs Hp) as (p' & Hp' & _).
  destruct (same_tree_node _ _ _ _ Hs Hn) as (n2 & Hn2 & Hf2).
  assert (n2 = n') as -> by congruence. injection Hf2 as Hpt2 _ _ Ht2. split.
  - exists cs, c, par, p'. split; [done|]. split; [split|]; [done| | |done|].
    + rewrite (st_root _ _ Hs). destruct Hrt as [r Hr].
      destruct (same_tree_node _ _ _ _ Hs Hr) as (r' & Hr' & _). by rewrite Hr'.
    + by rewrite (st_root _ _ Hs), (walk_shape (nodes v)).
    + by rewrite (lookup_name_shape (nodes v)).
  - done.
  - split; congruence.
Qed.

(** ** The program's file *)

(** What reading byte [i] gives: of a file of the boot image that was not read yet,
    [tmpfs_read] takes it from the image, the last one as 0xff. *)
Definition file_byte v n (i : Z) : option Z :=
  if init n then contents v n i
  else if bool_decide (i = st_size n - 1) then Some 0xff
  else vmem v !! (internal_address n + i).

(** The file [f] has the [size] bytes of [image]; while it has not been read, they are
    in memory that allocations leave alone. *)
Record program_at v (path : list Z) (f : Z) (size : Z) (image : mem) : Prop := ProgramAt {
  pa_node : ∃ n k, leads v path f n ∧ file v f n k ∧ st_size n = size ∧
    (init n = false → source v (internal_address n) size ∧
       (internal_address n + size ≤ address n ∨ address n + k ≤ internal_address n)) ∧
    ∀ i, 0 ≤ i < size → file_byte v n i = image !! i;
  pa_size : 0 < size ≤ small;
  pa_fs : fs_of f v = Done TMPFS;
}.

(** A new block changes none of this. *)
Lemma source_alloc v z p m h a k :
  new_block z (vmem v) (vheap v) p m h → source v a k → source (set_mem v m h) a k.
Proof.
  intros Hb Hs i Hi. destruct (Hs i Hi) as [Hset Hv]. cbn. split; [by apply (nb_settled _ _ _ _ _ _ _ Hb)|].
  by rewrite (nb_same _ _ _ _ _ _ Hb).
Qed.

Lemma file_alloc v z p m h f nd k :
  vfs_wf v → new_block z (vmem v) (vheap v) p m h → file v f nd k → file (set_mem v m h) f nd k.
Proof.
  intros Hwf Hb [Hf Hbuf Hs Hk Hown]. split; [done| |done|done|done].
  apply (nb_live _ _ _ _ _ _ Hb). by left.
Qed.

Lemma file_byte_alloc v z p m h f nd k i :
  vfs_wf v → new_block z (vmem v) (vheap v) p m h → file v f nd k → 0 ≤ i < st_size nd →
  (init nd = false → source v (internal_address nd) (st_size nd)) →
  file_byte (set_mem v m h) nd i = file_byte v nd i.
Proof.
  intros Hwf Hb Hf Hi Hsrc. unfold file_byte. destruct (init nd).
  - unfold contents. cbn. case_bool_decide; [|done]. apply (nb_same _ _ _ _ _ _ Hb).
    apply (settled_live _ (address nd) k); [apply Hf|]. pose proof (fl_size _ _ _ _ Hf). lia.
  - case_bool_decide; [done|]. cbn. apply (nb_same _ _ _ _ _ _ Hb). by apply (Hsrc eq_refl).
Qed.

Lemma program_at_alloc v z p m h path f size image :
  vfs_wf v → new_block z (vmem v) (vheap v) p m h → program_at v path f size image →
  program_at (set_mem v m h) path f size image.
Proof.
  intros Hwf Hb [(nd & k & Hl & Hf & Hsz & Him & Hby) Hsize Hfs]. split; [|done|done].
  exists nd, k. split; [|split; [|split; [done|split]]].
  - eapply leads_same; [apply same_tree_mem|exact Hl|apply Hl].
  - by eapply file_alloc.
  - intros Hi. destruct (Him Hi) as [Hs ?]. split; [|done]. by eapply source_alloc.
  - intros i Hi. rewrite (file_byte_alloc v z p m h f nd k); [by apply Hby|done..|by rewrite Hsz|].
    intros Hin. rewrite Hsz. by apply Him.
Qed.
Lemma fs_of_same v v' f n n' :
  same_tree v v' → nodes v !! f = Some n → nodes v' !! f = Some n' → fs_of f v' = fs_of f v.
Proof.
  intros Hs Hn Hn'. unfold fs_of, node_at. rewrite Hn, Hn'. cbn [of_option mbind res_bind].
  by rewrite (st_mounts _ _ Hs), (st_mountpoint _ _ Hs _ _ _ Hn Hn').
Qed.

(** What [read_file] leaves: the file in a block [buf] of its own. *)
Record file_read v (size : Z) (image : mem) (j : nat) (buf : Z) v' : Prop := FileRead {
  re_wf : vfs_wf v';
  re_room : room j (vheap v');
  re_live : live (vheap v') buf size;
  re_bytes i : 0 ≤ i < size → vmem v' !! (buf + i) = image !! i;
  re_tree : same_tree v v';
  re_own a : is_Some (nodes v' !! a) ∨ is_Some (mounts v' !! a) → a ≠ buf;
  re_keeps q k : live (vheap v) q k → live (vheap v') q k ∧ (0 < k → q ≠ buf);
}.

Lemma read_file_run (s : sys H) path f size image j :
  vfs_wf (files s) → program_at (files s) path f size image → room (S j) (vheap (files s)) →
  ∃ buf v, read_file junk vec_ok fuel device path s = Done (buf, set_files s v) ∧
    file_read (files s) size image j buf v.
Proof.
  intros Hwf [(n & k & Hleads & Hfile & Hsz & Himg & Hby) Hsize Hfs] Hroom. set (v := files s) in *.
  pose proof (fl_node _ _ _ _ Hfile) as Hn. pose proof (fl_small _ _ _ _ Hfile) as Hk.
  pose proof (fl_size _ _ _ _ Hfile) as Hszk.
  set (n1 := set_o_mode O_RDWR n). set (v1 := set_nodes v (<[f := n1]> (nodes v))).
  assert (vfs_wf v1) as Hwf1 by by eapply wf_set_plain.
  assert (file v1 f n1 k) as Hf1 by (eapply file_set_plain; [exact Hfile|done|exact Hszk]).
  destruct (malloc_new size v1 j Hwf1 Hsize Hroom) as (buf & m & h & Hr & Hwf2 & Hb & Hroom2).
  set (v2 := set_mem v1 m h) in *. pose proof (file_alloc v1 size buf m h f n1 k Hwf1 Hb Hf1) as Hf2.
  fold v2 in Hf2. pose proof (nb_disjoint _ _ _ _ _ _ Hb _ _ (fl_buffer _ _ _ _ Hf1)) as Hapart.
  assert (init n = false → source v2 (internal_address n1) size) as Hsrc2
    by (intros Hi; apply (source_alloc v1 size buf m h _ _ Hb); by apply Himg).
  destruct (tmpfs_read_parts v2 f n1 k 0 size buf Hwf2 Hf2) as (v3 & n3 & Hrd & Hn3 & -> & Hb3 & Ho3 & Hd3 & m3 & Hv3).
  { change (st_size n1) with (st_size n). lia. }
  { split; [apply Hb|apply Hb]. }
  { lia. }
  { intros Hi. change (st_size n1) with (st_size n). rewrite Hsz. split; [lia|]. split; [|by apply Himg].
    intros a Ha. replace a with (internal_address n1 + (a - internal_address n1)) by lia. apply (Hsrc2 Hi). lia. }
  assert (same_tree v v2) as Ht2
    by (apply (same_tree_node_set v f n n1 m h); done).
  exists buf, v3. split.
  - unfold read_file. fold v. rewrite (leads_open v path f n) by done. cbn [mbind res_bind].
    rewrite (node_at_eq _ f n1) by apply lookup_insert_eq. cbn [mbind res_bind].
    change (st_size n1) with (st_size n). rewrite Hsz, u64_id by (unfold small in *; simpl; lia).
    fold n1 v1. rewrite Hr. cbn [mbind res_bind]. fold v2. unfold kernel_read, vfs_read.
    rewrite (fs_of_same v v2 f n n1 Ht2 Hn), Hfs by apply lookup_insert_eq.
    cbn [mbind res_bind fs_read]. rewrite Hrd. reflexivity.
  - set (n3 := set_cursor _ _) in *.
    assert (nodes v2 !! f = Some n1) as Hn2 by apply lookup_insert_eq.
    assert (live h buf size) as Hlb by (apply (nb_live _ _ _ _ _ _ Hb); by right).
    assert (vfs_wf (set_mem v2 m3 (vheap v2))) as Hwf3.
    { apply wf_set_mem; [done| |]; subst v3; [exact Hd3|].
      intros a Ha. apply Ho3; intros Hin; apply Ha.
      - by apply (settled_live _ buf size).
      - apply (settled_live _ (address n1) k); [apply Hf2|done]. }
    split.
    + rewrite Hv3. by eapply (wf_set_plain (set_mem v2 m3 (vheap v2)) f n1 n3).
    + by rewrite Hv3.
    + by rewrite Hv3.
    + intros i Hi. rewrite Hb3 by done. rewrite <-Hby by done. change (file_byte v n i) with (file_byte v1 n1 i).
      rewrite <-(file_byte_alloc v1 size buf m h f n1 k i Hwf1 Hb Hf1);
        [done|change (st_size n1) with (st_size n); lia|].
      intros Hin. change (st_size n1) with (st_size n). rewrite Hsz. by apply Himg.
    + etrans; [exact Ht2|]. rewrite Hv3. by apply (same_tree_node_set v2 f n1 n3 m3 (vheap v2)).
    + intros a Ha. apply (new_block_own size v1 buf m h a Hwf1 ltac:(lia) Hb).
      rewrite Hn3 in Ha. rewrite Hv3 in Ha. cbn in Ha. cbn. by rewrite insert_insert_eq, !lookup_insert_is_Some' in *.
    + intros q j' Hq. rewrite Hv3. cbn. split; [apply (nb_live _ _ _ _ _ _ Hb); by left|].
      intros Hj ->. pose proof (nb_disjoint _ _ _ _ _ _ Hb _ _ Hq). lia.
Qed.
(** ** The standard files *)

Definition leads_to v (path : list Z) (f : Z) : Prop := ∃ n, leads v path f n.

Lemma leads_to_same v v' path f : same_tree v v' → leads_to v path f → leads_to v' path f.
Proof.
  intros Hs [n Hl]. destruct (same_tree_node _ _ _ _ Hs (le_node _ _ _ _ Hl)) as (n' & Hn' & _).
  exists n'. by eapply leads_same.
Qed.

Lemma leads_to_open v path f start flags :
  vfs_wf v → leads_to v path f →
  ∃ v', vfs_open junk vec_ok start path flags v = Done (f, v') ∧ vfs_wf v' ∧ same_tree v v' ∧
    ∃ ns, v' = set_nodes v ns.
Proof.
  intros Hwf [n Hl]. pose proof (le_node _ _ _ _ Hl) as Hn.
  eexists. split; [by apply leads_open|]. split; [by eapply wf_set_plain|]. split; [|by eexists].
  pose proof (same_tree_node_set v f n (set_o_mode flags n) (vmem v) (vheap v) Hn) as Hs.
  destruct v. by apply Hs.
Qed.

Lemma upd_task_eq (s : sys H) t tk f :
  tasks s !! t = Some tk → upd_task t f s = Done (set_tasks s (<[t := f tk]> (tasks s))).
Proof. intros Ht. unfold upd_task, task_at. by rewrite Ht. Qed.

Lemma open_stdio_run (s : sys H) t tk p0 p1 p2 f0 f1 f2 :
  (∀ b, 0 ≤ b < 2 ^ 31 → vec_ok b = true) →
  vfs_wf (files s) → tasks s !! t = Some tk → descriptors tk = vec_init →
  leads_to (files s) p0 f0 → leads_to (files s) p1 f1 → leads_to (files s) p2 f2 →
  ∃ v d, open_stdio junk vec_ok t (p0, p1, p2) s =
      Done (set_tasks (set_files s v) (<[t := set_fds 3 d tk]> (tasks s))) ∧
    vrep d [(0, f0); (1, f1); (2, f2)] ∧ vfs_wf v ∧ same_tree (files s) v ∧
    ∃ ns, v = set_nodes (files s) ns.
Proof.
  intros Hvec Hwf Ht Hd L0 L1 L2. unfold open_stdio.
  destruct (leads_to_open (files s) p0 f0 (vfs_get_root (files s)) O_RDWR Hwf L0)
    as (v0 & -> & Hwf0 & Hs0 & ns0 & Hv0).
  cbn [mbind res_bind files set_files].
  destruct (leads_to_open v0 p1 f1 (vfs_get_root v0) O_RDWR Hwf0)
    as (v1 & -> & Hwf1 & Hs1 & ns1 & Hv1); [by eapply leads_to_same|].
  cbn [mbind res_bind files set_files].
  destruct (leads_to_open v1 p2 f2 (vfs_get_root v1) O_RDWR Hwf1)
    as (v2 & -> & Hwf2 & Hs2 & ns2 & Hv2); [eapply leads_to_same; [|exact L2]; by etrans|].
  cbn [mbind res_bind files set_files]. unfold task_at at 1. cbn [tasks set_files]. rewrite Ht.
  cbn [of_option mbind res_bind]. rewrite Hd.
  pose proof (push_ok (A := Z * Z) 16 (2 ^ 31) vec_ok ltac:(lia) ltac:(lia) Hvec) as Hpush.
  destruct (Hpush vec_init [] (0, f0) vrep_init ltac:(by apply bool_decide_eq_true)) as (d0 & -> & V0).
  cbn [mbind res_bind].
  destruct (Hpush d0 _ (1, f1) V0 ltac:(by apply bool_decide_eq_true)) as (d1 & -> & V1). cbn [mbind res_bind].
  destruct (Hpush d1 _ (2, f2) V1 ltac:(by apply bool_decide_eq_true)) as (d2 & -> & V2). cbn [mbind res_bind].
  exists v2, d2. rewrite (upd_task_eq _ t tk) by done. split; [done|]. split; [done|]. split; [done|].
  split; [by do 2 (etrans; [|eassumption])|]. exists ns2. by rewrite Hv2, Hv1, Hv0.
Qed.
End files.

(** ** The new stack *)

(** The stack of a new process is in the frames from [F] on, [d] below its pages. *)
Definition on_stack (st : vmm pmm) (N F : Z) : Prop :=
  ∀ i, 0 ≤ i < STACK_SIZE → holds_in st N (stack_bottom + i) (F + i / 4096 * 4096) (Some 0).

Lemma stack_addr F i : 0 ≤ i → F + i / 4096 * 4096 + (stack_bottom + i) mod PAGE_SIZE = F + i.
Proof. intros Hi. destruct (stack_page i Hi) as [_ ->]. zlia. Qed.

Lemma stack_user r N F st i :
  on_stack st N F → 0 ≤ i < STACK_SIZE →
  translate r N (stack_bottom + i) = translate (ram st) N (stack_bottom + i) →
  user_byte r N (stack_bottom + i) = r !! (F + i).
Proof.
  intros Hst Hi Heq. destruct (Hst i Hi) as (Ht & Ha & Hr & _).
  rewrite <-Heq in Ht. rewrite (user_byte_page _ _ _ _ Ht) by done. by rewrite stack_addr by lia.
Qed.

(** Writing to it. *)
Lemma stack_written st N F P r :
  vm_ok st N → on_stack st N F → F ≤ P → grew (F + STACK_SIZE) P (ram st) r →
  vm_ok (Vmm.set_mem st r (frames st)) N ∧
  (∀ va, translate r N va = translate (ram st) N va) ∧
  (∀ i, 0 ≤ i < STACK_SIZE → user_byte r N (stack_bottom + i) = r !! (F + i)) ∧
  ∀ w pa b, holds_in st N w pa b → ¬ (F ≤ pa + w mod PAGE_SIZE < F + STACK_SIZE) → user_byte r N w = b.
Proof.
  intros Hvm Hst HP Hg.
  destruct (vm_ok_data st r N P (F + STACK_SIZE)) as (Hvm' & Htr & _); [done|apply Hg|apply Hg| |].
  { intros a Ha Hin. destruct (Hst (a - F)) as (_ & _ & _ & _ & Hnt & _); [lia|]. apply Hnt.
    rewrite stack_addr by lia. by replace (F + (a - F)) with a by lia. }
  split_and!; [done|done| |].
  - intros i Hi. apply (stack_user r N F st); [done|done|apply Htr].
  - intros w pa b (Ht & Ha & Hr & _ & _ & <-) Hout. rewrite <-Htr in Ht.
    rewrite (user_byte_page _ _ _ _ Ht) by done. apply (gr_same _ _ _ _ Hg). lia.
Qed.

Lemma u64_diff a b c : u64 (u64 (a + c) - u64 (b + c)) = u64 (a - b).
Proof. unfold u64. rewrite <-Zminus_mod. f_equal. lia. Qed.

(** The stack in the process's numbering. *)
Definition user_view (F : Z) (r : mem) : mem :=
  filter (λ ab, stack_bottom ≤ ab.1 < USER_STACK_TOP) (kmap (Z.add (stack_bottom - F)) r).

Lemma user_view_lookup F r i : 0 ≤ i < STACK_SIZE → user_view F r !! (stack_bottom + i) = r !! (F + i).
Proof.
  intros Hi. unfold user_view. rewrite map_lookup_filter.
  replace (stack_bottom + i) with (stack_bottom - F + (F + i)) by lia.
  rewrite lookup_kmap by (intros x y; lia). destruct (r !! (F + i)) as [b|]; [|done]. cbn.
  rewrite option_guard_True; [done|]. cbn. unfold stack_bottom. lia.
Qed.

Lemma user_view_inv F r a b :
  user_view F r !! a = Some b → ∃ i, 0 ≤ i < STACK_SIZE ∧ a = stack_bottom + i.
Proof.
  intros [_ Ha]%map_lookup_filter_Some. cbn in Ha. exists (a - stack_bottom). unfold stack_bottom in *. lia.
Qed.

Lemma user_view_words F r i ws :
  words_at r (F + i) ws → 0 ≤ i → i + 8 * length_z ws ≤ STACK_SIZE →
  words_at (user_view F r) (stack_bottom + i) ws.
Proof.
  intros Hw Hi Htop j w Hj. rewrite <-(Hw j w Hj). apply lookup_lt_Some in Hj. unfold length_z in Htop.
  apply load_le_shift. intros x Hx. change (Z.of_nat 8) with 8 in Hx.
  rewrite <-!Z.add_assoc. apply user_view_lookup. lia.
Qed.

Lemma user_view_cstr F r i str :
  cstr r (F + i) str → 0 ≤ i → i + length_z str < STACK_SIZE →
  cstr (user_view F r) (stack_bottom + i) str.
Proof.
  intros [Hc Hb] Hi Htop. split; [done|]. intros j Hj. rewrite <-Z.add_assoc, user_view_lookup by lia.
  rewrite Z.add_assoc. by apply Hb.
Qed.

(** ** A task with its program *)

(** What making a task needs of the memory managers, and [k] frames more. *)
Record machine_ready {H} (k : nat) (s : sys H) : Prop := MachineReady {
  mr_vm : vm_ok (space s) (kernel_pagemap s);
  mr_root : kernel_pagemap s + PAGE_SIZE ≤ 2 ^ 31;
  mr_tidy : tidy (frames (space s));
  mr_spare : available (17 + k) (ram (space s)) (frames (space s));
  mr_bytes : bytes_ok (ram (space s));
  mr_bitmap : 4 ≤ bitmap_size (frames (space s));
  mr_top : highest_page (frames (space s)) ≤ 0x8000000;
}.

(** Segments below the stack, on separate pages, with no interpreter. *)
Record program_ok (size bitmap : Z) (hs : list phdr) : Prop := ProgramOk {
  po_segments : Forall (λ h, ph_type h ≠ ELF_PROGRAM_HEADER_INTERPRET ∧
    (is_load h = true → segment_ok size 0 h ∧ pages_of (0 + ph_va h) (ph_memsz h) ≤ bitmap)) hs;
  po_below h : h ∈ hs → is_load h = true → ph_va h + ph_memsz h ≤ stack_bottom;
  po_apart : all_apart 0 hs;
  po_count : length_z hs < 2 ^ 16;
}.

Definition in_segments (hs : list phdr) (w : Z) : Prop :=
  ∃ h i, h ∈ hs ∧ is_load h = true ∧ 0 ≤ i < ph_memsz h ∧ vpn w = vpn (ph_va h + i).

Definition program_auxval (entry : Z) (hs : list phdr) : Auxval :=
  MkAuxval (u64 (0 + entry)) (last_phdr 0 hs 0) Elf64ProgramHeader.size (length_z hs).

Lemma program_auxval_ok entry size bitmap hs : program_ok size bitmap hs → auxv_ok (program_auxval entry hs).
Proof.
  intros Hp. unfold auxv_ok, program_auxval, is_u64. cbn. split; [apply u64_range|].
  split; [|split; [by vm_compute|pose proof (po_count _ _ _ Hp); unfold length_z in *; simpl in *; lia]].
  assert (∀ a, 0 ≤ a < 2 ^ 64 → 0 ≤ last_phdr 0 hs a < 2 ^ 64) as Hl; [|by apply Hl].
  unfold last_phdr. clear. induction hs as [|h hs IH]; intros a Ha; [done|]. cbn [foldl]. apply IH.
  case_match; [apply u64_range|done].
Qed.

(** The pages of a segment are in the lower half, and none is the stack's. *)
Lemma segment_page size bitmap hs h i :
  program_ok size bitmap hs → h ∈ hs → is_load h = true → 0 ≤ i < ph_memsz h →
  vpn (ph_va h + i) = (ph_va h + i) / 4096 ∧ 0 ≤ ph_va h + i < stack_bottom.
Proof.
  intros Hp Hin Hl Hi. pose proof (po_below _ _ _ Hp h Hin Hl) as Hb.
  apply list_elem_of_In, (proj1 (Forall_forall _ _) (po_segments _ _ _ Hp)) in Hin as [_ Hh].
  destruct (Hh Hl) as [[Hva _ _ _] _]. unfold vpn, stack_bottom, USER_STACK_TOP, STACK_SIZE in *.
  change (2 ^ 12) with 4096. split; [|lia]. apply Z.mod_small. simpl in *. zlia.
Qed.

Lemma stack_apart size bitmap hs j :
  program_ok size bitmap hs → 0 ≤ j < STACK_SIZE → ¬ in_segments hs (stack_bottom + j).
Proof.
  intros Hp Hj (h & i & Hin & Hl & Hi & Heq). destruct (segment_page _ _ _ _ _ Hp Hin Hl Hi) as [Hv Hr].
  rewrite Hv in Heq. unfold vpn, stack_bottom, USER_STACK_TOP, STACK_SIZE in *.
  change (2 ^ 12) with 4096 in Heq. rewrite Z.mod_small in Heq by (simpl; zlia). simpl in *. zlia.
Qed.

Lemma kernel_apart size bitmap hs va :
  program_ok size bitmap hs → 256 ≤ PML_ENTRY va 39 → ¬ in_segments hs va.
Proof.
  intros Hp Hva (h & i & Hin & Hl & Hi & Heq). destruct (segment_page _ _ _ _ _ Hp Hin Hl Hi) as [Hv Hr].
  rewrite pml4_vpn, Heq, Hv in Hva. unfold stack_bottom, USER_STACK_TOP, STACK_SIZE in *. simpl in *. zlia.
Qed.

Lemma not_in_segments hs w :
  ¬ in_segments hs w → ∀ h i, h ∈ hs → is_load h = true → 0 ≤ i < ph_memsz h → vpn w ≠ vpn (0 + ph_va h + i).
Proof. intros Hn h i Hin Hl Hi Heq. apply Hn. by exists h, i. Qed.

Section process.
Context {H : Type} `{HeapLaws H} (junk : Z → vnode) (vec_ok : Z → bool) (fuel : nat).
Context (device : list port_event → Z → Z) (task_junk : Z → Task).
Implicit Types (s : sys H) (hs : list phdr).

(** The new task [tk] at [t], with the page map [N] and its program in place; the
    file is still in the block [buf]. *)
Record task_loaded s (size : Z) (image : mem) hs (k : nat) (t : Z) (tk : Task) (N buf : Z) s' : Prop := TaskLoaded {
  tl_tasks : tasks s' = <[t := tk]> (tasks s);
  tl_sch : sch s' = next_pid (sch s);
  tl_task : descriptors tk = vec_init ∧ pagemap tk = u64 (N + MMAP_KERNEL_BASE) ∧
    tstack tk = user_regs USER_STACK_TOP 0 0x202 0x43 0x3b (tstack (task_junk t)) ∧
    pid tk = i32 (current_pid (sch s));
  tl_stack : 0 < sp tk ∧ sp tk + STACK_SIZE ≤ 2 ^ 46 ∧ on_stack (space s') N (sp tk);
  tl_wf : vfs_wf (files s');
  tl_tree : same_tree (files s) (files s');
  tl_buffer : live (vheap (files s')) buf size ∧
    ∀ a, is_Some (nodes (files s') !! a) ∨ is_Some (mounts (files s') !! a) → a ≠ buf;
  tl_ready : ready N (pagemap tk) k (space s');
  tl_segments h i : h ∈ hs → is_load h = true → 0 ≤ i < ph_memsz h →
    ∃ pa, ¬ (sp tk ≤ pa + (ph_va h + i) mod PAGE_SIZE < sp tk + STACK_SIZE) ∧
      holds_in (space s') N (ph_va h + i) pa
        (if i <? ph_filesz h then image !! (ph_off h + i) else Some 0);
  tl_kernel va : 256 ≤ PML_ENTRY va 39 →
    translate (ram (space s')) N va = translate (ram (space s)) (kernel_pagemap s) va;
  tl_user va : PML_ENTRY va 39 < 256 → ¬ in_segments hs va →
    (∀ i, 0 ≤ i < STACK_SIZE → vpn va ≠ vpn (stack_bottom + i)) → translate (ram (space s')) N va = None;
}.

(** What the loader will find where it looks for the section headers, once the task is
    made and the file is read: nothing it acts on.  There is nothing to it for a file
    without sections. *)
Definition sections_harmless s (path : list Z) (shoff shnum : Z) : Prop :=
  ∀ t s1 buf s2, task_init task_junk 0 s = Done (t, s1) →
    read_file junk vec_ok fuel device path s1 = Done (buf, s2) →
    sections_skipped (vmem (files s2)) (vheap (files s2)) shoff shnum.

Lemma no_sections s path shoff : sections_harmless s path shoff 0.
Proof. intros t s1 buf s2 _ _ eh m h _ i Hi. lia. Qed.

Lemma task_loads s path f size image entry step shoff shnum hs (j k : nat) :
  vfs_wf (files s) → program_at (files s) path f size image → room (3 + j) (vheap (files s)) →
  machine_ready (sum_list (frames_for 0 <$> hs) + k) s → fx_safe s →
  elf_file image 0 size entry step shoff shnum hs → sections_harmless s path shoff shnum →
  program_ok size (bitmap_size (frames (space s))) hs →
  ∃ t tk N buf s1 s2 s3, task_init task_junk 0 s = Done (t, s1) ∧
    read_file junk vec_ok fuel device path s1 = Done (buf, s2) ∧ task_at s2 t = Done tk ∧
    elf_load_program buf 0 (pagemap tk) (Some 0) s2 =
      Done (u64 (0 + entry), (program_auxval entry hs, Some 0, s3)) ∧
    task_loaded s size image hs k t tk N buf s3.
Proof.
  intros Hwf Hprog Hroom [Hvm Hroot Htidy Hav Hby Hbm Htop] Hfx Helf Hsec Hok.
  destruct (task_init_spec task_junk s 0 (2 + j) (sum_list (frames_for 0 <$> hs) + k))
    as (t & tk & N & s1 & Hr1 & Htm); [apply Hwf|done..|].
  destruct (tm_state _ _ _ _ _ _ _ _ _ Htm) as (m1 & h1 & st1 & ts1 & c1 & Hs1).
  pose proof (tm_block _ _ _ _ _ _ _ _ _ Htm) as Hb1. pose proof (tm_heap _ _ _ _ _ _ _ _ _ Htm) as Hh1.
  pose proof (tm_room _ _ _ _ _ _ _ _ _ Htm) as Hrm1.
  assert (files s1 = set_mem (files s) m1 h1) as Hf1 by by rewrite Hs1.
  rewrite Hf1 in Hb1, Hh1, Hrm1. cbn [vmem vheap set_mem] in Hb1, Hh1, Hrm1.
  destruct (read_file_run junk vec_ok fuel device s1 path f size image (1 + j)) as (buf & v2 & Hr2 & Hre);
    [by rewrite Hf1; eapply wf_new_block|rewrite Hf1; by eapply program_at_alloc|by rewrite Hf1|].
  pose proof Hre as [Hwf2 Hrm2 Hlive2 Hbytes2 Htree2 Hown2 _].
  assert (tasks s1 !! t = Some tk) as Ht1 by (rewrite (tm_tasks _ _ _ _ _ _ _ _ _ Htm); apply lookup_insert_eq).
  pose proof (tm_space _ _ _ _ _ _ _ _ _ Htm) as [Hrdy Hker Husr Hstk Hsz1].
  destruct (live_law _ _ _ _ (wf_heap v2 Hwf2) Hlive2) as (Hbuf0 & _ & Hbuftop & _).
  destruct (elf_load_program_spec (set_files s1 v2) buf size 0 N (pagemap tk) entry step shoff shnum hs (Some 0) j k)
    as (s3 & Hr3 & Hrd3 & [Hal Hkeep Hh3 _ Hl3 _ (m3 & h3 & st3 & Hs3)]);
    [split; [lia|done]|apply Hwf2|exact Hrm2|exact Hlive2|by eapply elf_file_moved; [lia|done..]|by apply (Hsec t s1 buf)| |apply Hok| |].
  { cbn [space set_files]. rewrite Hsz1. apply Hok. }
  { rewrite (tm_pagemap _ _ _ _ _ _ _ _ _ Htm). exact Hrdy. }
  exists t, tk, N, buf, s1, (set_files s1 v2), s3. split; [exact Hr1|]. split; [exact Hr2|].
  split; [unfold task_at; cbn [tasks set_files]; by rewrite Ht1|]. split; [exact Hr3|].
  assert (files s3 = set_mem v2 m3 h3) as Hf3 by by rewrite Hs3.
  rewrite Hf3 in Hh3, Hl3. cbn [vmem vheap set_mem files set_files] in Hh3, Hl3.
  assert (∀ i, 0 ≤ i < STACK_SIZE → ¬ in_segments hs (stack_bottom + i)) as Hst_out
    by (intros i; by apply (stack_apart size (bitmap_size (frames (space s))))).
  destruct (tm_stack _ _ _ _ _ _ _ _ _ Htm) as (Hsp0 & Hspa & Hsptop).
  split.
  - rewrite Hs3. cbn. apply Htm.
  - rewrite Hs3. cbn. apply Htm.
  - pose proof (tm_files _ _ _ _ _ _ _ _ _ Htm) as [= _ _ ->].
    split; [done|]. split; [apply Htm|]. split; apply Htm.
  - split; [done|]. split; [done|]. intros i Hi.
    apply (Hkeep _ (not_in_segments _ _ (Hst_out i Hi))). by apply Hstk.
  - rewrite Hf3. by apply wf_more.
  - rewrite Hf3. etrans; [apply (same_tree_mem (files s) m1 h1)|]. rewrite <-Hf1.
    etrans; [exact Htree2|]. apply same_tree_mem.
  - rewrite Hf3. split; [by apply Hl3|exact Hown2].
  - exact Hrd3.
  - intros h i Hin Hl Hi. destruct (Hal h i Hin Hl Hi) as (pa & Hfresh & Hpa). exists pa. split.
    + intros Hrange. apply Hfresh. cbn [space set_files].
      destruct Hpa as (_ & Hpa & _).
      destruct (Hstk (pa + (ph_va h + i) mod PAGE_SIZE - sp tk)) as (_ & _ & _ & Hu & _); [lia|].
      match type of Hu with in_use _ ?x => replace x with (pa / PAGE_SIZE) in Hu; [done|] end.
      unfold PAGE_SIZE in *. zlia.
    + change (0 + ph_va h + i) with (ph_va h + i) in Hpa.
      destruct (Z.ltb_spec i (ph_filesz h)); [|done]. cbn [files set_files] in Hpa.
      rewrite <-Z.add_assoc, Hbytes2 in Hpa; [done|].
      apply list_elem_of_In, (proj1 (Forall_forall _ _) (po_segments _ _ _ Hok)) in Hin as [_ Hh].
      destruct (Hh Hl) as [[_ _ _ Ho] _]. lia.
  - intros va Hva.
    destruct (Hkeep va (not_in_segments _ _ (kernel_apart _ _ _ _ Hok Hva))) as [-> _]. by apply Hker.
  - intros va Hva Hout Hns. destruct (Hkeep va (not_in_segments _ _ Hout)) as [-> _]. by apply Husr.
Qed.
(** The standard files, when there are any. *)
Definition std_files (v : vfs H) (stdio : option (list Z * list Z * list Z)) (fds : list (Z * Z)) : Prop :=
  match stdio with
  | None => fds = []
  | Some (p0, p1, p2) => ∃ f0 f1 f2, leads_to v p0 f0 ∧ leads_to v p1 f1 ∧ leads_to v p2 f2 ∧
      fds = [(0, f0); (1, f1); (2, f2)]
  end.

Lemma stdio_opens s t tk stdio fds :
  (∀ b, 0 ≤ b < 2 ^ 31 → vec_ok b = true) →
  vfs_wf (files s) → tasks s !! t = Some tk → descriptors tk = vec_init → std_files (files s) stdio fds →
  ∃ ns d n, (match stdio with Some f => open_stdio junk vec_ok t f s | None => Done s end) =
      Done (set_tasks (set_files s (set_nodes (files s) ns)) (<[t := set_fds n d tk]> (tasks s))) ∧
    vrep d fds ∧ vfs_wf (set_nodes (files s) ns) ∧ same_tree (files s) (set_nodes (files s) ns).
Proof.
  intros Hvec Hwf Ht Hd Hstd. destruct stdio as [[[p0 p1] p2]|]; cbn [std_files] in Hstd.
  - destruct Hstd as (f0 & f1 & f2 & L0 & L1 & L2 & ->).
    destruct (open_stdio_run junk vec_ok s t tk p0 p1 p2 f0 f1 f2) as (v & d & Hr & Hv & Hw & Hs & ns & ->);
      [done..|]. by exists ns, d, 3.
  - subst fds. exists (nodes (files s)), vec_init, (current_fd tk).
    assert (set_nodes (files s) (nodes (files s)) = files s) as -> by by destruct (files s).
    assert (set_fds (current_fd tk) vec_init tk = tk) as -> by (rewrite <-Hd; by destruct tk).
    split; [|split; [apply vrep_init|split; [done|reflexivity]]].
    rewrite insert_id by done. by destruct s.
Qed.

Lemma std_files_same (v v' : vfs H) stdio fds :
  same_tree v v' → std_files v stdio fds → std_files v' stdio fds.
Proof.
  intros Hs. destruct stdio as [[[p0 p1] p2]|]; [|done].
  intros (f0 & f1 & f2 & ? & ? & ? & ->). exists f0, f1, f2. split_and!; try done; by eapply leads_to_same.
Qed.

Lemma own_same (v v' : vfs H) buf :
  same_tree v v' → (∀ a, is_Some (nodes v !! a) ∨ is_Some (mounts v !! a) → a ≠ buf) →
  ∀ a, is_Some (nodes v' !! a) ∨ is_Some (mounts v' !! a) → a ≠ buf.
Proof.
  intros Hs Hown a Ha. apply Hown. rewrite (st_mounts _ _ Hs) in Ha.
  destruct Ha as [[n Hn]|]; [left|by right]. pose proof (st_form _ _ Hs a) as Hf.
  destruct (nodes v !! a); [done|]. by rewrite Hn in Hf.
Qed.

(** What the process finds at its stack pointer [p], read at its own addresses. *)
Record arguments (r : mem) (N p : Z) (argv envp : list (list Z)) (val : Auxval) (view : mem) : Prop := Arguments {
  ar_view a b : view !! a = Some b → user_byte r N a = Some b;
  ar_aligned : p mod 16 = 0;
  ar_words : words_at view p
    (length_z argv :: addrs (USER_STACK_TOP - total envp) argv ++ 0 :: addrs USER_STACK_TOP envp ++
       0 :: auxv_words val);
  ar_strings i a str : addrs USER_STACK_TOP (envp ++ argv) !! i = Some a → (envp ++ argv) !! i = Some str →
    cstr view a str;
}.

(** The arguments, on the stack of a loaded task. *)
Lemma arguments_built s size image hs k t tk N buf s' argv envp val :
  task_loaded s size image hs k t tk N buf s' → auxv_ok val →
  stack_need argv envp ≤ STACK_SIZE → Forall chars (envp ++ argv) →
  ∃ P r, build_stack (io (sp tk + STACK_SIZE)) USER_STACK_TOP argv envp val (ram (space s')) = Done (io P, r) ∧
    0 ≤ sp tk + STACK_SIZE - P ≤ STACK_SIZE ∧
    (∀ va, translate r N va = translate (ram (space s')) N va) ∧
    (∀ w pa b, holds_in (space s') N w pa b →
       ¬ (sp tk ≤ pa + w mod PAGE_SIZE < sp tk + STACK_SIZE) → user_byte r N w = b) ∧
    arguments r N (USER_STACK_TOP - (sp tk + STACK_SIZE - P)) argv envp val (user_view (sp tk) r).
Proof.
  clear junk vec_ok fuel device. intros Htl Hval Hneed Hchars. destruct (tl_stack _ _ _ _ _ _ _ _ _ _ Htl) as (Hsp0 & Hsp1 & Hst).
  set (F := sp tk) in *. pose proof (total_nonneg envp). pose proof (total_nonneg argv).
  assert (0 ≤ length_z argv ∧ 0 ≤ length_z envp) as [Ha0 He0] by (unfold length_z; lia).
  destruct (build_stack_spec (ram (space s')) (F + STACK_SIZE) USER_STACK_TOP STACK_SIZE argv envp val)
    as (P & r & Hr & HP & Hal & Hg & Hw & Htop & Hs);
    [unfold STACK_SIZE in *; lia| |done|done|done|by vm_compute|].
  { rewrite Z.add_simpl_r. intros a Ha. destruct (Hst (a - F)) as (_ & _ & _ & _ & _ & Hb); [lia|].
    rewrite stack_addr in Hb by lia. replace (F + (a - F)) with a in Hb by lia. by rewrite Hb. }
  destruct (stack_written (space s') N F P r (rd_ok _ _ _ _ (tl_ready _ _ _ _ _ _ _ _ _ _ Htl)) Hst)
    as (_ & Htr & Hus & Hot); [lia|done|].
  set (i := P - F). assert (P = F + i) as HPi by (subst i; lia).
  unfold stack_need in *. exists P, r.
  assert (USER_STACK_TOP - (F + STACK_SIZE - P) = stack_bottom + i) as ->
    by (unfold stack_bottom; lia).
  split; [done|]. split; [lia|]. split; [done|]. split; [done|]. split.
  - intros a b Hab. destruct (user_view_inv _ _ _ _ Hab) as (x & Hx & ->).
    rewrite user_view_lookup in Hab by done. by rewrite Hus.
  - assert (stack_bottom mod 16 = 0) as Hsb by (by vm_compute).
    assert (F mod 16 = 0) as HF.
    { destruct (Hst 0) as (_ & HF & _); [unfold STACK_SIZE; lia|].
      replace (F + 0 / 4096 * 4096) with F in HF by (change (0 / 4096) with 0; lia). unfold PAGE_SIZE in HF. zlia. }
    zlia.
  - apply user_view_words; [by rewrite <-HPi|lia|]. unfold length_z in *. cbn [length auxv_words].
    rewrite !length_app, !length_addrs. cbn [length auxv_words]. rewrite length_app, length_addrs. cbn. lia.
  - intros x a str Ha Hstr. pose proof (addrs_ge _ _ _ _ Ha) as Hge. pose proof (addrs_le _ _ _ _ _ Ha Hstr) as Hle.
    assert (total (envp ++ argv) = total envp + total argv) as Htot.
    { clear. induction envp as [|e l IH]; [done|]. cbn. lia. }
    specialize (Hs x a str Ha Hstr).
    replace (F + STACK_SIZE - (USER_STACK_TOP - a)) with (F + (a - stack_bottom)) in Hs
      by (unfold stack_bottom; lia).
    apply user_view_cstr in Hs; [|unfold stack_bottom, length_z in *; lia..].
    by replace (stack_bottom + (a - stack_bottom)) with a in Hs by lia.
Qed.

(** Giving a block back. *)
Lemma free_wf (v : vfs H) p n :
  vfs_wf v → live (vheap v) p n → (∀ a, is_Some (nodes v !! a) ∨ is_Some (mounts v !! a) → a ≠ p) →
  ∃ h, free p (vmem v) (vheap v) = Done (vmem v, h) ∧ vfs_wf (set_mem v (vmem v) h).
Proof.
  intros [Hok Hn Hmt Hc Hp] Hl Hown. destruct (free_law p n _ _ Hok Hl) as (h & Hr & Hok' & Hl').
  exists h. split; [done|]. split; cbn; try done.
  - intros a nd Ha. apply Hl'. split; [by eapply Hn|]. apply Hown. left. by eexists.
  - intros a mp Ha. apply Hl'. split; [by eapply Hmt|]. apply Hown. right. by eexists.
Qed.

(** The process as the scheduler will find it. *)
Record launched s (image : mem) (entry : Z) hs argv envp (ts : list Z) (fds : list (Z * Z))
    (t : Z) (tk : Task) (N : Z) s' : Prop := Launched {
  sd_queue : sched_ok (sch s') (ts ++ [t]);
  sd_tasks : tasks s' = <[t := tk]> (tasks s);
  sd_regs : (rip (tstack tk), rflags (tstack tk), cs (tstack tk), ss (tstack tk)) = (u64 entry, 0x202, 0x43, 0x3b);
  sd_sched : current_pid (sch s') = u64 (current_pid (sch s) + 1) ∧ index (sch s') = index (sch s);
  sd_task : pid tk = i32 (current_pid (sch s)) ∧ pagemap tk = u64 (N + MMAP_KERNEL_BASE) ∧ vrep (descriptors tk) fds;
  sd_segments h i : h ∈ hs → is_load h = true → 0 ≤ i < ph_memsz h →
    user_byte (ram (space s')) N (ph_va h + i) = if i <? ph_filesz h then image !! (ph_off h + i) else Some 0;
  sd_arguments : ∃ view, arguments (ram (space s')) N (rsp (tstack tk)) argv envp (program_auxval entry hs) view;
  sd_kernel va : 256 ≤ PML_ENTRY va 39 →
    translate (ram (space s')) N va = translate (ram (space s)) (kernel_pagemap s) va;
  sd_user va : PML_ENTRY va 39 < 256 → ¬ in_segments hs va →
    (∀ i, 0 ≤ i < STACK_SIZE → vpn va ≠ vpn (stack_bottom + i)) → translate (ram (space s')) N va = None;
  sd_files : vfs_wf (files s') ∧ same_tree (files s) (files s');
}.
End process.

(** What starting the program [path] needs: its file, with the ELF image [image]; a
    heap with room for [3 + j] small blocks; frames for the task, its segments and
    [k] more; and arguments that fit on the stack. *)
Record startable {H} `{Heap H} (s : sys H) (path : list Z) (argv envp : list (list Z)) (f size entry step shoff shnum : Z)
    (image : mem) (hs : list phdr) (ts : list Z) (j k : nat) : Prop := Startable {
  su_wf : vfs_wf (files s);
  su_room : room (3 + j) (vheap (files s));
  su_program : program_at (files s) path f size image;
  su_ready : machine_ready (sum_list (frames_for 0 <$> hs) + k) s;
  su_fx : fx_safe s;
  su_elf : elf_file image 0 size entry step shoff shnum hs;
  su_segments : program_ok size (bitmap_size (frames (space s))) hs;
  su_args : stack_need argv envp ≤ STACK_SIZE;
  su_chars : Forall chars (envp ++ argv);
  su_queue : sched_ok (sch s) ts;
  su_short : length_z ts < 2 ^ 26;
}.

Lemma new_process_run {H} `{HeapLaws H} (junk : Z → vnode) (vec_ok : Z → bool) (fuel : nat)
    (device : list port_event → Z → Z) (task_junk : Z → Task) (s : sys H)
    path argv envp stdio f size entry step shoff shnum image hs ts fds j k :
  (∀ b, 0 ≤ b < 2 ^ 31 → vec_ok b = true) →
  startable s path argv envp f size entry step shoff shnum image hs ts j k →
  sections_harmless junk vec_ok fuel device task_junk s path shoff shnum → std_files (files s) stdio fds →
  ∃ t tk N s', sched_new_elf_process junk vec_ok fuel device task_junk path argv envp stdio s = Done s' ∧
    launched s image entry hs argv envp ts fds t tk N s'.
Proof.
  intros Hvec [Hwf Hroom Hprog Hready Hfx Helf Hok Hargs Hchars Hsched Hqueue] Hsec Hstdio.
  destruct (task_loads junk vec_ok fuel device task_junk s path f size image entry step shoff shnum hs j k)
    as (t & tk & N & buf & s1 & s2 & s3 & Hr1 & Hr2 & Htk & Hr3 & Htl); [done..|].
  pose proof (program_auxval_ok entry _ _ _ Hok) as Hval. set (val := program_auxval entry hs) in *.
  destruct (tl_task _ _ _ _ _ _ _ _ _ _ _ Htl) as (Hds & Hpm & Hregs & Hpid).
  destruct (tl_buffer _ _ _ _ _ _ _ _ _ _ _ Htl) as [Hlive Hown].
  pose proof (tl_tasks _ _ _ _ _ _ _ _ _ _ _ Htl) as Htasks.
  unfold sched_new_elf_process. rewrite Hr1. cbn [mbind res_bind]. rewrite Hr2. cbn [mbind res_bind].
  rewrite Htk. cbn [mbind res_bind]. rewrite Hr3. cbn [mbind res_bind].
  rewrite (upd_task_eq s3 t tk) by (rewrite Htasks; apply lookup_insert_eq). cbn [mbind res_bind].
  rewrite Htasks, insert_insert_eq. set (tk1 := set_stack _ tk). set (s4 := set_tasks s3 _).
  destruct (stdio_opens junk vec_ok s4 t tk1 stdio fds Hvec) as (ns & d & n & Hr5 & Hd & Hwf5 & Htree5);
    [apply Htl|apply lookup_insert_eq|exact Hds|eapply std_files_same; [apply Htl|done]|].
  rewrite Hr5. cbn [mbind res_bind]. set (tk2 := set_fds n d tk1). set (v5 := set_nodes (files s4) ns) in *.
  cbn [tasks set_tasks s4]. rewrite insert_insert_eq. unfold task_at at 1. cbn [tasks set_tasks].
  rewrite lookup_insert_eq. cbn [of_option mbind res_bind].
  change (u64 (sp tk2 + STACK_SIZE + MMAP_IO_BASE)) with (io (sp tk + STACK_SIZE)).
  assert (rsp (tstack tk2) = USER_STACK_TOP) as -> by (cbn; by rewrite Hregs).
  destruct (arguments_built task_junk s size image hs k t tk N buf s3 argv envp val Htl Hval Hargs Hchars)
    as (P & r & Hr6 & HP & Htr & Hseg & Harg).
  change (ram (space (set_tasks (set_files s4 v5) _))) with (ram (space s3)). rewrite Hr6. cbn [mbind res_bind].
  rewrite (upd_task_eq _ t tk2) by apply lookup_insert_eq. cbn [mbind res_bind tasks set_space set_tasks].
  rewrite insert_insert_eq. set (tk3 := set_stack _ tk2). cbn [Z.eqb mbind res_bind].
  destruct (free_wf v5 buf size Hwf5) as (h & Hr7 & Hwf7); [exact Hlive|apply (own_same _ _ _ Htree5 Hown)|].
  unfold free_block. cbn [files set_space set_tasks set_files]. rewrite Hr7. cbn [mbind res_bind].
  cbn [sch set_space set_tasks set_files s4]. rewrite (tl_sch _ _ _ _ _ _ _ _ _ _ _ Htl).
  destruct (sched_push_ok vec_ok (next_pid (sch s)) ts t) as (c & Hr8 & Hq & Hidx & _ & _ & Hcp); [by destruct Hsched|done|done|].
  rewrite Hr8. cbn [mbind res_bind]. exists t, tk3, N. eexists. split; [reflexivity|].
  assert (rsp (tstack tk3) = USER_STACK_TOP - (sp tk + STACK_SIZE - P)) as Hrsp.
  { cbn. rewrite Hregs. cbn. unfold io. change (sp tk2) with (sp tk). rewrite u64_diff.
    unfold USER_STACK_TOP, STACK_SIZE in *. rewrite (u64_id (_ - P)), u64_id by (unfold is_u64; simpl in *; lia). lia. }
  split; cbn [sch tasks files space set_sch set_tasks set_files set_space ram Vmm.set_mem].
  - exact Hq.
  - done.
  - cbn. by rewrite Hregs.
  - split; [exact Hcp|exact Hidx].
  - split; [exact Hpid|]. split; [exact Hpm|exact Hd].
  - intros h' i Hin Hl Hi. destruct (tl_segments _ _ _ _ _ _ _ _ _ _ _ Htl h' i Hin Hl Hi) as (pa & Hout & Hpa).
    by apply (Hseg _ pa).
  - rewrite Hrsp. by eexists.
  - intros va Hva. rewrite Htr. by apply (tl_kernel _ _ _ _ _ _ _ _ _ _ _ Htl).
  - intros va Hva Hn1 Hn2. rewrite Htr. by apply (tl_user _ _ _ _ _ _ _ _ _ _ _ Htl).
  - split; [exact Hwf7|]. etrans; [apply Htl|]. etrans; [exact Htree5|]. apply same_tree_mem.
Qed.

(** C7: a new process. [sched_new_elf_process] on a program of the in-memory
    file system returns, and the process it queues will start, in user mode, at the
    program's entry point; at its own addresses it then finds each segment with the
    bytes of the file and zeros behind them, and at its stack pointer the block of
    arguments; its page map has the kernel's upper half and nothing else in the
    lower one; its descriptors 0 to 2 are the standard files that were asked for.
    All this for a program without interpreter whose segments share no page, with at
    most 16 KiB of arguments; the block of the new task has to be aligned for [fxsave]
    and the memory behind it vacant ([fx_safe]), and the loader has to find nothing to
    act on where it looks for section headers ([sections_harmless]). *)
Theorem new_process_starts {H} `{HeapLaws H} (junk : Z → vnode) (vec_ok : Z → bool) (fuel : nat)
    (device : list port_event → Z → Z) (task_junk : Z → Task) (s : sys H)
    (path : list Z) (argv envp : list (list Z)) (stdio : option (list Z * list Z * list Z))
    (f size entry step shoff shnum : Z) (image : mem) (hs : list phdr) (ts : list Z) (fds : list (Z * Z)) (j k : nat)
    (Hvec : ∀ b, 0 ≤ b < 2 ^ 31 → vec_ok b = true)
    (Hs : startable s path argv envp f size entry step shoff shnum image hs ts j k)
    (Hsec : sections_harmless junk vec_ok fuel device task_junk s path shoff shnum)
    (Hstdio : std_files (files s) stdio fds) :
  ∃ t tk N s', sched_new_elf_process junk vec_ok fuel device task_junk path argv envp stdio s = Done s' ∧
    launched s image entry hs argv envp ts fds t tk N s'.
Proof. by eapply new_process_run. Qed.
