(* ===== verification/Tree.v ===== *)
(** * The tree of files as a map

    An abstract specification of the file systems: a finite map from paths to
    directories and files.  [represents] relates the nodes of [Vfs.v] to such a map,
    and the operations that build the tree - [vfs_mkdir], [vfs_mount], [vfs_open] of
    a new file, [tmpfs_create_file] - add an entry to it; [kept] is what they leave
    alone besides. *)

From S2P Require Import Prelude CInt Mem Boot Abi Vec Sched Heap Str Devices Vfs VfsSpec Tmpfs Devfs Ustar Task Elf Process Exec.

(** ** What the operations on the tree leave alone *)

Section keeps.
Context {H : Type} `{HeapLaws H} `{!FreshHeap H} (junk : Z → vnode) (vec_ok : Z → bool).
Implicit Types (v : vfs H).

(** Blocks stay allocated and keep their bytes, new nodes and mount points are not in
    them, and the old mount points and the root are as before. *)
Record kept v v' : Prop := Kept {
  kp_ok : heap_ok (vmem v') (vheap v');
  kp_live q k : live (vheap v) q k → live (vheap v') q k;
  kp_same a : settled (vheap v) a → vmem v' !! a = vmem v !! a;
  kp_fresh : fresh (vmem v) (vheap v) → fresh (vmem v') (vheap v');
  kp_new a q k : is_Some (nodes v' !! a) ∨ is_Some (mounts v' !! a) →
    nodes v !! a = None → mounts v !! a = None → live (vheap v) q k → 0 < k → a ≠ q;
  kp_mounts : mounts v ⊆ mounts v';
  kp_root : root v ≠ 0 → root v' = root v;
}.
Definition keeps v v' : Prop := heap_ok (vmem v) (vheap v) → kept v v'.

Lemma settled_kept v v' a : kept v v' → settled (vheap v) a → settled (vheap v') a.
Proof. intros K. apply settled_mono, (kp_live _ _ K). Qed.

#[export] Instance keeps_refl : Reflexive keeps.
Proof. intros v Hok. split; try done. intros a q k [[n Ha]|[n Ha]]; congruence. Qed.

Lemma kept_trans v1 v2 v3 : kept v1 v2 → kept v2 v3 → kept v1 v3.
Proof.
  intros [Ho2 L12 S12 F12 N12 M12 R12] [Ho3 L23 S23 F23 N23 M23 R23]. split; [done|auto| |auto| |by etrans|].
  - intros a Ha. rewrite S23, S12; [done|done|]. by eapply settled_mono.
  - intros a q k Ha Hn Hm Hq Hk. destruct (nodes v2 !! a) as [n|] eqn:Hn2; [eapply N12; eauto|].
    destruct (mounts v2 !! a) as [mp|] eqn:Hm2; [eapply N12; eauto|by eapply N23; eauto].
  - intros Hr. rewrite R23; [by apply R12|]. by rewrite R12.
Qed.

#[export] Instance keeps_trans : Transitive keeps.
Proof. intros v1 v2 v3 K12 K23 Hok. pose proof (K12 Hok) as K. apply (kept_trans v1 v2); [done|]. apply K23, K. Qed.

(** A block is allocated and written, and perhaps becomes a node. *)
Lemma block_keeps v n p m1 m2 h v' :
  0 < n < 2 ^ 31 → malloc n (vmem v) (vheap v) = Done (p, (m1, h)) →
  (∀ a, (p = 0 ∨ ¬ (p ≤ a < p + n)) → m2 !! a = m1 !! a) → (∀ a, is_Some (m1 !! a) → is_Some (m2 !! a)) →
  (vmem v', vheap v') = (m2, h) → mounts v ⊆ mounts v' → (root v ≠ 0 → root v' = root v) →
  (∀ a, is_Some (nodes v' !! a) ∨ is_Some (mounts v' !! a) →
     (is_Some (nodes v !! a) ∨ is_Some (mounts v !! a)) ∨ p ≠ 0 ∧ a = p) → keeps v v'.
Proof.
  intros Hn Hr Hout Hdom [= Hm Hh] Hms Hrt Hnew Hok.
  destruct (malloc_law n (vmem v) (vheap v) Hok) as (q & m' & h' & Hr' & Hok' & Hc); [lia|].
  rewrite Hr in Hr'. apply Done_triple_inj in Hr' as (<- & <- & <-).
  assert (∀ a, ¬ settled h a → m2 !! a = m1 !! a) as Hout'.
  { intros a Ha. apply Hout. destruct Hc as [(-> & _)|Hb]; [by left|right].
    intros Hin. apply Ha, (settled_live _ p n); [apply (nb_live _ _ _ _ _ _ Hb); by right|done]. }
  split.
  - rewrite Hm, Hh. by apply (heap_ok_writes m1).
  - intros x k Hx. rewrite Hh. destruct Hc as [(_ & _ & Hl)|Hb]; [by apply Hl|apply (nb_live _ _ _ _ _ _ Hb); by left].
  - intros a Ha. rewrite Hm. destruct Hc as [(-> & -> & _)|Hb]; [apply Hout; by left|].
    rewrite Hout; [by apply (nb_same _ _ _ _ _ _ Hb)|]. right.
    by apply (nb_apart _ _ _ _ _ _ a Hb).
  - intros Hf. destruct (fresh_malloc n _ _ p m1 h Hok Hf ltac:(lia) Hr) as [Hf1 _].
    rewrite Hm, Hh. by apply (fresh_writes m1).
  - intros a x k Ha Hno Hnm Hx Hk. destruct (Hnew a Ha) as [[[nd Hnd]|[nd Hnd]]|[Hp ->]]; [congruence..|].
    destruct Hc as [(? & _)|Hb]; [done|]. pose proof (nb_disjoint _ _ _ _ _ _ Hb _ _ Hx). lia.
  - done.
  - done.
Qed.

Lemma malloc_keeps v n p m h :
  0 < n < 2 ^ 31 → malloc n (vmem v) (vheap v) = Done (p, (m, h)) → keeps v (set_mem v m h).
Proof. intros Hn Hr. by eapply (block_keeps v n p m m h); try done; intros a; auto. Qed.

Lemma new_node_keeps t v p v' : new_node junk t v = Done (p, v') → keeps v v'.
Proof.
  unfold new_node. intros ([q [m h]] & Hr & Hd)%bind_Done_inv.
  destruct (Z.eqb_spec q 0) as [|Hq]; [done|]. injection Hd as <- <-.
  eapply (block_keeps v sizeof_VfsNode q m m h); cbn; try done.
  intros a [[n Ha]|Ha]; [|by left; right].
  apply lookup_insert_Some in Ha as [[<- _]|[_ Ha]]; [by right|left; left; by eexists].
Qed.

(** Steps that change nodes only. *)
Lemma nodes_keeps v ns : (∀ a, is_Some (ns !! a) → is_Some (nodes v !! a)) → keeps v (set_nodes v ns).
Proof.
  intros Hns Hok. split; try done. cbn. intros a q k [Ha|[n Ha]] Hno Hnm; [|congruence].
  apply Hns in Ha as [n Ha]. congruence.
Qed.

Lemma upd_node_keeps a f v v' : upd_node a f v = Done v' → keeps v v'.
Proof.
  intros (n & Hn & ->)%upd_node_inv. apply nodes_keeps. intros b Hb.
  apply lookup_insert_is_Some' in Hb as [<-|Hb]; [by eexists|done].
Qed.

Lemma push_child_keeps a c v v' : push_child vec_ok a c v = Done v' → keeps v v'.
Proof.
  unfold push_child. intros (n & _ & ([r w] & _ & Hu)%bind_Done_inv)%bind_Done_inv.
  by apply upd_node_keeps in Hu.
Qed.

Lemma err_keeps v e : keeps v (set_err v e).
Proof. intros Hok. split; try done. cbn. intros a q k [[n Ha]|[n Ha]]; congruence. Qed.

Lemma get_parent_keeps a path v p v' : vfs_get_parent a path v = Done (p, v') → keeps v v'.
Proof.
  unfold vfs_get_parent. intros (r & _ & Hr)%bind_Done_inv. destruct r as [node|node]; injection Hr as _ <-;
    [|reflexivity]. destruct (node =? 0); [apply err_keeps|reflexivity].
Qed.
End keeps.

(** Goes through the binds of a run, collecting what each step keeps. *)
Ltac run_keeps Hr :=
  repeat (let x := fresh "x" in let Hs := fresh "Hs" in
    lazymatch type of Hr with _ ≫= _ = _ => idtac end;
    apply bind_Done_inv in Hr as (x & Hs & Hr);
    try match type of x with (_ * _)%type => destruct x end;
    first [apply new_node_keeps in Hs | apply upd_node_keeps in Hs | apply push_child_keeps in Hs
          | apply get_parent_keeps in Hs | idtac]).
Ltac chain_keeps :=
  repeat match goal with
  | |- keeps ?v ?v => reflexivity
  | K : keeps ?v ?w |- keeps ?v _ => transitivity w; [exact K|]; clear K
  end.

Section runs.
Context {H : Type} `{HeapLaws H} `{!FreshHeap H} (junk : Z → vnode) (vec_ok : Z → bool).
Implicit Types (v : vfs H).

Lemma mkdir_keeps path v p v' :
  is_root path = false → vfs_mkdir junk vec_ok path v = Done (p, v') → keeps v v'.
Proof.
  intros Hp Hr. unfold vfs_mkdir in Hr. rewrite Hp in Hr. cbn [negb] in Hr.
  run_keeps Hr. destruct (_ =? 0).
  - injection Hr as _ <-. chain_keeps. apply err_keeps.
  - run_keeps Hr. injection Hr as _ <-. chain_keeps.
Qed.

Lemma create_file_keeps nm addr size v v' :
  0 ≤ size < small → tmpfs_create_file junk vec_ok nm addr size v = Done v' → keeps v v'.
Proof.
  intros Hsize Hr. unfold small in Hsize. unfold tmpfs_create_file in Hr. run_keeps Hr.
  match goal with M : malloc _ _ _ = Done (_, ?mh) |- _ =>
    destruct mh as [m h]; apply malloc_keeps in M; [|rewrite u64_id by (unfold is_u64; simpl; lia); lia] end.
  run_keeps Hr. apply push_child_keeps in Hr. chain_keeps.
Qed.

Lemma open_keeps start path flags v p v' : vfs_open junk vec_ok start path flags v = Done (p, v') → keeps v v'.
Proof.
  intros Hr. unfold vfs_open in Hr. apply bind_Done_inv in Hr as ([par v1] & Hpar%get_parent_keeps & Hr).
  destruct (par =? 0); [injection Hr as _ <-; chain_keeps; apply err_keeps|].
  apply bind_Done_inv in Hr as (node & _ & Hr). apply bind_Done_inv in Hr as ([] & _ & Hr);
    [injection Hr as _ <-; chain_keeps; apply err_keeps|].
  destruct (negb (Z.land flags O_CREAT =? 0)), (node =? 0); cbn [negb] in Hr.
  - run_keeps Hr. match goal with M : malloc _ _ _ = Done (_, ?mh) |- _ =>
      destruct mh as [m h]; apply malloc_keeps in M; [|lia] end.
    run_keeps Hr. injection Hr as _ <-. chain_keeps.
  - run_keeps Hr. injection Hr as _ <-. chain_keeps.
  - injection Hr as _ <-. chain_keeps. apply err_keeps.
  - run_keeps Hr. injection Hr as _ <-. chain_keeps.
Qed.

(** A new mount point. *)
Lemma mount_block_keeps v mp x m h v' :
  (∀ a y, mounts v !! a = Some y → live (vheap v) a sizeof_Mountpoint) →
  malloc sizeof_Mountpoint (vmem v) (vheap v) = Done (mp, (m, h)) → mp ≠ 0 → (vmem v', vheap v') = (m, h) →
  mounts v' = <[mp := x]> (mounts v) → (root v ≠ 0 → root v' = root v) →
  (∀ b, is_Some (nodes v' !! b) → is_Some (nodes v !! b)) → keeps v v'.
Proof.
  intros Hlm Hr Hne Hmh Hms Hrt Hns Hok.
  assert (mounts v !! mp = None) as Hfr.
  { destruct (malloc_law sizeof_Mountpoint _ _ Hok) as (q & m1 & h1 & Hr1 & _ & Hc); [unfold sizeof_Mountpoint; lia|].
    rewrite Hr in Hr1. apply Done_triple_inj in Hr1 as (<- & <- & <-). destruct Hc as [[? _]|Hb]; [done|].
    destruct (mounts v !! mp) as [y|] eqn:Hy; [|done].
    pose proof (nb_disjoint _ _ _ _ _ _ Hb _ _ (Hlm _ _ Hy)). unfold sizeof_Mountpoint in *. lia. }
  apply (block_keeps v sizeof_Mountpoint mp m m h); try done.
  - rewrite Hms. by apply insert_subseteq.
  - intros a [Ha|Ha]; [left; left; by apply Hns|]. rewrite Hms in Ha.
    apply lookup_insert_is_Some' in Ha as [<-|Ha]; [by right|left; by right].
Qed.
End runs.

(** ** Mount points *)

Section mount.
Context {H : Type} `{HeapLaws H} (junk : Z → vnode) (vec_ok : Z → bool) (limit : Z).
Context (Hclean : clean junk) (Hlimit : limit ≤ 2 ^ 31)
  (Hrealloc : ∀ b, 0 ≤ b < limit → vec_ok b = true).
Implicit Types (v : vfs H).

(** The mount points, which only [vfs_mount] and a [vfs_mkdir] of the root touch. *)
Definition tables v : gmap Z mount * list mount := (mounts v, mountpoints v).

Lemma new_node_tables t v p v' : new_node junk t v = Done (p, v') → tables v' = tables v.
Proof. unfold new_node. intros ([q [m h]] & _ & Hr)%bind_Done_inv. destruct (q =? 0); [done|]. by injection Hr as _ <-. Qed.

Lemma upd_node_tables a f v v' : upd_node a f v = Done v' → tables v' = tables v.
Proof. by intros (n & _ & ->)%upd_node_inv. Qed.

Lemma push_child_tables a c v v' : push_child vec_ok a c v = Done v' → tables v' = tables v.
Proof.
  unfold push_child. intros (n & _ & ([r w] & _ & Hu)%bind_Done_inv)%bind_Done_inv.
  by apply upd_node_tables in Hu.
Qed.

Lemma get_parent_tables a path v p v' : vfs_get_parent a path v = Done (p, v') → tables v' = tables v.
Proof.
  unfold vfs_get_parent. intros (r & _ & Hr)%bind_Done_inv. destruct r as [node|node]; injection Hr as _ <-; [|done].
  by destruct (node =? 0).
Qed.

(** Goes through the binds of a run, keeping the tables. *)
Ltac run_tables Hr :=
  repeat (let x := fresh "x" in let Hs := fresh "Hs" in
    lazymatch type of Hr with _ ≫= _ = _ => idtac end;
    apply bind_Done_inv in Hr as (x & Hs & Hr);
    try match type of x with (_ * _)%type => destruct x end;
    first [apply new_node_tables in Hs | apply upd_node_tables in Hs | apply push_child_tables in Hs
          | apply get_parent_tables in Hs | idtac]).

Lemma mkdir_tables path v p v' :
  is_root path = false → vfs_mkdir junk vec_ok path v = Done (p, v') → tables v' = tables v.
Proof.
  intros Hp Hr. unfold vfs_mkdir in Hr. rewrite Hp in Hr. cbn [negb] in Hr.
  run_tables Hr. destruct (_ =? 0).
  - injection Hr as _ <-. unfold tables in *. cbn in *. congruence.
  - run_tables Hr. injection Hr as _ <-. congruence.
Qed.

Lemma create_file_tables nm addr size v v' :
  tmpfs_create_file junk vec_ok nm addr size v = Done v' → tables v' = tables v.
Proof.
  intros Hr. unfold tmpfs_create_file in Hr. run_tables Hr.
  match goal with M : malloc _ _ _ = Done (_, ?mh) |- _ => destruct mh as [m h] end. run_tables Hr.
  apply push_child_tables in Hr. unfold tables in *. cbn in *. congruence.
Qed.

Lemma open_tables start path flags v p v' :
  vfs_open junk vec_ok start path flags v = Done (p, v') → tables v' = tables v.
Proof.
  intros Hr. unfold vfs_open in Hr. apply bind_Done_inv in Hr as ([par v1] & Hpar%get_parent_tables & Hr).
  destruct (par =? 0); [by injection Hr as _ <-|].
  apply bind_Done_inv in Hr as (node & _ & Hr). apply bind_Done_inv in Hr as ([] & _ & Hr);
    [by injection Hr as _ <-|].
  destruct (negb (Z.land flags O_CREAT =? 0)), (node =? 0); cbn [negb] in Hr.
  - run_tables Hr. destruct p0 as [m h]. run_tables Hr. injection Hr as _ <-. unfold tables in *. cbn in *. congruence.
  - run_tables Hr. injection Hr as _ <-. congruence.
  - by injection Hr as _ <-.
  - run_tables Hr. injection Hr as _ <-. congruence.
Qed.

(** Changing the new node, but not its name, leaves it linked. *)
Lemma linked_set (ns ns' : gmap Z vnode) par x nm n n' :
  linked ns ns' par x nm → is_Some (ns !! par) → x ≠ 0 →
  ns' !! x = Some n → name n' = name n → linked ns (<[x := n']> ns') par x nm.
Proof.
  intros [(q & q' & Hq & Hq' & Hqn & Hqp & Hqk) Hfr (n0 & HN0 & Hnm) Hold Hz Hkind] [p Hp] Hx Hn Hname.
  assert (x ≠ par) by congruence. split.
  - exists q, q'. by rewrite lookup_insert_ne.
  - done.
  - exists n'. rewrite lookup_insert_eq. split; congruence.
  - intros b Hb Hne. rewrite lookup_insert_ne; [by apply Hold|]. intros <-. rewrite Hfr in Hb. by destruct Hb.
  - by rewrite lookup_insert_ne.
  - intros y y' Hy Hy'. rewrite lookup_insert_ne in Hy' by done. by apply Hkind.
Qed.

(** Mounting a file system on a new directory: the directory is made, and its
    mount point has the file system. *)
Lemma mount_dir_run v cs c par p f k :
  vfs_wf v → in_dir v cs c par p → root v ≠ 0 → room (4 + k) (vheap v) →
  fits 8 limit (length (kids p) + 2) = true → (length (mountpoints v) < 64)%nat →
  ∃ N n v', vfs_mount junk vec_ok (path_of (cs ++ [c])) f v = Done (0, v') ∧ vfs_wf v' ∧
    linked (nodes v) (nodes v') par N c ∧ nodes v' !! N = Some n ∧ n_type n = VFS_DIRECTORY ∧
    mounts v' !! mountpoint n = Some (Mount (Some f) None) ∧ root v' = root v ∧ room k (vheap v') ∧
    (length (kids n) ≤ 2)%nat ∧ plain v' N ∧
    (∀ nm, nm ≠ [0x2e; 0x2e] → nm ≠ [0x2e] → lookup_name (nodes v') N nm = 0) ∧
    points_to n = 0 ∧ (aliases (nodes v) → points_to p = 0 → aliases (nodes v')) ∧
    mountpoints v' = mountpoints v ++ [Mount (Some f) None] ∧
    ∃ v1 mp, vfs_mkdir junk vec_ok (path_of (cs ++ [c])) v = Done (N, v1) ∧
      malloc sizeof_Mountpoint (vmem v1) (vheap v1) = Done (mp, (vmem v', vheap v')) ∧ mp ≠ 0 ∧
      mounts v' = <[mp := Mount (Some f) None]> (mounts v1) ∧ root v1 = root v ∧ vfs_wf v1 ∧
      ∀ b, is_Some (nodes v' !! b) → is_Some (nodes v1 !! b).
Proof.
  intros Hwf Hd Hroot Hk Hfit Htab.
  destruct (mkdir_run junk vec_ok limit Hclean Hlimit Hrealloc v cs c par p (1 + k))
    as (N & v1 & Hr & Hlk & Hdm & Hk1 & _); [done..|].
  assert (vfs_inv v) as Hinv by (split; [done|left; apply Hd]).
  destruct (mkdir_grows junk vec_ok Hclean v _ _ _ Hinv Hr) as [[Hwf1 Hdom Hroot1] _].
  assert (is_name c) as Hc
    by (destruct Hd as [Hn _ _ _]; apply Forall_app in Hn as [_ Hn]; by apply Forall_cons_1 in Hn as [? _]).
  pose proof (mkdir_tables _ _ _ _ (path_of_root cs c Hc) Hr) as [= Hmt Htb].
  destruct (lk_new _ _ _ _ _ Hlk) as (n & HN & _).
  destruct (new_mount_ok v1 k Hwf1 Hk1) as (mp & m & h & Hmp & Hwf2 & Hk2 & Hmal & Hmp0).
  set (v2 := set_mounts _ _) in Hmp, Hwf2.
  assert (nodes v2 !! N = Some n) as HN2 by exact HN.
  pose proof (upd_node_eq v2 N n (set_mountpoint mp) HN2) as Hu. set (n' := set_mountpoint mp n) in Hu.
  set (v3 := set_nodes v2 _) in Hu.
  assert (vfs_mount junk vec_ok (path_of (cs ++ [c])) f v =
    Done (0, set_table (set_mounts v3 (<[mp := Mount (Some f) None]> (mounts v1)))
               (mountpoints v ++ [Mount (Some f) None]))) as Hrun.
  { unfold vfs_mount. rewrite (proj2 (Z.eqb_neq _ _) Hroot), Hr. cbn [mbind res_bind].
    rewrite Hmp. cbn [mbind res_bind]. rewrite Hu. cbn [mbind res_bind].
    unfold upd_mount, add_mountpoint, node_at, v3, v2. cbn. rewrite lookup_insert_eq. cbn.
    rewrite lookup_insert_eq. cbn. rewrite lookup_insert_eq. cbn. rewrite Htb, bool_decide_true by done. cbn.
    by rewrite insert_insert_eq. }
  eexists N, n', _. split; [exact Hrun|]. split; [by eapply (mount_inv junk vec_ok Hclean); [exact Hinv|exact Hrun]|].
  cbn [nodes mounts mountpoints root vmem vheap set_table set_mounts].
  split_and!.
  - apply (linked_set _ _ _ _ _ n); try done; [eexists; apply Hd|]. pose proof (wf_pos v1 N n Hwf1 HN). lia.
  - unfold v3. cbn. apply lookup_insert_eq.
  - pose proof (dm_type _ _ _ _ Hdm) as Hty. rewrite HN in Hty. by injection Hty.
  - cbn. apply lookup_insert_eq.
  - done.
  - done.
  - pose proof (dm_kids _ _ _ _ Hdm) as Hkd. rewrite HN in Hkd. injection Hkd as Hkd.
    change (kids n') with (kids n). lia.
  - intros b nb Hb Hpt Hne. cbn [nodes set_table set_mounts] in Hb. unfold v3, v2 in Hb. cbn in Hb.
    rewrite lookup_insert_ne in Hb by done. by apply (dm_plain _ _ _ _ Hdm b nb).
  - intros nm H1' H2'. rewrite <-(dm_empty _ _ _ _ Hdm nm H1' H2'). apply lookup_name_shape.
    intros b. unfold v3, v2. cbn. destruct (decide (b = N)) as [->|]; [by rewrite lookup_insert_eq, HN|].
    by rewrite lookup_insert_ne.
  - pose proof (dm_points _ _ _ _ Hdm) as Hpts. rewrite HN in Hpts. by injection Hpts.
  - intros Hal Hp0. unfold v3, v2. cbn. apply aliases_insert.
    + apply (dm_aliases _ _ _ _ Hdm); [done|]. rewrite (id_par _ _ _ _ _ Hd). cbn. by rewrite Hp0.
    + intros Hx. pose proof (dm_points _ _ _ _ Hdm) as Hpts. rewrite HN in Hpts. cbn in Hpts, Hx. congruence.
  - done.
  - exists v1, mp. split_and!; [done..|]. unfold v3, v2. cbn.
    intros b [<-|Hb]%lookup_insert_is_Some'; [by eexists|done].
Qed.
End mount.

(** ** The tree as a map from paths *)

(** A directory, a file of the boot image, or another file; of which file system. *)
Inductive entry : Type :=
  | Dir (f : filesystem)
  | File (size addr : Z)
  | Special (f : filesystem).
Definition entry_fs (e : entry) : filesystem :=
  match e with Dir f => f | File _ _ => TMPFS | Special f => f end.

Abbreviation tree := (gmap (list (list Z)) entry).

Definition dots : list (list Z) := [[0x2e]; [0x2e; 0x2e]].

Section tree.
Context {H : Type} `{HeapLaws H} `{!FreshHeap H}.
Implicit Types (v : vfs H).

Definition on_fs v (n : vnode) (f : filesystem) : Prop := ∃ mp, mounts v !! mountpoint n = Some mp ∧ fs mp = Some f.

(** The node at [x] is what the map has.  A file's data is still in the image, and
    its buffer is not there. *)
Definition entry_at v (x : Z) (e : entry) : Prop :=
  ∃ n, nodes v !! x = Some n ∧ points_to n = 0 ∧ on_fs v n (entry_fs e) ∧
    match e with
    | Dir _ => n_type n = VFS_DIRECTORY
    | Special _ => n_type n = VFS_FILE
    | File size addr => n_type n = VFS_FILE ∧ file v x n (size + 1) ∧ st_size n = size ∧
        internal_address n = addr ∧ init n = false ∧
        (addr + size ≤ address n ∨ address n + (size + 1) ≤ addr)
    end.

(** The node a path leads to. *)
Definition at_path v (d : list (list Z)) : Z := walk (nodes v) (root v) d.

Record represents v (T : tree) : Prop := Represents {
  rp_wf : vfs_wf v;
  rp_aliases : aliases (nodes v);
  rp_top : T !! [] = Some (Dir TMPFS);
  rp_path d c e : T !! (d ++ [c]) = Some e → (∃ f, T !! d = Some (Dir f)) ∧ Forall is_name (d ++ [c]);
  rp_entry d e : T !! d = Some e → entry_at v (at_path v d) e;
  rp_names d c f : T !! d = Some (Dir f) → c ∉ dots → lookup_name (nodes v) (at_path v d) c ≠ 0 →
    is_Some (T !! (d ++ [c]));
  rp_kids d n f : T !! d = Some (Dir f) → nodes v !! at_path v d = Some n → (length (kids n) ≤ size T + 2)%nat;
  rp_inj d d' f f' : T !! d = Some (Dir f) → T !! d' = Some (Dir f') → at_path v d = at_path v d' → d = d';
}.

(** One more entry, [x] under the name [c] in the directory [cs]. *)
Section add.
Context v v' (T : tree) (cs : list (list Z)) (c : list Z) (x : Z) (e : entry) (g : filesystem).
Context (Hrep : represents v T) (Hcs : T !! cs = Some (Dir g)) (Hno : T !! (cs ++ [c]) = None).
Context (Hnames : Forall is_name (cs ++ [c])) (Hc : c ∉ dots) (Hlk : linked (nodes v) (nodes v') (at_path v cs) x c).
Context (Hkept : kept v v') (Hwf' : vfs_wf v').

Lemma add_root : root v' = root v.
Proof.
  apply (kp_root _ _ Hkept). intros Hz. destruct (rp_entry _ _ Hrep [] (Dir TMPFS) (rp_top _ _ Hrep)) as (n & Hn & _).
  unfold at_path in Hn. cbn in Hn. pose proof (wf_pos v _ n (rp_wf _ _ Hrep) Hn). lia.
Qed.

Lemma entry_pos a d : entry_at v a d → a ≠ 0.
Proof. intros (n & Hn & _). pose proof (wf_pos v a n (rp_wf _ _ Hrep) Hn). lia. Qed.

Lemma add_plain : plain v (at_path v cs).
Proof.
  intros a n Ha Hpt _. apply (rp_aliases _ _ Hrep a n Ha). rewrite Hpt.
  by eapply entry_pos, rp_entry.
Qed.

Lemma add_absent : lookup_name (nodes v) (at_path v cs) c = 0.
Proof.
  destruct (decide (lookup_name (nodes v) (at_path v cs) c = 0)) as [|Hne]; [done|].
  apply (rp_names _ _ Hrep cs c g Hcs Hc) in Hne. rewrite Hno in Hne. by destruct Hne.
Qed.

(** Old paths lead where they led, the new one to [x]. *)
Lemma add_old_path d k : T !! d = Some k → at_path v' d = at_path v d.
Proof.
  intros Hd. unfold at_path. rewrite add_root.
  apply (linked_walk v (nodes v') (at_path v cs) x c); [apply Hrep|done|apply add_plain| |].
  - destruct (rp_entry _ _ Hrep [] (Dir TMPFS) (rp_top _ _ Hrep)) as (n & Hn & _). unfold at_path in Hn.
    cbn in Hn. by eexists.
  - by eapply entry_pos, rp_entry.
Qed.

Lemma add_new_path : at_path v' (cs ++ [c]) = x.
Proof.
  unfold at_path. rewrite walk_app. fold (at_path v' cs). rewrite (add_old_path cs (Dir g) Hcs). cbn.
  rewrite (linked_lookup v (nodes v') (at_path v cs) x c) by (done || apply Hrep).
  by rewrite add_absent, bool_decide_true.
Qed.

Lemma add_old_node d k n : T !! d = Some k → nodes v !! at_path v d = Some n → d ≠ cs →
  ((∃ f, k = Dir f) ∨ n_type n = VFS_FILE) → nodes v' !! at_path v d = Some n.
Proof.
  intros Hd Hn Hne Hk. rewrite (lk_old _ _ _ _ _ Hlk); [done|by eexists|]. intros Heq.
  destruct Hk as [[f ->]|Ht]; [by apply Hne, (rp_inj _ _ Hrep d cs f g)|].
  destruct (rp_entry _ _ Hrep cs (Dir g) Hcs) as (p & Hp & _ & _ & Htp). rewrite <-Heq, Hn in Hp. congruence.
Qed.
Lemma on_fs_kept n n' f : on_fs v n f → mountpoint n' = mountpoint n → on_fs v' n' f.
Proof.
  intros (mp & Hmp & Hf) Heq. exists mp. split; [|done]. rewrite Heq. by apply (lookup_weaken _ _ _ _ Hmp), (kp_mounts _ _ Hkept).
Qed.

Lemma file_kept a n k : file v a n k → nodes v' !! a = Some n → file v' a n k.
Proof.
  intros [Hn Hb Hs Hk Hown] Hn'. split; [done|by apply (kp_live _ _ Hkept)|done|done|]. intros b Hb'.
  destruct (nodes v !! b) as [nb|] eqn:Hnb; [apply Hown; left; by eexists|].
  destruct (mounts v !! b) as [mb|] eqn:Hmb; [apply Hown; right; by eexists|].
  apply (kp_new _ _ Hkept b _ k Hb' Hnb Hmb Hb). lia.
Qed.

Lemma add_entry d k : T !! d = Some k → entry_at v' (at_path v d) k.
Proof.
  intros Hd. destruct (rp_entry _ _ Hrep d k Hd) as (n & Hn & Hpt & Hmp & Hk).
  destruct (decide (at_path v d = at_path v cs)) as [Heq|Hne].
  - destruct (lk_par _ _ _ _ _ Hlk) as (p & p' & Hp & Hp' & _ & Hpp & _).
    destruct (lk_kind _ _ _ _ _ Hlk p p' Hp Hp') as [Ht Hm]. rewrite Heq in *.
    assert (n = p) as -> by congruence.
    destruct (rp_entry _ _ Hrep cs (Dir g) Hcs) as (p2 & Hp2 & _ & _ & Htp). assert (p2 = p) as -> by congruence.
    exists p'. split; [done|]. split; [congruence|]. split; [by apply (on_fs_kept p)|].
    destruct k; [congruence|destruct Hk as [? _]; congruence|congruence].
  - assert (nodes v' !! at_path v d = Some n) as Hn' by (rewrite (lk_old _ _ _ _ _ Hlk); [done|by eexists|done]).
    exists n. split; [done|]. split; [done|]. split; [by apply (on_fs_kept n)|].
    destruct k; [done| |done]. destruct Hk as (? & Hf & ?). split; [done|]. split; [by apply file_kept|done].
Qed.

(** What another directory has under a name is as before. *)
Lemma add_lookup d c' f : T !! d = Some (Dir f) →
  lookup_name (nodes v') (at_path v d) c' =
    if bool_decide (d = cs ∧ c' = c) then x else lookup_name (nodes v) (at_path v d) c'.
Proof.
  intros Hd. pose proof (rp_wf _ _ Hrep) as Hwf. destruct (decide (d = cs)) as [->|Hne].
  - rewrite (linked_lookup v (nodes v') (at_path v cs) x c) by done.
    destruct (decide (c' = c)) as [->|Hcc].
    + by rewrite add_absent, !bool_decide_true.
    + rewrite !bool_decide_false by naive_solver. by destruct (Z.eqb_spec (lookup_name (nodes v) (at_path v cs) c') 0) as [->|].
  - rewrite bool_decide_false by naive_solver.
    destruct (rp_entry _ _ Hrep d (Dir f) Hd) as (n & Hn & Hpt & _).
    apply (linked_other v (nodes v') (at_path v cs) x c Hwf Hlk (at_path v d) n); [done| |].
    + intros Heq. by apply Hne, (rp_inj _ _ Hrep d cs f g).
    + rewrite Hpt. intros Hz. by eapply entry_pos; [apply (rp_entry _ _ Hrep cs (Dir g) Hcs)|].
Qed.

Lemma represents_add :
  aliases (nodes v') → entry_at v' x e →
  ((∃ f, e = Dir f) → (∀ c', c' ∉ dots → lookup_name (nodes v') x c' = 0) ∧
     ∀ n, nodes v' !! x = Some n → (length (kids n) ≤ 2)%nat) →
  represents v' (<[cs ++ [c] := e]> T).
Proof.
  intros Hal Hx Hdir.
  assert (∀ d k, <[cs ++ [c] := e]> T !! d = Some k →
    d = cs ++ [c] ∧ k = e ∧ at_path v' d = x ∨ T !! d = Some k ∧ at_path v' d = at_path v d) as Hcase.
  { intros d k [[<- <-]|[_ Hd]]%lookup_insert_Some; [left; split; [done|split; [done|apply add_new_path]]|right].
    split; [done|by eapply add_old_path]. }
  assert (∀ d f, T !! d = Some (Dir f) → at_path v d ≠ x) as Hfresh.
  { intros d f Hd Heq. destruct (rp_entry _ _ Hrep d (Dir f) Hd) as (n & Hn & _).
    rewrite Heq, (lk_fresh _ _ _ _ _ Hlk) in Hn. done. }
  split.
  - done.
  - done.
  - rewrite lookup_insert_ne; [apply Hrep|]. by destruct cs.
  - intros d c' k [(Heq & _ & _)|[Hd _]]%Hcase.
    + apply app_inj_tail in Heq as [-> ->]. split; [|done].
      exists g. rewrite lookup_insert_ne; [done|]. intros Heq. apply (f_equal length) in Heq. rewrite length_app in Heq. simpl in Heq. lia.
    + destruct (rp_path _ _ Hrep d c' k Hd) as [[f Hdd] ?]. split; [|done].
      exists f. rewrite lookup_insert_ne; [done|]. intros <-. congruence.
  - intros d k [(-> & -> & ->)|[Hd ->]]%Hcase; [done|by apply add_entry].
  - intros d c' f [(-> & <- & ->)|[Hd ->]]%Hcase Hc' Hl; [by rewrite (proj1 (Hdir (ex_intro _ f eq_refl))) in Hl|].
    rewrite (add_lookup d c' f Hd) in Hl. apply lookup_insert_is_Some'.
    case_bool_decide as Hd'; [destruct Hd' as [-> ->]; by left|right; by apply (rp_names _ _ Hrep d c' f)].
  - intros d n f Hd Hn. rewrite map_size_insert_None by done.
    destruct (Hcase _ _ Hd) as [(-> & <- & Ha)|[Hd' Ha]]; rewrite Ha in Hn.
    + pose proof (proj2 (Hdir (ex_intro _ f eq_refl)) n Hn). lia.
    + destruct (rp_entry _ _ Hrep d (Dir f) Hd') as (n0 & Hn0 & _).
      pose proof (rp_kids _ _ Hrep d n0 f Hd' Hn0).
      destruct (decide (d = cs)) as [->|Hne].
      * destruct (lk_par _ _ _ _ _ Hlk) as (p & p' & Hp & Hp' & _ & _ & Hk).
        assert (n = p') as -> by congruence. assert (n0 = p) as -> by congruence.
        rewrite Hk, length_app. simpl. lia.
      * rewrite (add_old_node d (Dir f) n0 Hd' Hn0 Hne) in Hn by (left; by eexists). injection Hn as <-. lia.
  - intros d d' f f' [(-> & _ & ->)|[Hd ->]]%Hcase [(-> & _ & ->)|[Hd' ->]]%Hcase Heq; try done.
    + by destruct (Hfresh d' f' Hd').
    + by destruct (Hfresh d f Hd).
    + by apply (rp_inj _ _ Hrep d d' f f').
Qed.
End add.

Context (junk : Z → vnode) (vec_ok : Z → bool) (limit : Z).
Context (Hclean : clean junk) (Hlimit : limit ≤ 2 ^ 31)
  (Hrealloc : ∀ b, 0 ≤ b < limit → vec_ok b = true).

(** A path that can be added, in a directory of [g]. *)
Record addable (T : tree) (g : filesystem) (cs : list (list Z)) (c : list Z) : Prop := Addable {
  ad_dir : T !! cs = Some (Dir g);
  ad_new : T !! (cs ++ [c]) = None;
  ad_names : Forall is_name (cs ++ [c]);
  ad_dots : c ∉ dots;
}.

Lemma addable_in_dir v T g cs c : represents v T → addable T g cs c →
  ∃ p, in_dir v cs c (at_path v cs) p ∧ (length (kids p) ≤ size T + 2)%nat ∧ points_to p = 0 ∧ on_fs v p g.
Proof.
  intros Hrep [Hcs _ Hn _]. destruct (rp_entry _ _ Hrep cs (Dir g) Hcs) as (p & Hp & Hpt & Hmp & _).
  exists p. split; [|split; [by eapply rp_kids|done]]. split; [done| |done|done].
  destruct (rp_entry _ _ Hrep [] (Dir TMPFS) (rp_top _ _ Hrep)) as (n & Hr & _). unfold at_path in Hr. cbn in Hr. by eexists.
Qed.

Lemma addable_name T g cs c : addable T g cs c → is_name c.
Proof.
  intros Had. pose proof (ad_names _ _ _ _ Had) as Hn. apply Forall_app in Hn as [_ Hn]. by apply Forall_cons_1 in Hn as [? _].
Qed.

Lemma root_on_fs v T r : represents v T → nodes v !! root v = Some r → on_fs v r TMPFS.
Proof.
  intros Hrep Hr. destruct (rp_entry _ _ Hrep [] (Dir TMPFS) (rp_top _ _ Hrep)) as (rn & Hrn & _ & Hrm & _).
  unfold at_path in Hrn. cbn in Hrn. rewrite Hr in Hrn. by injection Hrn as ->.
Qed.

Lemma mkdir_represents v T g cs c k :
  represents v T → addable T g cs c → room (3 + k) (vheap v) → fits 8 limit (size T + 4) = true →
  ∃ N v', vfs_mkdir junk vec_ok (path_of (cs ++ [c])) v = Done (N, v') ∧
    represents v' (<[cs ++ [c] := Dir TMPFS]> T) ∧ kept v v' ∧ room k (vheap v') ∧ mountpoints v' = mountpoints v.
Proof.
  intros Hrep Had Hk Hfit. destruct (addable_in_dir v T g cs c Hrep Had) as (p & Hd & Hkids & Hpt & _).
  pose proof (rp_wf _ _ Hrep) as Hwf.
  destruct (mkdir_run junk vec_ok limit Hclean Hlimit Hrealloc v cs c (at_path v cs) p k Hwf Hd Hk)
    as (N & v' & Hr & Hlk & Hdm & Hk' & _); [eapply fits_le; [|exact Hfit]; lia|].
  pose proof (addable_name _ _ _ _ Had) as Hc.
  pose proof (mkdir_tables junk vec_ok _ _ _ _ (path_of_root cs c Hc) Hr) as [= _ Htab].
  pose proof (mkdir_keeps junk vec_ok _ _ _ _ (path_of_root cs c Hc) Hr (wf_heap v Hwf)) as Hkept.
  destruct (mkdir_grows junk vec_ok Hclean v _ _ _ (conj Hwf (or_introl (id_root _ _ _ _ _ Hd))) Hr) as [[Hwf' _ _] _].
  exists N, v'. split; [done|]. split; [|done].
  pose proof (id_par _ _ _ _ _ Hd) as Hp.
  apply (represents_add v v' T cs c N (Dir TMPFS) g); try apply Had; try done.
  - apply (dm_aliases _ _ _ _ Hdm); [apply Hrep|by rewrite Hp; cbn; rewrite Hpt].
  - destruct (lk_new _ _ _ _ _ Hlk) as (n & Hn & _). exists n.
    destruct Hdm as [Hty _ Hmp _ _ _ _ _ Hpts _]. rewrite Hn in Hty, Hmp, Hpts. cbn in Hty, Hmp, Hpts.
    injection Hty as Hty. injection Hpts as Hpts. split_and!; try done.
    destruct (id_root _ _ _ _ _ Hd) as [rn Hrn]. rewrite Hrn in Hmp. injection Hmp as Hmp.
    apply (on_fs_kept v v' Hkept rn); [by eapply root_on_fs|done].
  - intros _. split.
    + intros c' Hc'. apply (dm_empty _ _ _ _ Hdm); intros ->; apply Hc'; unfold dots; set_solver.
    + intros n Hn. pose proof (dm_kids _ _ _ _ Hdm) as Hkd. rewrite Hn in Hkd. injection Hkd as Hkd. lia.
Qed.

Lemma create_represents v T cs c addr sz k :
  (∀ a, init (junk a) = false) →
  represents v T → addable T TMPFS cs c → 0 ≤ sz < small → (∀ i, 0 ≤ i < sz → settled (vheap v) (addr + i)) →
  room (2 + k) (vheap v) → fits 8 limit (size T + 4) = true →
  ∃ v', tmpfs_create_file junk vec_ok (path_of (cs ++ [c])) addr sz v = Done v' ∧
    represents v' (<[cs ++ [c] := File sz addr]> T) ∧ kept v v' ∧ room k (vheap v') ∧ mountpoints v' = mountpoints v.
Proof.
  intros Hinit Hrep Had Hsz Himg Hk Hfit.
  destruct (addable_in_dir v T TMPFS cs c Hrep Had) as (p & Hd & Hkids & Hpt & Hmp).
  pose proof (rp_wf _ _ Hrep) as Hwf.
  destruct (create_file_run junk vec_ok limit v cs c (at_path v cs) p addr sz k)
    as (f & n & v' & Hr & Hwf' & Hlk & Hf & Hty & _ & Hnm & Hsize & Hint & Hin & Hk' & Hpts & Hal & Hapart);
    [done..|eapply fits_le; [|exact Hfit]; lia|].
  pose proof (create_file_keeps junk vec_ok _ _ _ _ _ Hsz Hr (wf_heap v Hwf)) as Hkept.
  pose proof (create_file_tables junk vec_ok _ _ _ _ _ Hr) as [= _ Htab].
  exists v'. split; [done|]. split; [|done].
  apply (represents_add v v' T cs c f (File sz addr) TMPFS); try apply Had; try done.
  - apply Hal; [apply Hrep|done].
  - exists n. split; [apply Hf|]. split; [done|]. split; [by apply (on_fs_kept v v' Hkept p)|].
    split; [done|]. split; [done|]. split; [done|]. split; [done|]. split; [by rewrite Hin|].
    assert (∀ x, addr ≤ x < addr + sz → x < address n ∨ address n + (sz + 1) ≤ x) as Hout.
    { intros x Hx. pose proof (Hapart (addr + (x - addr)) (Himg (x - addr) ltac:(lia))). lia. }
    pose proof (Hout addr). pose proof (Hout (address n)). lia.
  - by intros [f' ?].
Qed.

(** Opening a new file makes one of the directory's file system. *)
Lemma open_represents v T g cs c start flags k :
  represents v T → addable T g cs c → Z.land flags O_CREAT ≠ 0 → room (2 + k) (vheap v) →
  fits 8 limit (size T + 4) = true →
  ∃ f v', vfs_open junk vec_ok start (path_of (cs ++ [c])) flags v = Done (f, v') ∧
    represents v' (<[cs ++ [c] := Special g]> T) ∧ kept v v' ∧ room k (vheap v') ∧ mountpoints v' = mountpoints v.
Proof.
  intros Hrep Had Hcr Hk Hfit. destruct (addable_in_dir v T g cs c Hrep Had) as (p & Hd & Hkids & Hpt & Hmp).
  pose proof (rp_wf _ _ Hrep) as Hwf.
  assert (lookup_name (nodes v) (at_path v cs) c = 0) as Hno
    by (apply (add_absent v T cs c g Hrep); apply Had).
  destruct (create_run junk vec_ok limit Hclean Hlimit Hrealloc start v cs c (at_path v cs) p flags k)
    as (f & v' & n & Hr & Hlk & Hfm & Hk' & _ & _ & Hwf'); [done..|eapply fits_le; [|exact Hfit]; lia|].
  pose proof (open_keeps junk vec_ok _ _ _ _ _ _ Hr (wf_heap v Hwf)) as Hkept.
  pose proof (open_tables junk vec_ok _ _ _ _ _ _ Hr) as [= _ Htab].
  pose proof (id_par _ _ _ _ _ Hd) as Hp.
  exists f, v'. split; [done|]. split; [|done].
  destruct Hfm as [Hn Hty _ _ Hm Hpts _ Hal]. rewrite Hp in Hm, Hal. cbn in Hm, Hal. injection Hm as Hm.
  apply (represents_add v v' T cs c f (Special g) g); try apply Had; try done.
  - apply Hal; [apply Hrep|by rewrite Hpt].
  - exists n. split; [done|]. split; [done|]. split; [by apply (on_fs_kept v v' Hkept p)|done].
  - by intros [f' ?].
Qed.

(** Mounting makes a directory of the file system that is mounted. *)
Lemma mount_represents v T g cs c f k :
  represents v T → addable T g cs c → room (4 + k) (vheap v) → fits 8 limit (size T + 4) = true →
  (length (mountpoints v) < 64)%nat →
  ∃ v', vfs_mount junk vec_ok (path_of (cs ++ [c])) f v = Done (0, v') ∧
    represents v' (<[cs ++ [c] := Dir f]> T) ∧ kept v v' ∧ room k (vheap v') ∧
    mountpoints v' = mountpoints v ++ [Mount (Some f) None].
Proof.
  intros Hrep Had Hk Hfit Htab. destruct (addable_in_dir v T g cs c Hrep Had) as (p & Hd & Hkids & Hpt & Hmp).
  pose proof (rp_wf _ _ Hrep) as Hwf.
  assert (root v ≠ 0) as Hroot.
  { intros Hz. destruct (id_root _ _ _ _ _ Hd) as [r Hr]. pose proof (wf_pos v _ r Hwf Hr). lia. }
  destruct (mount_dir_run junk vec_ok limit Hclean Hlimit Hrealloc v cs c (at_path v cs) p f k)
    as (N & n & v' & Hr & Hwf' & Hlk & Hn & Hty & Hms & Hrt & Hk' & Hnk & _ & Hno & Hpts & Hal & Htab' &
        v1 & mp & Hr1 & Hmal & Hmp0 & Hms1 & Hrt1 & Hwf1 & Hns); [done..|eapply fits_le; [|exact Hfit]; lia|done|].
  assert (kept v v') as Hkept.
  { assert (keeps v v1) as K1 by (eapply mkdir_keeps; [by eapply path_of_root, addable_name|exact Hr1]).
    apply (keeps_trans v v1 v' K1); [|by apply wf_heap].
    apply (mount_block_keeps v1 mp (Mount (Some f) None) (vmem v') (vheap v')); try done.
    - apply (wf_mount v1 Hwf1).
    - intros _. by rewrite Hrt, Hrt1. }
  exists v'. split; [done|]. split; [|done].
  apply (represents_add v v' T cs c N (Dir f) g); try apply Had; try done.
  - apply Hal; [apply Hrep|done].
  - exists n. split; [done|]. split; [done|]. split; [by eexists|done].
  - intros _. split.
    + intros c' Hc'. apply Hno; intros ->; apply Hc'; unfold dots; set_solver.
    + intros n' Hn'. assert (n' = n) as -> by congruence. done.
Qed.

(** The first mount makes the root. *)
Lemma mount_root_represents v k :
  vfs_wf v → nodes v = ∅ → root v = 0 → (length (mountpoints v) < 64)%nat → room (2 + k) (vheap v) →
  ∃ v' r, vfs_mount junk vec_ok [0x2f] TMPFS v = Done (0, v') ∧ represents v' {[ [] := Dir TMPFS ]} ∧
    kept v v' ∧ room k (vheap v') ∧ mountpoints v' = mountpoints v ++ [Mount (Some TMPFS) (Some r)].
Proof.
  intros Hwf Hemp Hroot Htab Hk.
  destruct (mount_root_run junk vec_ok Hclean v TMPFS k)
    as (r & n & v' & Hr & Hwf' & _ & Hns & Hrt & Hkids & Hty & _ & Hpts & Hms & Htab' & Hk' & m1 & h1 & mp & Hm1 & Hm2 & Hmp0 & Hms');
    [done..|].
  rewrite Hemp in Hns. assert (nodes v' !! r = Some n) as Hn by (rewrite Hns; apply lookup_insert_eq).
  pose proof (wf_pos v' r n Hwf' Hn) as Hrpos.
  exists v', r. split; [done|]. split; [|split; [|done]].
  - assert (∀ d e, ({[ [] := Dir TMPFS ]} : tree) !! d = Some e → d = [] ∧ e = Dir TMPFS) as Hone
      by (intros d e [<- <-]%lookup_singleton_Some; done).
    assert (at_path v' [] = r) as Hat by done.
    split.
    + done.
    + intros a n' Ha _. rewrite Hns in Ha. apply lookup_insert_Some in Ha as [[_ <-]|[_ Ha]]; [done|by rewrite lookup_empty in Ha].
    + apply lookup_singleton_eq.
    + intros d c e [Hd _]%Hone. by destruct d.
    + intros d e [-> ->]%Hone. rewrite Hat. exists n. split; [done|]. split; [done|]. split; [by eexists|done].
    + intros d c f [-> _]%Hone _. rewrite Hat. unfold lookup_name. rewrite Hn, Hpts, Hkids, (wf_null v' Hwf'). done.
    + intros d n' f [-> _]%Hone. rewrite Hat, Hn. intros [= <-]. rewrite Hkids. simpl. lia.
    + by intros d d' f f' [-> _]%Hone [-> _]%Hone.
  - set (vA := set_nodes (set_mem v m1 h1) (nodes v')).
    assert (keeps v vA) as K1.
    { apply (block_keeps v sizeof_VfsNode r m1 m1 h1); try done. cbn. intros a [[x Ha]|Ha]; [|by left; right].
      rewrite Hns in Ha. apply lookup_insert_Some in Ha as [[<- _]|[_ Ha]]; [right; split; [lia|done]|by rewrite lookup_empty in Ha]. }
    pose proof (K1 (wf_heap v Hwf)) as Hk1.
    apply (keeps_trans v vA v' K1); [|by apply wf_heap].
    apply (mount_block_keeps vA mp (Mount (Some TMPFS) (Some r)) (vmem v') (vheap v')); try done.
    intros a y Ha. apply (kp_live _ _ Hk1). by apply (wf_mount v Hwf a y).
Qed.
End tree.

(** ** What the files of the tree are *)

Section programs.
Context {H : Type} `{HeapLaws H}.
Implicit Types (v : vfs H).

(** A path of the map leads to its node. *)
Lemma represents_leads v T d e : represents v T → T !! d = Some e → (∀ f, e ≠ Dir f) →
  ∃ n, leads v (path_of d) (at_path v d) n ∧ entry_at v (at_path v d) e.
Proof.
  intros Hrep Hd Hfile. pose proof (rp_entry _ _ Hrep d _ Hd) as He. pose proof He as (n & Hn & Hpt & _ & Hx).
  assert (n_type n = VFS_FILE) as Hty by (destruct e as [f| |]; [by destruct (Hfile f)|apply Hx|done]).
  destruct (exists_last (l := d)) as (cs & c & ->).
  { intros ->. rewrite (rp_top _ _ Hrep) in Hd. injection Hd as <-. by eapply Hfile. }
  destruct (rp_path _ _ Hrep cs c _ Hd) as [[g Hcs] Hnames].
  destruct (rp_entry _ _ Hrep cs (Dir g) Hcs) as (p & Hp & _).
  destruct (rp_entry _ _ Hrep [] (Dir TMPFS) (rp_top _ _ Hrep)) as (r & Hr & _).
  exists n. split; [|done]. split; [|done|done]. exists cs, c, (at_path v cs), p. split; [done|]. split.
  - split; [done| |done|done]. unfold at_path in Hr. cbn in Hr. by eexists.
  - unfold at_path. by rewrite walk_app.
Qed.

Lemma entry_fs_of v x e : entry_at v x e → fs_of x v = Done (entry_fs e).
Proof.
  intros (n & Hn & _ & (mp & Hmp & Hfs) & _). unfold fs_of, node_at. rewrite Hn. cbn [of_option mbind res_bind].
  by rewrite Hmp; cbn; rewrite Hfs.
Qed.

(** A file of the boot image is a program that [Exec.v] can start: its node has the bytes
    of the image but the last, which reads as 0xff. *)
Lemma represents_program v T d size addr image :
  represents v T → T !! d = Some (File size addr) → 0 < size ≤ small → source v addr size →
  (∀ i, 0 ≤ i < size - 1 → image !! i = vmem v !! (addr + i)) → image !! (size - 1) = Some 0xff →
  program_at v (path_of d) (at_path v d) size image.
Proof.
  intros Hrep Hd Hsize Hsrc Him Hlast.
  destruct (represents_leads v T d _ Hrep Hd ltac:(done)) as (n & Hl & n' & Hn' & _ & (mp & Hmp & Hfs) & _ & Hf & Hsz & Hia & Hin & Hap).
  assert (n' = n) as -> by (pose proof (le_node _ _ _ _ Hl); congruence).
  split; [|done|].
  - exists n, (size + 1). split; [done|]. split; [done|]. split; [done|]. rewrite Hia. split; [done|].
    intros i Hi. unfold file_byte. rewrite Hin, Hsz, Hia. case_bool_decide as Hi2; [by rewrite Hi2, Hlast|].
    rewrite Him; [done|lia].
  - unfold fs_of, node_at. rewrite Hn'. cbn [of_option mbind res_bind]. by rewrite Hmp; cbn; rewrite Hfs.
Qed.
End programs.
