(* ===== verification/Archive.v ===== *)
(** * The boot image as a file tree

    What [ustar_initialize] makes of a tape archive ([src/src/kernel/fs/ustar.c]),
    against the map from paths to entries of [Tree.v]: [archive] says what headers
    are in memory, [tar_tree] what they add to the map.

    The paths the code builds have no terminator of their own; the heap is therefore
    one whose blocks are cleared, [FreshHeap], as they are while nothing has been
    freed. *)

From S2P Require Import Prelude CInt Mem Boot Abi Vec Sched Heap Str Devices Vfs VfsSpec Tmpfs Devfs Ustar Task Elf Process Exec Tree.

(** ** Paths built from names *)

Section names.
Context {H : Type} `{HeapLaws H} `{!FreshHeap H} (fuel : nat).
Implicit Types (v : vfs H).

(** The bytes of a string, in settled memory. *)
Definition string_at v (p : Z) (str : list Z) : Prop :=
  cstr (vmem v) p str ∧ ∀ i, 0 ≤ i ≤ length_z str → settled (vheap v) (p + i).

Lemma string_apart v n q m h p str :
  string_at v p str → new_block n (vmem v) (vheap v) q m h → 0 < n →
  cstr m p str ∧ (p + length_z str < q ∨ q + n ≤ p).
Proof.
  intros [Hs Hin] Hb Hn. split.
  - apply (cstr_unchanged (vmem v)); [done|]. intros i Hi. by apply (nb_same _ _ _ _ _ _ Hb), Hin.
  - assert (∀ a, p ≤ a ≤ p + length_z str → a < q ∨ q + n ≤ a) as Hout.
    { intros a Ha. pose proof (nb_apart _ _ _ _ _ _ (p + (a - p)) Hb (Hin (a - p) ltac:(lia))). lia. }
    assert (0 ≤ length_z str) by (unfold length_z; lia).
    pose proof (Hout p). pose proof (Hout (p + length_z str)). pose proof (Hout q). lia.
Qed.

Lemma string_kept v v' p str : kept v v' → string_at v p str → string_at v' p str.
Proof.
  intros Hk [Hs Hin]. split.
  - apply (cstr_unchanged (vmem v)); [done|]. intros i Hi. by apply (kp_same _ _ Hk), Hin.
  - intros i Hi. by apply (settled_kept v v' _ Hk), Hin.
Qed.

(** Room for a request that succeeds. *)
Lemma malloc_fresh_room v n k :
  heap_ok (vmem v) (vheap v) → 0 < n ≤ small → room (S k) (vheap v) →
  ∃ q m h, malloc n (vmem v) (vheap v) = Done (q, (m, h)) ∧ new_block n (vmem v) (vheap v) q m h ∧
    heap_ok m h ∧ room k h ∧ (fresh (vmem v) (vheap v) → ∀ i, 0 ≤ i < n → m !! (q + i) = Some 0).
Proof.
  intros Hok Hn Hk. unfold small in Hn.
  destruct (malloc_law n (vmem v) (vheap v) Hok) as (q & m & h & Hr & Hok' & Hc); [lia|].
  destruct (room_law k n _ _ _ _ _ Hok Hk ltac:(unfold small; lia) Hr) as [Hq Hk'].
  destruct Hc as [[? _]|Hb]; [done|]. exists q, m, h. split_and!; try done.
  intros Hf. by apply (fresh_malloc n _ _ q m h Hok Hf ltac:(lia) Hr).
Qed.

(** "/" and the name. *)
Lemma slash_name_run v p str k :
  heap_ok (vmem v) (vheap v) → fresh (vmem v) (vheap v) → string_at v p str →
  length_z str + 2 ≤ small → (length str < fuel)%nat → room (S k) (vheap v) →
  ∃ q m h, slash_name fuel p v = Done (q, set_mem v m h) ∧ kept v (set_mem v m h) ∧
    string_at (set_mem v m h) q (0x2f :: str) ∧ room k h.
Proof.
  intros Hok Hf Hs Hlen Hfuel Hk. assert (0 ≤ length_z str) as Hl0 by (unfold length_z; lia).
  set (n := length_z str + 2) in *.
  destruct (malloc_fresh_room v n k Hok ltac:(lia) Hk) as (q & m & h & Hr & Hb & Hok' & Hk' & Hz). specialize (Hz Hf).
  destruct (string_apart v n q m h p str Hs Hb ltac:(lia)) as [Hs1 Hap].
  assert (m !! q = Some 0) as Hq0 by (rewrite <-(Z.add_0_r q); apply Hz; lia).
  set (m1 := <[q := 0x2f]> m).
  assert (cstr m1 p str) as Hs2.
  { apply (cstr_unchanged m); [done|]. intros i Hi. unfold m1. rewrite lookup_insert_ne; [done|]. lia. }
  destruct (memcpy_spec m1 (q + 1) p (length_z str)) as (m2 & Hcp & Ho); [lia| | |lia|].
  { intros a Ha. unfold m1. apply lookup_insert_is_Some'. right. replace a with (q + (a - q)) by lia.
    rewrite Hz by lia. by eexists. }
  { intros a Ha. replace a with (p + (a - p)) by lia. rewrite (cs_bytes _ _ _ Hs2) by lia. by eexists. }
  assert (∀ a, ¬ (q ≤ a < q + n) → m2 !! a = m !! a) as Hout.
  { intros a Ha. rewrite (overwritten_out _ _ _ _ _ _ Ho) by lia. unfold m1. rewrite lookup_insert_ne; [done|]. lia. }
  assert (∀ a, is_Some (m !! a) → is_Some (m2 !! a)) as Hdom.
  { intros a Ha. rewrite (Ho a). case_bool_decide.
    - rewrite (cs_bytes _ _ _ Hs2) by lia. by eexists.
    - unfold m1. apply lookup_insert_is_Some'. by right. }
  exists q, m2, h. split.
  - unfold slash_name. rewrite (strlen_spec fuel (vmem v) p str) by (done || apply Hs). cbn [mbind res_bind].
    rewrite u64_id by (unfold is_u64, small in *; simpl; lia). fold n. rewrite Hr. cbn [mbind res_bind].
    rewrite store8_Done by (rewrite Hq0; by eexists). cbn [mbind res_bind]. fold m1.
    rewrite (strlen_spec fuel m1 p str) by done. cbn [mbind res_bind]. by rewrite Hcp.
  - split; [|split; [|done]].
    + apply (block_keeps v n q m m2 h); try done; [unfold small in Hlen; lia| |by intros a; left].
      intros a [->|Ha]; [|by apply Hout]. pose proof (nb_pos _ _ _ _ _ _ Hb). apply Hout. lia.
    + assert (length_z (0x2f :: str) = length_z str + 1) as Hl1 by (unfold length_z; simpl; lia).
      split; cbn [vmem vheap set_mem].
      * split; [constructor; [lia|apply Hs]|]. intros i Hi. rewrite Hl1 in Hi.
        destruct (decide (i = 0)) as [->|Hi0].
        { rewrite Z.add_0_r, (overwritten_out _ _ _ _ _ _ Ho) by lia. unfold m1. by rewrite lookup_insert_eq. }
        assert (char_at (0x2f :: str) i = char_at str (i - 1)) as ->.
        { unfold char_at. rewrite !lookup_z_nat by lia. replace (Z.to_nat i) with (S (Z.to_nat (i - 1))) by lia. done. }
        rewrite (Ho (q + i)). case_bool_decide.
        -- replace (q + i - (q + 1)) with (i - 1) by lia. apply Hs2. lia.
        -- assert (i = length_z str + 1) as -> by lia. unfold m1. rewrite lookup_insert_ne by lia.
           rewrite Hz by lia. rewrite Z.add_simpl_r. by rewrite char_at_end.
      * rewrite Hl1. intros i Hi. apply (settled_live _ q n); [apply (nb_live _ _ _ _ _ _ Hb); by right|lia].
Qed.
(** A copy of a name, without its last character. *)
Lemma trim_run v p str e k :
  heap_ok (vmem v) (vheap v) → string_at v p (str ++ [e]) →
  length_z str + 2 ≤ small → (S (length str) < fuel)%nat → room (S k) (vheap v) →
  ∃ q m2 h m3, strdup fuel p (vmem v) (vheap v) = Done (q, (m2, h)) ∧
    strlen fuel m2 q = Done (length_z str + 1) ∧ store8 m2 (q + (length_z str + 1) - 1) 0 = Done m3 ∧
    kept v (set_mem v m3 h) ∧ string_at (set_mem v m3 h) q str ∧ room k h.
Proof.
  intros Hok Hs Hlen Hfuel Hk. assert (0 ≤ length_z str) as Hl0 by (unfold length_z; lia).
  assert (length_z (str ++ [e]) = length_z str + 1) as Hl by (unfold length_z; rewrite length_app; simpl; lia).
  set (n := length_z (str ++ [e]) + 1).
  destruct (malloc_fresh_room v n k Hok) as (q & m1 & h & Hr & Hb & Hok' & Hk' & _); [lia|done|].
  destruct (strdup_run fuel (vmem v) (vheap v) p (str ++ [e]) q m1 h) as (m2 & Hd & Hc & Ho);
    [apply Hs|rewrite length_app; simpl; lia|unfold small in *; lia|apply Hs|done|done|].
  assert (is_Some (m2 !! (q + length_z str))) as Hm2
    by (rewrite (cs_bytes _ _ _ Hc) by lia; by eexists).
  exists q, m2, h, (<[q + length_z str := 0]> m2). split; [done|]. split.
  { rewrite (strlen_spec fuel m2 q (str ++ [e])); [by rewrite Hl|done|rewrite length_app; simpl; lia]. }
  replace (q + (length_z str + 1) - 1) with (q + length_z str) by lia.
  split; [by apply store8_Done|]. split; [|split; [|done]].
  - apply (block_keeps v n q m1 (<[q + length_z str := 0]> m2) h); try done; [unfold small in *; lia| | |by intros a; left].
    + intros a Ha. assert (¬ (q ≤ a < q + n)) as Hna.
      { destruct Ha as [Hq|]; [pose proof (nb_pos _ _ _ _ _ _ Hb); lia|done]. }
      rewrite lookup_insert_ne by lia. by apply (overwritten_out _ _ _ _ _ _ Ho).
    + intros a Ha. apply lookup_insert_is_Some'. right. rewrite (Ho a). by case_bool_decide.
  - destruct Hc as [Hch Hby]. split; cbn [vmem vheap set_mem].
    + split; [by apply Forall_app in Hch as [? _]|]. intros i Hi. destruct (decide (i = length_z str)) as [->|Hne].
      * rewrite lookup_insert_eq. by rewrite char_at_end.
      * rewrite lookup_insert_ne, Hby by lia. f_equal. unfold char_at. rewrite !lookup_z_nat by lia.
        rewrite lookup_app_l; [done|]. unfold length_z in *. lia.
    + intros i Hi. apply (settled_live _ q n); [apply (nb_live _ _ _ _ _ _ Hb); by right|lia].
Qed.
End names.

(** ** Archives *)

Inductive tar_entry : Type :=
  | TarDir (cs : list (list Z)) (c : list Z)
  | TarFile (cs : list (list Z)) (c : list Z) (size : Z).

Definition tar_size (e : tar_entry) : Z := match e with TarDir _ _ => 0 | TarFile _ _ size => size end.
Definition is_dir (e : tar_entry) : bool := match e with TarDir _ _ => true | TarFile _ _ _ => false end.

(** The name in the header: no slash in front, one behind a directory's. *)
Definition tar_name (e : tar_entry) : list Z :=
  match e with
  | TarDir cs c => tail (path_of (cs ++ [c])) ++ [0x2f]
  | TarFile cs c _ => tail (path_of (cs ++ [c]))
  end.

Record tar_header (m : mem) (a : Z) (e : tar_entry) : Prop := TarHeader {
  th_name : cstr m a (tar_name e);
  th_short : (length (tar_name e) < 100)%nat;
  th_type : ∃ t, m !! (a + 156) = Some t ∧ (t =? 0x35) = is_dir e;
  th_size : ∃ ds, size_field m (a + 124) ds ∧ octal ds = tar_size e;
}.

(** The headers from [a] on, with their data, up to an empty name before [hi]. *)
Definition tar_next (a : Z) (e : tar_entry) : Z := a + 512 + 512 * ((tar_size e + 511) / 512).
Fixpoint archive (m : mem) (hi a : Z) (es : list tar_entry) : Prop :=
  match es with
  | [] => a < hi ∧ m !! a = Some 0
  | e :: es => tar_header m a e ∧ 0 ≤ tar_size e < small ∧ archive m hi (tar_next a e) es
  end.

(** What an archive adds to the tree. *)
Definition tar_step (a : Z) (e : tar_entry) (T : tree) : tree :=
  match e with
  | TarDir cs c => <[cs ++ [c] := Dir TMPFS]> T
  | TarFile cs c size => <[cs ++ [c] := File size (a + 512)]> T
  end.
Definition tar_place (e : tar_entry) : list (list Z) * list Z :=
  match e with TarDir cs c => (cs, c) | TarFile cs c _ => (cs, c) end.
Fixpoint tar_tree (a : Z) (es : list tar_entry) (T : tree) : tree :=
  match es with
  | [] => T
  | e :: es => tar_tree (tar_next a e) es (tar_step a e T)
  end.
(** Each directory comes before what is in it, and no path twice. *)
Fixpoint tar_ok (a : Z) (es : list tar_entry) (T : tree) : Prop :=
  match es with
  | [] => True
  | e :: es => addable T TMPFS (tar_place e).1 (tar_place e).2 ∧ tar_ok (tar_next a e) es (tar_step a e T)
  end.

(** The blocks it takes. *)
Definition tar_need (es : list tar_entry) : nat :=
  sum_list ((λ e, if is_dir e then 5 else 3)%nat <$> es).

(** What is read of an archive is in settled memory, so it stays. *)
Lemma tar_header_same m m' a e :
  (∀ i, 0 ≤ i < 512 → m' !! (a + i) = m !! (a + i)) → tar_header m a e → tar_header m' a e.
Proof.
  intros Heq [Hnm Hlen (t & Ht & Htd) (ds & (Hl & Hd & Hm) & Hoct)]. split; [| |exists t|exists ds].
  - apply (cstr_unchanged m); [done|]. intros i Hi. apply Heq. unfold length_z in Hi. lia.
  - done.
  - by rewrite Heq by lia.
  - split; [|done]. split; [done|]. split; [done|]. intros i d Hi. pose proof (lookup_lt_Some _ _ _ Hi).
    rewrite <-Z.add_assoc, Heq by lia. rewrite Z.add_assoc. by apply Hm.
Qed.

Lemma tar_next_ge a e : 0 ≤ tar_size e → a + 512 + tar_size e ≤ tar_next a e.
Proof. intros Hs. unfold tar_next. zlia. Qed.

Lemma archive_end m hi a es : archive m hi a es → a < hi.
Proof.
  revert a. induction es as [|e es IH]; intros a; cbn [archive]; [by intros [? _]|].
  intros (_ & [Hs _] & Har%IH). pose proof (tar_next_ge a e Hs). lia.
Qed.

Lemma archive_same m m' hi a es :
  (∀ x, a ≤ x < hi → m' !! x = m !! x) → archive m hi a es → archive m' hi a es.
Proof.
  revert a. induction es as [|e es IH]; intros a Heq; cbn [archive].
  - intros [Hlt Hz]. split; [done|]. by rewrite Heq by lia.
  - intros (Hh & Hs & Har). pose proof (tar_next_ge a e (proj1 Hs)). pose proof (archive_end _ _ _ _ Har).
    split; [|split; [done|]].
    + eapply tar_header_same; [|done]. intros i Hi. apply Heq. lia.
    + apply IH; [|done]. intros x Hx. apply Heq. lia.
Qed.

Lemma tar_step_size a e T : (size (tar_step a e T) ≤ S (size T))%nat.
Proof.
  destruct e; cbn [tar_step]; rewrite map_size_insert; case_match; unfold id; lia.
Qed.

Lemma tar_name_ne e : Forall is_name ((tar_place e).1 ++ [(tar_place e).2]) → tar_name e ≠ [].
Proof.
  intros Hn. destruct e as [cs c|cs c sz]; cbn in *; [by destruct (tail _)|].
  destruct cs as [|c0 cs]; cbn in *; apply Forall_cons_1 in Hn as [[Hne _] _];
    [by destruct c|by destruct c0].
Qed.

Lemma path_of_tail cs c : path_of (cs ++ [c]) = 0x2f :: tail (path_of (cs ++ [c])).
Proof. by destruct cs. Qed.

Section archive.
Context {H : Type} `{HeapLaws H} `{!FreshHeap H} (junk : Z → vnode) (vec_ok : Z → bool) (fuel : nat) (limit : Z).
Context (Hclean : clean junk) (Hinit : ∀ a, init (junk a) = false) (Hlimit : limit ≤ 2 ^ 31)
  (Hrealloc : ∀ b, 0 ≤ b < limit → vec_ok b = true) (Hfuel : (200 ≤ fuel)%nat).
Implicit Types (v : vfs H).

Lemma represents_mem v T m h : represents v T → kept v (set_mem v m h) → represents (set_mem v m h) T.
Proof.
  intros [Hwf Hal Htop Hpath He Hn Hk Hi] Hkept. split; try done.
  - apply wf_more; [done|apply (kp_ok _ _ Hkept)|apply (kp_live _ _ Hkept)].
  - intros d e Hd. destruct (He d e Hd) as (n & Hnd & Hpt & Hmp & Hx). exists n.
    split; [done|]. split; [done|]. split; [by apply (on_fs_kept v _ Hkept n)|].
    destruct e; [done| |done]. destruct Hx as (? & Hf & ?). split; [done|]. split; [by apply (file_kept v)|done].
Qed.

Lemma tar_directory_run v T cs c a k :
  represents v T → fresh (vmem v) (vheap v) → addable T TMPFS cs c →
  string_at v a (tar_name (TarDir cs c)) → (length (tar_name (TarDir cs c)) < 100)%nat →
  room (5 + k) (vheap v) → fits 8 limit (size T + 4) = true →
  ∃ v', tar_directory junk vec_ok fuel a v = Done v' ∧ represents v' (<[cs ++ [c] := Dir TMPFS]> T) ∧
    kept v v' ∧ room k (vheap v') ∧ mountpoints v' = mountpoints v.
Proof.
  intros Hrep Hf Had Hs Hlen Hk Hfit. pose proof (wf_heap v (rp_wf _ _ Hrep)) as Hok.
  cbn [tar_name] in *. set (str := tail (path_of (cs ++ [c]))) in *.
  rewrite length_app in Hlen. cbn in Hlen.
  destruct (trim_run fuel v a str 0x2f (4 + k) Hok Hs) as (q & m2 & h & m3 & Hd & Hl & Hst & K1 & Hs1 & Hk1);
    [unfold length_z, small; lia|lia|exact Hk|].
  destruct (slash_name_run fuel (set_mem v m3 h) q str (3 + k)) as (q2 & m4 & h4 & Hsn & K2 & Hs2 & Hk2);
    [apply K1|by apply (kp_fresh _ _ K1)|done|unfold length_z, small; lia|lia|done|].
  set (v2 := set_mem (set_mem v m3 h) m4 h4) in *.
  assert (kept v v2) as K by by apply (kept_trans v (set_mem v m3 h)).
  assert (represents v2 T) as Hrep2 by by apply (represents_mem v T m4 h4).
  destruct (mkdir_represents junk vec_ok limit Hclean Hlimit Hrealloc v2 T TMPFS cs c k Hrep2 Had Hk2 Hfit)
    as (N & v3 & Hr3 & Hrep3 & K3 & Hk3 & Htab).
  exists v3. split; [|split; [done|split; [|done]]].
  - unfold tar_directory. rewrite Hd. cbn [mbind res_bind]. rewrite Hl. cbn [mbind res_bind].
    rewrite Hst. cbn [mbind res_bind]. rewrite Hsn. cbn [mbind res_bind].
    rewrite (read_str_spec fuel _ q2 (0x2f :: str)) by (apply Hs2 || (cbn [length]; lia)).
    cbn [mbind res_bind]. unfold str. rewrite <-path_of_tail, Hr3. done.
  - by apply (kept_trans v v2).
Qed.

Lemma tar_file_run v T cs c sz a k :
  represents v T → fresh (vmem v) (vheap v) → addable T TMPFS cs c →
  tar_header (vmem v) a (TarFile cs c sz) → (∀ i, 0 ≤ i < 512 → settled (vheap v) (a + i)) →
  0 ≤ a → a + 512 < 2 ^ 64 → 0 ≤ sz < small → (∀ i, 0 ≤ i < sz → settled (vheap v) (a + 512 + i)) →
  room (3 + k) (vheap v) → fits 8 limit (size T + 4) = true →
  ∃ v', tar_file junk vec_ok fuel a v = Done v' ∧ represents v' (<[cs ++ [c] := File sz (a + 512)]> T) ∧
    kept v v' ∧ room k (vheap v') ∧ mountpoints v' = mountpoints v.
Proof.
  intros Hrep Hf Had [Hnm Hlen _ (ds & Hds & Hoct)] Hin Ha Htop Hsz Himg Hk Hfit.
  pose proof (wf_heap v (rp_wf _ _ Hrep)) as Hok.
  cbn [tar_name tar_size] in *. set (str := tail (path_of (cs ++ [c]))) in *.
  destruct (slash_name_run fuel v a str (2 + k)) as (q & m & h & Hsn & K1 & Hs1 & Hk1);
    [done|done| |unfold length_z, small; lia|lia|done|].
  { split; [done|]. intros i Hi. apply Hin. unfold length_z in Hi. lia. }
  set (v1 := set_mem v m h) in *.
  assert (represents v1 T) as Hrep1 by by apply (represents_mem v T m h).
  assert (getsize (vmem v1) (a + 124) = Done sz) as Hgs.
  { assert (size_field (vmem v1) (a + 124) ds) as Hds'.
    { destruct Hds as (Hl & Hd & Hm). split; [done|]. split; [done|]. intros i d Hi.
      rewrite (kp_same _ _ K1); [by apply Hm|]. rewrite <-Z.add_assoc. apply Hin.
      apply lookup_lt_Some in Hi. lia. }
    rewrite (getsize_spec _ _ _ Hds'), Hoct. unfold small in Hsz. by rewrite u32_id by (simpl; lia). }
  destruct (create_represents junk vec_ok limit Hclean Hlimit Hrealloc v1 T cs c (a + 512) sz k)
    as (v2 & Hr2 & Hrep2 & K2 & Hk2 & Htab); [done..| |done|done|].
  { intros i Hi. apply (settled_kept v v1); [done|by apply Himg]. }
  exists v2. split; [|split; [done|split; [|done]]].
  - unfold tar_file. rewrite Hsn. cbn [mbind res_bind]. fold v1.
    rewrite (read_str_spec fuel _ q (0x2f :: str)) by (apply Hs1 || (cbn [length]; lia)).
    cbn [mbind res_bind]. rewrite Hgs. cbn [mbind res_bind].
    rewrite (u64_id (a + 512)) by (unfold is_u64; lia). unfold str. by rewrite <-path_of_tail.
  - by apply (kept_trans v v1).
Qed.

Lemma create_tmpfs_files_run es : ∀ f a v T hi k,
  (length es < f)%nat → represents v T → fresh (vmem v) (vheap v) →
  0 ≤ a → hi < 2 ^ 63 → (∀ x, a ≤ x < hi → settled (vheap v) x) →
  archive (vmem v) hi a es → tar_ok a es T →
  room (tar_need es + k) (vheap v) → fits 8 limit (size T + length es + 4) = true →
  ∃ v', while_loop f (λ '(address, s),
      c ← load8 (vmem s) address;
      if c =? 0 then Done (inr (0xc001c0de, s))
      else
        typeflag ← load8 (vmem s) (address + 156);
        s ← (if typeflag =? 0x35 then tar_directory junk vec_ok fuel address s else tar_file junk vec_ok fuel address s);
        size ← getsize (vmem s) (address + 124);
        Done (inl (next_header address size, s))) (a, v) = Done (0xc001c0de, v') ∧
    represents v' (tar_tree a es T) ∧ kept v v' ∧ room k (vheap v') ∧ mountpoints v' = mountpoints v.
Proof.
  induction es as [|e es IH]; intros f a v T hi k Hf Hrep Hfr Ha Hhi Hin Har Hok Hk Hfit.
  - destruct f as [|f]; [lia|]. cbn [while_loop]. destruct Har as [_ Hz]. unfold load8. rewrite Hz.
    exists v. split; [done|]. split; [done|]. split; [|done]. by apply keeps_refl, wf_heap, Hrep.
  - destruct f as [|f]; [cbn in Hf; lia|]. destruct Har as (Hh & Hs & Har), Hok as [Had Hok].
    pose proof (tar_next_ge a e (proj1 Hs)) as Hnx. pose proof (archive_end _ _ _ _ Har) as Hend.
    assert (∀ i, 0 ≤ i < 512 → settled (vheap v) (a + i)) as Hin512 by (intros i Hi; apply Hin; lia).
    pose proof Hh as [Hnm Hshort (t & Ht & Htd) (ds & Hds & Hoct)].
    assert (∃ ch, vmem v !! a = Some ch ∧ ch ≠ 0) as (ch & Hch & Hch0).
    { destruct (tar_name e) as [|ch rest] eqn:Hn.
      { by apply (tar_name_ne e) in Hn; [|apply (ad_names _ _ _ _ Had)]. }
      exists ch. pose proof (cs_bytes _ _ _ Hnm 0) as Hb0. rewrite Z.add_0_r in Hb0.
      rewrite Hb0 by (unfold length_z; lia). split; [done|].
      pose proof (cs_chars _ _ _ Hnm) as Hcc. apply Forall_cons_1 in Hcc as [? _]. lia. }
    assert (load8 (vmem v) a = Done ch) as Hl0 by (unfold load8; by rewrite Hch).
    assert (load8 (vmem v) (a + 156) = Done t) as Hl1 by (unfold load8; by rewrite Ht).
    cbn [while_loop]. rewrite Hl0. cbn [mbind res_bind].
    rewrite (proj2 (Z.eqb_neq ch 0)) by done. rewrite Hl1. cbn [mbind res_bind]. rewrite Htd.
    assert (∃ v1, (if is_dir e then tar_directory junk vec_ok fuel a v else tar_file junk vec_ok fuel a v) = Done v1 ∧
      represents v1 (tar_step a e T) ∧ kept v v1 ∧ room (tar_need es + k) (vheap v1) ∧ mountpoints v1 = mountpoints v) as (v1 & Hr1 & Hrep1 & K1 & Hk1 & Htab1).
    { unfold tar_need in Hk. cbn [fmap list_fmap sum_list sum_list_with foldr] in Hk.
      destruct e as [cs c|cs c sz]; cbn [is_dir tar_step tar_place fst snd] in *.
      - apply (tar_directory_run v T cs c a (tar_need es + k)); try done.
        + split; [done|]. intros i Hi. apply Hin512. unfold length_z in Hi. lia.
        + eapply fits_le; [|exact Hfit]. lia.
      - apply (tar_file_run v T cs c sz a (tar_need es + k)); try done.
        + simpl in *. lia.
        + cbn [tar_size] in *. intros i Hi. apply Hin. lia.
        + eapply fits_le; [|exact Hfit]. lia. }
    rewrite Hr1. cbn [mbind res_bind].
    assert (size_field (vmem v1) (a + 124) ds) as Hds1.
    { destruct Hds as (Hl & Hd & Hm). split; [done|]. split; [done|]. intros i d Hi.
      rewrite (kp_same _ _ K1); [by apply Hm|]. rewrite <-Z.add_assoc. apply Hin512.
      apply lookup_lt_Some in Hi. lia. }
    rewrite (getsize_spec _ _ _ Hds1), Hoct, u32_id by (unfold small in Hs; simpl; lia). cbn [mbind res_bind].
    rewrite next_header_spec by (unfold small in Hs; simpl in *; lia). fold (tar_next a e).
    destruct (IH f (tar_next a e) v1 (tar_step a e T) hi k) as (v' & Hr & Hrep' & K' & Hk' & Htab'); try done.
    + cbn in Hf. lia.
    + by apply (kp_fresh _ _ K1).
    + lia.
    + intros x Hx. apply (settled_kept v v1); [done|]. apply Hin. lia.
    + eapply archive_same; [|exact Har]. intros x Hx. apply (kp_same _ _ K1), Hin. lia.
    + eapply fits_le; [|exact Hfit]. pose proof (tar_step_size a e T). cbn [length]. lia.
    + exists v'. split; [exact Hr|]. split; [exact Hrep'|]. split; [by apply (kept_trans v v1)|]. split; [done|congruence].
Qed.

Lemma ustar_initialize_run addr v T hi es k :
  (length es < fuel)%nat → represents v T → fresh (vmem v) (vheap v) →
  0 ≤ addr → hi < 2 ^ 63 → (∀ x, addr ≤ x < hi → settled (vheap v) x) →
  archive (vmem v) hi addr es → tar_ok addr es T →
  room (tar_need es + k) (vheap v) → fits 8 limit (size T + length es + 4) = true →
  ∃ v', ustar_initialize junk vec_ok fuel addr v = Done v' ∧
    represents v' (tar_tree addr es T) ∧ kept v v' ∧ room k (vheap v') ∧ mountpoints v' = mountpoints v.
Proof.
  intros. destruct (create_tmpfs_files_run es fuel addr v T hi k) as (v' & Hr & Hv'); [done..|].
  exists v'. split; [|done]. unfold ustar_initialize, create_tmpfs_files. by rewrite Hr.
Qed.
End archive.

(** C12: the boot image becomes the file tree.  From a tree that represents a map
    [T] of paths, on a heap whose blocks come cleared, [ustar_initialize] of an
    archive whose files have less than 65488 bytes returns, and the tree represents [T]
    with the archive's directories and files added in order; each file then leads to a
    node of the in-memory file system of the file's size, whose bytes will be read as
    the archive's data, except for the last one, which will be read as 0xff. *)
Theorem ustar_initialize_builds {H} `{HeapLaws H} `{!FreshHeap H} (junk : Z → vnode) (vec_ok : Z → bool)
    (fuel : nat) (limit hi addr : Z) (v : vfs H) (T : tree) (es : list tar_entry) (k : nat)
    (Hclean : clean junk) (Hinit : ∀ a, init (junk a) = false) (Hlimit : limit ≤ 2 ^ 31)
    (Hrealloc : ∀ b, 0 ≤ b < limit → vec_ok b = true) (Hfuel : (200 ≤ fuel)%nat) (Hlen : (length es < fuel)%nat)
    (Hrep : represents v T) (Hfresh : fresh (vmem v) (vheap v))
    (Haddr : 0 ≤ addr) (Hhi : hi < 2 ^ 63) (Hblocks : ∀ x, addr ≤ x < hi → settled (vheap v) x)
    (Har : archive (vmem v) hi addr es) (Hok : tar_ok addr es T)
    (Hk : room (tar_need es + k) (vheap v)) (Hfit : fits 8 limit (size T + length es + 4) = true) :
  ∃ v', ustar_initialize junk vec_ok fuel addr v = Done v' ∧
    represents v' (tar_tree addr es T) ∧ room k (vheap v') ∧
    ∀ d sz a, tar_tree addr es T !! d = Some (File sz a) → addr ≤ a → a + sz ≤ hi →
      ∃ n, leads v' (path_of d) (at_path v' d) n ∧ st_size n = sz ∧
        ∀ i, 0 ≤ i < sz → file_byte v' n i =
          if bool_decide (i = sz - 1) then Some 0xff else vmem v !! (a + i).
Proof.
  destruct (ustar_initialize_run junk vec_ok fuel limit Hclean Hinit Hlimit Hrealloc Hfuel addr v T hi es k)
    as (v' & Hr & Hrep' & K & Hk' & _); [done..|].
  exists v'. split; [done|]. split; [done|]. split; [done|]. intros d sz a Hd Ha Hsz.
  destruct (represents_leads v' _ d _ Hrep' Hd ltac:(done)) as (n & Hl & n' & Hn' & _ & _ & _ & _ & Hs & Hia & Hin & _).
  assert (n' = n) as -> by (pose proof (le_node _ _ _ _ Hl); congruence).
  exists n. split; [done|]. split; [done|]. intros i Hi. unfold file_byte. rewrite Hin, Hs, Hia.
  case_bool_decide; [done|]. apply (kp_same _ _ K), Hblocks. lia.
Qed.
