(* ===== verification/ProcessRun.v ===== *)
(** * Programs and processes on a concrete machine

    The theorems of [Elf.v] and [Process.v] on the 256 KiB of [PmmFrames.v] and the
    heap of [BumpPages.v]: a small ELF file is loaded, the arguments of a shell are
    laid out, and a task is made. *)

From S2P Require Import Prelude CInt Mem Lock Arch Boot Abi Pages AllocInv AllocSpec BumpPages Pmm.
From S2P Require Import Frames Vmm PmmFrames Vec Sched Alloc Heap AllocHeap Str Devices Vfs VfsSpec.
From S2P Require Import VfsRun Tables Tmpfs Devfs FilesRun Ustar Task Elf Fpu Process.

#[local] Existing Instance heap_ops.
#[local] Existing Instance heap_laws.

(** ** The machine *)

Lemma sample_tidy : tidy sample_pmm.
Proof.
  split; [split_and!; [apply sample_pmm_wf|simpl; lia..]|].
  exists 16, 48. split; [by vm_compute|by vm_compute].
Qed.

Lemma sample_spare n : (n ≤ 48)%nat → available n sample_ram sample_pmm.
Proof. intros Hn. apply sample_available. by rewrite sample_usable. Qed.

Lemma cleared_bytes X : bytes_ok (gset_to_gmap 0 X).
Proof. intros a b Hb. by apply lookup_gset_to_gmap_Some in Hb as [_ <-]. Qed.

Lemma sample_bytes : bytes_ok sample_ram.
Proof. apply cleared_bytes. Qed.

(** The floating point state. *)
Definition reset_fpu : list Z := replicate 512 0.
Lemma reset_image : fpu_image reset_fpu.
Proof. split; [apply length_replicate|]. apply Forall_replicate. unfold is_u8. lia. Qed.

(** The data of the kernel is [m], in the blocks of [h]. *)
Definition booted (m : mem) (h : heap bump) : sys (heap bump) :=
  Sys (Vfs m h ∅ ∅ [] 0 (Globals false 0) [] false) sched_boot sample_vmm ∅ false 0 0 sample_root
    reset_fpu.

(** *** Heaps made by a list of requests

    The pages are kept abstract while the requests are run. *)

Definition block_after (zero : mem → Z → Z → mem) (n : Z) (mh : mem * heap bump) : mem * heap bump :=
  match Alloc.malloc (H := bump_pages_with zero) 7 n mh.1 mh.2 with
  | Done (_, mh) => mh
  | _ => mh
  end.
Definition blocks (zero : mem → Z → Z → mem) (sizes : list Z) : mem * heap bump :=
  foldr (block_after zero) (∅, fresh_heap bump_start) sizes.

Lemma block_step (m : mem) (h : heap bump) n p m' h' :
  Heap.heap_ok m h → 0 ≤ n < 2 ^ 31 → Heap.malloc n m h = Done (p, (m', h')) → p ≠ 0 →
  Heap.heap_ok m' h' ∧ new_block n m h p m' h'.
Proof.
  intros Hok Hn Hr Hp. destruct (malloc_law n m h Hok Hn) as (q & m2 & h2 & Hr2 & Hok2 & Hc).
  rewrite Hr in Hr2. apply Done_triple_inj in Hr2 as (<- & <- & <-).
  split; [exact Hok2|]. by destruct Hc as [[? _]|Hb].
Qed.

Lemma blocks_run n l p :
  (∀ zero, Alloc.malloc (H := bump_pages_with zero) 7 n (blocks zero l).1 (blocks zero l).2 =
     Done (p, blocks zero (n :: l))) →
  Heap.malloc n (blocks zero_run l).1 (blocks zero_run l).2 =
    Done (p, ((blocks zero_run (n :: l)).1, (blocks zero_run (n :: l)).2)).
Proof. intros Hr. pose proof (Hr zero_run) as Hr'. by destruct (blocks zero_run (n :: l)). Qed.

(** The heap after the blocks [l]. *)
Definition after (l : list Z) : Prop :=
  Heap.heap_ok (blocks zero_run l).1 (blocks zero_run l).2.
Definition holds_block (l : list Z) (p n : Z) : Prop := Heap.live (blocks zero_run l).2 p n.

Lemma blocks_step n l p :
  (∀ zero, Alloc.malloc (H := bump_pages_with zero) 7 n (blocks zero l).1 (blocks zero l).2 =
     Done (p, blocks zero (n :: l))) →
  after l → 0 ≤ n < 2 ^ 31 → p ≠ 0 →
  after (n :: l) ∧ holds_block (n :: l) p n ∧ ∀ q k, holds_block l q k → holds_block (n :: l) q k.
Proof.
  intros Hrun Hl Hn Hp. destruct (block_step _ _ _ _ _ _ Hl Hn (blocks_run n l p Hrun) Hp) as [Hok Hb].
  split; [exact Hok|]. split; [apply (nb_live _ _ _ _ _ _ Hb); by right|].
  intros q k Hq. apply (nb_live _ _ _ _ _ _ Hb). by left.
Qed.

(** *** A task at the end of a page run

    What the heap is like after [malloc(sizeof(Task))], and what makes it safe for
    [fxsave]: the block is the last one, and the memory behind it exists. *)

Definition task_after (zero : mem → Z → Z → mem) (l : list Z) : heap bump :=
  match Alloc.malloc (H := bump_pages_with zero) 7 sizeof_Task ∅ (blocks zero l).2 with
  | Done (_, (_, h)) => h
  | _ => (blocks zero l).2
  end.

Definition all_below (h : heap bump) (a : Z) : Prop :=
  map_Forall (λ x t, x + sizeof_tag ≤ a ∧ x + sizeof_tag + size t ≤ a) (tags h).

Lemma vacant_above (m : mem) (h : heap bump) a n :
  all_below h a → mapped m a n → a + n ≤ bump_limit → vacant m h a n.
Proof.
  intros Hb Hm Hl. split; [done|intros x [t Ht]; left; by apply (Hb x t Ht)|].
  intros x Hx [Ho|(p & k & (t & Ht & _ & Hs & _) & Hp)]; [cbn in Ho; lia|].
  destruct (Hb _ t Ht) as [_ Hsz]. lia.
Qed.

Lemma fx_safe_after (l : list Z) (t : Z) (s : sys (heap bump)) :
  (∀ zero M, Alloc.malloc (H := bump_pages_with zero) 7 sizeof_Task M (blocks zero l).2 =
     Done (t, (M, task_after zero l))) →
  (∀ zero, all_below (task_after zero l) (t + sizeof_Task)) →
  vheap (files s) = (blocks zero_run l).2 → fpu_image (fpu s) → (t + fpu_offset) mod 16 = 0 →
  mapped (vmem (files s)) (t + sizeof_Task) 504 → t + sizeof_Task + 504 ≤ bump_limit → fx_safe s.
Proof.
  intros Hrun Hbelow Hh Himg Hal Hm Hl. split; [done|]. intros p m h Hr _.
  pose proof (Hrun zero_run (vmem (files s))) as Hr'. rewrite Hh in Hr.
  pose proof (eq_trans (eq_sym Hr') Hr) as (<- & <- & <-)%Done_triple_inj. split; [done|]. by apply vacant_above.
Qed.

(** One block of 65120 bytes, which leaves just enough of its run for a task. *)
Definition filler_heap : heap bump := (blocks zero_run [65120]).2.
Definition filler_mem : mem := zero_run ∅ 0x100000 0x11000.

Lemma zero_run_longer m p n k : n ≤ k → dom_grows (zero_run m p n) (zero_run m p k).
Proof.
  intros Hn a. rewrite !zero_run_overwritten. intros Ha.
  destruct (decide (p ≤ a < p + k)); [rewrite bool_decide_true by done; by eexists|].
  rewrite bool_decide_false in Ha by lia. by rewrite bool_decide_false.
Qed.

Lemma filler_ok : Heap.heap_ok filler_mem filler_heap.
Proof.
  destruct (blocks_step 65120 [] 0x100030) as (Hok & _); [intros zero; by vm_compute|
    apply fresh_heap_ok, bump_start_ok|lia|lia|].
  assert (∀ zero, (blocks zero [65120]).1 = zero ∅ 0x100000 65536) as Hm by (intros zero; by vm_compute).
  unfold after in Hok. rewrite (Hm zero_run) in Hok.
  eapply heap_ok_dom; [|exact Hok]. apply zero_run_longer. lia.
Qed.

Definition blank (a : Z) : Task :=
  MkTask 0 vec_init 0 0 0 0 0 (MkStack 0 0 0 0 0 0 0 0 0 0 0 0 0 0 0 0 0 0 0 0 0 0) 0 0 0.


(** ** A shell's arguments *)

Definition sh : list Z := [0x2f; 0x73; 0x68].
Definition path_var : list Z := [0x50; 0x3d; 0x2f].
Definition sh_auxval : Auxval := MkAuxval 0x400078 0x400040 56 1.

(** Six bytes of strings with their ends and eighteen words below them. *)
Lemma build_stack_layout_witness :
  ∃ P r', build_stack (io 0x40000) USER_STACK_TOP [sh] [path_var] sh_auxval sample_ram = Done (io P, r') ∧
    P mod 16 = 0 ∧ load64 r' P = Done 1 ∧ load64 r' (P + 8) = Done (USER_STACK_TOP - 8) ∧
    cstr r' 0x3fff8 sh.
Proof.
  destruct (build_stack_layout sample_ram 0x40000 USER_STACK_TOP STACK_SIZE [sh] [path_var] sh_auxval)
    as (P & r' & Hr & _ & Ha & _ & Hw & Hs).
  - by vm_compute.
  - intros a Ha. exists 0. apply sample_ram_lookup. unfold STACK_SIZE in Ha. lia.
  - by vm_compute.
  - repeat constructor.
  - by vm_compute.
  - by vm_compute.
  - exists P, r'. split; [exact Hr|]. split; [exact Ha|]. split; [|split].
    + rewrite <-(Z.add_0_r P). apply (Hw 0%nat). reflexivity.
    + apply (Hw 1%nat). reflexivity.
    + apply (Hs 1%nat (USER_STACK_TOP - 8) sh); reflexivity.
Defined.

(** ** A program

    One segment of four bytes, eight in memory; it starts at its first byte.  With a
    section header, at 2, the loader looks 128 bytes behind its copy of the header. *)

Definition elf_with (shoff shnum : Z) : list Z :=
  [0x7f; 0x45; 0x4c; 0x46; 2; 1; 1; 0; 0; 0; 0; 0; 0; 0; 0; 0; 2; 0; 0x3e; 0; 1; 0; 0; 0] ++
  le_bytes 8 0x400078 ++ le_bytes 8 64 ++ le_bytes 8 shoff ++ le_bytes 4 0 ++
  le_bytes 2 64 ++ le_bytes 2 56 ++ le_bytes 2 1 ++ le_bytes 2 64 ++ le_bytes 2 shnum ++ le_bytes 2 0 ++
  le_bytes 4 1 ++ le_bytes 4 5 ++ le_bytes 8 120 ++ le_bytes 8 0x400078 ++ le_bytes 8 0x400078 ++
  le_bytes 8 4 ++ le_bytes 8 8 ++ le_bytes 8 4096 ++
  [0xeb; 0xfe; 0x90; 0x90].
Definition tiny_elf : list Z := elf_with 0 0.

(** The block [malloc(124)] of a fresh heap, with the file in it. *)
Definition elf_heap_with (zero : mem → Z → Z → mem) : heap bump :=
  match Alloc.malloc (H := bump_pages_with zero) 7 124 ∅ (fresh_heap bump_start) with
  | Done (_, (_, h)) => h
  | _ => one_block
  end.
Definition elf_heap : heap bump := elf_heap_with zero_run.

Definition image : mem := list_to_map (zip (seqZ 0x100030 124) (elf_with 2 1)).
Definition elf_mem : mem := image ∪ one_block_mem.

Lemma elf_heap_run :
  Heap.malloc 124 ∅ (fresh_heap bump_start) = Done (0x100030, (one_block_mem, elf_heap)).
Proof.
  assert (∀ zero, Alloc.malloc (H := bump_pages_with zero) 7 124 ∅ (fresh_heap bump_start) =
    Done (0x100030, (zero ∅ 0x100000 65536, elf_heap_with zero))) as Hr
    by (intros zero; vm_compute; reflexivity).
  exact (Hr zero_run).
Qed.

Lemma elf_heap_new :
  Heap.heap_ok one_block_mem elf_heap ∧ Heap.live elf_heap 0x100030 124.
Proof.
  destruct (malloc_law 124 ∅ (fresh_heap bump_start)) as (p & m & h & Hr & Hok & Hc);
    [by apply fresh_heap_ok, bump_start_ok|lia|].
  rewrite elf_heap_run in Hr. apply Done_triple_inj in Hr as (<- & <- & <-). split; [exact Hok|].
  destruct Hc as [[Hp _]|Hb]; [discriminate Hp|]. apply (nb_live _ _ _ _ _ _ Hb). by right.
Qed.

Lemma elf_heap_room : Heap.room 1 elf_heap.
Proof.
  assert (∀ zero, bump_next (Alloc.pages (elf_heap_with zero)) = 0x110000) as Hn
    by (intros zero; vm_compute; reflexivity).
  change (bump_next (Alloc.pages elf_heap) + 1 * (16 * PAGE_SIZE) ≤ bump_limit).
  unfold elf_heap. rewrite Hn. by vm_compute.
Qed.

Lemma elf_mem_ok : Heap.heap_ok elf_mem elf_heap.
Proof.
  apply (heap_ok_dom one_block_mem); [|apply elf_heap_new].
  intros a Ha. apply lookup_union_is_Some. by right.
Qed.

(** A field of a part of memory is read in that part alone. *)
Lemma load_le_sub n (m m' : mem) a x : m ⊆ m' → load_le n m a = Done x → load_le n m' a = Done x.
Proof.
  intros Hm. revert a x. induction n as [|n IH]; intros a x; cbn [load_le]; [done|]. unfold load8.
  destruct (m !! a) as [b|] eqn:Hb; [|done]. rewrite (lookup_weaken _ _ _ _ Hb Hm). cbn [of_option mbind res_bind].
  destruct (load_le n m (a + 1)) as [y| | |] eqn:Hy; [|done..]. by rewrite (IH _ _ Hy).
Qed.

Lemma image_sub : image ⊆ elf_mem.
Proof. apply map_union_subseteq_l. Qed.

Definition text : phdr := Phdr 1 0x400078 120 4 8.

Lemma sectioned_elf_file : elf_file elf_mem 0x100030 124 0x400078 56 2 1 [text].
Proof.
  split; [by vm_compute|..|exists 64; split; [|split; [by vm_compute|split; [split; [|split]|done]]]|split];
    apply (load_le_sub _ _ _ _ _ image_sub); vm_compute; reflexivity.
Qed.

(** The section header it takes is zeros. *)
Lemma elf_sections : sections_skipped elf_mem elf_heap 2 1.
Proof.
  assert (∀ zero M, ∃ h, Alloc.malloc (H := bump_pages_with zero) 7 Elf64Header.size M (elf_heap_with zero) =
    Done (0x110030, (zero M 0x110000 65536, h))) as Hrun by (intros zero M; eexists; vm_compute; reflexivity).
  intros eh m h Hr i Hi. assert (i = 0) as -> by lia. destruct (Hrun zero_run elf_mem) as [h' Hr'].
  pose proof (eq_trans (eq_sym Hr') Hr) as (<- & <- & _)%Done_triple_inj.
  split; [right; by vm_compute|]. exists 0. split; [|by left].
  apply load_le_zero. intros a Ha. rewrite zero_run_overwritten, bool_decide_true; [done|].
  change (0x1100b4 ≤ a < 0x1100b4 + 4) in Ha. lia.
Qed.

(** Entered at its first byte; zeros behind the four of the file. *)
Lemma elf_load_program_correct_witness :
  ∃ s', elf_load_program 0x100030 0 sample_pagemap None (booted elf_mem elf_heap) =
      Done (0x400078, (MkAuxval 0x400078 0 56 1, None, s')) ∧
    user_byte (ram (space s')) sample_root 0x400078 = Some 0xeb ∧
    user_byte (ram (space s')) sample_root 0x40007c = Some 0.
Proof.
  destruct (elf_load_program_correct (booted elf_mem elf_heap) 0x100030 124 0 sample_root sample_pagemap
    0x400078 56 2 1 [text] None 0 0) as (s' & Hr & _ & Hb & _).
  - by vm_compute.
  - exact elf_mem_ok.
  - exact elf_heap_room.
  - apply elf_heap_new.
  - exact sectioned_elf_file.
  - exact elf_sections.
  - apply Forall_singleton. split; [done|]. intros _. split; [|change (1 ≤ 8); lia].
    split; by vm_compute.
  - split; [|done]. intros h' Hin. by apply not_elem_of_nil in Hin.
  - split; [exact sample_vm_ok|exact sample_points_to|exact sample_tidy|apply (sample_spare 4); lia].
  - assert (text ∈ [text]) as Hin by apply list_elem_of_here.
    exists s'. split; [exact Hr|]. split.
    + transitivity (elf_mem !! 0x1000a8).
      * refine (Hb text 0 Hin eq_refl (conj _ _)); [discriminate|reflexivity].
      * apply (lookup_weaken image); [reflexivity|exact image_sub].
    + refine (Hb text 4 Hin eq_refl (conj _ _)); [discriminate|reflexivity].
Defined.
