(* ===== verification/ExecRun.v ===== *)
(** * Starting a program on a concrete machine

    The theorem of [Exec.v] on the machine of [ProcessRun.v], with a file system of
    its own: a root directory with one file, the program of [ProcessRun.v], in four
    blocks of the kernel's heap, and a fifth that leaves the new task the end of the last page
    run. *)

From S2P Require Import Prelude CInt Mem Lock Arch Boot Abi Pages AllocInv AllocSpec BumpPages Pmm.
From S2P Require Import Frames Vmm PmmFrames Vec Sched Alloc Heap AllocHeap Fpu Str Devices Vfs VfsSpec.
From S2P Require Import VfsRun Tables Tmpfs Devfs FilesRun Ustar Task Elf Process ProcessRun Exec.

#[local] Existing Instance heap_ops.
#[local] Existing Instance heap_laws.

(** ** Five blocks

    The buffer of the file, the two nodes, the mount point, and the filler. *)

Definition sizes : list Z := [65032; 40; 208; 208; 125].
Definition run_mem : mem := zero_run (blocks zero_run sizes).1 0x140000 4096.
Definition run_heap : heap bump := (blocks zero_run sizes).2.

Lemma five_blocks :
  after sizes ∧ holds_block sizes 0x100030 125 ∧ holds_block sizes 0x110030 208 ∧
  holds_block sizes 0x120030 208 ∧ holds_block sizes 0x130030 40.
Proof.
  assert (after []) as H0b by apply fresh_heap_ok, bump_start_ok.
  destruct (blocks_step 125 [] 0x100030) as (A1 & L1 & _); [intros zero; by vm_compute|done|lia|lia|].
  destruct (blocks_step 208 [125] 0x110030) as (A2 & L2 & K2); [intros zero; by vm_compute|done|lia|lia|].
  destruct (blocks_step 208 [208; 125] 0x120030) as (A3 & L3 & K3); [intros zero; by vm_compute|done|lia|lia|].
  destruct (blocks_step 40 [208; 208; 125] 0x130030) as (A4 & L4 & K4); [intros zero; by vm_compute|done|lia|lia|].
  destruct (blocks_step 65032 [40; 208; 208; 125] 0x130088) as (A5 & L5 & K5); [intros zero; by vm_compute|done|lia|lia|].
  unfold sizes. split; [exact A5|]. split; [exact (K5 _ _ (K4 _ _ (K3 _ _ (K2 _ _ L1))))|].
  split; [exact (K5 _ _ (K4 _ _ (K3 _ _ L2)))|]. split; [exact (K5 _ _ (K4 _ _ L3))|exact (K5 _ _ L4)].
Qed.

Lemma run_room : Heap.room 3 run_heap.
Proof.
  assert (∀ zero, bump_next (Alloc.pages (blocks zero sizes).2) = 0x140000) as Hn
    by (intros zero; vm_compute; reflexivity).
  change (bump_next (Alloc.pages run_heap) + 3 * (16 * PAGE_SIZE) ≤ bump_limit).
  unfold run_heap. rewrite Hn. by vm_compute.
Qed.

(** ** The file system *)

(** The program's bytes as memory from 0 on, and in the buffer. *)
Definition program : mem := list_to_map (zip (seqZ 0 124) tiny_elf).

(** Strings of a program: at 0x1000 the path, at 0x1008 and 0x1018 the two arrays of
    pointers to the strings behind them. *)
Definition user_data : list Z :=
  [0x2f; 0x69; 0x6e; 0x69; 0x74; 0; 0; 0] ++ le_bytes 8 0x1030 ++ le_bytes 8 0 ++
  le_bytes 8 0x1038 ++ le_bytes 8 0 ++ le_bytes 8 0 ++ sh ++ [0; 0; 0; 0; 0] ++ path_var ++ [0].
Definition user_mem : mem := list_to_map (zip (seqZ 0x1000 (length_z user_data)) user_data).

Definition program_image : mem := list_to_map (zip (seqZ 0x100030 124) tiny_elf).
Definition known_mem : mem := program_image ∪ user_mem.
Definition files_mem : mem := known_mem ∪ run_mem.

Lemma known_sub : known_mem ⊆ files_mem.
Proof. apply map_union_subseteq_l. Qed.

Definition init_name : list Z := [0x69; 0x6e; 0x69; 0x74].
Definition init_path : list Z := [0x2f; 0x69; 0x6e; 0x69; 0x74].
Definition the_root : vnode :=
  VNode VFS_DIRECTORY [0x2f] 0x110030 0 (Vec [Some 0x120030] 1 1) 0x130030 0 0 0 0 0 false.
Definition the_init : vnode :=
  VNode VFS_FILE init_name 0x110030 0 vec_init 0x130030 124 0 0 0x100030 0 true.
Definition init_fs : vfs (heap bump) :=
  Vfs files_mem run_heap (<[0x110030 := the_root]> {[ 0x120030 := the_init ]})
    {[ 0x130030 := Mount (Some TMPFS) (Some 0x110030) ]} [] 0x110030 (Globals false 0) [] false.
Definition init_machine : sys (heap bump) :=
  Sys init_fs sched_boot sample_vmm ∅ false 0 0 sample_root reset_fpu.

Lemma init_nodes (P : Z → vnode → Prop) :
  P 0x110030 the_root → P 0x120030 the_init → ∀ a n, nodes init_fs !! a = Some n → P a n.
Proof.
  intros Hr Hi a n Ha. cbn [nodes init_fs] in Ha. apply lookup_insert_Some in Ha as [[<- <-]|[_ Ha]]; [done|].
  by apply lookup_singleton_Some in Ha as [<- <-].
Qed.

Lemma init_wf : vfs_wf init_fs.
Proof.
  destruct five_blocks as (Hok & _ & Lr & Li & Lm). split.
  - apply (heap_ok_dom (blocks zero_run sizes).1); [|exact Hok]. intros a Ha. apply lookup_union_is_Some. right.
    unfold run_mem. rewrite zero_run_overwritten. case_bool_decide; [by eexists|exact Ha].
  - by apply (init_nodes (λ a _, live run_heap a sizeof_VfsNode)).
  - intros a mp Ha. cbn [mounts init_fs] in Ha. apply lookup_singleton_Some in Ha as [<- _]. exact Lm.
  - apply (init_nodes (λ _ n, capacity (children n) < 2 ^ 31 ∧ ∃ cs, vrep (children n) cs ∧
      ∀ c, c ∈ cs → is_Some (nodes init_fs !! c))).
    + split; [done|]. exists [0x120030]. split; [split; [by exists []|done|done]|].
      intros c Hc%list_elem_of_singleton. subst c. cbn [nodes init_fs]. by eexists.
    + split; [done|]. exists []. split; [apply vrep_init|]. by intros c Hc%elem_of_nil.
  - by apply (init_nodes (λ _ n, points_to n ≠ 0 → is_Some (nodes init_fs !! points_to n))).
Qed.

Lemma init_leads : leads init_fs init_path 0x120030 the_init.
Proof.
  split; [|reflexivity|done]. exists [], init_name, 0x110030, the_root. split; [reflexivity|].
  split; [|reflexivity]. split; [|by eexists|reflexivity|reflexivity].
  apply Forall_singleton. by apply (bool_decide_unpack _).
Qed.

Lemma program_byte i : 0 ≤ i < 124 → ∃ b, known_mem !! (0x100030 + i) = Some b ∧ program !! i = Some b.
Proof.
  intros Hi.
  assert (Forall (λ j, is_Some (program !! Z.of_nat j) ∧
    known_mem !! (0x100030 + Z.of_nat j) = program !! Z.of_nat j) (seq 0 124)) as Hj
    by (apply (bool_decide_unpack _); vm_compute; exact I).
  destruct (proj1 (Forall_seq _ _ _) Hj (Z.to_nat i)) as [[b Hb] Heq]; [lia|].
  rewrite Z2Nat.id in Hb, Heq by lia. exists b. split; [by rewrite Heq|done].
Qed.

Lemma init_program : program_at init_fs init_path 0x120030 124 program.
Proof.
  destruct five_blocks as (_ & Lb & _). split; [|unfold small; lia|reflexivity].
  exists the_init, 125. split; [exact init_leads|]. split; [|split; [reflexivity|split; [done|]]].
  - split; cbn [st_size the_init address]; [reflexivity|exact Lb|lia|lia|].
    intros a [[n Ha]|[mp Ha]].
    + by apply (init_nodes (λ a _, a ≠ 0x100030)) in Ha.
    + cbn [mounts init_fs] in Ha. apply lookup_singleton_Some in Ha as [<- _]. done.
  - intros i Hi. destruct (program_byte i Hi) as (b & Hb & ->).
    unfold file_byte, contents. cbn [init the_init st_size address vmem init_fs].
    rewrite bool_decide_true by lia. by apply lookup_union_Some_l.
Qed.

Lemma program_elf : elf_file program 0 124 0x400078 56 0 0 [text].
Proof.
  split; [by vm_compute|..|exists 64; split; [|split; [by vm_compute|split; [split; [|split]|done]]]|split];
    vm_compute; reflexivity.
Qed.

Lemma init_ready : machine_ready 4 init_machine.
Proof.
  split.
  - exact sample_vm_ok.
  - change (0x8000 + PAGE_SIZE ≤ 2 ^ 31). by vm_compute.
  - exact sample_tidy.
  - apply sample_spare. lia.
  - exact sample_bytes.
  - change (4 ≤ 8). lia.
  - change (0x40000 ≤ 0x8000000). lia.
Qed.

Lemma text_ok : program_ok 124 8 [text].
Proof.
  split.
  - apply Forall_singleton. split; [done|]. intros _. split; [split; by vm_compute|by vm_compute].
  - intros h Hin _. apply list_elem_of_singleton in Hin. subst h. by vm_compute.
  - split; [|done]. intros h' Hin. by apply not_elem_of_nil in Hin.
  - by vm_compute.
Qed.

(** The task will be the last block, and the memory behind it is free. *)
Lemma init_fx s : files s = init_fs → fpu s = reset_fpu → fx_safe s.
Proof.
  intros Hf Hfpu. apply (fx_safe_after sizes 0x13fec0); rewrite ?Hf, ?Hfpu.
  - intros zero M. by vm_compute.
  - intros zero. apply (bool_decide_unpack _). vm_compute. exact I.
  - reflexivity.
  - exact reset_image.
  - reflexivity.
  - intros a Ha. unfold sizeof_Task in Ha. cbn [vmem init_fs]. apply lookup_union_is_Some.
    destruct (decide (0x140000 ≤ a)).
    + right. exists 0. unfold run_mem. by rewrite zero_run_overwritten, bool_decide_true by lia.
    + right. assert (∀ zero, ∃ m, (blocks zero sizes).1 = zero m 0x130000 65536) as Hm
        by (intros zero; eexists; vm_compute; reflexivity).
      destruct (Hm zero_run) as [m Hm']. exists 0. unfold run_mem. rewrite zero_run_overwritten, bool_decide_false by lia.
      rewrite Hm', zero_run_overwritten. by rewrite bool_decide_true by lia.
  - discriminate.
Qed.

Lemma init_startable :
  startable init_machine init_path [sh] [path_var] 0x120030 124 0x400078 56 0 0 program [text] [] 0 0.
Proof.
  split.
  - exact init_wf.
  - exact run_room.
  - exact init_program.
  - exact init_ready.
  - by apply init_fx.
  - exact program_elf.
  - exact text_ok.
  - by vm_compute.
  - repeat constructor.
  - change (sch init_machine) with sched_boot. split; [apply vrep_init|by vm_compute..].
  - by vm_compute.
Qed.

(** "/init" with one argument; it also stands in for the standard files. *)
Lemma new_process_starts_witness :
  ∃ t tk N s', sched_new_elf_process clear yes 10 keyboard blank init_path [sh] [path_var]
      (Some (init_path, init_path, init_path)) init_machine = Done s' ∧
    tasks s' !! t = Some tk ∧ rip (tstack tk) = 0x400078 ∧
    user_byte (ram (space s')) N 0x400078 = Some 0xeb ∧
    vrep (processes (sch s')) [t].
Proof.
  destruct (new_process_starts clear yes 10 keyboard blank init_machine init_path [sh] [path_var]
    (Some (init_path, init_path, init_path)) 0x120030 124 0x400078 56 0 0 program [text] []
    [(0, 0x120030); (1, 0x120030); (2, 0x120030)] 0 0) as (t & tk & N & s' & Hr & Hst).
  - intros b _. reflexivity.
  - exact init_startable.
  - apply no_sections.
  - exists 0x120030, 0x120030, 0x120030. split; [|split; [|split; [|reflexivity]]]; exists the_init; exact init_leads.
  - exists t, tk, N, s'. split; [exact Hr|]. split; [|split; [|split]].
    + rewrite (sd_tasks _ _ _ _ _ _ _ _ _ _ _ _ Hst). apply lookup_insert_eq.
    + pose proof (sd_regs _ _ _ _ _ _ _ _ _ _ _ _ Hst) as Hregs. exact (f_equal (λ x, x.1.1.1) Hregs).
    + assert (text ∈ [text]) as Hin by apply list_elem_of_here.
      refine (sd_segments _ _ _ _ _ _ _ _ _ _ _ _ Hst text 0 Hin eq_refl (conj _ _)); [discriminate|reflexivity].
    + apply (so_queue _ _ (sd_queue _ _ _ _ _ _ _ _ _ _ _ _ Hst)).
Defined.

(** The strings a program passes to [execve], found in a part [m] of memory. *)
Lemma cstr_sub (m m' : mem) p str : m ⊆ m' → cstrb m p str = true → cstr m' p str.
Proof.
  intros Hm [Hc Hb]%cstrb_ok. split; [done|]. intros i Hi. apply (lookup_weaken m); [by apply Hb|done].
Qed.

Lemma read_str_sub (m m' : mem) p str fuel :
  m ⊆ m' → cstrb m p str = true → (length str < fuel)%nat → read_str fuel m' p = Done str.
Proof. intros Hm Hs Hl. apply read_str_spec; [by eapply cstr_sub|done]. Qed.

Lemma read_strv_sub (m m' : mem) p q str n fuel :
  m ⊆ m' → load64 m p = Done q → load64 m (p + 8) = Done 0 → q ≠ 0 →
  cstrb m q str = true → (length str < fuel)%nat → read_strv (S (S n)) fuel m' p = Done [str].
Proof.
  intros Hm Hp Hz Hq Hs Hl. apply (load_le_sub 8 m m' _ _ Hm) in Hp, Hz.
  cbn [read_strv]. unfold load64. rewrite Hp. cbn [mbind res_bind].
  rewrite (proj2 (Z.eqb_neq q 0)) by done. rewrite (read_str_sub m m' q str) by done. cbn [mbind res_bind].
  rewrite Hz. reflexivity.
Qed.

(** The same machine with one task in the queue, the first. *)
Definition one_queued : sys (heap bump) :=
  Sys init_fs (Sched 1 0 1 0x9000 (Vec [Some 0x9000] 1 1) true false) sample_vmm
    {[ 0x9000 := blank 0 ]} false 0 0x9000 sample_root reset_fpu.

Lemma one_startable :
  startable one_queued init_path [sh] [path_var] 0x120030 124 0x400078 56 0 0 program [text] [0x9000] 0 0.
Proof.
  destruct init_startable as [? ? ? [? ? ? ? ? ? ?] _ ? ? ? ? _ _].
  split; [done..|by split|by apply init_fx|done|done|done|done| |by vm_compute].
  split; cbn [processes index current_tick slock sch one_queued]; [|by vm_compute..].
  split; [by exists []|reflexivity|reflexivity].
Qed.
