(* ===== verification/Syscalls.v ===== *)
(** * System calls and the interrupt dispatcher

    [src/src/kernel/syscalls.c] and [src/src/kernel/arch/interrupts.c], on the state
    of [Task.v].  A handler gets the saved registers and returns its value, the
    registers and the state. *)

From stdpp Require Import strings.
From S2P Require Import Prelude CInt Mem Lock Arch Boot Abi Pmm Frames Vmm PmmFrames Vec Sched Heap.
From S2P Require Import Str Print Devices Log Vfs VfsSpec Tmpfs Devfs Ustar Task Elf Process Exec.

Definition AT_FDCWD : Z := -100.
Definition SEEK_CUR : Z := 1.
Definition SEEK_END : Z := 2.
Definition SEEK_SET : Z := 3.

Section syscalls.
Context {H : Type} `{Heap H} (junk : Z → vnode) (vec_ok : Z → bool) (fuel : nat).
Context (device : list port_event → Z → Z) (task_junk : Z → Task).
Implicit Types (s : sys H) (k : Stack).

(** What a handler sets the result register to, and returns. *)
Definition result (r : Z) k s : res (Z * (Stack * sys H)) := Done (r, (set_rax (u64 r) k, s)).
Definition fail (e : Z) k s : res (Z * (Stack * sys H)) :=
  result (-1) k (set_files s (set_err (files s) e)).

(** The string of the program is the format. *)
Definition sys_log k s : res (Z * (Stack * sys H)) :=
  l ← spin_lock (log_lock s);
  let v := files s in
  t ← log device fuel (bytes "syscalls.c") 20 (bytes "sys_log") (vmem v) (rdi k) [] (vport v);
  Done (0, (k, Sys (set_port v t (write_lock v)) (sch s) (space s) (tasks s) (spin_release l) (fs_base s)
                   (prev_task s) (kernel_pagemap s) (fpu s))).

Definition sys_mmap k s : res (Z * (Stack * sys H)) :=
  t ← current s;
  '(ret, (used, v)) ← vmm_mmap (pagemap t) (rdi k) (rsi k) (r10 k) (used_pages t) (space s);
  s ← upd_current (set_used used) (set_space s v);
  Done (i64 ret, (set_rax ret k, s)).

Definition sys_set_fs k s : res (Z * (Stack * sys H)) :=
  Done (0, (k, Sys (files s) (sch s) (space s) (tasks s) (log_lock s) (asm_write_msr (rdi k))
                   (prev_task s) (kernel_pagemap s) (fpu s))).

(** The bound it tests only decides what is logged. *)
Definition get_fd (fd : Z) s : res (Z * Z) :=
  t ← current s; vec_get (descriptors t) fd.

Definition sys_openat k s : res (Z * (Stack * sys H)) :=
  let dirfd := i32 (rdi k) in
  path ← read_str fuel (vmem (files s)) (rsi k);
  let mode := i32 (r10 k) in
  t ← current s;
  '(par, v) ← (if dirfd =? AT_FDCWD then vfs_get_parent (cwd t) path (files s)
               else '(_, file) ← get_fd dirfd s; vfs_get_parent file path (files s));
  let s := set_files s v in
  if par =? 0 then fail ENOENT k s
  else
    '(file, v) ← vfs_open junk vec_ok par path mode (files s);
    let s := set_files s v in
    let new_fd := current_fd t in
    '(_, d) ← vec_push 16 vec_ok (descriptors t) (new_fd, file);
    s ← upd_current (set_fds (i32 (new_fd + 1)) d) s;
    result new_fd k s.

Definition sys_read k s : res (Z * (Stack * sys H)) :=
  let fd := i32 (rdi k) in
  '(_, file) ← get_fd fd s;
  n ← node_at (files s) file;
  '(ret, v) ← kernel_read fuel device file (cursor n) (rdx k) (rsi k) (files s);
  let s := set_files s v in
  '(_, file) ← get_fd fd s;
  s ← upd_file file (λ n, set_cursor (u64 (cursor n + rdx k)) n) s;
  result ret k s.

Definition sys_write k s : res (Z * (Stack * sys H)) :=
  '(_, file) ← get_fd (i32 (rdi k)) s;
  '(ret, v) ← kernel_write fuel device file (rdx k) (rsi k) (files s);
  result ret k (set_files s v).

Definition sys_close k s : res (Z * (Stack * sys H)) :=
  let fildes := i32 (rdi k) in
  t ← current s;
  d ← vec_splice (descriptors t) fildes 1;
  s ← upd_current (set_fds (current_fd t) d) s;
  '(_, file) ← get_fd fildes s;
  s ← upd_file file (set_init false) s;
  s ← upd_file file (set_cursor 0) s;
  n ← node_at (files s) file;
  '(m, h) ← free (address n) (vmem (files s)) (vheap (files s));
  let s := set_files s (Vfs.set_mem (files s) m h) in
  t ← current s;
  s ← upd_current (set_fds (i32 (current_fd t - 1)) (descriptors t)) s;
  result 0 k s.

Definition sys_seek k s : res (Z * (Stack * sys H)) :=
  let offset := i64 (rsi k) in
  let whence := i32 (rdx k) in
  '(_, file) ← get_fd (i32 (rdi k)) s;
  n ← node_at (files s) file;
  let seek base := (s ← upd_file file (set_cursor (u64 base)) s; result base k s) in
  if whence =? SEEK_SET then seek offset
  else if whence =? SEEK_CUR then seek (i64 (cursor n + offset))
  else if whence =? SEEK_END then seek (i64 (st_size n + offset))
  else fail EINVAL k s.

(** What [sys_exit] does before its endless loop. *)
Definition exit_task (status : Z) s : res (sys H) :=
  c ← sched_remove (sched_current_task (sch s)) (sch s);
  let s := set_sch s c in
  s ← upd_current (set_dead status) s;
  t ← current s;
  p ← pmm_free (frames (space s)) (sp t) (STACK_SIZE / PAGE_SIZE);
  p ← pmm_free p (u64 (pagemap t - MMAP_KERNEL_BASE)) 1;
  let s := set_space s (Vmm.set_mem (space s) (ram (space s)) p) in
  upd_current (set_fds (current_fd t) (vec_deinit (descriptors t))) s.

Definition sys_exit k s : res (Z * (Stack * sys H)) :=
  s ← exit_task (i32 (rdi k)) s; Hang.

(** The strings are read first: nothing in between writes to them. *)
Definition sys_execve k s : res (Z * (Stack * sys H)) :=
  let m := vmem (files s) in
  path ← read_str fuel m (rdi k);
  argv ← read_strv fuel fuel m (rsi k);
  envp ← read_strv fuel fuel m (rdx k);
  s ← sched_new_elf_process junk vec_ok fuel device task_junk path argv envp None s;
  let c := sched_set_index (i32 (sched_get_last_pid (sch s) - 2)) (sch s) in
  let c := sched_set_tick (SWITCH_TICK - 1) c in
  result 0 k (set_sch s c).

Definition handler : Type := Stack → sys H → res (Z * (Stack * sys H)).
Definition syscalls : list handler :=
  [sys_log; sys_mmap; sys_set_fs; sys_openat; sys_read; sys_write; sys_close; sys_seek; sys_exit;
   sys_execve].

Definition syscall_dispatch (table : list handler) (num : Z) (args : Stack) s
    : res (Z * (Stack * sys H)) :=
  f ← of_option (table !!z num);
  '(_, (args, s)) ← f args s;
  let e := get_errno (vglob (files s)) in
  if 0 <? e then
    let args := set_rax (u64 (-1)) (set_rdx (u64 e) args) in
    Done (rdx args, (args, set_files s (set_err (files s) 0)))
  else Done (0, (args, s)).

(** The timer interrupt. *)
Definition timer k s : res (Stack * sys H) :=
  if sched_started (sch s) then
    s ← (if negb (prev_task s =? 0) then upd_task (prev_task s) (set_stack k) s else Done s);
    '(new_task, c) ← sched_tick (sch s);
    let s := Sys (files s) c (space s) (tasks s) (log_lock s) (fs_base s) new_task (kernel_pagemap s) (fpu s) in
    t ← task_at s new_task;
    let v := space s in
    Done (tstack t, set_space s (Vmm (ram v) (frames v) (vlock v) (tlb_flushed v)
                                   (u64 (pagemap t - MMAP_KERNEL_BASE))))
  else Done (k, s).

(** After a switch the interrupt number tested last is the new task's. *)
Definition interrupts_handler (table : list handler) k s : res (Stack * sys H) :=
  if intno k <? 32 then Hang
  else
    '(k, s) ← (if intno k =? 32 then timer k s else Done (k, s));
    if intno k =? 0x42 then
      '(_, (k, s)) ← syscall_dispatch table (i32 (rax k)) k s; Done (k, s)
    else
      let v := files s in
      Done (k, set_files s (set_port v (pic_eoi (intno k) (vport v)) (write_lock v))).
End syscalls.

(** ** Proofs *)

Section spec.
Context {H : Type} `{HeapLaws H}.
Implicit Types (s : sys H) (k : Stack) (t : Task).

(** The running task and what its descriptor table holds. *)
Record running s t (fds : list (Z * Z)) : Prop := Running {
  ru_task : tasks s !! sched_current_task (sch s) = Some t;
  ru_fds : vrep (descriptors t) fds;
}.

Lemma current_eq s t fds : running s t fds → current s = Done t.
Proof. intros [Ht _]. unfold current, task_at. by rewrite Ht. Qed.

Lemma upd_current_eq s t fds f : running s t fds →
  upd_current f s = Done (set_tasks s (<[sched_current_task (sch s) := f t]> (tasks s))).
Proof. intros [Ht _]. unfold upd_current, upd_task, task_at. by rewrite Ht. Qed.

Lemma get_fd_eq s t fds fd num file :
  running s t fds → fds !!z fd = Some (num, file) → get_fd fd s = Done (num, file).
Proof.
  intros Hr Hfd. unfold get_fd. rewrite (current_eq s t fds Hr). cbn [mbind res_bind].
  pose proof (lookup_z_Some _ _ _ Hfd) as [Hb _].
  rewrite (vrep_get _ fds) by (apply Hr || done). by rewrite Hfd.
Qed.

Lemma upd_file_eq s a n f : nodes (files s) !! a = Some n →
  upd_file a f s = Done (set_files s (set_nodes (files s) (<[a := f n]> (nodes (files s))))).
Proof. intros Ha. unfold upd_file. by rewrite (upd_node_eq _ a n f Ha). Qed.

Lemma u64_minus_one : u64 (-1) = 2 ^ 64 - 1.
Proof. reflexivity. Qed.

(** What [open_spec] answers. *)
Lemma open_spec_cases (v : vfs H) par c flags file v' :
  vfs_wf v → open_spec v par c flags = Some (file, v') →
  (file = 0 ∧ ∃ e, v' = set_err v e ∧ (e = ENOENT ∨ e = EISDIR)) ∨
  (file ≠ 0 ∧ ∃ ns, v' = set_nodes v ns).
Proof.
  intros Hwf. unfold open_spec. destruct (nodes v !! lookup_name (nodes v) par c) as [n|] eqn:Hn.
  - pose proof (wf_pos v _ n Hwf Hn).
    destruct (_ && bool_decide _); intros [= <- <-]; [left; eauto|right]. split; [|by eexists].
    destruct (Z.land flags O_CREAT =? 0), (Z.eqb_spec (points_to n) 0); cbn; lia.
  - destruct (_ =? 0); intros [= <- <-]. left. eauto.
Qed.

(** [sys_openat] once the file system has answered. *)
Lemma openat_run (junk : Z → vnode) (vec_ok : Z → bool) (limit : Z) fuel k s t fds path par file v :
  limit ≤ 2 ^ 31 → (∀ b, 0 ≤ b < limit → vec_ok b = true) →
  running s t fds → fits 16 limit (length fds + 1) = true →
  cstr (vmem (files s)) (rsi k) path → (length path < fuel)%nat → i32 (rdi k) = AT_FDCWD →
  vfs_get_parent (cwd t) path (files s) = Done (par, files s) → par ≠ 0 →
  vfs_open junk vec_ok par path (i32 (r10 k)) (files s) = Done (file, v) →
  ∃ d, vrep d (fds ++ [(current_fd t, file)]) ∧
    sys_openat junk vec_ok fuel k s =
      result (current_fd t) k (set_tasks (set_files s v)
        (<[sched_current_task (sch s) := set_fds (i32 (current_fd t + 1)) d t]> (tasks s))).
Proof.
  intros Hlim Hok Hrun Hfit Hpath Hf Hdir Hpar Hne Hopen.
  destruct (push_ok 16 limit vec_ok ltac:(lia) Hlim Hok _ _ (current_fd t, file) (ru_fds _ _ _ Hrun) Hfit)
    as (d & Hd & Hv).
  exists d. split; [done|]. unfold sys_openat.
  rewrite (read_str_spec fuel _ _ path) by done. cbn [mbind res_bind].
  rewrite (current_eq s t fds Hrun). cbn [mbind res_bind]. rewrite Hdir, Z.eqb_refl, Hpar.
  cbn [mbind res_bind]. rewrite (proj2 (Z.eqb_neq par 0)) by done.
  assert (set_files s (files s) = s) as -> by by destruct s.
  rewrite Hopen. cbn [mbind res_bind]. rewrite Hd. cbn [mbind res_bind].
  rewrite (upd_current_eq (set_files s v) t fds); [done|]. by destruct Hrun.
Qed.

(** No directory: the error comes back in [rdx], and [errno] is cleared. *)
Lemma openat_no_parent (junk : Z → vnode) (vec_ok : Z → bool) fuel device task_junk k s t fds path :
  running s t fds → cstr (vmem (files s)) (rsi k) path → (length path < fuel)%nat →
  i32 (rdi k) = AT_FDCWD → errno (vglob (files s)) = 0 →
  vfs_get_parent (cwd t) path (files s) = Done (0, files s) →
  syscall_dispatch (syscalls junk vec_ok fuel device task_junk) SYSCALL_OPENAT k s =
    Done (ENOENT, (set_rax (2 ^ 64 - 1) (set_rdx ENOENT k), s)).
Proof.
  intros Hrun Hpath Hf Hdir Herr Hpar.
  unfold syscall_dispatch. change (syscalls junk vec_ok fuel device task_junk !!z SYSCALL_OPENAT)
    with (Some (sys_openat junk vec_ok fuel)). cbn [of_option mbind res_bind]. unfold sys_openat.
  rewrite (read_str_spec fuel _ _ path) by done. cbn [mbind res_bind].
  rewrite (current_eq s t fds Hrun). cbn [mbind res_bind]. rewrite Hdir, Z.eqb_refl, Hpar.
  cbn [mbind res_bind]. assert (set_files s (files s) = s) as -> by by destruct s.
  unfold fail, result. cbn. destruct s as [v ? ? ? ? ? ? ? ?], v as [? ? ? ? ? ? [nl e] ? ?].
  cbn in Herr. by rewrite Herr.
Qed.

(** A file or none: the table has grown, and the dispatcher has told an error. *)
Lemma openat_ends (junk : Z → vnode) (vec_ok : Z → bool) fuel device task_junk k s t fds par c file v d :
  vfs_wf (files s) → open_spec (files s) par c (i32 (r10 k)) = Some (file, v) →
  running s t fds → current_fd t = length_z fds → 0 ≤ length_z fds < 2 ^ 31 →
  errno (vglob (files s)) = 0 → vrep d (fds ++ [(current_fd t, file)]) →
  sys_openat junk vec_ok fuel k s =
    result (current_fd t) k (set_tasks (set_files s v)
      (<[sched_current_task (sch s) := set_fds (i32 (current_fd t + 1)) d t]> (tasks s))) →
  ∃ r k' s' t', syscall_dispatch (syscalls junk vec_ok fuel device task_junk) SYSCALL_OPENAT k s =
      Done (r, (k', s')) ∧
    running s' t' (fds ++ [(length_z fds, file)]) ∧ errno (vglob (files s')) = 0 ∧
    if file =? 0
    then rax k' = 2 ^ 64 - 1 ∧ rdx k' = errno (vglob v) ∧ (rdx k' = ENOENT ∨ rdx k' = EISDIR)
    else rax k' = length_z fds ∧ nodes (files s') = nodes v.
Proof.
  intros Hwf Hopen Hrun Hnum Hlen Herr Hv Hr.
  unfold syscall_dispatch. change (syscalls junk vec_ok fuel device task_junk !!z SYSCALL_OPENAT)
    with (Some (sys_openat junk vec_ok fuel)). cbn [of_option mbind res_bind]. rewrite Hr, Hnum.
  unfold result. cbn [mbind res_bind]. cbn [files set_tasks set_files].
  rewrite (u64_id (length_z fds)) by (unfold is_u64; simpl in *; lia).
  set (t' := set_fds _ d t).
  assert (running (set_tasks (set_files s v) (<[sched_current_task (sch s) := t']> (tasks s)))
    t' (fds ++ [(length_z fds, file)])) as Hrun'.
  { split; cbn; [apply lookup_insert_eq|]. by rewrite <-Hnum. }
  destruct (open_spec_cases (files s) par c (i32 (r10 k)) file v Hwf Hopen)
    as [(-> & e & -> & He)|(Hf & ns & ->)].
  - cbn [vglob set_err set_errno get_errno errno]. unfold get_errno. cbn [errno].
    assert (0 < e ∧ u64 e = e) as [Hpe Hue] by (destruct He as [-> | ->]; done).
    rewrite (proj2 (Z.ltb_lt 0 e) Hpe). eexists _, _, _, t'. split; [done|].
    split; [by destruct Hrun'|]. split; [done|]. cbn. by rewrite Hue.
  - cbn [vglob set_nodes]. unfold get_errno. rewrite Herr. cbn [Z.ltb Z.compare].
    eexists _, _, _, t'. split; [done|]. split; [done|]. split; [done|].
    by rewrite (proj2 (Z.eqb_neq file 0)).
Qed.

(** What the table holds at [i] once entry [i] was cut out: the next entry, or for
    the last one what is still in its cell. *)
Lemma close_slot (v : vec (Z * Z)) fds (i : nat) d :
  vrep v fds → (i < length fds)%nat →
  fds !! (if decide (S i < length fds)%nat then S i else i) = Some d →
  ∃ v', vec_splice v (Z.of_nat i) 1 = Done v' ∧ vrep v' (take i fds ++ drop (S i) fds) ∧
    vec_get v' (Z.of_nat i) = Done d.
Proof.
  intros Hv Hi Hd. destruct (vec_splice_spec v fds i 1 Hv) as (v' & Hr & Hv'); [lia|].
  rewrite Nat.add_1_r in Hv'. exists v'. split; [exact Hr|]. split; [done|].
  destruct (decide (S i < length fds)%nat) as [Hlt|Hge].
  - rewrite (vrep_get v' _ _ Hv').
    + rewrite lookup_z_nat, Nat2Z.id, lookup_app_r, length_take_le, Nat.sub_diag, lookup_drop by (rewrite ?length_take; lia).
      by rewrite Nat.add_0_r, Hd.
    + unfold length_z. rewrite length_app, length_take, length_drop. lia.
  - change (Z.of_nat 1) with 1 in Hr. unfold vec_splice, vec_splice_ in Hr.
    rewrite (vr_length v fds Hv) in Hr. unfold length_z in Hr.
    replace (Z.of_nat (length fds) - Z.of_nat i - 1) with 0 in Hr by lia.
    unfold move_slots in Hr. rewrite Z.eqb_refl, orb_true_r in Hr. cbn [mbind res_bind] in Hr.
    apply (inj Done) in Hr as <-. unfold vec_get, set_length, set_slots. cbn [slots].
    pose proof (vrep_get v fds (Z.of_nat i) Hv) as Hg. unfold vec_get in Hg.
    rewrite Hg by (unfold length_z; lia). by rewrite lookup_z_nat, Nat2Z.id, Hd by lia.
Qed.
End spec.

(** ** Properties *)


(** C37: [sys_close] closes the wrong file. It cuts the entry out of the table
    before it looks the file up: what is reset, and whose buffer is freed, is the
    file of the next descriptor, unless the last one is closed; and every later
    descriptor then stands for the file after its own. *)
Theorem close_next_file {H} `{HeapLaws H} (k : Stack) (s : sys H) (t : Task) (fds : list (Z * Z))
    (i : nat) (num file sz : Z) (n : vnode)
    (Hrun : running s t fds) (Hfd : i32 (rdi k) = Z.of_nat i) (Hi : (i < length fds)%nat)
    (Hnext : fds !! (if decide (S i < length fds)%nat then S i else i) = Some (num, file))
    (Hn : nodes (files s) !! file = Some n) (Hok : heap_ok (vmem (files s)) (vheap (files s)))
    (Hbuf : live (vheap (files s)) (address n) sz) :
  ∃ s' t', sys_close k s = Done (0, (set_rax 0 k, s')) ∧
    running s' t' (take i fds ++ drop (S i) fds) ∧ current_fd t' = i32 (current_fd t - 1) ∧
    nodes (files s') = <[file := set_cursor 0 (set_init false n)]> (nodes (files s)) ∧
    vmem (files s') = vmem (files s) ∧ heap_ok (vmem (files s')) (vheap (files s')) ∧
    ∀ q j, live (vheap (files s')) q j ↔ live (vheap (files s)) q j ∧ q ≠ address n.
Proof.
  destruct (close_slot (descriptors t) fds i (num, file) (ru_fds _ _ _ Hrun) Hi Hnext)
    as (d & Hd & Hv & Hget).
  destruct (free_law (address n) sz _ _ Hok Hbuf) as (h & Hfree & Hok' & Hl).
  pose proof (ru_task _ _ _ Hrun) as Ht.
  unfold sys_close. rewrite Hfd, (current_eq s t fds Hrun). cbn [mbind res_bind]. rewrite Hd.
  cbn [mbind res_bind]. rewrite (upd_current_eq s t fds) by done. cbn [mbind res_bind].
  unfold get_fd, current, task_at. cbn [tasks sch set_tasks]. rewrite lookup_insert_eq.
  cbn [of_option mbind res_bind descriptors set_fds]. rewrite Hget. cbn [mbind res_bind].
  rewrite (upd_file_eq _ file n) by done. cbn [mbind res_bind].
  rewrite (upd_file_eq _ file (set_init false n)) by (cbn; apply lookup_insert_eq). cbn [mbind res_bind].
  rewrite (node_at_eq _ file (set_cursor 0 (set_init false n))) by (cbn; apply lookup_insert_eq).
  cbn [mbind res_bind files set_files vmem vheap set_nodes set_tasks].
  change (address (set_cursor 0 (set_init false n))) with (address n). rewrite Hfree.
  cbn [mbind res_bind]. cbn [tasks sch set_files set_tasks]. rewrite lookup_insert_eq.
  cbn [of_option mbind res_bind].
  unfold upd_current, upd_task, task_at. cbn [tasks sch set_files set_tasks]. rewrite lookup_insert_eq.
  cbn [of_option mbind res_bind]. unfold result. change (u64 0) with 0.
  eexists _, _. split; [done|]. split; [split; cbn; [apply lookup_insert_eq|exact Hv]|].
  split; [done|]. cbn. split; [by rewrite insert_insert_eq|done].
Qed.

(** [sys_seek] puts the cursor at the offset, or adds the offset to the
    cursor or to the size, and answers the new position; any other request leaves
    the file alone, answers -1 and sets [EINVAL]. *)
Theorem seek_moves_cursor {H} `{HeapLaws H} (k : Stack) (s : sys H) (t : Task) (fds : list (Z * Z))
    (num file : Z) (n : vnode)
    (Hrun : running s t fds) (Hfd : fds !!z i32 (rdi k) = Some (num, file))
    (Hn : nodes (files s) !! file = Some n) :
  let base := if i32 (rdx k) =? SEEK_SET then Some (i64 (rsi k))
              else if i32 (rdx k) =? SEEK_CUR then Some (i64 (cursor n + i64 (rsi k)))
              else if i32 (rdx k) =? SEEK_END then Some (i64 (st_size n + i64 (rsi k)))
              else None in
  match base with
  | Some b => sys_seek k s = Done (b, (set_rax (u64 b) k,
      set_files s (set_nodes (files s) (<[file := set_cursor (u64 b) n]> (nodes (files s))))))
  | None => sys_seek k s = Done (-1, (set_rax (2 ^ 64 - 1) k, set_files s (set_err (files s) EINVAL)))
  end.
Proof.
  intros base. unfold sys_seek. rewrite (get_fd_eq s t fds _ num file) by done. cbn [mbind res_bind].
  rewrite (node_at_eq _ file n) by done. cbn [mbind res_bind]. subst base.
  destruct (i32 (rdx k) =? SEEK_SET); [by rewrite (upd_file_eq _ file n)|].
  destruct (i32 (rdx k) =? SEEK_CUR); [by rewrite (upd_file_eq _ file n)|].
  destruct (i32 (rdx k) =? SEEK_END); [by rewrite (upd_file_eq _ file n)|]. done.
Qed.

(** Reading from a program moves the cursor twice. [sys_read] of [count]
    bytes from a loaded file answers [count] and puts the bytes at the cursor into
    the program's buffer; but [tmpfs_read] and [sys_read] both advance the cursor,
    which ends up twice as far: the next read skips [count] bytes. *)
Theorem read_advances_twice {H} `{HeapLaws H} (fuel : nat) (device : list port_event → Z → Z)
    (k : Stack) (s : sys H) (t : Task) (fds : list (Z * Z)) (num f j : Z) (n : vnode)
    (Hrun : running s t fds) (Hfd : fds !!z i32 (rdi k) = Some (num, f))
    (Hwf : vfs_wf (files s)) (Hfile : file (files s) f n j) (Hinit : init n = true)
    (Hfs : fs_of f (files s) = Done TMPFS)
    (Hrange : 0 ≤ cursor n ∧ 0 ≤ rdx k ∧ cursor n + rdx k ≤ st_size n)
    (Hbuf : 0 < rsi k ∧ mapped (vmem (files s)) (rsi k) (rdx k))
    (Hapart : rsi k + rdx k ≤ address n ∨ address n + j ≤ rsi k) :
  ∃ s' n', sys_read fuel device k s = Done (rdx k, (set_rax (rdx k) k, s')) ∧
    running s' t fds ∧ nodes (files s') !! f = Some n' ∧ cursor n' = cursor n + 2 * rdx k ∧
    (∀ i, 0 ≤ i < rdx k → vmem (files s') !! (rsi k + i) = contents (files s) n (cursor n + i)) ∧
    ∀ a, ¬ (rsi k ≤ a < rsi k + rdx k) → ¬ (address n ≤ a < address n + j) →
      vmem (files s') !! a = vmem (files s) !! a.
Proof.
  pose proof (fl_small _ _ _ _ Hfile). pose proof (fl_size _ _ _ _ Hfile).
  destruct (tmpfs_read_parts (files s) f n j (cursor n) (rdx k) (rsi k) Hwf Hfile Hrange Hbuf Hapart)
    as (v & n1 & Hr & Hn1 & Hn1' & Hb & Ho & _); [by rewrite Hinit|].
  pose proof (f_equal cursor Hn1') as Hc1. cbn in Hc1.
  rewrite Hinit in Hb. unfold sys_read.
  rewrite (get_fd_eq s t fds _ num f) by done. cbn [mbind res_bind].
  rewrite (node_at_eq _ f n) by apply Hfile. cbn [mbind res_bind].
  unfold kernel_read, vfs_read. rewrite Hfs. cbn [mbind res_bind fs_read]. rewrite Hr. cbn [mbind res_bind].
  assert (running (set_files s v) t fds) as Hrun' by by destruct Hrun.
  rewrite (get_fd_eq _ t fds _ num f) by done. cbn [mbind res_bind].
  assert (nodes v !! f = Some n1) as Hf1 by (rewrite Hn1; apply lookup_insert_eq).
  rewrite (upd_file_eq _ f n1) by done. cbn [mbind res_bind]. unfold result.
  rewrite (u64_id (rdx k)) by (unfold is_u64; simpl in *; lia).
  rewrite (u64_id (cursor n + rdx k)) in Hc1 by (unfold is_u64; simpl in *; lia).
  eexists _, (set_cursor (cursor n1 + rdx k) n1).
  rewrite (u64_id (cursor n1 + rdx k)) by (unfold is_u64; simpl in *; lia).
  split; [done|]. split; [by destruct Hrun|].
  split; [cbn; apply lookup_insert_eq|]. split; [cbn; lia|]. by split.
Qed.


(** C26: [execve]. It returns 0 and queues the new process, and sets the scheduler
    up for a switch at the next tick - to position [last_pid - 2] of the queue.  With
    no process ended so far, that is the one queued before the new process, which
    waits for its turn; only when exactly one has ended is it the new process; and
    when two have, the index is past the end and wraps to the first.  The program
    and the machine are as in [Exec.startable]: among them, what [fxsave] needs. *)
Theorem execve_schedules {H} `{HeapLaws H} (junk : Z → vnode) (vec_ok : Z → bool) (fuel : nat)
    (device : list port_event → Z → Z) (task_junk : Z → Task) (k : Stack) (s : sys H)
    (path : list Z) (argv envp : list (list Z)) (f size entry step shoff shnum : Z) (image : mem) (hs : list phdr)
    (ts : list Z) (ended : Z) (i j : nat)
    (Hvec : ∀ b, 0 ≤ b < 2 ^ 31 → vec_ok b = true)
    (Hpath : read_str fuel (vmem (files s)) (rdi k) = Done path)
    (Hargv : read_strv fuel fuel (vmem (files s)) (rsi k) = Done argv)
    (Henvp : read_strv fuel fuel (vmem (files s)) (rdx k) = Done envp)
    (Hs : startable s path argv envp f size entry step shoff shnum image hs ts i j)
    (Hsec : sections_harmless junk vec_ok fuel device task_junk s path shoff shnum) (Hne : ts ≠ [])
    (Hended : current_pid (sch s) = length_z ts + ended ∧ 0 ≤ ended ≤ 2) :
  ∃ t tk N s' c next, sys_execve junk vec_ok fuel device task_junk k s =
      Done (0, (set_rax 0 k, set_sch s' c)) ∧
    launched s image entry hs argv envp ts [] t tk N s' ∧
    (ts ++ [t]) !!z ((length_z ts + ended - 1) mod (length_z ts + 1)) = Some next ∧
    ∃ c', sched_tick c = Done (next, c') ∧ sched_ok c' (ts ++ [t]).
Proof.
  pose proof (su_short _ _ _ _ _ _ _ _ _ _ _ _ _ _ _ Hs) as Hshort.
  destruct (new_process_run junk vec_ok fuel device task_junk s path argv envp None f size entry step shoff shnum
    image hs ts [] i j Hvec Hs Hsec eq_refl) as (t & tk & N & s' & Hr & Hst).
  unfold sys_execve. rewrite Hpath. cbn [mbind res_bind]. rewrite Hargv. cbn [mbind res_bind].
  rewrite Henvp. cbn [mbind res_bind]. rewrite Hr. cbn [mbind res_bind].
  destruct (sd_sched _ _ _ _ _ _ _ _ _ _ _ _ Hst) as [Hpid _].
  pose proof (sd_queue _ _ _ _ _ _ _ _ _ _ _ _ Hst) as Hq.
  destruct Hended as [Hcp He]. rewrite Hcp, u64_id in Hpid by (unfold is_u64, length_z in *; simpl in *; lia).
  assert (length_z (ts ++ [t]) = length_z ts + 1) as Hlen by (unfold length_z; rewrite length_app; simpl; lia).
  assert (0 < length_z ts) as Hpos by (unfold length_z; destruct ts; [done|simpl; lia]).
  set (c := sched_set_tick _ _).
  assert (index c = length_z ts + ended - 1) as Hidx.
  { subst c. cbn [index sched_set_tick sched_set_index set_tick set_index]. unfold sched_get_last_pid. rewrite Hpid.
    rewrite (i32_id (length_z ts + ended + 1)) by (unfold is_i32; simpl in *; lia).
    rewrite i32_id by (unfold is_i32; simpl in *; lia).
    rewrite u64_id by (unfold is_u64; simpl in *; lia). lia. }
  assert (sched_ok c (ts ++ [t])) as Hc.
  { destruct Hq as [Hq1 _ _ Hq4 Hq5]. split; [exact Hq1|lia|by vm_compute|exact Hq4|exact Hq5]. }
  destruct (sched_tick_switch c (ts ++ [t]) Hc) as (next & Hnext & Hrange & Htick); [by destruct ts|reflexivity|].
  exists t, tk, N, s', c, next. split; [reflexivity|]. split; [exact Hst|]. split.
  - rewrite <-Hnext. f_equal. unfold next_index. rewrite Hidx, Hlen.
    destruct (Z.eqb_spec (length_z ts + ended - 1) (length_z ts + 1)) as [->|]; [by rewrite Z.mod_same by lia|].
    apply Z.mod_small. lia.
  - eexists. split; [exact Htick|]. destruct Hc as [Hq1 _ _ Hq4 Hq5].
    split; cbn [processes index current_tick slock]; [exact Hq1|lia|by vm_compute|exact Hq4|reflexivity].
Qed.

(** C30: the log call. The string of the program is the format of the log line: a
    text without '%' goes out on the serial line behind the place of the call in the
    kernel, and nothing else of the machine changes; but a text with a conversion
    makes the kernel read an argument that nobody passed. *)
Theorem sys_log_sends {H} `{HeapLaws H} (junk : Z → vnode) (vec_ok : Z → bool) (n fuel : nat)
    (device : list port_event → Z → Z) (task_junk : Z → Task) (k : Stack) (s : sys H) (text : list Z)
    (Hu : uart_ready device n) (Hn : (n ≤ fuel)%nat) (H32 : (32 < fuel)%nat)
    (Htext : cstr (vmem (files s)) (rdi k) text) (Hl : (length text < fuel)%nat)
    (Hlock : log_lock s = false) (Herr : errno (vglob (files s)) = 0) :
  (37 ∉ text → ∃ t',
     syscall_dispatch (syscalls junk vec_ok fuel device task_junk) SYSCALL_LOG k s =
       Done (0, (k, set_files s (set_port (files s) t' (write_lock (files s))))) ∧
     sent (vport (files s)) t' (log_line (bytes "syscalls.c") (bytes "20") (bytes "sys_log") text)) ∧
  (∀ pre c rest, text = pre ++ 37 :: c :: rest → 37 ∉ pre → c ∈ [99; 115; 100; 120] →
     syscall_dispatch (syscalls junk vec_ok fuel device task_junk) SYSCALL_LOG k s = Fault).
Proof.
  unfold syscall_dispatch. change (syscalls junk vec_ok fuel device task_junk !!z SYSCALL_LOG)
    with (Some (sys_log (H := H) fuel device)). cbn [of_option mbind res_bind]. unfold sys_log. rewrite Hlock.
  assert (chars_ok (bytes "syscalls.c") ∧ chars_ok (bytes "sys_log")) as [Hc1 Hc2]
    by (split; apply (bool_decide_unpack _); by vm_compute).
  assert (length (bytes "syscalls.c") < fuel ∧ length (bytes "sys_log") < fuel)%nat as [Hl1 Hl2] by (cbn; lia).
  cbn [spin_lock mbind res_bind]. split.
  - intros Hplain.
    destruct (log_run device n fuel Hu Hn H32 (bytes "syscalls.c") 20 (bytes "sys_log") (vmem (files s)) (rdi k) []
      text (vport (files s))) as (t' & ds & ps & -> & Hds & Hps & Hsent); [done..|by apply plain_wf| |].
    { by intros q ?%not_elem_of_nil. }
    rewrite (plain_formats _ _ _ Hplain Hps), (line_number 20 ds (bytes "20")) in Hsent by (done || by vm_compute).
    exists t'. cbn [mbind res_bind]. split; [|done].
    unfold get_errno. cbn. destruct s. cbn in *. subst. by rewrite Herr.
  - intros pre c rest -> Hpre Hc. rewrite (log_missing device n fuel Hu Hn H32 _ _ _ _ _ pre c rest); try done.
    rewrite length_app in Hl. lia.
Qed.
