(* ===== verification/SyscallsRun.v ===== *)
(** * System calls on the kernel's heap

    The theorems of [Syscalls.v] in a machine with one task, whose files and
    memory are those of [FilesRun.v]. *)

From stdpp Require Import strings.
From S2P Require Import Prelude CInt Mem Lock Arch Boot Abi Pages AllocInv AllocSpec BumpPages Pmm.
From S2P Require Import Frames Vmm PmmFrames Vec Sched Alloc Heap AllocHeap Str Print Devices Log Vfs VfsSpec.
From S2P Require Import VfsRun Tmpfs Devfs FilesRun Ustar Task Elf Process ProcessRun Exec ExecRun Syscalls.

#[local] Existing Instance heap_ops.
#[local] Existing Instance heap_laws.

Definition regs (num a1 a2 a3 a4 int : Z) : Stack :=
  MkStack 0 0 0 0 0 a4 0 0 0 a1 a2 a3 0 0 num int 0 0 0 0 0 0.

Definition one_task (fds : list (Z * Z)) : Task :=
  MkTask (length_z fds) (Vec (Some <$> fds) (length_z fds) (length_z fds)) 0x110030 0 0 0x1000 0
    (regs 0 0 0 0 0 32) 0 0 0.

Definition machine (v : vfs (heap bump)) (fds : list (Z * Z)) : sys (heap bump) :=
  Sys v (Sched 1 9 0 0x9000 (Vec [Some 0x9000] 1 1) true false)
    (Vmm ∅ (Pmm 0 0 0 [] 0) false [] 0) {[ 0x9000 := one_task fds ]} false 0 0x9000 0 reset_fpu.

Lemma machine_running v fds : running (machine v fds) (one_task fds) fds.
Proof.
  split; [apply lookup_singleton_eq|]. split; cbn [slots vlength capacity descriptors one_task].
  - exists []. by rewrite app_nil_r.
  - done.
  - unfold length_z. by rewrite length_fmap.
Qed.

(** ** [openat] *)

(** The root directory, empty; "/dev" at 0x100040. *)
Definition root_dir : vnode :=
  VNode VFS_DIRECTORY [0x2f] 0x110030 0 vec_init 0 0 0 0 0 0 false.
Definition path_mem : mem :=
  <[0x100040 := 47]> (<[0x100041 := 100]> (<[0x100042 := 101]> (<[0x100043 := 118]> two_mem))).
Definition root_state : vfs (heap bump) :=
  Vfs path_mem two_blocks {[ 0x110030 := root_dir ]} ∅ [] 0x110030 (Globals false 0) [] false.

Lemma path_mem_other a : ¬ (0x100040 ≤ a < 0x100044) → path_mem !! a = two_mem !! a.
Proof. intros Ha. unfold path_mem. by rewrite !lookup_insert_ne by lia. Qed.

Lemma path_mem_cstr : cstr path_mem 0x100040 [47; 100; 101; 118].
Proof.
  split; [repeat constructor; lia|]. intros i Hi. change (length_z _) with 4 in Hi.
  assert (i = 4 ∨ i = 0 ∨ i = 1 ∨ i = 2 ∨ i = 3) as Hc by lia.
  destruct Hc as [->|Hc].
  - rewrite path_mem_other by lia. apply ten_mem. lia.
  - unfold path_mem. destruct Hc as [->|[->|[->| ->]]];
      rewrite ?lookup_insert_ne by lia; apply lookup_insert_eq.
Qed.

Lemma path_mem_ok : Heap.heap_ok path_mem two_blocks.
Proof.
  apply (heap_ok_dom two_mem); [|apply two_blocks_new]. intros a Ha. unfold path_mem.
  do 4 (apply lookup_insert_is_Some'; right). exact Ha.
Qed.

Lemma root_state_wf : vfs_wf root_state.
Proof.
  destruct two_blocks_new as [_ Hb]. split; cbn [nodes mounts vmem vheap root_state].
  - exact path_mem_ok.
  - intros a m [<- _]%lookup_singleton_Some. apply (nb_live _ _ _ _ _ _ Hb). by right.
  - intros a m Hm. by rewrite lookup_empty in Hm.
  - intros a m [_ <-]%lookup_singleton_Some. split; [cbn; lia|]. exists [].
    split; [apply vrep_init|]. by intros c Hin%elem_of_nil.
  - intros a m [_ <-]%lookup_singleton_Some. done.
Qed.

Lemma root_state_dir : in_dir root_state [] dev 0x110030 root_dir.
Proof.
  split; cbn [nodes root root_state].
  - apply Forall_singleton, is_name_dev.
  - rewrite lookup_singleton_eq. by eexists.
  - reflexivity.
  - apply lookup_singleton_eq.
Qed.

Lemma root_state_missing :
  open_spec root_state 0x110030 dev 0 = Some (0, set_err root_state ENOENT).
Proof.
  assert (lookup_name (nodes root_state) 0x110030 dev = 0) as Hl.
  { unfold lookup_name. cbn [nodes root_state]. rewrite lookup_singleton_eq. cbn [points_to root_dir].
    rewrite lookup_singleton_ne by done. reflexivity. }
  unfold open_spec. rewrite Hl, (wf_null root_state root_state_wf). reflexivity.
Qed.

Definition blank_task (a : Z) : Task := one_task [].



(** ** The other calls, on the file of ten bytes *)

(** Descriptor 0 is closed, and the buffer of descriptor 1 is freed. *)
Lemma close_next_file_witness :
  ∃ s' t', sys_close (regs 6 0 0 0 0 0x42)
      (machine (ten_state (ten 0 true 0 4)) [(0, 0x7000); (1, 0x110030)]) = Done (0, (regs 0 0 0 0 0 0x42, s')) ∧
    running s' t' [(1, 0x110030)] ∧ ¬ live (vheap (files s')) 0x100030 100.
Proof.
  destruct (close_next_file (regs 6 0 0 0 0 0x42)
    (machine (ten_state (ten 0 true 0 4)) [(0, 0x7000); (1, 0x110030)])
    (one_task [(0, 0x7000); (1, 0x110030)]) [(0, 0x7000); (1, 0x110030)] 0 1 0x110030 100 (ten 0 true 0 4))
    as (s' & t' & Hr & Hrun & _ & _ & _ & _ & Hl).
  - apply machine_running.
  - reflexivity.
  - simpl. lia.
  - reflexivity.
  - apply lookup_singleton_eq.
  - apply two_blocks_new.
  - exact ten_live.
  - exists s', t'. split; [exact Hr|]. split; [exact Hrun|].
    intros Ha. apply Hl in Ha as [_ Hne]. apply Hne. reflexivity.
Defined.

(** Two from the end. *)
Lemma seek_moves_cursor_witness :
  ∃ s', sys_seek (regs 7 0 (2 ^ 64 - 2) 2 0 0x42)
      (machine (ten_state (ten 0 true 0 4)) [(0, 0x110030)]) = Done (8, (regs 8 0 (2 ^ 64 - 2) 2 0 0x42, s')).
Proof.
  pose proof (seek_moves_cursor (regs 7 0 (2 ^ 64 - 2) 2 0 0x42)
    (machine (ten_state (ten 0 true 0 4)) [(0, 0x110030)]) (one_task [(0, 0x110030)]) [(0, 0x110030)]
    0 0x110030 (ten 0 true 0 4)) as Hs.
  eexists. apply Hs.
  - apply machine_running.
  - reflexivity.
  - apply lookup_singleton_eq.
Defined.

(** After one more [malloc(40)]: a mount point for the file. *)
Definition three_blocks_with (zero : mem → Z → Z → mem) : heap bump :=
  match Alloc.malloc (H := bump_pages_with zero) 7 40
          (zero (zero ∅ 0x100000 65536) 0x110000 65536) (two_blocks_with zero) with
  | Done (_, (_, h)) => h
  | _ => one_block
  end.
Definition three_blocks : heap bump := three_blocks_with zero_run.

Definition three_mem : mem := zero_run two_mem 0x120000 65536.

Lemma three_blocks_run :
  Heap.malloc 40 two_mem two_blocks = Done (0x120030, (three_mem, three_blocks)).
Proof.
  assert (∀ zero, Alloc.malloc (H := bump_pages_with zero) 7 40
      (zero (zero ∅ 0x100000 65536) 0x110000 65536) (two_blocks_with zero) =
    Done (0x120030, (zero (zero (zero ∅ 0x100000 65536) 0x110000 65536) 0x120000 65536,
      three_blocks_with zero))) as Hr by (intros zero; vm_compute; reflexivity).
  exact (Hr zero_run).
Qed.

Lemma three_blocks_new :
  Heap.heap_ok three_mem three_blocks ∧ new_block 40 two_mem two_blocks 0x120030 three_mem three_blocks.
Proof.
  destruct (malloc_law 40 two_mem two_blocks) as (p & m & h & Hr & Hok & Hc);
    [apply two_blocks_new|lia|].
  rewrite three_blocks_run in Hr. apply Done_triple_inj in Hr as (<- & <- & <-).
  split; [exact Hok|]. destruct Hc as [[Hp _]|Hb]; [discriminate Hp|exact Hb].
Qed.

Definition mounted : vnode := set_mountpoint 0x120030 (ten 0 true 0 2).
Definition mounted_state : vfs (heap bump) :=
  Vfs three_mem three_blocks {[ 0x110030 := mounted ]} {[ 0x120030 := Mount (Some TMPFS) (Some 0x110030) ]}
    [] 0x110030 (Globals false 0) [] false.

Lemma three_live p n : live two_blocks p n → live three_blocks p n.
Proof. intros Hl. destruct three_blocks_new as [_ Hb]. apply (nb_live _ _ _ _ _ _ Hb). by left. Qed.

Lemma three_mapped a n : 0x110000 ≤ a → a + n ≤ 0x120000 → mapped three_mem a n.
Proof.
  intros Ha Hn i Hi. unfold three_mem. rewrite zero_run_overwritten, bool_decide_false by lia.
  rewrite ten_mem by lia. by eexists.
Qed.

Lemma mounted_wf : vfs_wf mounted_state.
Proof.
  destruct two_blocks_new as [_ Hb2], three_blocks_new as [Hok Hb].
  split; cbn [nodes mounts vmem vheap mounted_state].
  - exact Hok.
  - intros a m [<- _]%lookup_singleton_Some. apply three_live, (nb_live _ _ _ _ _ _ Hb2). by right.
  - intros a m [<- _]%lookup_singleton_Some. apply (nb_live _ _ _ _ _ _ Hb). by right.
  - intros a m [_ <-]%lookup_singleton_Some. split; [cbn; lia|]. exists [].
    split; [apply vrep_init|]. by intros c Hin%elem_of_nil.
  - intros a m [_ <-]%lookup_singleton_Some. done.
Qed.

Lemma mounted_file : file mounted_state 0x110030 mounted 100.
Proof.
  split; cbn [nodes mounts vheap mounted_state address st_size mounted set_mountpoint ten].
  - apply lookup_singleton_eq.
  - apply three_live, ten_live.
  - lia.
  - lia.
  - intros a [[m Ha]|[m Ha]]; apply lookup_singleton_Some in Ha as [<- _]; done.
Qed.

(** Three bytes from the cursor, which goes from 2 to 8. *)
Lemma read_advances_twice_witness :
  ∃ s' n', sys_read 10 keyboard (regs 4 0 0x110040 3 0 0x42)
      (machine mounted_state [(0, 0x110030)]) = Done (3, (regs 3 0 0x110040 3 0 0x42, s')) ∧
    nodes (files s') !! 0x110030 = Some n' ∧ cursor n' = 8.
Proof.
  destruct (read_advances_twice 10 keyboard (regs 4 0 0x110040 3 0 0x42)
    (machine mounted_state [(0, 0x110030)]) (one_task [(0, 0x110030)]) [(0, 0x110030)] 0 0x110030 100 mounted)
    as (s' & n' & Hr & _ & Hn & Hc & _).
  - apply machine_running.
  - reflexivity.
  - exact mounted_wf.
  - exact mounted_file.
  - reflexivity.
  - unfold fs_of, node_at. cbn [nodes mounts files machine mounted_state].
    rewrite lookup_singleton_eq. cbn [of_option mbind res_bind mountpoint mounted set_mountpoint].
    rewrite lookup_singleton_eq. reflexivity.
  - cbn. lia.
  - split; [cbn; lia|]. apply three_mapped; cbn; lia.
  - cbn. lia.
  - exists s', n'. split; [exact Hr|]. split; [exact Hn|exact Hc].
Defined.


(** The first process executes "/init": it goes on itself, the new one waits. *)
Lemma execve_schedules_witness :
  ∃ s', sys_execve clear yes 10 keyboard blank (regs 10 0x1000 0x1008 0x1018 0 0x42) one_queued =
      Done (0, (regs 0 0x1000 0x1008 0x1018 0 0x42, s')) ∧
    ∃ c, sched_tick (sch s') = Done (0x9000, c).
Proof.
  destruct (execve_schedules clear yes 10 keyboard blank (regs 10 0x1000 0x1008 0x1018 0 0x42) one_queued
    init_path [sh] [path_var] 0x120030 124 0x400078 56 0 0 program [text] [0x9000] 0 0 0)
    as (t & tk & N & s' & c & next & Hr & _ & Hnext & c' & Htick & _).
  - intros b _. reflexivity.
  - apply (read_str_sub known_mem); [exact known_sub|by vm_compute|simpl; lia].
  - apply (read_strv_sub known_mem _ _ 0x1030); [exact known_sub|by vm_compute..|simpl; lia].
  - apply (read_strv_sub known_mem _ _ 0x1038); [exact known_sub|by vm_compute..|simpl; lia].
  - exact one_startable.
  - apply no_sections.
  - discriminate.
  - split; [reflexivity|lia].
  - exists (set_sch s' c). split; [exact Hr|]. exists c'. cbn [sch set_sch].
    assert (next = 0x9000) as <- by (injection Hnext; auto). exact Htick.
Defined.

(** "hi" on a slow serial line, and "%d". *)
Definition text_state (text : list Z) : sys (heap bump) :=
  machine (Vfs (str_mem 0x1000 text) two_blocks ∅ ∅ [] 0 (Globals false 0) [] false) [].

Lemma sys_log_sends_witness :
  (∃ t', syscall_dispatch (syscalls clear yes 64 slow_uart blank_task) SYSCALL_LOG (regs 0 0x1000 0 0 0 0x42)
       (text_state (bytes "hi")) =
     Done (0, (regs 0 0x1000 0 0 0 0x42, set_files (text_state (bytes "hi")) (set_port (files (text_state (bytes "hi"))) t' false))) ∧
   written PORT t' = log_line (bytes "syscalls.c") (bytes "20") (bytes "sys_log") (bytes "hi")) ∧
  syscall_dispatch (syscalls clear yes 64 slow_uart blank_task) SYSCALL_LOG (regs 0 0x1000 0 0 0 0x42)
    (text_state (bytes "a%d")) = Fault.
Proof.
  split.
  - destruct (sys_log_sends clear yes 2 64 slow_uart blank_task (regs 0 0x1000 0 0 0 0x42) (text_state (bytes "hi"))
      (bytes "hi")) as [Hplain _].
    + exact slow_uart_ready.
    + lia.
    + lia.
    + refine (cstrb_ok (str_mem 0x1000 (bytes "hi")) 0x1000 (bytes "hi") _). vm_compute. reflexivity.
    + cbn. lia.
    + reflexivity.
    + reflexivity.
    + destruct Hplain as (t' & Hr & Hs); [apply (bool_decide_unpack _); vm_compute; exact I|].
      exists t'. split; [exact Hr|]. exact (Hs PORT).
  - apply (sys_log_sends clear yes 2 64 slow_uart blank_task (regs 0 0x1000 0 0 0 0x42) (text_state (bytes "a%d"))
      (bytes "a%d")) with (pre := bytes "a") (c := 100) (rest := []).
    + exact slow_uart_ready.
    + lia.
    + lia.
    + refine (cstrb_ok (str_mem 0x1000 (bytes "a%d")) 0x1000 (bytes "a%d") _). vm_compute. reflexivity.
    + cbn. lia.
    + reflexivity.
    + reflexivity.
    + reflexivity.
    + apply (bool_decide_unpack _). vm_compute. exact I.
    + apply (bool_decide_unpack _). vm_compute. exact I.
Defined.
