(* ===== verification/Main.v ===== *)
(** * Starting the kernel ([src/src/kernel/main.c])

    [kernel_main] in two parts.  [kernel_setup] goes as far as the memory managers:
    the serial line, the descriptor tables and the interrupt controller, and the frames
    and page maps on the boot loader's structures.  [kernel_run] has what needs the
    heap: the root file system, the files of the boot modules, the devices, and the
    first process.  Its heap is any heap with room for the requests; where the kernel's
    takes its pages from is in [KernelPages.v], and those frames are not taken from
    the page maps' here. *)

From stdpp Require Import strings.
From S2P Require Import Prelude CInt Mem Lock Arch Boot Abi Pmm Frames Vmm PmmFrames Start Vec Sched Heap.
From S2P Require Import Str Print Devices Log Tables Stivale Vfs VfsSpec Tmpfs Devfs Ustar Task Elf Process Exec Tree Archive.

(** The lock of the heap's hooks. *)
Definition liballoc_lock (lock : bool) : res (Z * bool) :=
  l ← spin_lock lock; Done (0, l : bool).
Definition liballoc_unlock (lock : bool) : Z * bool := (0, spin_release lock).

Section main.
Context {H : Type} `{Heap H} (junk : Z → vnode) (vec_ok : Z → bool) (fuel : nat).
Context (device : list port_event → Z → Z) (task_junk : Z → Task).
Implicit Types (v : vfs H) (s : sys H).

(** [str_eq("ustar  ", begin + 257)] *)
Definition is_ustar (m : mem) (begin : Z) : res bool :=
  magic ← read_str fuel m (begin + 257); Done (bool_decide (bytes "ustar  " = magic)).

(** The loop over the boot modules, from index [i] of the tag at [modules] on; [n]
    bounds its iterations. *)
Fixpoint load_modules (n : nat) (i modules : Z) v : res (vfs H) :=
  match n with
  | O => NoFuel
  | S n =>
      count ← load64 (vmem v) (stivale2_struct_tag_modules.module_count modules);
      if i <? count then
        begin ← load64 (vmem v) (stivale2_module.begin (stivale2_struct_tag_modules.modules modules i));
        u ← is_ustar (vmem v) begin;
        v ← (if u : bool then ustar_initialize junk vec_ok fuel begin v else Done v);
        load_modules n (i + 1) modules v
      else Done v
  end.

(** The files of a running kernel. *)
Definition boot_files (modules : Z) v : res (vfs H) :=
  '(_, v) ← vfs_mount junk vec_ok (bytes "/") TMPFS v;
  v ← load_modules fuel 0 modules v;
  devfs_init junk vec_ok v.

(** The log line of [print_files] for a child. *)
Definition files_format : list Z := [0x09] ++ bytes " %s: %s".
Definition print_file (nd : vnode) v : res (vfs H) :=
  let kind := match n_type nd with VFS_DIRECTORY => bytes "directory" | VFS_FILE => bytes "file" end in
  match lay 0x1000 [files_format; kind; name nd] with
  | (m, [fmt; kind; nm]) =>
      t ← log device fuel (bytes "main.c") 51 (bytes "print_files") m fmt [VStr kind; VStr nm] (vport v);
      Done (set_port v t (write_lock v))
  | _ => Fault
  end.

(** Its loop, from child [i] on. *)
Fixpoint print_children (n : nat) (i : Z) (cs : vec Z) v : res (vfs H) :=
  match n with
  | O => Done v
  | S n =>
      c ← vec_get cs i;
      nd ← node_at v c;
      v ← print_file nd v;
      print_children n (i + 1) cs v
  end.
Definition print_files (node : Z) v : res (vfs H) :=
  nd ← node_at v node;
  print_children (Z.to_nat (vlength (children nd))) 0 (children nd) v.

(** The two lines [kernel_main] begins with. *)
Definition welcome : list Z :=
  bytes "Welcome to bestOS: An agile, cloud-ready, blockchain-powered, web-scale operating system".
Definition version : list Z := bytes "Version: Professional, license_key: 0x%x".
Definition log_welcome (t : list port_event) : res (list port_event) :=
  t ← log device fuel (bytes "main.c") 61 (bytes "kernel_main") (str_mem 1 welcome) 1 [] t;
  log device fuel (bytes "main.c") 62 (bytes "kernel_main") (str_mem 1 version) 1 [VInt 0xc001c0de] t.

(** The serial port and the interrupt controller are on the same ports as the
    terminal: one trace, [vport]. *)
Definition set_ports (f : list port_event → list port_event) s : sys H :=
  let v := files s in
  set_files s (Vfs (vmem v) (vheap v) (nodes v) (mounts v) (mountpoints v) (root v) (vglob v)
                 (f (vport v)) (write_lock v)).

(** The processor's tables, and the rest. *)
Record machine : Type := Machine { gdts : gdt_state; idts : idt_state; kernel : sys H }.

(** [statics] are the addresses of the GDT, the TSS and the IDT, [vector] that of
    the interrupt stubs; [info] is the address of the boot loader's structure, in the
    memory of the heap and the files.  [enable_sse] is left out.  The answer has the
    address of the tag of the modules. *)
Definition kernel_setup (statics : Z * Z * Z) (vector : list Z) (info stack stack_size : Z) (k : machine)
    : res (Z * machine) :=
  let '(gdt_at, tss_at, idt_at) := statics in
  let s := set_ports com_initialize (kernel k) in
  t ← log_welcome (vport (files s));
  let s := set_ports (λ _, t) s in
  modules ← stivale2_get_tag fuel (vmem (files s)) info STIVALE2_STRUCT_TAG_MODULES_ID;
  let g := gdt_initialize gdt_at tss_at stack stack_size (gdts k) in
  let s := set_ports pic_initialize s in
  i ← idt_initialize idt_at vector (idts k);
  '(root, st, m) ← boot_memory fuel info (vmem (files s)) (space s);
  let v := Vfs.set_mem (files s) m (vheap (files s)) in
  let s := Sys v (sch s) st (tasks s) (log_lock s) (fs_base s) (prev_task s) root (fpu s) in
  Done (modules, Machine g i s).

(** The rest; after [sched_start] the kernel halts until interrupts come. *)
Definition kernel_run (modules : Z) s : res (sys H) :=
  v ← boot_files modules (files s);
  v ← (if nerd_logs (vglob v) then print_files (vfs_get_root v) v else Done v);
  let s := set_sch (set_files s v) (sched_init (sch s)) in
  let tty := bytes "/dev/tty" in
  s ← sched_new_elf_process junk vec_ok fuel device task_junk (bytes "/bin/init")
        [bytes "/bin/sh"] [bytes "PATH=/bin"] (Some (tty, tty, tty)) s;
  Done (set_sch s (sched_start (sch s))).

(** *** [_start] ([src/src/kernel/bootstrap.c]) *)

Definition set_nerd_logs s : sys H :=
  let v := files s in
  set_files s (Vfs (vmem v) (vheap v) (nodes v) (mounts v) (mountpoints v) (root v)
                 (Globals true (errno (vglob v))) (vport v) (write_lock v)).

(** [str_eq(cmdline->cmdline, "log")]; a NULL tag is dereferenced like any other. *)
Definition wants_log (m : mem) (info : Z) : res bool :=
  cmdline ← stivale2_get_tag fuel m info STIVALE2_STRUCT_TAG_CMDLINE_ID;
  p ← load64 m (stivale2_struct_tag_cmdline.cmdline cmdline);
  line ← read_str fuel m p;
  Done (bool_decide (line = bytes "log")).

(** What the boot loader enters, on the stack of [stivale_hdr], as far as
    [kernel_setup]. *)
Definition _start (statics : Z * Z * Z) (vector : list Z) (info stack : Z) (k : machine) : res (Z * machine) :=
  log ← wants_log (vmem (files (kernel k))) info;
  let k := if log : bool then Machine (gdts k) (idts k) (set_nerd_logs (kernel k)) else k in
  kernel_setup statics vector info stack 8192 k.
End main.
Arguments Machine {_} _ _ _.

(** ** Proofs *)

(** *** Boot modules

    A module's memory, the string at its byte 257, and its entries when it is an
    archive. *)

Record boot_module : Type := BootModule {
  mod_at : Z;
  mod_end : Z;
  mod_magic : list Z;
  mod_entries : list tar_entry;
}.
Definition is_archive (b : boot_module) : bool := bool_decide (bytes "ustar  " = mod_magic b).
Definition archived (b : boot_module) : list tar_entry := if is_archive b then mod_entries b else [].

Fixpoint modules_tree (bs : list boot_module) (T : tree) : tree :=
  match bs with
  | [] => T
  | b :: bs => modules_tree bs (tar_tree (mod_at b) (archived b) T)
  end.
Fixpoint modules_ok (fuel : nat) (bs : list boot_module) (T : tree) : Prop :=
  match bs with
  | [] => True
  | b :: bs => (length (mod_magic b) < fuel)%nat ∧ (length (archived b) < fuel)%nat ∧
      tar_ok (mod_at b) (archived b) T ∧ modules_ok fuel bs (tar_tree (mod_at b) (archived b) T)
  end.
Definition modules_entries (bs : list boot_module) : list tar_entry := bs ≫= archived.

(** The files after the boot: those of the modules, and the terminal. *)
Definition dev : list Z := [0x64; 0x65; 0x76].
Definition boot_tree (bs : list boot_module) : tree :=
  <[[dev; tty] := Special DEVFS]> (<[[dev] := Dir DEVFS]> (modules_tree bs {[ [] := Dir TMPFS ]})).

Lemma tar_need_app es es' : tar_need (es ++ es') = (tar_need es + tar_need es')%nat.
Proof. unfold tar_need. by rewrite fmap_app, sum_list_with_app. Qed.

Lemma tar_tree_size es : ∀ a T, (size (tar_tree a es T) ≤ size T + length es)%nat.
Proof.
  induction es as [|e es IH]; intros a T; cbn [tar_tree length]; [lia|].
  specialize (IH (tar_next a e) (tar_step a e T)). pose proof (tar_step_size a e T). lia.
Qed.

Section table.
Context {H : Type} `{HeapLaws H} `{!FreshHeap H}.
Implicit Types (v : vfs H).

(** The boot loader's table of the modules, in memory that is not the
    heap's to hand out. *)
Record module_table v (modules : Z) (bs : list boot_module) : Prop := ModuleTable {
  mt_count : load64 (vmem v) (stivale2_struct_tag_modules.module_count modules) = Done (length_z bs);
  mt_begin i b : bs !! i = Some b →
    load64 (vmem v) (stivale2_module.begin (stivale2_struct_tag_modules.modules modules (Z.of_nat i))) = Done (mod_at b);
  mt_settled x : modules ≤ x < modules + 24 + stivale2_module.size * length_z bs → settled (vheap v) x;
}.

Lemma module_table_same v m' modules bs :
  (∀ x, modules ≤ x < modules + 24 + stivale2_module.size * length_z bs → m' !! x = vmem v !! x) →
  module_table v modules bs → module_table (Vfs.set_mem v m' (vheap v)) modules bs.
Proof.
  unfold stivale2_module.size, length_z. intros Heq [Hn Hb Hs]. split; cbn [vmem vheap Vfs.set_mem].
  - rewrite <-Hn. apply load_le_lookup. unfold stivale2_struct_tag_modules.module_count. intros x Hx. apply Heq. lia.
  - intros i b Hi. rewrite <-(Hb i b Hi). pose proof (lookup_lt_Some _ _ _ Hi). apply load_le_lookup.
    unfold stivale2_module.begin, stivale2_struct_tag_modules.modules, stivale2_module.size.
    intros x Hx. apply Heq. lia.
  - exact Hs.
Qed.

Lemma module_table_kept v v' modules bs : kept v v' → module_table v modules bs → module_table v' modules bs.
Proof.
  intros K Ht. destruct (module_table_same v (vmem v') modules bs) as [Hn Hb _]; [|done|].
  - intros x Hx. apply (kp_same _ _ K), Ht, Hx.
  - split; [done|done|]. intros x Hx. by apply (settled_kept v), Ht.
Qed.

End table.

Section files.
Context {H : Type} `{HeapLaws H} `{!FreshHeap H} (junk : Z → vnode) (vec_ok : Z → bool) (fuel : nat) (limit : Z).
Context (Hclean : clean junk) (Hinit : ∀ a, init (junk a) = false) (Hlimit : limit ≤ 2 ^ 31)
  (Hrealloc : ∀ b, 0 ≤ b < limit → vec_ok b = true) (Hfuel : (200 ≤ fuel)%nat).
Implicit Types (v : vfs H).

(** The module is in memory that is not the heap's to hand out. *)
Record module_held v (b : boot_module) : Prop := ModuleHeld {
  mh_range : 0 ≤ mod_at b ∧ mod_end b < 2 ^ 63;
  mh_settled x : mod_at b ≤ x < mod_end b → settled (vheap v) x;
  mh_magic : string_at v (mod_at b + 257) (mod_magic b);
  mh_archive : is_archive b = true → archive (vmem v) (mod_end b) (mod_at b) (mod_entries b);
}.

Lemma module_held_kept v v' b : kept v v' → module_held v b → module_held v' b.
Proof.
  intros K [Hr Hs Hm Ha]. split; [done| |by apply (string_kept v)|].
  - intros x Hx. by apply (settled_kept v), Hs.
  - intros Hi. apply (archive_same (vmem v)); [|by apply Ha]. intros x Hx. by apply (kp_same _ _ K), Hs.
Qed.

(** One module. *)
Lemma load_module_run b v T k :
  represents v T → fresh (vmem v) (vheap v) → module_held v b → (length (mod_magic b) < fuel)%nat →
  (length (archived b) < fuel)%nat → tar_ok (mod_at b) (archived b) T →
  room (tar_need (archived b) + k) (vheap v) → fits 8 limit (size T + length (archived b) + 4) = true →
  ∃ v1, (u ← is_ustar fuel (vmem v) (mod_at b);
      if u : bool then ustar_initialize junk vec_ok fuel (mod_at b) v else Done v) = Done v1 ∧
    represents v1 (tar_tree (mod_at b) (archived b) T) ∧ kept v v1 ∧ room k (vheap v1) ∧
    mountpoints v1 = mountpoints v.
Proof.
  intros Hrep Hf [[Ha He] Hset [Hmagic _] Har] Hlm Hle Htar Hk Hfit.
  unfold is_ustar. rewrite (read_str_spec fuel (vmem v) _ (mod_magic b)) by done. cbn [mbind res_bind].
  fold (is_archive b). unfold archived in *. destruct (is_archive b).
  - apply (ustar_initialize_run junk vec_ok fuel limit Hclean Hinit Hlimit Hrealloc Hfuel (mod_at b) v T (mod_end b));
      [done..|by apply Har|done|done|done].
  - exists v. split; [done|]. split; [done|]. split; [|done]. by apply keeps_refl, wf_heap, Hrep.
Qed.

(** The modules from index [i] on. *)
Lemma load_modules_run modules all bs : ∀ i n v T k,
  drop i all = bs → (i ≤ length all)%nat → (length bs < n)%nat → module_table v modules all →
  represents v T → fresh (vmem v) (vheap v) → Forall (module_held v) bs → modules_ok fuel bs T →
  room (tar_need (modules_entries bs) + k) (vheap v) →
  fits 8 limit (size T + length (modules_entries bs) + 4) = true →
  ∃ v', load_modules junk vec_ok fuel n (Z.of_nat i) modules v = Done v' ∧
    represents v' (modules_tree bs T) ∧ kept v v' ∧ room k (vheap v') ∧ mountpoints v' = mountpoints v.
Proof.
  induction bs as [|b bs IH]; intros i [|n] v T k Hdrop Hi Hn Htab Hrep Hf Hmods Hok Hk Hfit;
    cbn [length] in Hn; try lia; cbn [load_modules]; rewrite (mt_count _ _ _ Htab); cbn [mbind res_bind];
    assert (length all = i + length (drop i all))%nat as Hlen by (rewrite length_drop; lia); rewrite Hdrop in Hlen.
  { exists v. rewrite (proj2 (Z.ltb_ge _ _)) by (unfold length_z; cbn [length] in Hlen; lia).
    split; [done|]. split; [done|]. split; [|done]. by apply keeps_refl, wf_heap, Hrep. }
  assert (all !! i = Some b) as Hb by (rewrite <-(Nat.add_0_r i), <-lookup_drop; by rewrite Hdrop).
  rewrite (proj2 (Z.ltb_lt _ _)), (mt_begin _ _ _ Htab i b Hb) by (unfold length_z; cbn [length] in Hlen; lia).
  cbn [mbind res_bind].
  apply Forall_cons_1 in Hmods as [Hheld Hmods]. destruct Hok as (Hlm & Hle & Htar & Hok).
  cbn [modules_entries mbind list_bind] in Hk, Hfit. fold (modules_entries bs) in Hk, Hfit.
  rewrite tar_need_app, <-Nat.add_assoc in Hk. rewrite length_app in Hfit.
  destruct (load_module_run b v T (tar_need (modules_entries bs) + k)) as (v1 & Hr1 & Hrep1 & K1 & Hk1 & Htab1);
    [done..|eapply fits_le; [|exact Hfit]; lia|].
  destruct (IH (S i) n v1 (tar_tree (mod_at b) (archived b) T) k) as (v' & Hr & Hrep' & K & Hk' & Htab').
  { rewrite <-Nat.add_1_r, <-drop_drop, Hdrop. done. }
  { cbn [length] in Hlen. lia. }
  { lia. }
  { by apply (module_table_kept v). }
  { done. }
  { by apply (kp_fresh _ _ K1). }
  { eapply Forall_impl; [|exact Hmods]. intros x. by apply module_held_kept. }
  { done. }
  { done. }
  { eapply fits_le; [|exact Hfit]. pose proof (tar_tree_size (archived b) (mod_at b) T). lia. }
  exists v'. split; [|split; [done|split; [by apply (kept_trans v v1)|split; [done|congruence]]]].
  destruct (is_ustar fuel (vmem v) (mod_at b)) as [u| | |]; try done.
  cbn [mbind res_bind] in Hr1 |- *. rewrite Hr1. cbn [mbind res_bind].
  by replace (Z.of_nat i + 1) with (Z.of_nat (S i)) by lia.
Qed.

Lemma devfs_init_run v T k :
  represents v T → T !! [dev] = None → room (6 + k) (vheap v) → fits 8 limit (size T + 5) = true →
  (length (mountpoints v) < 64)%nat →
  ∃ v', devfs_init junk vec_ok v = Done v' ∧
    represents v' (<[[dev; tty] := Special DEVFS]> (<[[dev] := Dir DEVFS]> T)) ∧ kept v v' ∧ room k (vheap v').
Proof.
  intros Hrep Hno Hk Hfit Htab.
  assert (is_name dev ∧ is_name tty) as [Hdev Htty] by (split; by apply (bool_decide_unpack _)).
  destruct (mount_represents junk vec_ok limit Hclean Hlimit Hrealloc v T TMPFS [] dev DEVFS (2 + k))
    as (v1 & Hr1 & Hrep1 & K1 & Hk1 & _); [done| |done|eapply fits_le; [|exact Hfit]; lia|done|].
  { split; [apply Hrep|done|by apply Forall_singleton|by apply (bool_decide_unpack _)]. }
  destruct (open_represents junk vec_ok limit Hclean Hlimit Hrealloc v1 (<[[dev] := Dir DEVFS]> T) DEVFS [dev] tty
    (vfs_get_root v1) O_CREAT k) as (f & v2 & Hr2 & Hrep2 & K2 & Hk2 & _); [done| |done|done| |].
  { split; [apply lookup_insert_eq| |by apply Forall_cons_2; [|apply Forall_singleton]|by apply (bool_decide_unpack _)].
    rewrite lookup_insert_ne by done. destruct (T !! ([dev] ++ [tty])) as [e|] eqn:He; [|done].
    destruct (rp_path _ _ Hrep [dev] tty e He) as [[g Hg] _]. congruence. }
  { rewrite map_size_insert_None by done. eapply fits_le; [|exact Hfit]. lia. }
  exists v2. split; [|split; [done|split; [by apply (kept_trans v v1)|done]]].
  unfold devfs_init. change dev_path with (path_of ([] ++ [dev])). rewrite Hr1. cbn [mbind res_bind].
  change tty_path with (path_of ([dev] ++ [tty])). by rewrite Hr2.
Qed.

(** What [boot_files] needs: before the first mount, with heap to spare, and modules
    that are well formed and have no entry "dev". *)
Record bootable v (modules : Z) (bs : list boot_module) (k : nat) : Prop := Bootable {
  bt_wf : vfs_wf v;
  bt_empty : nodes v = ∅ ∧ root v = 0 ∧ (length (mountpoints v) < 63)%nat;
  bt_fresh : fresh (vmem v) (vheap v);
  bt_table : module_table v modules bs ∧ (length bs < fuel)%nat;
  bt_held : Forall (module_held v) bs;
  bt_modules : modules_ok fuel bs {[ [] := Dir TMPFS ]};
  bt_dev : modules_tree bs {[ [] := Dir TMPFS ]} !! [dev] = None;
  bt_room : room (8 + tar_need (modules_entries bs) + k) (vheap v);
  bt_fits : fits 8 limit (length (modules_entries bs) + 6) = true;
}.

Lemma modules_tree_size bs : ∀ T, (size (modules_tree bs T) ≤ size T + length (modules_entries bs))%nat.
Proof.
  induction bs as [|b bs IH]; intros T; cbn [modules_tree modules_entries mbind list_bind]; [simpl; lia|].
  fold (modules_entries bs). rewrite length_app.
  specialize (IH (tar_tree (mod_at b) (archived b) T)). pose proof (tar_tree_size (archived b) (mod_at b) T). lia.
Qed.

Lemma boot_files_run v modules bs k :
  bootable v modules bs k →
  ∃ v', boot_files junk vec_ok fuel modules v = Done v' ∧ represents v' (boot_tree bs) ∧
    kept v v' ∧ room k (vheap v').
Proof.
  intros [Hwf (Hemp & Hroot & Htab) Hf [Hmt Hlen] Hheld Hmods Hdev Hk Hfit]. set (T0 := {[ [] := Dir TMPFS ]} : tree) in *.
  assert (size T0 = 1%nat) as Hs0 by apply map_size_singleton.
  destruct (mount_root_represents junk vec_ok Hclean v (tar_need (modules_entries bs) + (6 + k)))
    as (v1 & r & Hr1 & Hrep1 & K1 & Hk1 & Htab1); [done..|lia| |].
  { replace (2 + (tar_need (modules_entries bs) + (6 + k)))%nat with (8 + tar_need (modules_entries bs) + k)%nat by lia. done. }
  destruct (load_modules_run modules bs bs 0 fuel v1 T0 (6 + k)) as (v2 & Hr2 & Hrep2 & K2 & Hk2 & Htab2);
    [done|lia|done|by apply (module_table_kept v)|done| | |done|done| |].
  { by apply (kp_fresh _ _ K1). }
  { eapply Forall_impl; [|exact Hheld]. intros x. by apply module_held_kept. }
  { rewrite Hs0. eapply fits_le; [|exact Hfit]. lia. }
  destruct (devfs_init_run v2 (modules_tree bs T0) k) as (v3 & Hr3 & Hrep3 & K3 & Hk3); [done..| | |].
  { eapply fits_le; [|exact Hfit]. pose proof (modules_tree_size bs T0). lia. }
  { rewrite Htab2, Htab1, length_app. simpl. lia. }
  exists v3. split; [|split; [done|split; [by apply (kept_trans v v1), (kept_trans v1 v2)|done]]].
  unfold boot_files. change (bytes "/") with [0x2f]. rewrite Hr1. cbn [mbind res_bind].
  change 0 with (Z.of_nat 0) at 1. rewrite Hr2. cbn [mbind res_bind]. exact Hr3.
Qed.
End files.

(** ** Properties *)

(** C13: the files of a running kernel. From before the first mount, with modules
    that are archives or not, [boot_files] returns, and the tree is the one the
    modules describe with the terminal added: opening any of its files from
    anywhere with any flags finds a node of the file system it belongs to. *)
Theorem boot_files_tree {H} `{HeapLaws H} `{!FreshHeap H} (junk : Z → vnode) (vec_ok : Z → bool)
    (fuel : nat) (limit : Z) (v : vfs H) (modules : Z) (bs : list boot_module) (k : nat)
    (Hclean : clean junk) (Hinit : ∀ a, init (junk a) = false) (Hlimit : limit ≤ 2 ^ 31)
    (Hrealloc : ∀ b, 0 ≤ b < limit → vec_ok b = true) (Hfuel : (200 ≤ fuel)%nat)
    (Hboot : bootable fuel limit v modules bs k) :
  ∃ v', boot_files junk vec_ok fuel modules v = Done v' ∧
    represents v' (boot_tree bs) ∧ room k (vheap v') ∧
    ∀ d e start flags, boot_tree bs !! d = Some e → (∀ f, e ≠ Dir f) →
      fs_of (at_path v' d) v' = Done (entry_fs e) ∧
      ∃ n, vfs_open junk vec_ok start (path_of d) flags v' =
        Done (at_path v' d, set_nodes v' (<[at_path v' d := set_o_mode flags n]> (nodes v'))).
Proof.
  destruct (boot_files_run junk vec_ok fuel limit Hclean Hinit Hlimit Hrealloc Hfuel v modules bs k Hboot)
    as (v' & Hr & Hrep & _ & Hk).
  exists v'. split; [done|]. split; [done|]. split; [done|]. intros d e start flags Hd He.
  destruct (represents_leads v' _ d e Hrep Hd He) as (n & Hl & Hat).
  split; [by apply entry_fs_of|]. exists n. apply leads_open; [apply Hrep|done].
Qed.

(** *** The list of the files *)

Section lines.
Context {H : Type} `{HeapLaws H} (device : list port_event → Z → Z) (n fuel : nat).
Context (Hu : uart_ready device n) (Hn : (n ≤ fuel)%nat) (H32 : (32 < fuel)%nat).
Implicit Types (v : vfs H).

(** The line for a node. *)
Definition file_line (nd : vnode) : list Z :=
  log_line (bytes "main.c") (bytes "51") (bytes "print_files")
    ([0x09; 0x20] ++ match n_type nd with VFS_DIRECTORY => bytes "directory" | VFS_FILE => bytes "file" end ++
     bytes ": " ++ name nd).

Lemma files_pieces m k nm kind str ps :
  formats m files_format [VStr k; VStr nm] ps → cstr m k kind → cstr m nm str →
  concat ps = [0x09; 0x20] ++ kind ++ bytes ": " ++ str.
Proof.
  intros Hps Hk Hnm. literal files_format in Hps. formats_inv.
  repeat match goal with
  | Hs : cstr m k ?x, Hk : cstr m k kind |- _ => assert_fails (constr_eq x kind);
      rewrite (cstr_unique _ _ _ _ Hs Hk) in *; clear Hs
  | Hs : cstr m nm ?x, Hk : cstr m nm str |- _ => assert_fails (constr_eq x str);
      rewrite (cstr_unique _ _ _ _ Hs Hk) in *; clear Hs
  end.
  cbn. by rewrite app_nil_r.
Qed.

Lemma print_file_run nd v :
  chars_ok (name nd) → (length (name nd) < fuel)%nat →
  ∃ t', print_file fuel device nd v = Done (set_port v t' (write_lock v)) ∧ sent (vport v) t' (file_line nd).
Proof.
  intros Hname Hlen. unfold print_file, file_line.
  set (kind := match n_type nd with VFS_DIRECTORY => bytes "directory" | VFS_FILE => bytes "file" end).
  assert (chars_ok kind ∧ (length kind < 10)%nat) as [Hkind Hlk]
    by (subst kind; destruct (n_type nd); split; apply (bool_decide_unpack _); by vm_compute).
  destruct (lay_strings [files_format; kind; name nd] 0x1000) as [Hps _].
  { repeat constructor; try done; apply (bool_decide_unpack _); by vm_compute. }
  destruct (lay 0x1000 [files_format; kind; name nd]) as [m ps]. cbn [fst snd] in Hps.
  inversion Hps as [|fmt ? ? ? Hs1 Hps1]; subst. inversion Hps1 as [|k ? ? ? Hs2 Hps2]; subst.
  inversion Hps2 as [|nm ? ? ? Hs3 Hps3]; subst. inversion Hps3; subst.
  destruct (log_run device n fuel Hu Hn H32 (bytes "main.c") 51 (bytes "print_files") m fmt [VStr k; VStr nm]
    files_format (vport v)) as (t' & ds & ps & -> & Hds & Hfm & Hsent).
  - split; [apply (bool_decide_unpack _); by vm_compute|cbn; lia].
  - split; [apply (bool_decide_unpack _); by vm_compute|cbn; lia].
  - split; [done|cbn; lia].
  - done.
  - intros q [[= ->]|[[= ->]|[]%not_elem_of_nil]%elem_of_cons]%elem_of_cons; [exists kind|exists (name nd)]; split; done || lia.
  - rewrite (files_pieces m k nm kind (name nd) ps Hfm Hs2 Hs3), (line_number 51 ds (bytes "51")) in Hsent
      by (done || by vm_compute).
    exists t'. by split.
Qed.

Lemma print_children_run i cs l v k :
  vrep cs l → (i + k = length l)%nat →
  (∀ c, c ∈ l → ∃ nd, nodes v !! c = Some nd ∧ chars_ok (name nd) ∧ (length (name nd) < fuel)%nat) →
  ∃ t', print_children fuel device k (Z.of_nat i) cs v = Done (set_port v t' (write_lock v)).
Proof.
  intros Hv. revert i v. induction k as [|k IH]; intros i v Hi Hin; cbn [print_children].
  { exists (vport v). by destruct v. }
  destruct (lookup_lt_is_Some_2 l i) as [c Hc]; [lia|].
  rewrite (vrep_get cs l) by (done || unfold length_z; lia). rewrite lookup_z_nat, Nat2Z.id, Hc by lia.
  destruct (Hin c) as (nd & Hnd & Hname & Hlen); [by eapply list_elem_of_lookup_2|].
  cbn [of_option mbind res_bind]. unfold node_at. rewrite Hnd. cbn [of_option mbind res_bind].
  destruct (print_file_run nd v Hname Hlen) as (t1 & -> & _). cbn [mbind res_bind].
  destruct (IH (S i) (set_port v t1 (write_lock v))) as (t' & Hr); [lia|done|].
  replace (Z.of_nat i + 1) with (Z.of_nat (S i)) by lia. rewrite Hr. by exists t'.
Qed.

(** [print_files] logs, and returns. *)
Lemma print_files_run v a nd :
  vfs_wf v → nodes v !! a = Some nd →
  (∀ c, c ∈ kids nd → ∃ nd, nodes v !! c = Some nd ∧ chars_ok (name nd) ∧ (length (name nd) < fuel)%nat) →
  ∃ t', print_files fuel device a v = Done (set_port v t' (write_lock v)).
Proof.
  intros Hwf Ha Hin. destruct (wf_kids v a nd Hwf Ha) as [Hv _].
  unfold print_files, node_at. rewrite Ha. cbn [of_option mbind res_bind].
  apply (print_children_run 0 _ (kids nd)); [done| |done].
  rewrite (vr_length _ _ Hv). unfold length_z. lia.
Qed.

(** The two lines of the start. *)
Lemma version_pieces m ps :
  formats m version [VInt 0xc001c0de] ps → concat ps = bytes "Version: Professional, license_key: 0xC001C0DE".
Proof.
  intros Hps. literal version in Hps. formats_inv.
  assert (spells 16 0xc001c0de (bytes "C001C0DE")) as Hkey
    by (split; [by vm_compute|apply (bool_decide_unpack _); by vm_compute|by vm_compute|by vm_compute]).
  match goal with Hs : spells 16 (u32 _) ?ds |- _ =>
    rewrite (spells_unique 16 0xc001c0de ds (bytes "C001C0DE") ltac:(lia) ltac:(lia) Hs Hkey) end.
  by vm_compute.
Qed.

Lemma log_welcome_run t : (88 < fuel)%nat →
  ∃ t', log_welcome fuel device t = Done t' ∧
    sent t t' (log_line (bytes "main.c") (bytes "61") (bytes "kernel_main") welcome ++
               log_line (bytes "main.c") (bytes "62") (bytes "kernel_main")
                 (bytes "Version: Professional, license_key: 0xC001C0DE")).
Proof.
  intros Hf. unfold log_welcome.
  assert ((chars_ok (bytes "main.c") ∧ (length (bytes "main.c") < fuel)%nat) ∧
    chars_ok (bytes "kernel_main") ∧ (length (bytes "kernel_main") < fuel)%nat) as [Hfile Hfn]
    by (split; (split; [apply (bool_decide_unpack _); by vm_compute|cbn; lia])).
  destruct (log_run device n fuel Hu Hn H32 (bytes "main.c") 61 (bytes "kernel_main") (str_mem 1 welcome) 1 [] welcome t)
    as (t1 & ds & ps & -> & Hds & Hps & Hs); [done|done| |by vm_compute| |].
  { split; [apply str_mem_cstr, (bool_decide_unpack _); by vm_compute|cbn; lia]. }
  { by intros q ?%not_elem_of_nil. }
  assert (37 ∉ welcome) as Hplain by (apply (bool_decide_unpack _); by vm_compute).
  rewrite (plain_formats _ _ _ Hplain Hps),
    (line_number 61 ds (bytes "61")) in Hs by (done || by vm_compute).
  cbn [mbind res_bind].
  destruct (log_run device n fuel Hu Hn H32 (bytes "main.c") 62 (bytes "kernel_main") (str_mem 1 version) 1
    [VInt 0xc001c0de] version t1) as (t2 & ds' & ps' & -> & Hds' & Hps' & Hs'); [done|done| |by vm_compute| |].
  { split; [apply str_mem_cstr, (bool_decide_unpack _); by vm_compute|cbn; lia]. }
  { intros q Hq%list_elem_of_singleton. done. }
  exists t2. split; [done|]. eapply sent_app; [exact Hs|].
  rewrite (line_number 62 ds' (bytes "62")) in Hs' by (done || by vm_compute).
  rewrite (version_pieces _ _ Hps') in Hs'. exact Hs'.
Qed.
End lines.

(** *** The whole start *)

Section boot.
Context {H : Type} `{HeapLaws H} `{!FreshHeap H} (fuel : nat) (limit : Z) (device : list port_event → Z → Z).
Implicit Types (v : vfs H).

Lemma bootable_ports v w modules bs k :
  (vmem w, vheap w, nodes w, mounts w, mountpoints w, root w) =
    (vmem v, vheap v, nodes v, mounts v, mountpoints v, root v) →
  bootable fuel limit v modules bs k → bootable fuel limit w modules bs k.
Proof.
  destruct v, w. cbn. intros [= -> -> -> -> -> ->] [[? ? ? ? ?] He Hf [[? ? ?] ?] Hh Hm Hd Hk Hfit].
  split; try done. eapply Forall_impl; [|exact Hh]. intros b [? ? [? ?] ?]. by split.
Qed.

(** The [n] bytes from [p] on hold nothing of the modules. *)
Definition away (p n a k : Z) : Prop := a + k ≤ p ∨ p + n ≤ a.
Record modules_away (p n modules : Z) (bs : list boot_module) : Prop := ModulesAway {
  aw_table : away p n modules (24 + stivale2_module.size * length_z bs);
  aw_modules : Forall (λ b, away p n (mod_at b) (mod_end b - mod_at b) ∧
    away p n (mod_at b + 257) (length_z (mod_magic b) + 1)) bs;
}.

Lemma bootable_rewritten v m' modules bs k p n :
  rewritten (vmem v) m' p n → (∀ a, p ≤ a < p + n → settled (vheap v) a) → modules_away p n modules bs →
  bootable fuel limit v modules bs k → bootable fuel limit (Vfs.set_mem v m' (vheap v)) modules bs k.
Proof.
  intros [Hsame Hdom] Hset [Hat Ham] [Hwf He Hf [Ht Hl] Hh Hm Hd Hk Hfit]. unfold away in *.
  assert (∀ a, ¬ settled (vheap v) a → m' !! a = vmem v !! a) as Hout.
  { intros a Ha. apply Hsame. intros Hin. by apply Ha, Hset. }
  split; try done.
  - destruct Hwf as [Hok Hn Hmt Hc Hp]. split; [by apply (heap_ok_writes (vmem v))|done..].
  - by apply (fresh_writes (vmem v)); [apply Hwf|..].
  - split; [|done]. apply module_table_same; [|done]. intros x Hx. apply Hsame. lia.
  - rewrite Forall_forall in *. intros b Hb. specialize (Hh b Hb). destruct (Ham b Hb) as [Hab Hmb].
    destruct Hh as [Hr Hs [Hc Hcs] Ha]. split; [done|done| |].
    + split; [|done]. apply (cstr_unchanged (vmem v)); [done|]. intros i Hi. apply Hsame. lia.
    + intros Hi. apply (archive_same (vmem v)); [|by apply Ha]. intros x Hx. apply Hsame. lia.
Qed.

(** The machine the boot loader enters: its tags [l] and its memory map in memory
    that is not the heap's, the command line [line], the modules away from the map, and
    one bank of memory with [n] frames to spare. *)
Record handed (vector : list Z) (info : Z) (l : list (Z * Z)) (line : list Z) (memmap pre post : list mmap_entry)
    (e : mmap_entry) (bs : list boot_module) (n j : nat) (k : @machine H) : Prop := Handed {
  hd_info : memmap_at (vmem (files (kernel k))) info l memmap ∧ (length l < fuel)%nat;
  hd_cmdline : ∃ p, load64 (vmem (files (kernel k)))
      (stivale2_struct_tag_cmdline.cmdline (first_tag l STIVALE2_STRUCT_TAG_CMDLINE_ID)) = Done p ∧
    cstr (vmem (files (kernel k))) p line ∧ (length line < fuel)%nat;
  hd_map : ∀ a, memmap_table l ≤ a < memmap_table l + table_size memmap → settled (vheap (files (kernel k))) a;
  hd_away : modules_away (memmap_table l) (table_size memmap) (first_tag l STIVALE2_STRUCT_TAG_MODULES_ID) bs;
  hd_vector : length_z vector = 256 ∧ Forall is_u64 vector ∧ length_z (idt (idts k)) = 256;
  hd_memory : one_bank memmap pre post e;
  hd_frames : (6529 + Z.of_nat n) * PAGE_SIZE ≤ e_length e - map_bytes memmap;
  hd_ram : vlock (space (kernel k)) = false ∧ mapped (ram (space (kernel k))) 0 (find_highest memmap 0) ∧
    bytes_ok (ram (space (kernel k)));
  hd_files : bootable fuel limit (files (kernel k)) (first_tag l STIVALE2_STRUCT_TAG_MODULES_ID) bs j;
}.

(** What the log has said. *)
Definition greeting : list Z :=
  log_line (bytes "main.c") (bytes "61") (bytes "kernel_main") welcome ++
  log_line (bytes "main.c") (bytes "62") (bytes "kernel_main")
    (bytes "Version: Professional, license_key: 0xC001C0DE").

(** What [kernel_setup] leaves of the processor's tables, the ports, the memory, and of
    the rest: heap, files and scheduler are untouched. *)
Record set_up (vector : list Z) (info stack_top : Z) (l : list (Z * Z)) (memmap pre post : list mmap_entry)
    (e : mmap_entry) (n : nat) (k k' : @machine H) : Prop := SetUp {
  up_ports : ∃ t, sent (com_initialize (vport (files (kernel k)))) t greeting ∧
    vport (files (kernel k')) = pic_initialize t;
  up_stack : head (Tables.rsp (tss (gdts k'))) = Some stack_top;
  up_gates : interrupts_on (idts k') = true ∧ ∀ i a, vector !!z i = Some a → ∃ d,
    idt (idts k') !!z i = Some d ∧ gate_offset (idt_desc_bytes d) = a ∧
    gate_dpl (idt_desc_bytes d) = (if i =? 66 then 3 else 0);
  up_memory : memory_up n (kernel_pagemap (kernel k')) (space (kernel k'));
  up_map : memmap_at (vmem (files (kernel k'))) info l (pre ++ carve e (map_bytes memmap) :: post);
  up_mem a : ¬ (memmap_table l ≤ a < memmap_table l + table_size memmap) →
    vmem (files (kernel k')) !! a = vmem (files (kernel k)) !! a;
  up_files : (vheap (files (kernel k')), nodes (files (kernel k')), mounts (files (kernel k')),
      mountpoints (files (kernel k')), root (files (kernel k'))) =
    (vheap (files (kernel k)), nodes (files (kernel k)), mounts (files (kernel k)),
      mountpoints (files (kernel k)), root (files (kernel k)));
  up_sched : sch (kernel k') = sch (kernel k) ∧ tasks (kernel k') = tasks (kernel k);
}.

Context (u : nat) (Hu : uart_ready device u) (Hn : (u ≤ fuel)%nat) (Hfuel : (200 ≤ fuel)%nat).

Lemma kernel_setup_run statics vector info l line memmap pre post e bs stack stack_size n j k :
  handed vector info l line memmap pre post e bs n j k →
  ∃ k', kernel_setup fuel device statics vector info stack stack_size k =
      Done (first_tag l STIVALE2_STRUCT_TAG_MODULES_ID, k') ∧
    set_up vector info (u64 (stack + stack_size)) l memmap pre post e n k k' ∧
    vglob (files (kernel k')) = vglob (files (kernel k)) ∧
    bootable fuel limit (files (kernel k')) (first_tag l STIVALE2_STRUCT_TAG_MODULES_ID) bs j.
Proof.
  intros [[Hinfo Hl] _ Hmap Haw (Hv & Hvu & Hi) Hbank Hframes (Hlock & Hram & Hbytes) Hfiles].
  destruct statics as [[gdt_at tss_at] idt_at].
  destruct (log_welcome_run device u fuel Hu Hn ltac:(lia) (com_initialize (vport (files (kernel k)))) ltac:(lia))
    as (t & Hlog & Hsent).
  destruct (start_memory_run memmap pre post e (space (kernel k)) n) as (root & st & Hr & Hup); [done..|].
  destruct (one_bank_pmm _ _ _ _ Hbank) as (ps & Hps & _).
  destruct (boot_memory_run fuel (vmem (files (kernel k))) info l memmap Hinfo Hl) as (m & Hw & Heq & Hm).
  destruct (install_isr_spec vector (idt (idts k)) Hv Hi) as (idt' & Hisr & _ & Hgates).
  unfold kernel_setup, idt_initialize. cbn [files set_ports set_files kernel vport] in Hlog |- *. rewrite Hlog.
  cbn [mbind res_bind]. rewrite (get_tag_run fuel _ info _ l (ma_tags _ _ _ _ Hinfo) Hl). cbn [mbind res_bind].
  rewrite Hisr. cbn [mbind res_bind files set_ports set_files kernel space vmem].
  rewrite Heq, Hr. cbn [mbind res_bind]. eexists. split; [done|]. split; [|split; [done|]].
  - split; cbn [kernel gdts idts files space kernel_pagemap vmem vheap nodes mounts mountpoints Vfs.root vport
      Vfs.set_mem idt interrupts_on]; [by exists t|done|split; [done|]|exact Hup|by apply (Hm ps)|apply Hw|done|done].
    intros i a Ha. eexists. split; [by apply Hgates|]. apply lookup_z_Some in Ha as [_ Ha].
    split; [apply gate_offset_entry; by eapply Forall_lookup_1|]. by destruct (i =? 66).
  - apply (bootable_ports (Vfs.set_mem (files (kernel k)) m (vheap (files (kernel k))))); [done|].
    by eapply bootable_rewritten.
Qed.

Lemma handed_log vector info l line memmap pre post e bs n j k :
  handed vector info l line memmap pre post e bs n j k →
  handed vector info l line memmap pre post e bs n j (Machine (gdts k) (idts k) (set_nerd_logs (kernel k))).
Proof.
  intros []. split; try done. cbn [kernel files set_nerd_logs set_files].
  by apply (bootable_ports (files (kernel k))).
Qed.
End boot.

(** C1: from the boot loader to the first request for heap. [_start], on a machine with a
    working serial line and the boot loader's structures in memory - a command line, a
    memory map with one bank of memory, the modules -, gets through the set-up: the
    greeting has gone out on the serial line and the interrupt controller is
    programmed; interrupts from user code come in on the stack of the boot loader's
    header, every gate leads to its stub, and user code may call gate 66 only; the
    memory managers are up on a loaded page map, with [n] frames to spare, and have
    written nothing but the entry of the memory map the bit map is taken from; the log
    is on when the command line says so; heap, files and scheduler are as
    before, and the files of the modules are ready to be set up. *)
Theorem start_sets_up {H} `{HeapLaws H} `{!FreshHeap H} (fuel : nat) (limit : Z)
    (device : list port_event → Z → Z) (statics : Z * Z * Z) (vector : list Z) (info : Z) (l : list (Z * Z))
    (line : list Z) (memmap pre post : list mmap_entry) (e : mmap_entry) (bs : list boot_module)
    (stack : Z) (n j u : nat) (k : machine)
    (Hu : uart_ready device u) (Hn : (u ≤ fuel)%nat) (Hfuel : (200 ≤ fuel)%nat)
    (Hk : handed fuel limit vector info l line memmap pre post e bs n j k) :
  ∃ modules k', _start fuel device statics vector info stack k = Done (modules, k') ∧
    (∀ start, set_up vector info (h_stack (stivale_hdr start stack)) l memmap pre post e n k k') ∧
    do_nerd_logs (vglob (files (kernel k'))) =
      do_nerd_logs (vglob (files (kernel k))) || bool_decide (line = bytes "log") ∧
    bootable fuel limit (files (kernel k')) modules bs j.
Proof.
  destruct (hd_cmdline _ _ _ _ _ _ _ _ _ _ _ _ _ _ Hk) as (p & Hp & Hline & Hlen).
  destruct (hd_info _ _ _ _ _ _ _ _ _ _ _ _ _ _ Hk) as [Hinfo Hl].
  unfold _start, wants_log. rewrite (get_tag_run fuel _ info _ l (ma_tags _ _ _ _ Hinfo) Hl).
  cbn [mbind res_bind]. rewrite Hp. cbn [mbind res_bind]. rewrite (read_str_spec fuel _ p line Hline Hlen).
  cbn [mbind res_bind]. cbv zeta. set (k0 := if bool_decide (line = bytes "log") then _ else k).
  assert (handed fuel limit vector info l line memmap pre post e bs n j k0) as Hk0
    by (subst k0; destruct (bool_decide _); [by apply handed_log|done]).
  destruct (kernel_setup_run fuel limit device u Hu Hn Hfuel statics vector info l line memmap pre post e bs
    stack 8192 n j k0 Hk0) as (k' & Hr & Hs & Hg & Hb).
  eexists _, k'. split; [exact Hr|]. split; [|split; [|exact Hb]].
  - intros start. destruct Hs as [Hp' Hst Hga Hme Hma Hmm Hf Hsc]. subst k0.
    split; [|exact Hst|exact Hga|exact Hme|exact Hma| | |]; by destruct (bool_decide _).
  - rewrite Hg. subst k0. destruct (bool_decide _); [by rewrite orb_true_r|by rewrite orb_false_r].
Qed.
