(* ===== verification/MainRun.v ===== *)
(** * Starting the kernel on a concrete machine

    The theorems of [Archive.v] and [Main.v] on the 64 MiB of [Start.v] and the heap
    of [BumpPages.v], with a boot image of a directory and a program outside of the
    heap's memory. *)

From stdpp Require Import strings.
From S2P Require Import Prelude CInt Mem Lock Arch Boot Abi Pages Alloc AllocInv AllocSpec BumpPages Pmm.
From S2P Require Import Frames Vmm PmmFrames Start Vec Sched Heap AllocHeap Str Print Devices Log Tables Stivale Vfs VfsSpec VfsRun.
From S2P Require Import Tmpfs Devfs FilesRun Ustar Task Elf Process ProcessRun Exec ExecRun Tree Archive Main.

#[local] Existing Instance heap_ops.
#[local] Existing Instance heap_laws.
#[local] Instance heap_fresh : FreshHeap (heap bump) := alloc_fresh 7.

(** ** A boot image *)

Definition pad (n : nat) (l : list Z) : list Z := l ++ replicate (n - length l) 0.
Definition header (name size : string) (type : Z) : list Z :=
  pad 512 (pad 124 (bytes name) ++ pad 32 (bytes size) ++ pad 101 [type] ++ bytes "ustar  ").
Definition boot_image : list Z :=
  header "bin/" "00000000000" 0x35 ++ header "bin/init" "00000000175" 0x30 ++
  pad 512 (tiny_elf ++ [0xff]) ++ [0].
Definition image_at : Z := 2 ^ 40.
Definition image_mem : mem := list_to_map (zip (seqZ image_at 1537) boot_image).

Definition entries : list tar_entry := [TarDir [] (bytes "bin"); TarFile [bytes "bin"] (bytes "init") 125].
Definition module : boot_module := BootModule image_at (image_at + 1537) (bytes "ustar  ") entries.

Definition boot_mem : mem := image_mem ∪ info_mem.

(** The image and the boot loader's structures, each in its place. *)
Lemma boot_mem_image a : image_at ≤ a < image_at + 1537 → boot_mem !! a = image_mem !! a.
Proof.
  intros Ha. unfold boot_mem. assert (length_z boot_image = 1537) as Hl by (by vm_compute).
  assert (is_Some (image_mem !! a)) as [b Hb].
  { unfold image_mem. rewrite <-Hl, laid_out, decide_True by lia. apply lookup_lt_is_Some_2.
    unfold length_z in Hl. lia. }
  rewrite Hb. by apply lookup_union_Some_l.
Qed.

Lemma boot_mem_info a : info_at ≤ a < info_at + 404 → boot_mem !! a = info_mem !! a.
Proof.
  unfold info_at. intros Ha. unfold boot_mem. apply lookup_union_r.
  assert (length_z boot_image = 1537) as Hl by (by vm_compute).
  unfold image_mem. rewrite <-Hl, laid_out. unfold image_at. case_decide; [|done].
  apply lookup_ge_None_2. unfold length_z in Hl. lia.
Qed.

Definition fs_start : vfs (heap bump) :=
  Vfs boot_mem (fresh_heap bump_start) ∅ ∅ [] 0 (Globals false 0) [] false.

Lemma outside_settled a : image_at ≤ a → settled (vheap fs_start) a.
Proof. intros Ha. left. exact Ha. Qed.

Lemma fs_start_wf : vfs_wf fs_start.
Proof.
  split; cbn; [apply fresh_heap_ok, bump_start_ok|..]; intros a n; by rewrite lookup_empty.
Qed.

Lemma fs_start_fresh : fresh (vmem fs_start) (vheap fs_start).
Proof. intros a q n Hq. cbn in Hq. rewrite lookup_empty in Hq. discriminate. Qed.

(** A size field, checked. *)
Lemma field_check (m : mem) p (ds : list Z) :
  length ds = 11%nat → Forall (λ d, 0 ≤ d < 8) ds →
  Forall (λ i, m !! (p + Z.of_nat i) = (λ d, 0x30 + d) <$> ds !! i) (seq 0 11) → size_field m p ds.
Proof.
  intros Hl Hd Hf. split; [done|]. split; [done|]. intros i d Hi. pose proof (lookup_lt_Some _ _ _ Hi).
  rewrite (proj1 (Forall_seq _ _ _) Hf i) by lia. by rewrite Hi.
Qed.

Lemma image_archive : archive image_mem (image_at + 1537) image_at entries.
Proof.
  split; [|split; [by vm_compute|split; [|split; [by vm_compute|split; by vm_compute]]]].
  - split; [apply cstrb_ok; by vm_compute|apply (bool_decide_unpack _); by vm_compute|exists 0x35; by vm_compute|].
    exists (replicate 11 0). split; [|by vm_compute]. apply field_check; [done| |]; apply (bool_decide_unpack _); by vm_compute.
  - split; [apply cstrb_ok; by vm_compute|apply (bool_decide_unpack _); by vm_compute|exists 0x30; by vm_compute|].
    exists (replicate 8 0 ++ [1; 7; 5]). split; [|by vm_compute].
    apply field_check; [done| |]; apply (bool_decide_unpack _); by vm_compute.
Qed.

Lemma boot_archive : archive boot_mem (image_at + 1537) image_at entries.
Proof. apply (archive_same image_mem); [apply boot_mem_image|exact image_archive]. Qed.

Lemma modules_ready : module_table fs_start modules_tag [module].
Proof.
  split.
  - unfold load64. rewrite (load_le_lookup 8 info_mem); [by vm_compute|].
    unfold stivale2_struct_tag_modules.module_count, modules_tag. intros i Hi. apply boot_mem_info. lia.
  - intros [|i] b Hb; [|discriminate]. injection Hb as <-.
    unfold load64. rewrite (load_le_lookup 8 info_mem); [by vm_compute|].
    unfold stivale2_module.begin, stivale2_struct_tag_modules.modules, stivale2_module.size, modules_tag.
    intros i Hi. apply boot_mem_info. lia.
  - intros x Hx. apply outside_settled. unfold modules_tag, info_at, image_at in *. lia.
Qed.

Lemma module_ready : module_held fs_start module.
Proof.
  split.
  - by vm_compute.
  - intros x Hx. apply outside_settled. cbn [mod_at module] in Hx. lia.
  - split; [|intros i Hi; apply outside_settled; cbn [mod_at module]; lia].
    apply (cstr_unchanged image_mem); [apply cstrb_ok; by vm_compute|].
    intros i Hi. apply boot_mem_image. cbn [mod_at mod_magic module] in *.
    change (length_z (bytes "ustar  ")) with 7 in Hi. lia.
  - intros _. exact boot_archive.
Qed.

Lemma entries_ok : tar_ok image_at entries {[ [] := Dir TMPFS ]}.
Proof.
  split; [|split; [|done]]; (split; [by vm_compute|by vm_compute| |]; by apply (bool_decide_unpack _); vm_compute).
Qed.

Lemma fs_start_room k : (k ≤ 100)%nat → room k (vheap fs_start).
Proof. intros Hk. cbn. unfold bump_limit, Arch.PAGE_SIZE. lia. Qed.

Lemma image_bootable k : (k ≤ 50)%nat → bootable 200 (2 ^ 31) fs_start modules_tag [module] k.
Proof.
  intros Hk. split.
  - exact fs_start_wf.
  - split; [done|]. split; [done|]. cbn. lia.
  - exact fs_start_fresh.
  - split; [exact modules_ready|cbn; lia].
  - apply Forall_singleton, module_ready.
  - split; [apply (bool_decide_unpack _); by vm_compute|]. split; [apply (bool_decide_unpack _); by vm_compute|]. split; [exact entries_ok|done].
  - by vm_compute.
  - apply fs_start_room. change (tar_need (modules_entries [module])) with 8%nat. lia.
  - by vm_compute.
Qed.

(** ** Files *)

(** After the first mount the image adds its directory and its program, whose first
    byte is that of an ELF file. *)
Lemma ustar_initialize_builds_witness :
  ∃ v v' n, vfs_mount clear yes (bytes "/") TMPFS fs_start = Done (0, v) ∧
    ustar_initialize clear yes 200 image_at v = Done v' ∧
    leads v' (bytes "/bin/init") (at_path v' [bytes "bin"; bytes "init"]) n ∧ st_size n = 125 ∧
    file_byte v' n 0 = Some 0x7f.
Proof.
  destruct (mount_root_represents clear yes clear_clean fs_start 10) as (v & r & Hr & Hrep & K & Hk & _).
  - exact fs_start_wf.
  - reflexivity.
  - reflexivity.
  - cbn. lia.
  - apply fs_start_room. lia.
  - assert (∀ x, image_at ≤ x < image_at + 1537 → vmem v !! x = image_mem !! x) as Hsame
      by (intros x Hx; rewrite <-boot_mem_image by done; apply (kp_same _ _ K), outside_settled; lia).
    destruct (ustar_initialize_builds clear yes 200 (2 ^ 31) (image_at + 1537) image_at v {[ [] := Dir TMPFS ]} entries 2)
      as (v' & Hr' & Hrep' & _ & Hfile).
    + exact clear_clean.
    + intros a. reflexivity.
    + lia.
    + intros b _. reflexivity.
    + lia.
    + apply (bool_decide_unpack _). vm_compute. exact I.
    + exact Hrep.
    + apply (kp_fresh _ _ K), fs_start_fresh.
    + vm_compute. discriminate.
    + vm_compute. reflexivity.
    + intros x Hx. apply (settled_kept _ _ _ K), outside_settled. lia.
    + apply (archive_same image_mem); [intros x Hx; apply Hsame; lia|exact image_archive].
    + exact entries_ok.
    + exact Hk.
    + reflexivity.
    + destruct (Hfile [bytes "bin"; bytes "init"] 125 (image_at + 1024)) as (n & Hl & Hs & Hb).
      * vm_compute. reflexivity.
      * lia.
      * lia.
      * exists v, v', n. split; [exact Hr|]. split; [exact Hr'|]. split; [exact Hl|]. split; [exact Hs|].
        rewrite Hb, bool_decide_false, Hsame by lia. vm_compute. reflexivity.
Defined.

Lemma boot_files_tree_witness :
  ∃ v', boot_files clear yes 200 modules_tag fs_start = Done v' ∧
    fs_of (at_path v' [bytes "dev"; bytes "tty"]) v' = Done DEVFS ∧
    ∃ v'', vfs_open clear yes 0 (bytes "/dev/tty") O_RDWR v' = Done (at_path v' [bytes "dev"; bytes "tty"], v'').
Proof.
  destruct (boot_files_tree clear yes 200 (2 ^ 31) fs_start modules_tag [module] 0) as (v' & Hr & _ & _ & Hf).
  - exact clear_clean.
  - intros a. reflexivity.
  - lia.
  - intros b _. reflexivity.
  - lia.
  - apply image_bootable. lia.
  - exists v'. split; [exact Hr|].
    destruct (Hf [bytes "dev"; bytes "tty"] (Special DEVFS) 0 O_RDWR) as (Hfs & n & Ho).
    + vm_compute. reflexivity.
    + discriminate.
    + split; [exact Hfs|]. eexists. exact Ho.
Defined.

(** ** The set-up *)

Definition cold : @machine (heap bump) :=
  Machine (GdtState gdt_init 0 0 (MkTss [] 0)) (IdtState (replicate 256 (idt_make_entry 0 0)) 0 0 false)
    (Sys fs_start sched_boot (Vmm (Start.cleared 0x4000000) (Pmm 0 0 0 [] 0) false [] 0) ∅ false 0 0 0 reset_fpu).

Lemma cold_line : cstr boot_mem (info_at + 400) (bytes "log").
Proof.
  apply (cstr_unchanged info_mem); [apply cstrb_ok; by vm_compute|].
  intros i Hi. apply boot_mem_info. change (length_z (bytes "log")) with 3 in Hi. lia.
Qed.

Lemma cold_apart : modules_away (memmap_table info_tags) (table_size pc_map) modules_tag [module].
Proof.
  split; [by right; vm_compute|]. apply Forall_singleton. split; by left; vm_compute.
Qed.

Lemma cold_handed :
  handed 200 (2 ^ 31) sample_vector info_at info_tags (bytes "log") pc_map [MmapEntry 0 0x100000 2] []
    (MmapEntry 0x100000 0x3f00000 1) [module] 1000 10 cold.
Proof.
  assert (find_highest pc_map 0 = 0x4000000) as Hh by reflexivity.
  split.
  - split; [apply info_memmap_at, boot_mem_info|cbn; lia].
  - exists (info_at + 400). split; [|split; [exact cold_line|by apply (bool_decide_unpack _); vm_compute]].
    unfold load64. cbn [kernel cold files fs_start vmem]. rewrite (load_le_lookup 8 info_mem); [by vm_compute|].
    change (first_tag info_tags STIVALE2_STRUCT_TAG_CMDLINE_ID) with (info_at + 136).
    unfold stivale2_struct_tag_cmdline.cmdline. intros i Hi. apply boot_mem_info. lia.
  - intros a Ha. apply outside_settled. change (memmap_table info_tags) with (info_at + 184) in Ha.
    unfold info_at, image_at in *. lia.
  - exact cold_apart.
  - split; [reflexivity|]. split; [by apply (bool_decide_unpack _); vm_compute|reflexivity].
  - exact pc_one_bank.
  - assert (map_bytes pc_map = 4096) as -> by (by vm_compute). unfold PAGE_SIZE. cbn [e_length]. lia.
  - cbn [kernel cold space vlock ram]. rewrite Hh. split; [reflexivity|]. split; [apply pc_mapped|apply pc_bytes].
  - apply image_bootable. lia.
Qed.

(** The greeting goes out, a timer interrupt from user code will find the boot stack, and
    there are a thousand frames left. *)
Lemma start_sets_up_witness :
  ∃ modules k',
    _start 200 keyboard (0x80100000, 0x80101000, 0x80102000) sample_vector info_at 0x80200000 cold =
      Done (modules, k') ∧
    head (Tables.rsp (tss (gdts k'))) = Some 0x80202000 ∧ do_nerd_logs (vglob (files (kernel k'))) = true ∧
    available 1000 (ram (space (kernel k'))) (frames (space (kernel k'))) ∧
    mounts (files (kernel k')) = ∅.
Proof.
  destruct (start_sets_up 200 (2 ^ 31) keyboard (0x80100000, 0x80101000, 0x80102000) sample_vector
    info_at info_tags (bytes "log") pc_map [MmapEntry 0 0x100000 2] [] (MmapEntry 0x100000 0x3f00000 1) [module]
    0x80200000 1000 10 1 cold) as (modules & k' & Hr & Hs & Hl & _).
  - apply keyboard_ready. discriminate.
  - lia.
  - lia.
  - exact cold_handed.
  - specialize (Hs 0). exists modules, k'. split; [exact Hr|]. split; [exact (up_stack _ _ _ _ _ _ _ _ _ _ _ Hs)|].
    split; [rewrite Hl; reflexivity|]. split; [apply (up_memory _ _ _ _ _ _ _ _ _ _ _ Hs)|].
    pose proof (up_files _ _ _ _ _ _ _ _ _ _ _ Hs) as Hf. exact (f_equal (λ x, x.1.1.2) Hf).
Defined.
